(* ===== verification/_CoqProject ===== *)
-Q . S2P
Prelude.v
Text.v
Net.v
NetText.v
Config.v
Platform.v
Rule.v
Dns.v
DnsHistory.v
Conn.v
Proxy.v
State.v
Dial.v
Netstack.v
Tasks.v
Engine.v
Typed.v
LiveCheck.v
Device.v
Routing.v
Adapter.v
OpenDevice.v
Netlink.v
Rtnetlink.v
MacosNetcfg.v
WindowsNetcfg.v
IpHelper.v
MacosRoute.v
Pin.v
Attribution.v
MacosProcess.v
WindowsProcess.v
LinuxProcess.v
Attributed.v
Lookups.v
MacosGuard.v
TypedTables.v
Host.v
BuildScript.v
RegexChoice.v
UnitTest.v
RuleTests.v
NetstackTests.v
DnsTests.v
Talk.v
ProxyTests.v
Socks5Server.v
SystemTests.v
Suite.v
