(* ===== verification/Prelude.v ===== *)
(** * Verification of ace-tun

    ace-tun diverts a machine's traffic into a TUN device, decides for each flow,
    by the process that owns it and by rules, whether to send it on directly,
    through a proxy, or not at all, and restores the machine's network when it
    stops.  This library models the crate's Rust code and proves what makes each
    part correct.  This file is the root: this overview, and the prelude (panics
    and I/O results, byte sequences, tactics) that every other file requires.

    ** The program's parts, and where they are modelled

    Names are those of the code; [src/] is the crate's source directory.

    Foundations.  [Text]: Rust strings with byte offsets and UTF-8.  [Net]:
    addresses, their parsing and printing; [NetText]: what is printed reads back.  [Config]: [config.rs], [error.rs],
    [callback.rs].  [Platform]: [platform/mod.rs].  [Conn]: TCP streams as scripts,
    and the operations on them as a monad.

    Policy.  [Rule] ([rule.rs]): compilation of rules and [RuleSet::evaluate].
    [Dns] ([dns.rs]): the answer parser and the cache; [DnsHistory]: the cache
    against a log of its stores.  [State] ([state.rs]) and [Dial] ([dial.rs]).
    [Proxy] ([proxy.rs]): HTTP CONNECT and SOCKS5 handshakes.  [Netstack]
    ([netstack.rs]): [decide], [handle_tcp], [handle_udp], [run]; a handler maps
    the shared state and the environment's answers to its outcome, the new state
    and the trace of its effects.  It is written against the class [ProcessTable],
    as the code is against its trait.  [Tasks]: the tasks [run] spawns, each as a
    program of reads and writes of the shared state, whose continuation depends on
    what each read returns, interleaved one access at a time by a schedule.  [Typed]: the widths and text validity of Rust's types, which the
    model's [Z] and lists do not carry, over builder, shared state and effects.

    Life cycle.  [Engine] ([lib.rs]): the builder, and [start], [stop], the
    watchdog and [Drop] as a transition system whose labels are the calls of the
    API and the moves of the tasks; a netstack ends when it is told to shut down or by
    its own end.  The flags of a session ([routes], [present]) say what the engine has
    asked the system for; [Host] has what the system made of it.  [Device] ([device.rs]): the packet device of
    each system; the Windows reader thread is a transition system of its own.

    The machine's network.  [Routing]: the routes of [create] in
    [platform/*/adapter.rs] under longest-prefix match.  [Adapter]: creation and
    drop over the class [NetKernel], whose laws [NetKernelLaws] say what an
    addition or deletion that succeeds has done, and that one that fails has done it,
    a part of it or nothing; any call may fail, and each operation of the adapters returns,
    beside its result, the routes it was told are in place.  [OpenDevice]: [open_device], [load_wintun], [is_elevated].
    [Netlink]: the receive loop of [platform/linux/netcfg.rs].  [Rtnetlink]: the
    messages and operations of that file, as an instance of [NetKernel].
    [MacosNetcfg], [WindowsNetcfg]: the requests of [platform/*/netcfg.rs];
    [MacosRoute], [IpHelper]: the operations of these files over a system that
    answers them, as instances of [NetKernel].  [Pin]:
    [platform/*/dial.rs].

    Attribution.  [Attribution]: the endpoint cache the Unix systems share.
    [LinuxProcess], [MacosProcess], [WindowsProcess]: [platform/*/process.rs].
    [Lookups]: the Unix lookups of many tasks interleaved, one critical section of
    the table's lock at a time.

    Compositions.  [Attributed]: the netstack over each system's process table.
    [Host]: the engine over a backend (class [Backend]) that installs its routes in
    a forwarding table and may fail to remove them; the adapters of [Adapter]
    implement the class.
    [Lookups], at its end, and [MacosGuard]: the tasks of [Tasks] with the lookups
    that attributed them, on Linux and macOS.  [TypedTables]: the three systems' tables implement the class
    [TypedTable] of [Typed].

    Around the crate.  [LiveCheck] ([examples/live_check.rs]): the example's rules
    compiled and evaluated by [Rule], and its stand-in proxy talking to the client
    of [Proxy].  [BuildScript] ([build.rs]).

    Against other programs.  [RegexChoice]: the crate over two regular-expression
    implementations, with a second one beside that of [Rule].  [Talk]: two programs
    at the ends of a connection, and the network that cuts what one writes into the
    pieces the other reads.  [Socks5Server]: a server that follows RFC 1928 and
    RFC 1929, in conversation with the client of [Proxy].

    The crate's unit tests.  [UnitTest]: assertions.  [RuleTests], [NetstackTests],
    [DnsTests], [ProxyTests] (whose mock servers talk to the client as in [Talk]),
    [SystemTests]: the [mod tests] of [rule.rs], [netstack.rs], [dns.rs],
    [proxy.rs], and of [lib.rs], [dial.rs] and the platform files, with the fixtures
    of [state.rs].  [Suite]: all of them, on one machine that runs them.

    ** What the theorems show

    - Rules ([Rule]): [evaluate] computes a declarative first-match specification,
      and panics exactly for names that [strip_exe_suffix] cannot slice; the
      meaning of each filter (processes, hosts, CIDR, ports, domains); the shortcut
      that skips name lookups changes nothing.
    - DNS ([Dns]): the parser is total on every byte string, what it returns is in
      the message, and it reads every response that follows RFC 1035, however
      its names are compressed; the cache answers as the log of its stores does, and a
      store panics exactly when the clock cannot represent the moment it ends.
    - Proxies ([Proxy]): what each handshake sends, accepts and refuses against a
      server in any state; requests read back; credentials are sent only to a
      server that asks for them; the SOCKS5 client and a conforming server agree,
      over every network, on whether the tunnel opens and to where.
    - Flows ([Netstack], [Attributed], [Pin]): a socket opened for a flow the engine
      has to keep off the tunnel is pinned before it connects, and the only one that
      connects unpinned is one whose pin the system refused ([guarded]); a flow that must be proxied is never sent direct;
      QUIC is dropped under its policy; names learnt from DNS reach the proxy;
      relays neither lose nor reorder, short of what the system fails to send.
    - Interleaving ([Tasks], [Lookups]): of what changes during a
      session a task reads only the cache, once, at its name look-up, so in every
      schedule it does what it would do alone in
      the state of that moment, and the guarantees of a flow hold
      whatever the others do; no increment of a counter is lost and the counters add
      up; racing lookups never make an attribution last longer than its 250 ms or
      cross to another endpoint; the loop guard follows from what the kernel says of
      the endpoint's sockets, through netlink and [/proc] on Linux and in the bytes
      of its dumps on macOS.
    - Types ([Typed], [TypedTables]): a session never leaves Rust's types, over
      tables that the three systems' kernels and lookups provide.
    - Life cycle ([Engine]): each adapter is torn down at most once whatever the
      interleaving; [stop], a crash and [Drop] ask for the network to be restored; a
      stop completes when the tasks are scheduled, because it signals the netstack.
    - Network ([Routing], [Adapter], [Rtnetlink], [MacosRoute], [IpHelper], [Host]): the split default captures
      every unicast address and leaves multicast on the physical interface; creation
      and drop leave the forwarding table as it was, also when creation fails
      half-way, except for the routes whose deletion the system refused, which the
      adapter logs and leaves; the requests of each system (rtnetlink messages, [route] command
      lines, IP Helper rows) implement what the adapter relies on; over whole
      runs of the engine the table is the original one and the routes whose removal was
      reported as failed ([h_reported]) whenever no session is up.
    - Attribution: each system's lookup names the process that holds the socket; the
      macOS walk ends on every table; a cached answer is at most 250 ms old.
    - Device: packets cross the utun framing unchanged; the Windows reader delivers
      in order, without loss while the device lives.
    - Around ([LiveCheck], [BuildScript]): the example's configuration drops,
      proxies and passes what its documentation says; its proxy never dials a
      blocked host, and the crate's handshake over it succeeds exactly when an
      allowed dial does; the build script puts the driver where executables land,
      one failure not keeping it from the others, and panics only for variables that
      cargo always sets.
    Checks of the model, beside the properties.  [RegexChoice]: sessions over two
    implementations of the regular-expression crate run alike.  [TypedTables]: the
    tables of the three systems meet [TypedTable].  [Suite]: the model passes the
    crate's tests, with what a test takes from its machine (process id, clock, random
    seed, the pieces bytes arrive in, answers of the system, regular-expression
    implementation) left arbitrary, except the nine tests that its own header names.
    One of these fails, [wrong_remote_does_not_match] of
    [platform/macos/process.rs]: [MacosProcess.remote_never_excludes] says why.

    Several closed examples record behaviour that differs from what the code or its
    documentation intends; each says what happens in its comment.

    ** Conventions, fuel and bounds

    Machine integers are [Z] with their wrap-around or range written out; bytes are
    [Z] below 256; a Rust string is its list of scalar values.  A panic is a value
    ([outcome]'s [Panic], [io_out]'s [Crash]).  Maps are [gmap].  Recursion is
    structural except: name decompression ([Dns.name_fuel]: at most ten jumps, and
    between jumps each step advances, so [parse_name_total] shows it is enough on
    any message), the HTTP response head ([Proxy.head_fuel]: the code gives up after
    65536 bytes and each read brings at least one; [head_fuel_enough]), and the
    macOS walk ([MacosProcess.scan_fuel]: each record is at least one byte;
    [scan_pcblist_total]).  Polling and receive loops recurse on the script of
    answers they consume.  A conversation ([Talk.settle]) has fuel for its turns:
    four are enough for SOCKS5 ([socks5_agreement]); the tests run it with eight.

    ** External code

    Parameters with stated laws: the [regex] crate ([RegexEngine], [GlobLaws]),
    [base64] ([Base64], [Base64Laws]), the kernel's network state ([NetKernelLaws],
    [RtKernelLaws], [BsdKernelLaws], [IpHelperLaws]), and the answers of system calls, of tokio and of the peers,
    which are arguments of the operations.  Every law has a concrete instance.

    ** Not modelled

    - [ipstack] (the user-space TCP/IP stack), tokio's scheduler and the netlink,
      wintun and windows crates: they are the environment.
    - Locks: what a task does under one acquisition of a mutex is one atomic step
      ([Tasks] interleaves these, one store of a relayed DNS answer after another,
      and [Lookups] those of the process tables); a poisoned lock is modelled only
      for the DNS cache.  Atomics are read and written in program order: the counters
      are relaxed, and no other data is read through them.
    - The layout of structures handed to foreign functions, except where a theorem
      is about it (utun header, macOS socket addresses and records, Windows rows);
      log messages, except those the engine gives to its callback; the text of
      operating-system errors.
    - On Unix the device holds a duplicate of the adapter's descriptor: [k_close] is
      the moment the last one closes.
    - Routes that other programs add or remove while a session is up.
    - What the example prints, its periodic report among it; the vendored driver; and
      the tests that probe the live machine, which the header of [Suite] lists. *)

From Stdlib Require Export ZArith Lia.
From stdpp Require Export base tactics option list numbers gmap strings.

Local Open Scope Z_scope.

(** ** Pure code that may panic

    Rust code that indexes, slices or unwraps can panic.  [outcome] is the
    value of such an expression; it is a monad for stdpp's [x ← e; k]. *)

Inductive outcome (A : Type) : Type :=
  | Done (a : A)
  | Panic.
Arguments Done {A} a.
Arguments Panic {A}.

#[export] Instance outcome_ret : MRet outcome := @Done.
#[export] Instance outcome_bind : MBind outcome := λ A B k m,
  match m with Done a => k a | Panic => Panic end.
#[export] Instance outcome_fmap : FMap outcome := λ A B f m,
  match m with Done a => Done (f a) | Panic => Panic end.

(** [Iterator::any] with a predicate that may panic: short-circuits. *)
Fixpoint any_outcome {A} (f : A → outcome bool) (l : list A) : outcome bool :=
  match l with
  | [] => Done false
  | x :: l' => b ← f x; if b : bool then Done true else any_outcome f l'
  end.

(** ** I/O results

    The value an [async fn] produces: [Ok]/[Err] as in Rust, [Hang] for a
    future that never completes, [Crash] for a panic. *)

Inductive err_kind : Type :=
  | TimedOut | UnexpectedEof | InvalidData | InvalidInput | NotConnected
  | NotFound | AlreadyExists | PermissionDenied | WouldBlock | Other.

#[export] Instance err_kind_eq_dec : EqDecision err_kind.
Proof. solve_decision. Defined.

(** An [io::Error]: its kind and its message. *)
Record io_error : Type := IoError { ie_kind : err_kind; ie_msg : string }.

#[export] Instance io_error_eq_dec : EqDecision io_error.
Proof. solve_decision. Defined.

Inductive result (E A : Type) : Type :=
  | Ok (a : A)
  | Err (e : E).
Arguments Ok {E A} a.
Arguments Err {E A} e.

#[export] Instance result_ret {E} : MRet (result E) := @Ok E.
#[export] Instance result_bind {E} : MBind (result E) := λ A B k m,
  match m with Ok a => k a | Err e => Err e end.
#[export] Instance result_fmap {E} : FMap (result E) := λ A B f m,
  match m with Ok a => Ok (f a) | Err e => Err e end.

Definition map_err {E F A} (f : E → F) (r : result E A) : result F A :=
  match r with Ok a => Ok a | Err e => Err (f e) end.

(** ** Byte sequences indexed by [usize] *)

Definition is_byte (b : Z) : Prop := 0 ≤ b < 256.
#[export] Instance is_byte_dec b : Decision (is_byte b).
Proof. unfold is_byte. apply _. Defined.
Definition zlen {A} (l : list A) : Z := Z.of_nat (length l).

(** [slice.get(i)] *)
Definition get {A} (l : list A) (i : Z) : option A :=
  if decide (0 ≤ i) then l !! Z.to_nat i else None.

(** [slice.get(a..b)] *)
Definition get_range {A} (l : list A) (a b : Z) : option (list A) :=
  if decide (0 ≤ a ∧ a ≤ b ∧ b ≤ zlen l)
  then Some (take (Z.to_nat (b - a)) (drop (Z.to_nat a) l)) else None.

(** [slice[i]] *)
Definition index {A} (l : list A) (i : Z) : outcome A :=
  match get l i with Some x => Done x | None => Panic end.

(** [slice[a..b]] *)
Definition slice {A} (l : list A) (a b : Z) : outcome (list A) :=
  match get_range l a b with Some x => Done x | None => Panic end.

(** [uN::from_be_bytes] / [uN::from_le_bytes] and their inverses. *)
Definition be_val (bs : list Z) : Z :=
  foldl (λ acc b, Z.lor (Z.shiftl acc 8) b) 0 bs.
Fixpoint le_bytes (n : nat) (v : Z) : list Z :=
  match n with O => [] | S n' => Z.land v 255 :: le_bytes n' (Z.shiftr v 8) end.
Definition be_bytes (n : nat) (v : Z) : list Z := reverse (le_bytes n v).
Definition le_val (bs : list Z) : Z := be_val (reverse bs).

(** ** Tactics *)

(** [lia] with division and modulo by constants. *)
Ltac dlia := Z.to_euclidean_division_equations; lia.

(** Case analysis on the boolean comparisons a goal branches on. *)
Ltac bool_cases :=
  repeat match goal with
  | |- context [Z.ltb ?a ?b] => destruct (Z.ltb_spec a b)
  | |- context [Z.leb ?a ?b] => destruct (Z.leb_spec a b)
  | |- context [Z.eqb ?a ?b] => destruct (Z.eqb_spec a b)
  end.

(** A decidable statement about concrete data, by evaluation. *)
Ltac concrete :=
  solve [ discriminate
        | apply (bool_decide_unpack _); vm_compute; exact I
        | match goal with |- _ = _ => vm_compute; exact eq_refl end ].

(** Splits the conditionals and matches of a hypothesis, closing the
    branches it contradicts. *)
Ltac inv_case H :=
  repeat first
    [ progress simplify_eq H
    | match type of H with
      | context [match ?x with _ => _ end] =>
          let E := fresh "E" in destruct x eqn:E; try discriminate H
      end ].

(** ** Related outcomes

    Both panic, or both complete with related values. *)

Definition agree {A B} (R : A → B → Prop) (x : outcome A) (y : outcome B) : Prop :=
  match x, y with
  | Done a, Done b => R a b
  | Panic, Panic => True
  | _, _ => False
  end.

Lemma agree_ret {A B} (R : A → B → Prop) a b : R a b → agree R (mret a) (mret b).
Proof. done. Qed.

Lemma agree_bind {A A' B B'} (R : A → A' → Prop) (Q : B → B' → Prop) x x' k k' :
  agree R x x' → (∀ a a', R a a' → agree Q (k a) (k' a')) → agree Q (x ≫= k) (x' ≫= k').
Proof. destruct x, x'; simpl; [auto|done..]. Qed.

Lemma agree_refl {A} (x : outcome A) : agree eq x x.
Proof. by destruct x. Qed.

Lemma agree_eq {A} (x y : outcome A) : agree eq x y → x = y.
Proof. destruct x, y; simpl; [by intros ->|done..]. Qed.

Lemma agree_mapM {A B C} (R : B → C → Prop) (f : A → outcome B) (g : A → outcome C) l :
  Forall (λ x, agree R (f x) (g x)) l → agree (Forall2 R) (mapM f l) (mapM g l).
Proof.
  induction 1 as [|x l Hx _ IH]; [by apply agree_ret|]. simpl.
  eapply agree_bind; [exact Hx|]. intros b c Hbc. eapply agree_bind; [exact IH|].
  intros bs cs Hbs. by constructor.
Qed.

(** ** Lemmas on [outcome], [get] and [slice] *)

Create HintDb ace discriminated.

Lemma any_outcome_spec {A} (f : A → outcome bool) (g : A → bool) l :
  Forall (λ x, f x = Done (g x)) l → any_outcome f l = Done (existsb g l).
Proof. induction 1 as [|x l Hx _ IH]; simpl; [done|]. rewrite Hx; simpl. by destruct (g x). Qed.

Lemma zlen_nonneg {A} (l : list A) : 0 ≤ zlen l.
Proof. unfold zlen. lia. Qed.

Lemma zlen_app {A} (l k : list A) : zlen (l ++ k) = zlen l + zlen k.
Proof. unfold zlen. rewrite length_app. lia. Qed.

Lemma zlen_cons {A} (x : A) l : zlen (x :: l) = 1 + zlen l.
Proof. unfold zlen. simpl length. lia. Qed.

Lemma get_Some_range {A} (l : list A) i x : get l i = Some x → 0 ≤ i < zlen l.
Proof.
  unfold get, zlen. case_decide; [|done]. intros ?%lookup_lt_Some. lia.
Qed.

Lemma get_is_Some {A} (l : list A) i : 0 ≤ i < zlen l → is_Some (get l i).
Proof.
  unfold get, zlen. intros ?. case_decide; [|lia]. apply lookup_lt_is_Some. lia.
Qed.

Lemma get_In {A} (l : list A) i x : get l i = Some x → x ∈ l.
Proof. unfold get. case_decide; [|done]. apply list_elem_of_lookup_2. Qed.

Lemma get_app_l {A} (l k : list A) i : 0 ≤ i < zlen l → get (l ++ k) i = get l i.
Proof. unfold get, zlen. intros ?. case_decide; [|done]. apply lookup_app_l. lia. Qed.

Lemma get_app_r {A} (l k : list A) i :
  zlen l ≤ i → get (l ++ k) i = get k (i - zlen l).
Proof.
  unfold get, zlen. intros ?. rewrite !decide_True by lia.
  rewrite lookup_app_r by lia. f_equal. lia.
Qed.

Lemma index_in_range {A} (l : list A) i : 0 ≤ i < zlen l → ∃ x, index l i = Done x ∧ get l i = Some x.
Proof. intros [x Hx]%get_is_Some. exists x. unfold index. by rewrite Hx. Qed.

Lemma get_range_length {A} (l : list A) a b r :
  get_range l a b = Some r → 0 ≤ a ∧ b ≤ zlen l ∧ zlen r = b - a.
Proof.
  unfold get_range. case_decide; [|done]. intros [= <-].
  unfold zlen in *. rewrite length_take, length_drop. lia.
Qed.

Lemma get_range_incl {A} (l : list A) a b r : get_range l a b = Some r → r ⊆ l.
Proof.
  unfold get_range. case_decide; [|done]. intros [= <-] x Hx.
  rewrite <-(take_drop (Z.to_nat a) l). apply elem_of_app. right.
  rewrite <-(take_drop (Z.to_nat (b - a)) (drop _ l)). apply elem_of_app. by left.
Qed.

Lemma slice_in_range {A} (l : list A) a b :
  0 ≤ a → a ≤ b → b ≤ zlen l →
  ∃ r, slice l a b = Done r ∧ get_range l a b = Some r.
Proof. intros. unfold slice, get_range. rewrite decide_True by lia. eauto. Qed.

Lemma get_range_app {A} (l k : list A) a b r :
  get_range l a b = Some r → get_range (l ++ k) a b = Some r.
Proof.
  unfold get_range. case_decide; [|done]. intros [= <-].
  unfold zlen in *. rewrite decide_True by (rewrite length_app; lia).
  rewrite drop_app_le by lia. by rewrite take_app_le by (rewrite length_drop; lia).
Qed.

Lemma get_mid {A} (pre : list A) x post : get (pre ++ x :: post) (zlen pre) = Some x.
Proof. rewrite get_app_r by lia. by rewrite Z.sub_diag. Qed.

Lemma get_range_mid {A} (pre bs post : list A) :
  get_range (pre ++ bs ++ post) (zlen pre) (zlen pre + zlen bs) = Some bs.
Proof.
  unfold get_range, zlen. rewrite decide_True by (rewrite !length_app; lia).
  rewrite Nat2Z.id, drop_app_length.
  replace (Z.to_nat _) with (length bs) by lia. by rewrite take_app_length.
Qed.

Lemma index_mid {A} (pre : list A) x post : index (pre ++ x :: post) (zlen pre) = Done x.
Proof. unfold index. by rewrite get_mid. Qed.

Lemma slice_mid {A} (pre bs post : list A) :
  slice (pre ++ bs ++ post) (zlen pre) (zlen pre + zlen bs) = Done bs.
Proof. unfold slice. by rewrite get_range_mid. Qed.

(** ** Lemmas on byte codecs *)

Lemma lor_shiftl_add (n a b : Z) :
  0 ≤ n → 0 ≤ b < 2 ^ n → Z.lor (Z.shiftl a n) b = a * 2 ^ n + b.
Proof.
  intros Hn Hb. rewrite <-Z.shiftl_mul_pow2 by lia. symmetry. apply Z.add_nocarry_lor.
  apply Z.bits_inj'. intros i Hi. rewrite Z.land_spec, Z.bits_0.
  destruct (Z.lt_ge_cases i n); [by rewrite Z.shiftl_spec_low|].
  rewrite <-(Z.mod_small b (2 ^ n)), Z.mod_pow2_bits_high by lia. apply andb_false_r.
Qed.

Lemma be_val_snoc bs b : is_byte b → be_val (bs ++ [b]) = be_val bs * 256 + b.
Proof.
  intros Hb. unfold be_val. rewrite foldl_app. simpl.
  by rewrite (lor_shiftl_add 8) by (unfold is_byte in Hb; lia).
Qed.

Lemma length_le_bytes n v : length (le_bytes n v) = n.
Proof. revert v. induction n; simpl; auto. Qed.

Lemma length_be_bytes n v : length (be_bytes n v) = n.
Proof. unfold be_bytes. by rewrite length_reverse, length_le_bytes. Qed.

Lemma land_255 v : Z.land v 255 = v mod 256.
Proof. change 255 with (Z.ones 8). by rewrite Z.land_ones by lia. Qed.

Lemma le_bytes_byte n v : Forall is_byte (le_bytes n v).
Proof.
  revert v. induction n as [|n IH]; intros v; simpl; constructor; [|apply IH].
  rewrite land_255. unfold is_byte. apply Z.mod_pos_bound. lia.
Qed.

Lemma be_bytes_byte n v : Forall is_byte (be_bytes n v).
Proof. apply Forall_reverse, le_bytes_byte. Qed.

Lemma be_val_be_bytes n v : be_val (be_bytes n v) = v mod 256 ^ Z.of_nat n.
Proof.
  revert v. induction n as [|n IH]; intros v.
  { change (be_val (be_bytes 0 v)) with 0. by rewrite Z.mod_1_r. }
  unfold be_bytes in *. simpl le_bytes. rewrite reverse_cons, be_val_snoc
    by (rewrite land_255; apply Z.mod_pos_bound; lia).
  rewrite IH, land_255, Z.shiftr_div_pow2 by lia. change (2 ^ 8) with 256.
  rewrite Nat2Z.inj_succ, Z.pow_succ_r by lia.
  assert (0 < 256 ^ Z.of_nat n) by (apply Z.pow_pos_nonneg; lia).
  rewrite (Z.rem_mul_r v 256) by lia. lia.
Qed.

Lemma be_val_bound bs : Forall is_byte bs → 0 ≤ be_val bs < 256 ^ zlen bs.
Proof.
  induction bs as [|b bs IH] using rev_ind; [done|].
  rewrite Forall_app, Forall_singleton. intros [Hbs Hb].
  specialize (IH Hbs). rewrite be_val_snoc by done. unfold is_byte in Hb.
  rewrite zlen_app. change (zlen [b]) with 1.
  rewrite Z.pow_add_r by (try apply zlen_nonneg; lia). lia.
Qed.

Lemma be_bytes_be_val bs :
  Forall is_byte bs → be_bytes (length bs) (be_val bs) = bs.
Proof.
  induction bs as [|b bs IH] using rev_ind; [done|].
  rewrite Forall_app, Forall_singleton. intros [Hbs Hb].
  specialize (IH Hbs). rewrite be_val_snoc by done. unfold is_byte in Hb.
  rewrite length_app, Nat.add_1_r. unfold be_bytes in *. simpl le_bytes.
  rewrite reverse_cons, land_255, Z.shiftr_div_pow2 by lia. change (2 ^ 8) with 256.
  replace ((be_val bs * 256 + b) / 256) with (be_val bs) by dlia.
  replace ((be_val bs * 256 + b) mod 256) with b by dlia.
  by rewrite IH.
Qed.

#[export] Hint Resolve zlen_nonneg be_bytes_byte le_bytes_byte : ace.
Create Rewrite HintDb zlen.
Lemma zlen_nil {A} : zlen (@nil A) = 0.
Proof. done. Qed.
#[export] Hint Rewrite @zlen_app @zlen_cons @zlen_nil : zlen.

Lemma zlen_be_bytes n v : zlen (be_bytes n v) = Z.of_nat n.
Proof. unfold zlen. by rewrite length_be_bytes. Qed.
#[export] Hint Rewrite zlen_be_bytes : zlen.
