(* ===== verification/Text.v ===== *)
(** * Rust [str]

    A [str] is the list of its Unicode scalar values ([chars()]); byte lengths
    and byte offsets are those of its UTF-8 encoding, as in Rust.  The file
    holds the standard-library operations the crate calls on strings (trim,
    split, parse, slicing by byte offset, case folding, formatting of integers,
    [from_utf8]) with the lemmas the components use. *)

From S2P Require Export Prelude.
Local Open Scope Z_scope.

Definition str : Type := list Z.

(** A literal of the source, e.g. [u "chrome.exe"]. *)
Definition u (s : string) : str :=
  map (λ a, Z.of_nat (Ascii.nat_of_ascii a)) (String.list_ascii_of_string s).

Definition is_ascii_char (c : Z) : Prop := 0 ≤ c < 128.
Definition is_scalar (c : Z) : Prop := 0 ≤ c < 0xD800 ∨ 0xE000 ≤ c < 0x110000.
Definition is_ascii (s : str) : Prop := Forall is_ascii_char s.
Definition is_str (s : str) : Prop := Forall is_scalar s.

#[export] Instance is_ascii_char_dec c : Decision (is_ascii_char c).
Proof. unfold is_ascii_char. apply _. Defined.
#[export] Instance is_scalar_dec c : Decision (is_scalar c).
Proof. unfold is_scalar. apply _. Defined.
#[export] Instance is_ascii_dec s : Decision (is_ascii s).
Proof. unfold is_ascii. apply _. Defined.
#[export] Instance is_str_dec s : Decision (is_str s).
Proof. unfold is_str. apply _. Defined.

(** ** UTF-8 *)

Definition len_utf8 (c : Z) : Z :=
  if c <? 0x80 then 1 else if c <? 0x800 then 2 else if c <? 0x10000 then 3 else 4.

(** [str::len]: the length in bytes. *)
Fixpoint len (s : str) : Z :=
  match s with [] => 0 | c :: s' => len_utf8 c + len s' end.

Definition encode_char (c : Z) : list Z :=
  if c <? 0x80 then [c]
  else if c <? 0x800 then [0xC0 + c / 64; 0x80 + c mod 64]
  else if c <? 0x10000 then
    [0xE0 + c / 4096; 0x80 + c / 64 mod 64; 0x80 + c mod 64]
  else
    [0xF0 + c / 262144; 0x80 + c / 4096 mod 64; 0x80 + c / 64 mod 64; 0x80 + c mod 64].

(** [str::as_bytes] *)
Fixpoint as_bytes (s : str) : list Z :=
  match s with [] => [] | c :: s' => encode_char c ++ as_bytes s' end.

Definition is_cont (b : Z) : bool := (0x80 <=? b) && (b <=? 0xBF).

(** The second byte of a three- or four-byte sequence has a narrower range for
    some lead bytes (no overlong forms, no surrogates, nothing past U+10FFFF). *)
Definition second_ok (b0 b1 : Z) : bool :=
  (if b0 =? 0xE0 then (0xA0 <=? b1) && (b1 <=? 0xBF)
   else if b0 =? 0xED then (0x80 <=? b1) && (b1 <=? 0x9F)
   else if b0 =? 0xF0 then (0x90 <=? b1) && (b1 <=? 0xBF)
   else if b0 =? 0xF4 then (0x80 <=? b1) && (b1 <=? 0x8F)
   else is_cont b1).

(** [str::from_utf8], [None] for its error. *)
Fixpoint from_utf8 (bs : list Z) : option str :=
  match bs with
  | [] => Some []
  | b0 :: r0 =>
    if b0 <? 0x80 then cons b0 <$> from_utf8 r0
    else match r0 with
    | [] => None
    | b1 :: r1 =>
      if (0xC2 <=? b0) && (b0 <=? 0xDF) then
        if is_cont b1
        then cons ((b0 - 0xC0) * 64 + (b1 - 0x80)) <$> from_utf8 r1 else None
      else match r1 with
      | [] => None
      | b2 :: r2 =>
        if (0xE0 <=? b0) && (b0 <=? 0xEF) then
          if second_ok b0 b1 && is_cont b2
          then cons ((b0 - 0xE0) * 4096 + (b1 - 0x80) * 64 + (b2 - 0x80)) <$> from_utf8 r2
          else None
        else match r2 with
        | [] => None
        | b3 :: r3 =>
          if (0xF0 <=? b0) && (b0 <=? 0xF4) && second_ok b0 b1 && is_cont b2 && is_cont b3
          then cons ((b0 - 0xF0) * 262144 + (b1 - 0x80) * 4096 + (b2 - 0x80) * 64 + (b3 - 0x80))
               <$> from_utf8 r3
          else None
        end
      end
    end
  end.

(** [String::from_utf8_lossy]: each maximal part of a sequence that is not UTF-8
    becomes one U+FFFD. *)
Fixpoint from_utf8_lossy (bs : list Z) : str :=
  match bs with
  | [] => []
  | b0 :: r0 =>
    if b0 <? 0x80 then b0 :: from_utf8_lossy r0
    else if (0xC2 <=? b0) && (b0 <=? 0xDF) then
      match r0 with
      | b1 :: r1 =>
        if is_cont b1 then ((b0 - 0xC0) * 64 + (b1 - 0x80)) :: from_utf8_lossy r1
        else 0xFFFD :: from_utf8_lossy r0
      | [] => [0xFFFD]
      end
    else if (0xE0 <=? b0) && (b0 <=? 0xEF) then
      match r0 with
      | b1 :: r1 =>
        if second_ok b0 b1 then
          match r1 with
          | b2 :: r2 =>
            if is_cont b2
            then ((b0 - 0xE0) * 4096 + (b1 - 0x80) * 64 + (b2 - 0x80)) :: from_utf8_lossy r2
            else 0xFFFD :: from_utf8_lossy r1
          | [] => [0xFFFD]
          end
        else 0xFFFD :: from_utf8_lossy r0
      | [] => [0xFFFD]
      end
    else if (0xF0 <=? b0) && (b0 <=? 0xF4) then
      match r0 with
      | b1 :: r1 =>
        if second_ok b0 b1 then
          match r1 with
          | b2 :: r2 =>
            if is_cont b2 then
              match r2 with
              | b3 :: r3 =>
                if is_cont b3
                then ((b0 - 0xF0) * 262144 + (b1 - 0x80) * 4096 + (b2 - 0x80) * 64 + (b3 - 0x80))
                     :: from_utf8_lossy r3
                else 0xFFFD :: from_utf8_lossy r2
              | [] => [0xFFFD]
              end
            else 0xFFFD :: from_utf8_lossy r1
          | [] => [0xFFFD]
          end
        else 0xFFFD :: from_utf8_lossy r0
      | [] => [0xFFFD]
      end
    else 0xFFFD :: from_utf8_lossy r0
  end.

(** ** Slicing and searching *)

(** [(&s[..k], &s[k..])]: panics unless [k] is a character boundary. *)
Fixpoint split_at (s : str) (k : Z) : outcome (str * str) :=
  if k =? 0 then Done ([], s)
  else match s with
  | [] => Panic
  | c :: s' =>
    if len_utf8 c <=? k then
      match split_at s' (k - len_utf8 c) with
      | Done (a, b) => Done (c :: a, b)
      | Panic => Panic
      end
    else Panic
  end.

Definition contains (s : str) (c : Z) : bool := existsb (Z.eqb c) s.

Fixpoint starts_with (s p : str) : bool :=
  match p, s with
  | [], _ => true
  | a :: p', b :: s' => (a =? b) && starts_with s' p'
  | _ :: _, [] => false
  end.

(** [str::contains] with a string. *)
Fixpoint contains_str (s p : str) : bool :=
  starts_with s p || match s with [] => false | _ :: s' => contains_str s' p end.

Definition strip_prefix (s p : str) : option str :=
  if starts_with s p then Some (drop (length p) s) else None.
Definition strip_suffix (s p : str) : option str :=
  if starts_with (reverse s) (reverse p)
  then Some (take (length s - length p) s) else None.

(** [str::split] with a character predicate: always at least one piece. *)
Fixpoint split (p : Z → bool) (s : str) : list str :=
  match s with
  | [] => [[]]
  | c :: s' =>
    if p c then [] :: split p s'
    else match split p s' with
    | [] => [[c]]
    | w :: ws => (c :: w) :: ws
    end
  end.

(** [str::split_once] with a character. *)
Fixpoint split_once (s : str) (d : Z) : option (str * str) :=
  match s with
  | [] => None
  | c :: s' =>
    if c =? d then Some ([], s')
    else match split_once s' d with
    | Some (a, b) => Some (c :: a, b)
    | None => None
    end
  end.

(** [char::is_whitespace] (the Unicode White_Space property). *)
Definition is_whitespace (c : Z) : bool :=
  ((9 <=? c) && (c <=? 13)) || (c =? 0x20) || (c =? 0x85) || (c =? 0xA0)
  || (c =? 0x1680) || ((0x2000 <=? c) && (c <=? 0x200A)) || (c =? 0x2028)
  || (c =? 0x2029) || (c =? 0x202F) || (c =? 0x205F) || (c =? 0x3000).

Fixpoint trim_start (s : str) : str :=
  match s with
  | [] => []
  | c :: s' => if is_whitespace c then trim_start s' else s
  end.
Definition trim_end (s : str) : str := reverse (trim_start (reverse s)).
Definition trim (s : str) : str := trim_end (trim_start s).

Definition is_empty (s : str) : bool := match s with [] => true | _ => false end.

(** [str::split_whitespace] *)
Definition split_whitespace (s : str) : list str :=
  List.filter (λ w, negb (is_empty w)) (split is_whitespace s).

(** [s.lines().next()] *)
Definition first_line (s : str) : option str :=
  match s with
  | [] => None
  | _ =>
    match split_once s 10 with
    | None => Some s
    | Some (line, _) =>
      match strip_suffix line [13] with Some l => Some l | None => Some line end
    end
  end.

(** ** ASCII case *)

Definition ascii_lower (c : Z) : Z := if (65 <=? c) && (c <=? 90) then c + 32 else c.
Definition to_ascii_lowercase (s : str) : str := map ascii_lower s.
Definition eq_ignore_ascii_case (s t : str) : bool :=
  bool_decide (to_ascii_lowercase s = to_ascii_lowercase t).
Definition str_eqb (s t : str) : bool := bool_decide (s = t).

(** ** Integers *)

Definition digit_of (c : Z) : option Z :=
  if (48 <=? c) && (c <=? 57) then Some (c - 48) else None.

Fixpoint parse_digits (max acc : Z) (s : str) : option Z :=
  match s with
  | [] => Some acc
  | c :: s' =>
    d ← digit_of c;
    let acc' := acc * 10 + d in
    if acc' <=? max then parse_digits max acc' s' else None
  end.

(** [s.parse::<uN>()] with [max = uN::MAX]: an optional leading [+], at least
    one digit, no overflow. *)
Definition parse_uint (max : Z) (s : str) : option Z :=
  match s with
  | [] => None
  | [43] | [45] => None
  | 43 :: s' => parse_digits max 0 s'
  | _ => parse_digits max 0 s
  end.
Definition parse_u8 : str → option Z := parse_uint 255.
Definition parse_u16 : str → option Z := parse_uint 65535.
Definition parse_u32 : str → option Z := parse_uint 4294967295.

(** [n.to_string()] for an unsigned integer of at most [fuel] digits. *)
Fixpoint dec_go (fuel : nat) (n : Z) (acc : str) : str :=
  match fuel with
  | O => acc
  | S fuel' =>
    let acc' := (48 + n mod 10) :: acc in
    if n <? 10 then acc' else dec_go fuel' (n / 10) acc'
  end.
Definition dec (n : Z) : str := dec_go 40 n [].

(** ** Lemmas: UTF-8 *)

Lemma len_utf8_bounds c : 1 ≤ len_utf8 c ≤ 4.
Proof. unfold len_utf8. bool_cases; lia. Qed.

Lemma len_nonneg s : 0 ≤ len s.
Proof. induction s as [|c s IH]; simpl; [lia|]. pose proof (len_utf8_bounds c). lia. Qed.

Lemma len_app s t : len (s ++ t) = len s + len t.
Proof. induction s as [|c s IH]; simpl; [done|]. rewrite IH. lia. Qed.

Lemma zlen_as_bytes s : zlen (as_bytes s) = len s.
Proof.
  induction s as [|c s IH]; [done|]. simpl. rewrite zlen_app, IH.
  unfold encode_char, len_utf8. by bool_cases.
Qed.

Lemma as_bytes_app s t : as_bytes (s ++ t) = as_bytes s ++ as_bytes t.
Proof. induction s as [|c s IH]; [done|]. simpl. by rewrite IH, app_assoc. Qed.

Lemma len_ascii s : is_ascii s → len s = zlen s.
Proof.
  induction 1 as [|c s Hc _ IH]; [done|]. simpl. rewrite IH, zlen_cons.
  unfold len_utf8, is_ascii_char in *. by bool_cases; try lia.
Qed.

Lemma as_bytes_ascii s : is_ascii s → as_bytes s = s.
Proof.
  induction 1 as [|c s Hc _ IH]; [done|]. simpl. rewrite IH.
  unfold encode_char, is_ascii_char in *. by bool_cases; try lia.
Qed.

Lemma is_ascii_str s : is_ascii s → is_str s.
Proof. intros H. eapply Forall_impl; [exact H|]. unfold is_ascii_char, is_scalar. lia. Qed.

Lemma encode_char_bytes c : is_scalar c → Forall is_byte (encode_char c).
Proof.
  unfold is_scalar, encode_char. intros Hc.
  bool_cases; repeat constructor; unfold is_byte; dlia.
Qed.

Lemma as_bytes_bytes s : is_str s → Forall is_byte (as_bytes s).
Proof.
  induction 1 as [|c s Hc _ IH]; [constructor|]. simpl.
  apply Forall_app. split; [by apply encode_char_bytes|done].
Qed.

Ltac bool_lit :=
  repeat match goal with
  | |- context [Z.ltb ?a ?b] =>
      first [rewrite (proj2 (Z.ltb_lt a b)) by lia | rewrite (proj2 (Z.ltb_ge a b)) by lia]
  | |- context [Z.leb ?a ?b] =>
      first [rewrite (proj2 (Z.leb_le a b)) by lia | rewrite (proj2 (Z.leb_gt a b)) by lia]
  end.

Lemma is_cont_mod c : is_cont (0x80 + c mod 64) = true.
Proof. pose proof (Z.mod_pos_bound c 64). unfold is_cont. by bool_lit. Qed.

Lemma second_ok_3 c :
  is_scalar c → 0x800 ≤ c < 0x10000 →
  second_ok (0xE0 + c / 4096) (0x80 + c / 64 mod 64) = true.
Proof.
  unfold is_scalar. intros Hs Hc. change 4096 with (64 * 64). rewrite <-Z.div_div by lia.
  assert (32 ≤ c / 64 < 864 ∨ 896 ≤ c / 64 < 1024) as Hd by dlia.
  generalize dependent (c / 64). intros d Hd.
  pose proof (Z.div_mod d 64 ltac:(lia)). pose proof (Z.mod_pos_bound d 64 ltac:(lia)).
  unfold second_ok, is_cont. bool_cases; simpl; try done; lia.
Qed.

Lemma second_ok_4 c :
  0x10000 ≤ c < 0x110000 →
  second_ok (0xF0 + c / 262144) (0x80 + c / 4096 mod 64) = true.
Proof.
  intros Hc. change 262144 with (4096 * 64). rewrite <-Z.div_div by lia.
  assert (16 ≤ c / 4096 < 272) as Hd by dlia.
  generalize dependent (c / 4096). intros d Hd.
  pose proof (Z.div_mod d 64 ltac:(lia)). pose proof (Z.mod_pos_bound d 64 ltac:(lia)).
  unfold second_ok, is_cont. bool_cases; simpl; try done; lia.
Qed.

Lemma lead_range c k n : 0 < k → 0 ≤ c < (n + 1) * k → 0 ≤ c / k ≤ n.
Proof. intros Hk Hc. split; [apply Z.div_pos; lia|]. apply Z.lt_succ_r, Z.div_lt_upper_bound; lia. Qed.

Lemma recompose_3 c : c / 4096 * 4096 + c / 64 mod 64 * 64 + c mod 64 = c.
Proof.
  change 4096 with (64 * 64). rewrite <-Z.div_div by lia.
  pose proof (Z.div_mod c 64 ltac:(lia)). pose proof (Z.div_mod (c / 64) 64 ltac:(lia)). lia.
Qed.

Lemma recompose_4 c :
  c / 262144 * 262144 + c / 4096 mod 64 * 4096 + c / 64 mod 64 * 64 + c mod 64 = c.
Proof.
  pose proof (recompose_3 c). change 262144 with (4096 * 64). rewrite <-Z.div_div by lia.
  pose proof (Z.div_mod (c / 4096) 64 ltac:(lia)). lia.
Qed.

Lemma from_utf8_char c bs :
  is_scalar c → from_utf8 (encode_char c ++ bs) = cons c <$> from_utf8 bs.
Proof.
  intros Hc. assert (0 ≤ c < 0x110000) by (unfold is_scalar in Hc; lia).
  unfold encode_char. destruct (Z.ltb_spec c 0x80).
  { cbn [app from_utf8]. by bool_lit. }
  destruct (Z.ltb_spec c 0x800).
  { cbn [app from_utf8]. pose proof (lead_range c 64 31).
    assert (2 ≤ c / 64) by (apply Z.div_le_lower_bound; lia).
    bool_lit. cbn [andb]. rewrite is_cont_mod. do 2 f_equal. dlia. }
  destruct (Z.ltb_spec c 0x10000).
  { cbn [app from_utf8]. pose proof (lead_range c 4096 15).
    bool_lit. cbn [andb]. rewrite second_ok_3, is_cont_mod by (done || lia). cbn [andb].
    do 2 f_equal. pose proof (recompose_3 c). lia. }
  cbn [app from_utf8]. pose proof (lead_range c 262144 4).
  bool_lit. cbn [andb]. rewrite second_ok_4, !is_cont_mod by lia. cbn [andb].
  do 2 f_equal. pose proof (recompose_4 c). lia.
Qed.

Lemma from_utf8_as_bytes s : is_str s → from_utf8 (as_bytes s) = Some s.
Proof.
  induction 1 as [|c s Hc _ IH]; [done|]. simpl.
  by rewrite from_utf8_char, IH.
Qed.

(** ** Lemmas: slicing *)

Lemma split_at_len s t : split_at (s ++ t) (len s) = Done (s, t).
Proof.
  induction s as [|c s IH]; simpl; [by destruct t|].
  pose proof (len_utf8_bounds c). pose proof (len_nonneg s).
  rewrite (proj2 (Z.eqb_neq _ _)), (proj2 (Z.leb_le _ _)) by lia.
  replace (len_utf8 c + len s - len_utf8 c) with (len s) by lia. by rewrite IH.
Qed.

Lemma split_at_inv s k a b : split_at s k = Done (a, b) → s = a ++ b ∧ len a = k.
Proof.
  revert k a b. induction s as [|c s IH]; intros k a b; cbn [split_at].
  - destruct (Z.eqb_spec k 0) as [->|]; [by intros [= <- <-]|done].
  - destruct (Z.eqb_spec k 0) as [->|]; [by intros [= <- <-]|].
    destruct (len_utf8 c <=? k); [|done].
    destruct (split_at s _) as [[a' b']|] eqn:E; [|done].
    intros [= <- <-]. apply IH in E as [-> ?]. simpl. split; [done|lia].
Qed.

(** On UTF-8 the lossy reading is the text. *)
Lemma from_utf8_lossy_valid bs s : from_utf8 bs = Some s → from_utf8_lossy bs = s.
Proof.
  remember (length bs) as n eqn:Hn. assert (length bs ≤ n)%nat as Hle by lia. clear Hn. revert bs s Hle.
  induction n as [|n IH]; intros bs s Hle; [destruct bs; simpl in *; [|lia]; by intros [= <-]|].
  destruct bs as [|b0 r0]; [by intros [= <-]|]. cbn [length from_utf8 from_utf8_lossy] in *.
  assert (∀ c r, (length r ≤ n)%nat → cons c <$> from_utf8 r = Some s → c :: from_utf8_lossy r = s) as Hcons.
  { intros c r Hr. destruct (from_utf8 r) as [t|] eqn:E; [|done]. intros [= <-]. f_equal. by apply IH. }
  destruct (b0 <? 0x80); [apply Hcons; lia|]. destruct r0 as [|b1 r1]; [done|]. cbn [length] in *.
  destruct ((0xC2 <=? b0) && (b0 <=? 0xDF)); [destruct (is_cont b1); [apply Hcons; lia|done]|].
  destruct r1 as [|b2 r2]; [done|]. cbn [length] in *. destruct ((0xE0 <=? b0) && (b0 <=? 0xEF)).
  { destruct (second_ok b0 b1), (is_cont b2); try done. apply Hcons. lia. }
  destruct r2 as [|b3 r3]; [done|]. cbn [length] in *. destruct ((0xF0 <=? b0) && (b0 <=? 0xF4)); [|done].
  destruct (second_ok b0 b1), (is_cont b2), (is_cont b3); try done. apply Hcons. lia.
Qed.

Lemma starts_with_spec s p : starts_with s p = true ↔ ∃ t, s = p ++ t.
Proof.
  revert s. induction p as [|a p IH]; intros s.
  { split; [|by destruct s]. intros _. by exists s. }
  destruct s as [|b s]; simpl; [split; [done|by intros []]|]. rewrite andb_true_iff, Z.eqb_eq, IH. naive_solver.
Qed.

Lemma contains_str_spec s p : contains_str s p = true ↔ ∃ a b, s = a ++ p ++ b.
Proof.
  induction s as [|c s IH]; cbn [contains_str]; rewrite orb_true_iff, starts_with_spec.
  - split; [intros [[t Ht]|]; [by exists [], t|done]|]. intros ([] & b & Ht); [left; by exists b|done].
  - rewrite IH. split.
    + intros [[t Ht]|(a & b & ->)]; [by exists [], t|by exists (c :: a), b].
    + intros ([|x a] & b & Ht); [left; by exists b|right]. simplify_eq/=. by exists a, b.
Qed.

Lemma split_at_ascii s k : is_ascii s → 0 ≤ k ≤ len s → ∃ a b, split_at s k = Done (a, b).
Proof.
  intros Hs Hk. rewrite len_ascii in Hk by done.
  exists (take (Z.to_nat k) s), (drop (Z.to_nat k) s).
  assert (len (take (Z.to_nat k) s) = k) as Hl.
  { rewrite len_ascii by (by apply Forall_take).
    unfold zlen in *. rewrite length_take. lia. }
  pose proof (split_at_len (take (Z.to_nat k) s) (drop (Z.to_nat k) s)) as Hs'.
  by rewrite take_drop, Hl in Hs'.
Qed.

Lemma split_once_app a d b : d ∉ a → split_once (a ++ d :: b) d = Some (a, b).
Proof.
  induction a as [|c a IH]; simpl; [by rewrite Z.eqb_refl|].
  rewrite not_elem_of_cons. intros [Hc Ha].
  rewrite (proj2 (Z.eqb_neq _ _)) by done. by rewrite IH.
Qed.

Lemma split_once_None a d : d ∉ a → split_once a d = None.
Proof.
  induction a as [|c a IH]; simpl; [done|]. rewrite not_elem_of_cons. intros [Hc Ha].
  rewrite (proj2 (Z.eqb_neq _ _)) by done. by rewrite IH.
Qed.

Lemma contains_spec s c : contains s c = true ↔ c ∈ s.
Proof.
  unfold contains. rewrite existsb_exists. split.
  - intros (x & Hx & ->%Z.eqb_eq). by apply list_elem_of_In.
  - intros Hc. exists c. split; [by apply list_elem_of_In|apply Z.eqb_refl].
Qed.

Lemma contains_false s c : c ∉ s → contains s c = false.
Proof. intros H. destruct (contains s c) eqn:E; [|done]. by apply contains_spec in E. Qed.

Lemma split_none p s : Forall (λ c, p c = false) s → split p s = [s].
Proof. induction 1 as [|c s Hc _ IH]; simpl; [done|]. by rewrite Hc, IH. Qed.

Lemma split_app p s d t :
  Forall (λ c, p c = false) s → p d = true → split p (s ++ d :: t) = s :: split p t.
Proof.
  induction 1 as [|c s Hc _ IH]; intros Hd; simpl; [by rewrite Hd|].
  by rewrite Hc, IH.
Qed.

Lemma trim_start_id c s : is_whitespace c = false → trim_start (c :: s) = c :: s.
Proof. simpl. by intros ->. Qed.

Lemma trim_id s : Forall (λ c, is_whitespace c = false) s → trim s = s.
Proof.
  intros Hs. unfold trim, trim_end.
  assert (∀ t, Forall (λ c, is_whitespace c = false) t → trim_start t = t) as Ht.
  { intros t Ht. destruct Ht as [|c t Hc _]; [done|]. by apply trim_start_id. }
  rewrite (Ht s), Ht by (done || by apply Forall_reverse). apply reverse_involutive.
Qed.

Lemma starts_with_app s t : starts_with (s ++ t) s = true.
Proof. induction s; simpl; [by destruct t|]. by rewrite Z.eqb_refl. Qed.

Lemma strip_prefix_app p s : strip_prefix (p ++ s) p = Some s.
Proof. unfold strip_prefix. by rewrite starts_with_app, drop_app_length. Qed.

Lemma strip_suffix_app s p : strip_suffix (s ++ p) p = Some s.
Proof.
  unfold strip_suffix. rewrite reverse_app, starts_with_app, length_app.
  f_equal. rewrite take_app_le by lia. apply take_ge. lia.
Qed.

(** ** Lemmas: integers *)

Lemma parse_digits_app max acc s t :
  parse_digits max acc (s ++ t) = a ← parse_digits max acc s; parse_digits max a t.
Proof.
  revert acc. induction s as [|c s IH]; intros acc; simpl; [done|].
  destruct (digit_of c); simpl; [|done]. by case_match.
Qed.

Lemma digit_of_digit d : 0 ≤ d < 10 → digit_of (48 + d) = Some d.
Proof. intros ?. unfold digit_of. bool_lit. simpl. f_equal. lia. Qed.

Lemma dec_go_app fuel n acc : dec_go fuel n acc = dec_go fuel n [] ++ acc.
Proof.
  revert n acc. induction fuel as [|f IH]; intros n acc; simpl; [done|].
  case_match; [done|]. by rewrite IH, (IH _ [_]), <-app_assoc.
Qed.

Lemma dec_go_digits fuel n :
  0 ≤ n → Forall (λ c, 48 ≤ c ≤ 57) (dec_go fuel n []).
Proof.
  revert n. induction fuel as [|f IH]; intros n Hn; simpl; [constructor|].
  case_match; [constructor; [dlia|constructor]|].
  rewrite dec_go_app. apply Forall_app. split; [apply IH; dlia|].
  constructor; [dlia|constructor].
Qed.

Lemma dec_digits n : 0 ≤ n → Forall (λ c, 48 ≤ c ≤ 57) (dec n).
Proof. apply dec_go_digits. Qed.

Lemma dec_go_parse fuel n max :
  0 ≤ n < 10 ^ Z.of_nat fuel → n ≤ max → parse_digits max 0 (dec_go fuel n []) = Some n.
Proof.
  revert n. induction fuel as [|f IH]; intros n Hn Hm; simpl.
  { simpl in Hn. f_equal. lia. }
  rewrite Nat2Z.inj_succ, Z.pow_succ_r in Hn by lia. destruct (Z.ltb_spec n 10).
  - simpl. rewrite Z.mod_small, digit_of_digit by lia. simpl. bool_lit. done.
  - pose proof (Z.mod_pos_bound n 10). assert (n = n / 10 * 10 + n mod 10) by dlia.
    rewrite dec_go_app, parse_digits_app, IH by dlia. simpl.
    rewrite digit_of_digit by lia. simpl. bool_lit. f_equal. lia.
Qed.

Lemma dec_go_nonempty fuel n : dec_go (S fuel) n [] ≠ [].
Proof. cbn [dec_go]. case_match; [done|]. rewrite dec_go_app. by destruct (dec_go _ _ _). Qed.

Lemma dec_nonempty n : dec n ≠ [].
Proof. apply dec_go_nonempty. Qed.

Lemma parse_uint_digits max c s :
  48 ≤ c ≤ 57 → parse_uint max (c :: s) = parse_digits max 0 (c :: s).
Proof.
  intros Hc. unfold parse_uint. destruct c as [|p|]; [lia| |lia].
  do 6 (destruct p as [p|p|]; try reflexivity; try lia).
Qed.

(** Parsing what was printed gives the number back. *)
Lemma parse_dec n max : 0 ≤ n ≤ max → n < 10 ^ 40 → parse_uint max (dec n) = Some n.
Proof.
  intros Hn Hf. pose proof (dec_go_parse 40 n max (conj (proj1 Hn) Hf) (proj2 Hn)) as Hp.
  change (dec_go 40 n []) with (dec n) in Hp.
  pose proof (dec_digits n ltac:(lia)) as Hd. pose proof (dec_nonempty n).
  destruct (dec n) as [|c s] eqn:E; [done|]. inversion_clear Hd as [|?? Hc Hs].
  by rewrite parse_uint_digits.
Qed.

(** The same for the machine widths the crate parses. *)
Lemma parse_dec_small n max : 0 ≤ n ≤ max → max < 2 ^ 32 → parse_uint max (dec n) = Some n.
Proof. intros Hn Hm. apply parse_dec; [done|]. assert (2 ^ 32 < 10 ^ 40) by done. lia. Qed.

Lemma dec_ascii n : 0 ≤ n → is_ascii (dec n).
Proof.
  intros Hn. eapply Forall_impl; [by apply dec_digits|].
  unfold is_ascii_char. simpl. lia.
Qed.

Lemma dec_not_in n d : 0 ≤ n → ¬ (48 ≤ d ≤ 57) → d ∉ dec n.
Proof.
  intros Hn Hd Hin. pose proof (dec_digits n Hn) as H.
  rewrite Forall_forall in H. by apply H in Hin.
Qed.
