(* ===== verification/Net.v ===== *)
(** * IP and socket addresses

    [std::net] as the crate uses it: addresses are their big-endian integer
    value ([u32::from] / [u128::from]), with octets and segments derived from
    it, the classification predicates, [FromStr] and [Display]. *)

From S2P Require Export Text.
Local Open Scope Z_scope.

Inductive IpAddr : Type :=
  | V4 (a : Z)
  | V6 (a : Z).

#[export] Instance IpAddr_eq_dec : EqDecision IpAddr.
Proof. solve_decision. Defined.
#[export] Program Instance IpAddr_countable : Countable IpAddr :=
  inj_countable' (λ ip, match ip with V4 a => inl a | V6 a => inr a end)
                 (λ x, match x with inl a => V4 a | inr a => V6 a end) _.
Next Obligation. by intros []. Qed.

Record SocketAddr : Type := SockAddr { sa_ip : IpAddr; sa_port : Z }.
#[export] Instance SocketAddr_eq_dec : EqDecision SocketAddr.
Proof. solve_decision. Defined.

Definition wf_ip (ip : IpAddr) : Prop :=
  match ip with V4 a => 0 ≤ a < 2 ^ 32 | V6 a => 0 ≤ a < 2 ^ 128 end.

Definition octets (ip : IpAddr) : list Z :=
  match ip with V4 a => be_bytes 4 a | V6 a => be_bytes 16 a end.

(** [Ipv4Addr::new(a, b, c, d)] and [Ipv6Addr::new(s0, ..., s7)]. *)
Definition ipv4 (a b c d : Z) : Z := be_val [a; b; c; d].
Definition of_segments (ss : list Z) : Z :=
  foldl (λ acc g, Z.lor (Z.shiftl acc 16) g) 0 ss.
Fixpoint segments_go (n : nat) (a : Z) : list Z :=
  match n with O => [] | S n' => Z.land a 65535 :: segments_go n' (Z.shiftr a 16) end.
Definition segments (a : Z) : list Z := reverse (segments_go 8 a).

Definition is_ipv6 (ip : IpAddr) : bool := match ip with V6 _ => true | V4 _ => false end.
Definition is_ipv4 (ip : IpAddr) : bool := negb (is_ipv6 ip).

Definition is_loopback (ip : IpAddr) : bool :=
  match ip with V4 a => Z.shiftr a 24 =? 127 | V6 a => a =? 1 end.
Definition is_unspecified (ip : IpAddr) : bool :=
  match ip with V4 a => a =? 0 | V6 a => a =? 0 end.
Definition is_multicast (ip : IpAddr) : bool :=
  match ip with
  | V4 a => (224 <=? Z.shiftr a 24) && (Z.shiftr a 24 <=? 239)
  | V6 a => Z.land (Z.shiftr a 112) 0xff00 =? 0xff00
  end.
Definition is_broadcast_v4 (a : Z) : bool := a =? 0xffffffff.

(** ** Parsing ([core::net::parser]): a parser consumes a prefix. *)

Definition to_digit (radix c : Z) : option Z :=
  let d := if (48 <=? c) && (c <=? 57) then c - 48
           else if (97 <=? c) && (c <=? 102) then c - 87
           else if (65 <=? c) && (c <=? 70) then c - 55 else radix in
  if d <? radix then Some d else None.

Definition read_char (d : Z) (s : str) : option str :=
  match s with c :: s' => if c =? d then Some s' else None | [] => None end.

(** The digit loop of [read_number] with a digit limit. *)
Fixpoint read_digits (radix max_digits acc count : Z) (s : str) : option (Z * Z * str) :=
  match s with
  | [] => Some (acc, count, [])
  | c :: s' =>
    match to_digit radix c with
    | None => Some (acc, count, s)
    | Some d =>
      if max_digits <? count + 1 then None
      else read_digits radix max_digits (acc * radix + d) (count + 1) s'
    end
  end.

Definition read_number (radix max_digits : Z) (allow_zero_prefix : bool) (max : Z) (s : str)
    : option (Z * str) :=
  '(v, count, rest) ← read_digits radix max_digits 0 0 s;
  let has_leading_zero := match s with 48 :: _ => true | _ => false end in
  if count =? 0 then None
  else if negb allow_zero_prefix && has_leading_zero && (1 <? count) then None
  else if v <=? max then Some (v, rest) else None.

Definition read_separator {A} (sep : Z) (first : bool) (inner : str → option (A * str))
    (s : str) : option (A * str) :=
  if first then inner s else s' ← read_char sep s; inner s'.

Definition read_ipv4_addr (s : str) : option (Z * str) :=
  let octet := read_number 10 3 false 255 in
  '(a, s) ← read_separator 46 true octet s;
  '(b, s) ← read_separator 46 false octet s;
  '(c, s) ← read_separator 46 false octet s;
  '(d, s) ← read_separator 46 false octet s;
  Some (ipv4 a b c d, s).

Fixpoint read_groups (slots : nat) (first : bool) (s : str) : list Z * bool * str :=
  match slots with
  | O => ([], false, s)
  | S slots' =>
    match (if decide (slots' = O) then None else read_separator 58 first read_ipv4_addr s) with
    | Some (a, s') => ([Z.shiftr a 16; Z.land a 65535], true, s')
    | None =>
      match read_separator 58 first (read_number 16 4 true 65535) s with
      | Some (g, s') =>
        let '(gs, v4, s'') := read_groups slots' false s' in (g :: gs, v4, s'')
      | None => ([], false, s)
      end
    end
  end.

Definition read_ipv6_addr (s : str) : option (Z * str) :=
  let '(head, head_ipv4, s) := read_groups 8 true s in
  if decide (length head = 8%nat) then Some (of_segments head, s)
  else if head_ipv4 : bool then None
  else
    s ← read_char 58 s;
    s ← read_char 58 s;
    let '(tail, _, s) := read_groups (7 - length head) true s in
    Some (of_segments (head ++ replicate (8 - length head - length tail) 0 ++ tail), s).

Definition all_consumed {A} (r : option (A * str)) : option A :=
  match r with Some (a, []) => Some a | _ => None end.

(** [s.parse::<Ipv4Addr>()], [s.parse::<Ipv6Addr>()] *)
Definition parse_ipv4 (s : str) : option Z :=
  if 15 <? len s then None else all_consumed (read_ipv4_addr s).
Definition parse_ipv6 (s : str) : option Z := all_consumed (read_ipv6_addr s).

Fixpoint read_port_digits (acc count : Z) (s : str) : option (Z * Z * str) :=
  match s with
  | [] => Some (acc, count, [])
  | c :: s' =>
    match to_digit 10 c with
    | None => Some (acc, count, s)
    | Some d =>
      if 65535 <? acc * 10 + d then None else read_port_digits (acc * 10 + d) (count + 1) s'
    end
  end.
Definition read_port (s : str) : option (Z * str) :=
  s ← read_char 58 s;
  '(v, count, rest) ← read_port_digits 0 0 s;
  if count =? 0 then None else Some (v, rest).

Fixpoint skip_scope_digits (acc count : Z) (s : str) : option (Z * str) :=
  match s with
  | [] => Some (count, [])
  | c :: s' =>
    match to_digit 10 c with
    | None => Some (count, s)
    | Some d =>
      if 4294967295 <? acc * 10 + d then None else skip_scope_digits (acc * 10 + d) (count + 1) s'
    end
  end.
(** The optional [%scope] of an IPv6 socket address; its value is not used. *)
Definition skip_scope_id (s : str) : str :=
  match s with
  | 37 :: s' =>
    match skip_scope_digits 0 0 s' with
    | Some (count, rest) => if count =? 0 then s else rest
    | None => s
    end
  | _ => s
  end.

Definition read_socket_addr_v4 (s : str) : option (SocketAddr * str) :=
  '(a, s) ← read_ipv4_addr s;
  '(p, s) ← read_port s;
  Some (SockAddr (V4 a) p, s).
Definition read_socket_addr_v6 (s : str) : option (SocketAddr * str) :=
  s ← read_char 91 s;
  '(a, s) ← read_ipv6_addr s;
  s ← read_char 93 (skip_scope_id s);
  '(p, s) ← read_port s;
  Some (SockAddr (V6 a) p, s).
(** [s.parse::<SocketAddr>()] *)
Definition parse_socket_addr (s : str) : option SocketAddr :=
  all_consumed (match read_socket_addr_v4 s with
                | Some r => Some r | None => read_socket_addr_v6 s end).

(** ** [Display] *)

Definition show_ipv4 (a : Z) : str :=
  match be_bytes 4 a with
  | [o0; o1; o2; o3] => dec o0 ++ 46 :: dec o1 ++ 46 :: dec o2 ++ 46 :: dec o3
  | _ => []
  end.

Definition hex_digit (d : Z) : Z := if d <? 10 then 48 + d else 87 + d.
Fixpoint hex_go (fuel : nat) (n : Z) (acc : str) : str :=
  match fuel with
  | O => acc
  | S fuel' =>
    let acc' := hex_digit (n mod 16) :: acc in
    if n <? 16 then acc' else hex_go fuel' (n / 16) acc'
  end.
Definition hex (n : Z) : str := hex_go 4 n [].

Fixpoint join_hex (ss : list Z) : str :=
  match ss with
  | [] => []
  | [g] => hex g
  | g :: ss' => hex g ++ 58 :: join_hex ss'
  end.

(** The first longest run of zero segments: (start, length). *)
Fixpoint longest_zeros (i : Z) (ss : list Z) (longest current : Z * Z) : Z * Z :=
  match ss with
  | [] => longest
  | g :: ss' =>
    if g =? 0 then
      let current := (if current.2 =? 0 then i else current.1, current.2 + 1) in
      longest_zeros (i + 1) ss' (if longest.2 <? current.2 then current else longest) current
    else longest_zeros (i + 1) ss' longest (0, 0)
  end.

Definition show_ipv6 (a : Z) : str :=
  if Z.shiftr a 32 =? 0xffff then u "::ffff:" ++ show_ipv4 (Z.land a 0xffffffff)
  else
    let ss := segments a in
    let '(start, n) := longest_zeros 0 ss (0, 0) (0, 0) in
    if 1 <? n then
      join_hex (take (Z.to_nat start) ss) ++ u "::" ++ join_hex (drop (Z.to_nat (start + n)) ss)
    else join_hex ss.

(** [ip.to_string()] *)
Definition show_ip (ip : IpAddr) : str :=
  match ip with V4 a => show_ipv4 a | V6 a => show_ipv6 a end.

(** ** Sanity of the parsers and printers on concrete addresses *)

Example parse_ipv6_ex : parse_ipv6 (u "2001:db8::1") = Some 0x20010db8000000000000000000000001.
Proof. reflexivity. Qed.
Example parse_ipv6_v4_ex : parse_ipv6 (u "::ffff:1.2.3.4") = Some 0xffff01020304.
Proof. reflexivity. Qed.
Example parse_ipv6_bad_ex : parse_ipv6 (u "1:2:3:4:5:6:7") = None.
Proof. reflexivity. Qed.
Example parse_sock_ex : parse_socket_addr (u "127.0.0.1:8080") = Some (SockAddr (V4 0x7f000001) 8080).
Proof. reflexivity. Qed.
Example parse_sock6_ex : parse_socket_addr (u "[fe80::1%3]:80") = Some (SockAddr (V6 (0xfe80 * 2^112 + 1)) 80).
Proof. reflexivity. Qed.
Example show_ipv6_ex : show_ipv6 0x20010db8000000000000000000000001 = u "2001:db8::1".
Proof. vm_compute. reflexivity. Qed.

(** ** Lemmas *)

Lemma octets_bytes ip : Forall is_byte (octets ip).
Proof. destruct ip; apply be_bytes_byte. Qed.

Lemma length_octets ip : length (octets ip) = if is_ipv6 ip then 16%nat else 4%nat.
Proof. destruct ip; apply length_be_bytes. Qed.

Lemma be_val_octets ip :
  wf_ip ip → be_val (octets ip) = match ip with V4 a => a | V6 a => a end.
Proof. destruct ip; intros [? ?]; simpl; rewrite be_val_be_bytes; by apply Z.mod_small. Qed.

Lemma ipv4_octets a : 0 ≤ a < 2 ^ 32 →
  ∃ o0 o1 o2 o3, be_bytes 4 a = [o0; o1; o2; o3] ∧ ipv4 o0 o1 o2 o3 = a
    ∧ is_byte o0 ∧ is_byte o1 ∧ is_byte o2 ∧ is_byte o3.
Proof.
  intros Ha. pose proof (length_be_bytes 4 a) as Hl. pose proof (be_bytes_byte 4 a) as Hb.
  pose proof (be_val_octets (V4 a) Ha) as Hv. simpl octets in Hv.
  destruct (be_bytes 4 a) as [|o0 [|o1 [|o2 [|o3 [|]]]]]; try done.
  rewrite !Forall_cons in Hb. destruct Hb as (? & ? & ? & ? & _).
  by exists o0, o1, o2, o3.
Qed.

Lemma ipv4_inj a b c d a' b' c' d' :
  is_byte a → is_byte b → is_byte c → is_byte d →
  is_byte a' → is_byte b' → is_byte c' → is_byte d' →
  ipv4 a b c d = ipv4 a' b' c' d' → [a; b; c; d] = [a'; b'; c'; d'].
Proof.
  intros B1 B2 B3 B4 B5 B6 B7 B8 Heq.
  assert (Forall is_byte [a; b; c; d] ∧ Forall is_byte [a'; b'; c'; d']) as [F1 F2]
    by (rewrite !Forall_cons, !Forall_nil; naive_solver).
  rewrite <-(be_bytes_be_val _ F1), <-(be_bytes_be_val _ F2).
  unfold ipv4 in Heq. by rewrite Heq.
Qed.

Definition octet_reads_back (b : Z) : bool :=
  (length (dec b) <=? 3)%nat
  && negb (match dec b with 48 :: _ => (1 <? length (dec b))%nat | _ => false end)
  && forallb (λ c, (48 <=? c) && (c <=? 57)) (dec b)
  && (foldl (λ acc c, acc * 10 + (c - 48)) 0 (dec b) =? b)
  && (0 <? length (dec b))%nat.

Lemma octet_reads_back_all b : is_byte b → octet_reads_back b = true.
Proof.
  intros [H0 H1].
  assert (forallb (λ i, octet_reads_back (Z.of_nat i)) (seq 0 256) = true) as H by (by vm_compute).
  rewrite forallb_forall in H. rewrite <-(Z2Nat.id b) by done. apply H, in_seq. lia.
Qed.

Lemma to_digit_dec c : 48 ≤ c ≤ 57 → to_digit 10 c = Some (c - 48).
Proof. intros ?. unfold to_digit. bool_lit. simpl. by bool_lit. Qed.

Lemma read_digits_dec max_digits acc count ds t :
  forallb (λ c, (48 <=? c) && (c <=? 57)) ds = true →
  (t = [] ∨ ∃ t', t = 46 :: t') → count + zlen ds ≤ max_digits →
  read_digits 10 max_digits acc count (ds ++ t) =
    Some (foldl (λ acc c, acc * 10 + (c - 48)) acc ds, count + zlen ds, t).
Proof.
  intros Hd Ht. revert acc count Hd. induction ds as [|c ds IH]; intros acc count Hd Hm; simpl.
  { change (zlen []) with 0. rewrite Z.add_0_r. by destruct Ht as [->|[t' ->]]. }
  simpl in Hd. apply andb_true_iff in Hd as [[Hc1 Hc2]%andb_true_iff Hd].
  apply Z.leb_le in Hc1, Hc2. rewrite zlen_cons in *. pose proof (zlen_nonneg ds).
  rewrite to_digit_dec by lia. bool_lit. rewrite IH by (done || lia). do 2 f_equal.
  f_equal. lia.
Qed.

Lemma read_octet b t :
  is_byte b → (t = [] ∨ ∃ t', t = 46 :: t') →
  read_number 10 3 false 255 (dec b ++ t) = Some (b, t).
Proof.
  intros Hb Ht. pose proof (octet_reads_back_all b Hb) as H.
  unfold octet_reads_back in H. rewrite !andb_true_iff in H.
  destruct H as [[[[Hl Hz] Hd] Hv] Hn].
  apply Nat.leb_le in Hl. apply Nat.ltb_lt in Hn. apply Z.eqb_eq in Hv.
  unfold read_number. rewrite read_digits_dec by (done || unfold zlen; lia). rewrite Hv. simpl.
  rewrite (proj2 (Z.eqb_neq _ _)) by (unfold zlen; lia).
  destruct Hb. bool_lit. replace (_ && (1 <? zlen (dec b))) with false; [done|].
  symmetry. destruct (Z.ltb_spec 1 (zlen (dec b))); [|by rewrite andb_false_r].
  rewrite andb_true_r. destruct (dec b) as [|c ds]; [done|]. simpl app.
  apply negb_true_iff in Hz.
  destruct (decide (c = 48)) as [->|]; [|by repeat case_match].
  apply Nat.ltb_ge in Hz. unfold zlen in *. lia.
Qed.

Lemma len_show_ipv4 o0 o1 o2 o3 :
  is_byte o0 → is_byte o1 → is_byte o2 → is_byte o3 →
  len (dec o0 ++ 46 :: dec o1 ++ 46 :: dec o2 ++ 46 :: dec o3) ≤ 15.
Proof.
  assert (∀ o, is_byte o → len (dec o) ≤ 3) as Ho.
  { intros o Ho. rewrite len_ascii by (destruct Ho; by apply dec_ascii).
    pose proof (octet_reads_back_all o Ho) as H. unfold octet_reads_back in H.
    rewrite !andb_true_iff in H. destruct H as [[[[Hl%Nat.leb_le _] _] _] _].
    unfold zlen. lia. }
  intros ? ? ? ?. rewrite !len_app; simpl; rewrite !len_app; simpl; rewrite !len_app; simpl.
  pose proof (Ho o0 ltac:(done)); pose proof (Ho o1 ltac:(done));
  pose proof (Ho o2 ltac:(done)); pose proof (Ho o3 ltac:(done)).
  unfold len_utf8. simpl. lia.
Qed.

(** Parsing a printed IPv4 address gives it back. *)
Lemma parse_show_ipv4 a : 0 ≤ a < 2 ^ 32 → parse_ipv4 (show_ipv4 a) = Some a.
Proof.
  intros Ha. destruct (ipv4_octets a Ha) as (o0 & o1 & o2 & o3 & Ho & Hv & H0 & H1 & H2 & H3).
  unfold show_ipv4, parse_ipv4. rewrite Ho.
  pose proof (len_show_ipv4 o0 o1 o2 o3 H0 H1 H2 H3). bool_lit.
  unfold read_ipv4_addr, read_separator.
  rewrite read_octet by eauto. simpl.
  rewrite read_octet by eauto. simpl.
  rewrite read_octet by eauto. simpl.
  rewrite <-(app_nil_r (dec o3)). rewrite read_octet by eauto. simpl. by rewrite Hv.
Qed.
