(* ===== verification/NetText.v ===== *)
(** * Printed addresses read back

    What [Display] prints for an IP address, [FromStr] reads as that address: for
    IPv6 through the compression of zeros and the mapped form.  So the text of an
    address names it, wherever the code passes addresses as text. *)

From S2P Require Export Net.
Local Open Scope Z_scope.

(** ** Groups of hexadecimal digits *)

Definition is_group (g : Z) : Prop := 0 ≤ g < 65536.

Lemma to_digit_hex d : 0 ≤ d < 16 → to_digit 16 (hex_digit d) = Some d.
Proof.
  intros Hd. unfold to_digit, hex_digit. destruct (Z.ltb_spec d 10); bool_lit; simpl; bool_lit; f_equal; lia.
Qed.

(** [hex] prints one to four digits, of the value printed. *)
Lemma hex_shape g :
  is_group g → ∃ ds, hex g = map hex_digit ds ∧ Forall (λ d, 0 ≤ d < 16) ds
    ∧ 1 ≤ zlen ds ≤ 4 ∧ foldl (λ acc d, acc * 16 + d) 0 ds = g.
Proof.
  intros Hg. unfold is_group in Hg.
  assert (∀ x, 0 ≤ x mod 16 < 16) as Hm by (intros x; by apply Z.mod_pos_bound).
  unfold hex. cbn [hex_go].
  destruct (Z.ltb_spec g 16); [exists [g mod 16]|
    destruct (Z.ltb_spec (g / 16) 16); [exists [g / 16 mod 16; g mod 16]|
    destruct (Z.ltb_spec (g / 16 / 16) 16); [exists [g / 16 / 16 mod 16; g / 16 mod 16; g mod 16]|
    exists [g / 16 / 16 / 16 mod 16; g / 16 / 16 mod 16; g / 16 mod 16; g mod 16]]]].
  4: destruct (g / 16 / 16 / 16 <? 16).
  all: (split; [try reflexivity|]); (split; [repeat (apply Forall_cons; split; [apply Hm|]); constructor|]); (split; [unfold zlen; cbn; lia|cbn; dlia]).
Qed.

Lemma no_digit radix s : read_digits radix 4 0 0 s = Some (0, 0, s) → read_number radix 4 true 65535 s = None.
Proof. unfold read_number. by intros ->. Qed.

(** A printed group is read, up to the end or a colon. *)
Lemma read_digits_hex ds acc count t :
  Forall (λ d, 0 ≤ d < 16) ds → (t = [] ∨ ∃ x, t = 58 :: x) → count + zlen ds ≤ 4 →
  read_digits 16 4 acc count (map hex_digit ds ++ t)
  = Some (foldl (λ acc d, acc * 16 + d) acc ds, count + zlen ds, t).
Proof.
  intros Hd Ht. revert acc count. induction Hd as [|d ds Hd _ IH]; intros acc count Hc.
  - change (zlen []) with 0. rewrite Z.add_0_r. by destruct Ht as [->|[x ->]].
  - rewrite zlen_cons in *. pose proof (zlen_nonneg ds). cbn [map app read_digits].
    rewrite to_digit_hex by done. bool_lit. rewrite IH by lia. cbn [foldl]. do 3 f_equal. lia.
Qed.

Lemma read_group g t :
  is_group g → (t = [] ∨ ∃ x, t = 58 :: x) → read_number 16 4 true 65535 (hex g ++ t) = Some (g, t).
Proof.
  intros Hg Ht. destruct (hex_shape g Hg) as (ds & -> & Hd & Hl & Hv). unfold is_group in Hg.
  unfold read_number. rewrite read_digits_hex by (done || lia). cbn [mbind option_bind]. rewrite Hv, Z.add_0_l.
  destruct (Z.eqb_spec (zlen ds) 0); [lia|]. cbn [negb andb]. by bool_lit.
Qed.

(** ** Text without a dot holds no IPv4 address *)

Lemma read_digits_suffix radix n acc count s v c rest :
  read_digits radix n acc count s = Some (v, c, rest) → rest `suffix_of` s.
Proof.
  revert acc count. induction s as [|x s IH]; intros acc count; cbn [read_digits]; [by intros [= _ _ <-]|].
  destruct (to_digit radix x); [|by intros [= _ _ <-]]. destruct (_ <? _); [done|].
  intros H%IH. by apply suffix_cons_r.
Qed.

Lemma read_ipv4_no_dot s : 46 ∉ s → read_ipv4_addr s = None.
Proof.
  intros Hs. unfold read_ipv4_addr, read_separator, read_number.
  destruct (read_digits 10 3 0 0 s) as [[[v c] rest]|] eqn:E; [|done]. cbn [mbind option_bind].
  apply read_digits_suffix in E as [pre ->].
  destruct (c =? 0); [done|]. destruct (_ && _); [done|]. destruct (v <=? 255); [|done]. cbn [mbind option_bind].
  destruct rest as [|x rest]; [done|]. cbn [read_char].
  destruct (Z.eqb_spec x 46) as [->|]; [|done]. destruct Hs. set_solver.
Qed.

(** ** Groups *)

(** The groups after the first. *)
Definition more_groups (gs : list Z) : str := concat (map (λ g, 58 :: hex g) gs).
Definition groups_text (first : bool) (gs : list Z) : str := if first then join_hex gs else more_groups gs.

Lemma join_hex_cons g gs : join_hex (g :: gs) = hex g ++ more_groups gs.
Proof.
  revert g. induction gs as [|g' gs IH]; intros g; [by rewrite app_nil_r|].
  change (join_hex (g :: g' :: gs)) with (hex g ++ 58 :: join_hex (g' :: gs)). by rewrite IH.
Qed.

Lemma hex_no_sep g c : is_group g → c ∈ hex g → c ≠ 46 ∧ c ≠ 47 ∧ c ≠ 58.
Proof.
  intros Hg Hc. destruct (hex_shape g Hg) as (ds & E & Hd & _). rewrite E in Hc.
  apply list_elem_of_fmap in Hc as (d & -> & Hin). rewrite Forall_forall in Hd. specialize (Hd d Hin).
  unfold hex_digit. case_match; lia.
Qed.

Lemma more_groups_chars gs c : Forall is_group gs → c ∈ more_groups gs → c ≠ 46 ∧ c ≠ 47.
Proof.
  unfold more_groups. induction 1 as [|g gs Hg _ IH]; cbn [map concat]; [set_solver|].
  intros [->|[Hc|Hc]%elem_of_app]%elem_of_cons; [lia| |by apply IH].
  by destruct (hex_no_sep g c Hg Hc) as (? & ? & _).
Qed.

Lemma hex_nonempty g : is_group g → ∃ c s, hex g = c :: s ∧ c ≠ 58.
Proof.
  intros Hg. destruct (hex_shape g Hg) as (ds & E & Hd & Hl & _).
  destruct ds as [|d ds]; [change (zlen []) with 0 in Hl; lia|]. exists (hex_digit d), (map hex_digit ds).
  split; [done|]. apply (hex_no_sep g); [done|]. rewrite E. left.
Qed.

(** What may follow the groups: the end, or the compressed zeros. *)
Definition groups_end (t : str) : Prop := (t = [] ∨ ∃ x, t = 58 :: 58 :: x) ∧ 46 ∉ t.

Lemma groups_no_dot first gs t : Forall is_group gs → groups_end t → 46 ∉ groups_text first gs ++ t.
Proof.
  intros Hg [_ Ht] [Hin|Hin]%elem_of_app; [|done].
  destruct first; [|by destruct (more_groups_chars gs 46 Hg Hin)].
  destruct Hg as [|g gs Hg Hgs]; cbn [groups_text] in Hin; [set_solver|].
  rewrite join_hex_cons in Hin. apply elem_of_app in Hin as [Hin|Hin].
  - by destruct (hex_no_sep g 46 Hg Hin).
  - by destruct (more_groups_chars gs 46 Hgs Hin).
Qed.

Lemma read_separated_ipv4 first s : 46 ∉ s → read_separator 58 first read_ipv4_addr s = None.
Proof.
  intros Hs. unfold read_separator. destruct first; [by apply read_ipv4_no_dot|].
  destruct s as [|c s]; [done|]. cbn [read_char]. destruct (c =? 58); [|done].
  apply read_ipv4_no_dot. set_solver.
Qed.

(** Where the groups end, no group is read. *)
Lemma read_groups_end n first t : groups_end t → read_groups n first t = ([], false, t).
Proof.
  intros [Ht Hdot]. destruct n as [|n]; [done|]. cbn [read_groups].
  rewrite read_separated_ipv4 by done.
  replace (if decide (n = 0%nat) then None else None) with (@None (Z * str)) by by case_decide.
  destruct Ht as [->|[x ->]]; by destruct first.
Qed.

Lemma read_groups_text n first gs t :
  Forall is_group gs → groups_end t → (length gs ≤ n)%nat →
  read_groups n first (groups_text first gs ++ t) = (gs, false, t).
Proof.
  intros Hg Ht. revert n first. induction Hg as [|g gs Hg Hgs IH]; intros n first Hn.
  { replace (groups_text first []) with (@nil Z) by by destruct first. by apply read_groups_end. }
  destruct n as [|n]; [cbn in Hn; lia|]. cbn [read_groups].
  rewrite read_separated_ipv4 by (by apply groups_no_dot; [constructor|]).
  replace (if decide (n = 0%nat) then None else None) with (@None (Z * str)) by by case_decide.
  assert (read_separator 58 first (read_number 16 4 true 65535) (groups_text first (g :: gs) ++ t)
    = Some (g, groups_text false gs ++ t)) as ->.
  2: { rewrite IH by (cbn in Hn; lia). done. }
  assert (groups_text false gs ++ t = [] ∨ ∃ x, groups_text false gs ++ t = 58 :: x) as Hend.
  { destruct gs as [|g' gs]; [|by right; eexists]. destruct Ht as [[->|[x ->]] _]; [by left|by right; eexists]. }
  destruct first; cbn [groups_text read_separator].
  - rewrite join_hex_cons, <-app_assoc. by apply read_group.
  - cbn [more_groups map concat app read_char]. rewrite Z.eqb_refl. cbn [mbind option_bind].
    rewrite <-app_assoc. by apply read_group.
Qed.

(** ** Segments *)

Lemma of_segments_snoc ss g : of_segments (ss ++ [g]) = Z.lor (Z.shiftl (of_segments ss) 16) g.
Proof. unfold of_segments. by rewrite foldl_app. Qed.

Lemma of_segments_go n a : 0 ≤ a → of_segments (reverse (segments_go n a)) = a mod 2 ^ (16 * Z.of_nat n).
Proof.
  revert a. induction n as [|n IH]; intros a Ha; [by rewrite Z.mod_1_r|].
  cbn [segments_go]. rewrite reverse_cons, of_segments_snoc, IH by (by apply Z.shiftr_nonneg).
  change 65535 with (Z.ones 16). rewrite Z.land_ones, Z.shiftr_div_pow2 by done.
  rewrite lor_shiftl_add by (try apply Z.mod_pos_bound; lia).
  replace (16 * Z.of_nat (S n)) with (16 + 16 * Z.of_nat n) by lia.
  rewrite Z.pow_add_r by lia. rewrite Z.rem_mul_r by lia. lia.
Qed.

Lemma of_segments_segments a : 0 ≤ a < 2 ^ 128 → of_segments (segments a) = a.
Proof. intros Ha. unfold segments. rewrite of_segments_go by lia. by apply Z.mod_small. Qed.

Lemma segments_groups a : length (segments a) = 8%nat ∧ Forall is_group (segments a).
Proof.
  unfold segments. rewrite length_reverse. split; [done|]. apply Forall_reverse.
  generalize 8%nat. intros n. revert a. induction n as [|n IH]; intros a; [constructor|]. cbn [segments_go].
  constructor; [|apply IH]. change 65535 with (Z.ones 16). rewrite Z.land_ones by done.
  by apply Z.mod_pos_bound.
Qed.

(** The compressed run is a run of zeros of the list. *)
Definition zero_run (ss : list Z) (i : Z) (r : Z * Z) : Prop :=
  0 ≤ r.1 ∧ 0 ≤ r.2 ∧ r.1 + r.2 ≤ i
  ∧ ∀ j, (Z.to_nat r.1 ≤ j < Z.to_nat (r.1 + r.2))%nat → ss !! j = Some 0.

Lemma longest_zeros_run pre ss longest current :
  zero_run (pre ++ ss) (zlen pre) longest → zero_run (pre ++ ss) (zlen pre) current →
  (0 < current.2 → current.1 + current.2 = zlen pre) →
  zero_run (pre ++ ss) (zlen (pre ++ ss)) (longest_zeros (zlen pre) ss longest current).
Proof.
  revert pre longest current. induction ss as [|g ss IH]; intros pre longest current Hl Hc He; cbn [longest_zeros].
  { by rewrite app_nil_r in *. }
  assert (zlen (pre ++ [g]) = zlen pre + 1) as Hz by (by rewrite zlen_app).
  assert (∀ r, zero_run (pre ++ g :: ss) (zlen pre) r → zero_run ((pre ++ [g]) ++ ss) (zlen (pre ++ [g])) r) as Hmono.
  { intros r (? & ? & ? & Hr). rewrite <-app_assoc, Hz. split_and!; [lia..|exact Hr]. }
  replace (pre ++ g :: ss) with ((pre ++ [g]) ++ ss) by by rewrite <-app_assoc.
  destruct (Z.eqb_spec g 0) as [->|Hg]; rewrite <-Hz.
  - set (c := (if current.2 =? 0 then zlen pre else current.1, current.2 + 1)).
    assert (zero_run ((pre ++ [0]) ++ ss) (zlen (pre ++ [0])) c ∧ c.1 + c.2 = zlen (pre ++ [0])) as [Hc' He'].
    { destruct Hc as (H1 & H2 & H3 & H4). pose proof (zlen_nonneg pre). unfold c. cbn [fst snd].
      assert (((pre ++ [0]) ++ ss) !! length pre = Some 0) as Hat
        by (rewrite <-app_assoc, lookup_app_r, Nat.sub_diag by done; done).
      unfold zlen in *. destruct (Z.eqb_spec current.2 0); (split; [split_and!; cbn [fst snd]; try lia|lia]).
      - intros j Hj. replace j with (length pre) by lia. done.
      - intros j Hj. destruct (decide (j = length pre)) as [->|]; [done|].
        rewrite <-app_assoc. apply H4. lia. }
    apply IH; [|done|done]. case_match; [done|by apply Hmono].
  - apply IH; [by apply Hmono| |done]. pose proof (zlen_nonneg (pre ++ [g])).
    split_and!; cbn [fst snd]; lia.
Qed.

(** ** The round trips *)

(** What [show_ipv6] cuts out is zeros. *)
Lemma cut_zeros ss start n :
  zero_run ss (zlen ss) (start, n) →
  ss = take (Z.to_nat start) ss ++ replicate (Z.to_nat n) 0 ++ drop (Z.to_nat (start + n)) ss.
Proof.
  intros (H1 & H2 & H3 & H4). cbn [fst snd] in *. unfold zlen in H3. apply list_eq. intros j.
  destruct (decide (j < Z.to_nat start)%nat).
  { rewrite lookup_app_l by (rewrite length_take; lia). by rewrite lookup_take_lt. }
  rewrite lookup_app_r by (rewrite length_take; lia). rewrite length_take_le by lia.
  destruct (decide (j < Z.to_nat (start + n))%nat).
  - rewrite lookup_app_l by (rewrite length_replicate; lia).
    rewrite lookup_replicate_2 by lia. apply H4. lia.
  - rewrite lookup_app_r by (rewrite length_replicate; lia). rewrite length_replicate, lookup_drop. f_equal. lia.
Qed.

(** The mapped form, and the two forms in groups. *)
Lemma read_show_ipv4 a : 0 ≤ a < 2 ^ 32 → read_ipv4_addr (show_ipv4 a) = Some (a, []).
Proof.
  intros Ha. pose proof (parse_show_ipv4 a Ha) as Hp. unfold parse_ipv4 in Hp.
  destruct (15 <? len (show_ipv4 a)); [done|].
  destruct (read_ipv4_addr (show_ipv4 a)) as [[v [|]]|]; by simplify_eq/=.
Qed.

Lemma of_segments_mapped a :
  0 ≤ a < 2 ^ 32 → of_segments [0; 0; 0; 0; 0; 65535; Z.shiftr a 16; Z.land a 65535] = 0xffff * 2 ^ 32 + a.
Proof.
  intros Ha. change (of_segments [0; 0; 0; 0; 0; 65535; Z.shiftr a 16; Z.land a 65535])
    with (Z.lor (Z.shiftl (Z.lor (Z.shiftl 65535 16) (Z.shiftr a 16)) 16) (Z.land a 65535)).
  replace (Z.land a 65535) with (a mod 2 ^ 16) by (by rewrite <-Z.land_ones). rewrite Z.shiftr_div_pow2 by done.
  rewrite !lor_shiftl_add by (try apply Z.mod_pos_bound; dlia). dlia.
Qed.

Lemma read_mapped a : 0 ≤ a < 2 ^ 32 →
  read_ipv6_addr (u "::ffff:" ++ show_ipv4 a) = Some (0xffff * 2 ^ 32 + a, []).
Proof.
  intros Ha. rewrite <-of_segments_mapped by done. pose proof (read_show_ipv4 a Ha) as Hr.
  generalize dependent (show_ipv4 a). intros s Hr. unfold read_ipv6_addr.
  change (read_groups 8 true (u "::ffff:" ++ s)) with (@nil Z, false, u "::ffff:" ++ s).
  cbv beta iota. cbn [length]. rewrite decide_False by lia. change (u "::ffff:" ++ s) with (58 :: 58 :: u "ffff:" ++ s).
  cbn [read_char mbind option_bind Nat.sub]. rewrite !Z.eqb_refl. cbn [read_char mbind option_bind].
  rewrite !Z.eqb_refl. cbn [mbind option_bind].
  assert (read_groups 7 true (u "ffff:" ++ s) = ([65535; Z.shiftr a 16; Z.land a 65535], true, [])) as ->; [|done].
  change (u "ffff:" ++ s) with (hex 65535 ++ 58 :: s). cbn [read_groups].
  rewrite decide_False by lia.
  assert (read_separator 58 true read_ipv4_addr (hex 65535 ++ 58 :: s) = None) as -> by reflexivity.
  cbn [read_separator]. rewrite read_group by (by (unfold is_group; lia) || by right; eexists).
  rewrite decide_False by lia. cbn [read_char mbind option_bind]. rewrite Z.eqb_refl. cbn [mbind option_bind].
  by rewrite Hr.
Qed.

Lemma read_show_ipv6 a : 0 ≤ a < 2 ^ 128 → read_ipv6_addr (show_ipv6 a) = Some (a, []).
Proof.
  intros Ha. unfold show_ipv6. destruct (Z.eqb_spec (Z.shiftr a 32) 0xffff) as [Hm|_].
  { rewrite Z.shiftr_div_pow2 in Hm by done. change 0xffffffff with (Z.ones 32).
    rewrite Z.land_ones, read_mapped by (done || by apply Z.mod_pos_bound). do 2 f_equal. dlia. }
  destruct (segments_groups a) as [Hlen Hg]. replace (Some (a, @nil Z)) with (Some (of_segments (segments a), @nil Z)) by by rewrite of_segments_segments.
  set (ss := segments a) in *.
  pose proof (longest_zeros_run [] ss (0, 0) (0, 0)) as Hrun.
  change (zlen []) with 0 in Hrun. cbn [app] in Hrun.
  assert (zero_run ss 0 (0, 0)) as H0 by (split_and!; cbn [fst snd]; lia).
  specialize (Hrun H0 H0 ltac:(cbn; lia)). destruct (longest_zeros 0 ss (0, 0) (0, 0)) as [start n].
  destruct (Z.ltb_spec 1 n).
  - pose proof (cut_zeros ss start n Hrun) as Hcut. destruct Hrun as (H1 & H2 & H3 & _). cbn [fst snd] in *.
    unfold zlen in H3. set (hd := take (Z.to_nat start) ss) in *. set (tl := drop (Z.to_nat (start + n)) ss) in *.
    assert (length hd = Z.to_nat start) as Hhd by (unfold hd; rewrite length_take; lia).
    assert (length tl = (8 - Z.to_nat (start + n))%nat) as Htl by (unfold tl; rewrite length_drop; lia).
    assert (Forall is_group hd ∧ Forall is_group tl) as [Hgh Hgt] by (split; [by apply Forall_take|by apply Forall_drop]).
    assert (46 ∉ join_hex tl) as Hdot by (by apply (groups_no_dot true tl []) in Hgt; [rewrite app_nil_r in Hgt|split; [left|apply not_elem_of_nil]]).
    unfold read_ipv6_addr.
    pose proof (read_groups_text 8 true hd (u "::" ++ join_hex tl) Hgh) as Hr1. cbn [groups_text] in Hr1.
    rewrite Hr1 by first [lia|split; [right; by eexists|change (46 ∉ 58 :: 58 :: join_hex tl); rewrite !not_elem_of_cons; done]].
    rewrite decide_False by lia. change (u "::" ++ join_hex tl) with (58 :: 58 :: join_hex tl).
    cbn [read_char mbind option_bind]. rewrite !Z.eqb_refl. cbn [read_char mbind option_bind].
    rewrite !Z.eqb_refl. cbn [mbind option_bind].
    pose proof (read_groups_text (7 - length hd) true tl [] Hgt) as Hr2. cbn [groups_text] in Hr2.
    rewrite app_nil_r in Hr2. rewrite Hr2 by first [lia|split; [by left|apply not_elem_of_nil]].
    replace (8 - length hd - length tl)%nat with (Z.to_nat n) by lia. by rewrite Hcut at 1.
  - unfold read_ipv6_addr. pose proof (read_groups_text 8 true ss [] Hg) as Hr. cbn [groups_text] in Hr.
    rewrite app_nil_r in Hr. rewrite Hr by first [lia|split; [by left|apply not_elem_of_nil]]. by rewrite decide_True.
Qed.

(** Parsing a printed address gives it back, for both families. *)
Definition parse_as (v6 : bool) (s : str) : option IpAddr :=
  if v6 then V6 <$> parse_ipv6 s else V4 <$> parse_ipv4 s.

Lemma parse_show_ip ip : wf_ip ip → parse_as (is_ipv6 ip) (show_ip ip) = Some ip.
Proof.
  destruct ip as [a|a]; cbn [is_ipv6 show_ip parse_as wf_ip]; intros Ha; [by rewrite parse_show_ipv4|].
  unfold parse_ipv6. by rewrite read_show_ipv6.
Qed.

(** A printed address holds no slash, so one can follow it. *)
Lemma show_ipv4_no_slash a : 47 ∉ show_ipv4 a.
Proof.
  unfold show_ipv4. pose proof (be_bytes_byte 4 a) as Hb.
  destruct (be_bytes 4 a) as [|a0 [|a1 [|a2 [|a3 []]]]]; try apply not_elem_of_nil.
  rewrite !Forall_cons in Hb. unfold is_byte in Hb. destruct Hb as (? & ? & ? & ? & _).
  rewrite !not_elem_of_app, !not_elem_of_cons, !not_elem_of_app, !not_elem_of_cons, !not_elem_of_app, !not_elem_of_cons.
  assert (∀ n, 0 ≤ n → 47 ∉ dec n) as Hd by (intros n Hn; apply dec_not_in; lia).
  split_and!; try (apply Hd; lia); lia.
Qed.

Lemma join_hex_no_slash gs : Forall is_group gs → 47 ∉ join_hex gs.
Proof.
  intros [|g gs' Hg Hgs]; [apply not_elem_of_nil|]. rewrite join_hex_cons, not_elem_of_app. split.
  - intros Hin. by destruct (hex_no_sep g 47 Hg Hin) as (_ & ? & _).
  - intros Hin. by destruct (more_groups_chars gs' 47 Hgs Hin).
Qed.

Lemma show_ip_no_slash ip : 47 ∉ show_ip ip.
Proof.
  destruct ip as [a|a]; cbn [show_ip]; [apply show_ipv4_no_slash|]. unfold show_ipv6.
  destruct (_ =? 0xffff).
  { rewrite not_elem_of_app. split; [by vm_compute; set_solver|apply show_ipv4_no_slash]. }
  destruct (segments_groups a) as [_ Hg]. destruct (longest_zeros _ _ _ _) as [start n].
  destruct (1 <? n); [|by apply join_hex_no_slash].
  rewrite !not_elem_of_app. split_and!; [by apply join_hex_no_slash, Forall_take| |by apply join_hex_no_slash, Forall_drop].
  change (47 ∉ [58; 58]). rewrite !not_elem_of_cons. split_and!; [lia..|apply not_elem_of_nil].
Qed.
