(* ===== verification/Config.v ===== *)
(** * Errors, proxy configurations and callbacks

    [error.rs], [config.rs], [callback.rs] and the enums of [rule.rs] that the
    callbacks carry. *)

From S2P Require Export Net.
Local Open Scope Z_scope.

(** ** [error.rs] *)

(** [std::net::AddrParseError] of a socket-address parse. *)
Inductive AddrParseError : Type := AddrParseSocket.

Inductive Error : Type :=
  | InvalidAddress (input : str) (source : AddrParseError)
  | Config (msg : str)
  | MissingProxyConfig
  | WintunLoad (msg : str)
  | AdapterCreate (name reason : str)
  | SessionStart (msg : str)
  | NetConfig (op : str) (source : io_error)
  | NotElevated
  | AlreadyRunning
  | NotRunning
  | Io (source : io_error).

#[export] Instance Error_eq_dec : EqDecision Error.
Proof.
  assert (EqDecision AddrParseError) by solve_decision. solve_decision.
Defined.

Definition config_error (msg : str) : Error := Config msg.
Definition netcfg_error (op : str) (source : io_error) : Error := NetConfig op source.

(** ** [config.rs] *)

Inductive ProxyType : Type := Http | Socks5.
#[export] Instance ProxyType_eq_dec : EqDecision ProxyType.
Proof. solve_decision. Defined.

Record ProxyConfig : Type := MkProxyConfig {
  config_id : Z;
  proxy_type : ProxyType;
  host : str;
  port : Z;
  username : option str;
  password : option str;
  send_domain_to_proxy : bool
}.

Definition http (h : str) (p : Z) : ProxyConfig := MkProxyConfig 0 Http h p None None true.
Definition socks5 (h : str) (p : Z) : ProxyConfig := MkProxyConfig 0 Socks5 h p None None true.

Definition with_auth (c : ProxyConfig) (user pass : str) : ProxyConfig :=
  MkProxyConfig (config_id c) (proxy_type c) (host c) (port c)
    (Some user) (Some pass) (send_domain_to_proxy c).
Definition resolve_on_proxy (c : ProxyConfig) (enable : bool) : ProxyConfig :=
  MkProxyConfig (config_id c) (proxy_type c) (host c) (port c)
    (username c) (password c) enable.
(** The assignment [cfg.config_id = id] of the builder. *)
Definition set_config_id (c : ProxyConfig) (id : Z) : ProxyConfig :=
  MkProxyConfig id (proxy_type c) (host c) (port c)
    (username c) (password c) (send_domain_to_proxy c).

Definition validate (c : ProxyConfig) : result Error unit :=
  if is_empty (trim (host c)) then Err (config_error (u "proxy host must not be empty"))
  else if port c =? 0 then Err (config_error (u "proxy port must not be zero"))
  else Ok tt.

(** ** [callback.rs] *)

Inductive RuleAction : Type := Proxy | Direct | Block.
#[export] Instance RuleAction_eq_dec : EqDecision RuleAction.
Proof. solve_decision. Defined.

Record ConnectionInfo : Type := MkConnectionInfo {
  ci_process_name : str;
  ci_pid : Z;
  ci_dest_ip : IpAddr;
  ci_dest_port : Z;
  ci_action : RuleAction;
  ci_proxy_info : str
}.

(** ** Lemmas *)

(** [validate] accepts exactly the configurations with a host that is not
    blank and a non-zero port. *)
Lemma validate_ok c : validate c = Ok tt ↔ trim (host c) ≠ [] ∧ port c ≠ 0.
Proof.
  unfold validate. destruct (trim (host c)); simpl; [naive_solver|].
  destruct (Z.eqb_spec (port c) 0); naive_solver.
Qed.

Lemma validate_set_config_id c id : validate (set_config_id c id) = validate c.
Proof. done. Qed.
