(* ===== verification/Platform.v ===== *)
(** * The platform seam ([platform/mod.rs])

    The tunnel constants, the physical interface, and the interface
    [ProcessTable] the netstack is written and proved against; [Attributed] gives
    its instances.  The other interface, [Backend], is in [Host]. *)

From S2P Require Export Config.
Local Open Scope Z_scope.

Definition TUN_IPV4 : Z := ipv4 10 63 7 1.
Definition TUN_IPV4_PREFIX : Z := 24.
Definition TUN_IPV6 : Z := of_segments [0xfd00; 0x0ace; 0x0007; 0; 0; 0; 0; 1].
Definition TUN_IPV6_PREFIX : Z := 64.
Definition TUN_MTU : Z := 1500.

Definition V4_SPLIT_DEFAULT : list (Z * Z) := [(ipv4 0 0 0 0, 1); (ipv4 128 0 0 0, 1)].
Definition V6_SPLIT_DEFAULT : list (Z * Z) :=
  [(of_segments [0; 0; 0; 0; 0; 0; 0; 0], 1);
   (of_segments [0x8000; 0; 0; 0; 0; 0; 0; 0], 1)].

(** ** [PhysicalInterface] *)

Record PhysicalInterface : Type := MkPhysicalInterface {
  v4_index : option Z;
  v6_index : option Z
}.
#[export] Instance PhysicalInterface_eq_dec : EqDecision PhysicalInterface.
Proof. solve_decision. Defined.

(** [PhysicalInterface::default()] *)
Definition default_interface : PhysicalInterface := MkPhysicalInterface None None.

Definition index_for (i : PhysicalInterface) (dest : IpAddr) : option Z :=
  match dest with V4 _ => v4_index i | V6 _ => v6_index i end.

Definition interface_is_empty (i : PhysicalInterface) : bool :=
  match v4_index i, v6_index i with None, None => true | _, _ => false end.

(** ** Interfaces *)

(** [ProcessTable]: attribution of a flow to a process. *)
Class ProcessTable : Type := {
  resolve_pid : SocketAddr → SocketAddr → bool → option Z;
  process_name : Z → option str
}.

(** ** Longest-prefix matching, as the routing strategy relies on it *)

Definition addr_bits (ip : IpAddr) : Z := match ip with V4 _ => 32 | V6 _ => 128 end.
Definition addr_value (ip : IpAddr) : Z := match ip with V4 a | V6 a => a end.

(** A route [(net, len)] carries [ip] when the first [len] bits agree. *)
Definition in_prefix (net len : Z) (ip : IpAddr) : bool :=
  Z.shiftr (addr_value ip) (addr_bits ip - len) =? Z.shiftr net (addr_bits ip - len).

Definition split_default (ip : IpAddr) : list (Z * Z) :=
  match ip with V4 _ => V4_SPLIT_DEFAULT | V6 _ => V6_SPLIT_DEFAULT end.
