(* ===== verification/Rule.v ===== *)
(** * The rule engine ([rule.rs])

    Rules, their compilation, and the evaluation of a connection.  The [regex]
    crate is external: the class [RegexEngine] is its surface as the crate
    calls it, and [GlobLaws] states the documented behaviour the engine relies
    on.  Slicing a [&str] at a byte offset panics off a character boundary, so
    the operations that go through [strip_exe_suffix] return an [outcome]. *)

From S2P Require Export Config.
Local Open Scope Z_scope.

(** [regex::Regex::new], [Regex::is_match] and [regex::escape]. *)
Class RegexEngine : Type := {
  Regex : Type;
  regex_new : str → option Regex;
  is_match : Regex → str → bool;
  regex_escape : str → str
}.

(** ** Rules *)

Inductive RuleProtocol : Type := Tcp | Udp | Both.
#[export] Instance RuleProtocol_eq_dec : EqDecision RuleProtocol.
Proof. solve_decision. Defined.

(** [RuleProtocol::matches] *)
Definition protocol_matches (p : RuleProtocol) (is_udp : bool) : bool :=
  match p with Both => true | Tcp => negb is_udp | Udp => is_udp end.

Record Rule : Type := MkRule {
  process_names : str;
  hosts : str;
  ports : str;
  domains : str;
  except_hosts : option str;
  protocol : RuleProtocol;
  action : RuleAction;
  proxy_config_id : Z
}.

Definition rule_new (names : str) : Rule :=
  MkRule names (u "*") (u "*") (u "*") None Both Direct 0.

(** The builder methods of [Rule]. *)
Definition with_hosts (r : Rule) (h : str) : Rule :=
  MkRule (process_names r) h (ports r) (domains r) (except_hosts r) (protocol r) (action r) (proxy_config_id r).
Definition with_ports (r : Rule) (p : str) : Rule :=
  MkRule (process_names r) (hosts r) p (domains r) (except_hosts r) (protocol r) (action r) (proxy_config_id r).
Definition with_domains (r : Rule) (d : str) : Rule :=
  MkRule (process_names r) (hosts r) (ports r) d (except_hosts r) (protocol r) (action r) (proxy_config_id r).
Definition with_except (r : Rule) (h : str) : Rule :=
  MkRule (process_names r) (hosts r) (ports r) (domains r) (Some h) (protocol r) (action r) (proxy_config_id r).
Definition with_protocol (r : Rule) (p : RuleProtocol) : Rule :=
  MkRule (process_names r) (hosts r) (ports r) (domains r) (except_hosts r) p (action r) (proxy_config_id r).
Definition with_action (r : Rule) (a : RuleAction) : Rule :=
  MkRule (process_names r) (hosts r) (ports r) (domains r) (except_hosts r) (protocol r) a (proxy_config_id r).
Definition with_proxy_config (r : Rule) (id : Z) : Rule :=
  MkRule (process_names r) (hosts r) (ports r) (domains r) (except_hosts r) (protocol r) (action r) id.

Definition action_kind (r : Rule) : RuleAction := action r.

Record RuleMatch : Type := MkRuleMatch { rm_action : RuleAction; rm_proxy_config_id : Z }.

(** ** Token lists *)

Definition is_match_all (lst : str) : bool :=
  let t := trim lst in
  is_empty t || str_eqb t (u "*") || eq_ignore_ascii_case t (u "ANY").

Definition split_list (lst : str) : list str :=
  List.filter (λ s, negb (is_empty s))
    (map trim (split (λ c, (c =? 59) || (c =? 44)) lst)).

Definition SUFFIX : str := u ".exe".

Definition strip_exe_suffix (token : str) : outcome str :=
  if len SUFFIX <=? len token then
    '(pre, suf) ← split_at token (len token - len SUFFIX);
    mret (if eq_ignore_ascii_case suf SUFFIX then pre else token)
  else mret token.

(** ** IP and port patterns *)

Fixpoint match_octets (parts : list str) (os : list Z) : bool :=
  match parts, os with
  | part :: parts', octet :: os' =>
    if str_eqb part (u "*") then match_octets parts' os'
    else match parse_u8 part with
    | Some v => if v =? octet then match_octets parts' os' else false
    | None => false
    end
  | _, _ => true
  end.

Definition match_ipv4_pattern (pattern : str) (ip : Z) : bool :=
  if contains pattern 58 then false
  else match split_once pattern 45 with
  | Some (start, stop) =>
    match parse_ipv4 (trim start), parse_ipv4 (trim stop) with
    | Some s, Some e => (s <=? ip) && (ip <=? e)
    | _, _ => false
    end
  | None =>
    let parts := split (Z.eqb 46) pattern in
    if negb (length parts =? 4)%nat then false
    else match_octets parts (octets (V4 ip))
  end.

Definition U128_MAX : Z := 2 ^ 128 - 1.

Definition match_ipv6_pattern (pattern : str) (ip : Z) : bool :=
  if str_eqb pattern (u "*") then true
  else if negb (contains pattern 58) then false
  else match split_once pattern 47 with
  | Some (net, prefix) =>
    match parse_ipv6 (trim net), parse_u32 (trim prefix) with
    | Some net_bits, Some prefix_len =>
      if 128 <? prefix_len then false
      else if prefix_len =? 0 then true
      else
        let mask := Z.land (Z.shiftl U128_MAX (128 - prefix_len)) U128_MAX in
        Z.land net_bits mask =? Z.land ip mask
    | _, _ => false
    end
  | None =>
    match split_once pattern 45 with
    | Some (start, stop) =>
      match parse_ipv6 (trim start), parse_ipv6 (trim stop) with
      | Some s, Some e => (s <=? ip) && (ip <=? e)
      | _, _ => false
      end
    | None => match parse_ipv6 (trim pattern) with Some a => a =? ip | None => false end
    end
  end.

Definition match_ip_pattern (pattern : str) (ip : IpAddr) : bool :=
  if str_eqb pattern (u "*") then true
  else match ip with
  | V4 a => match_ipv4_pattern pattern a
  | V6 a => match_ipv6_pattern pattern a
  end.

Definition match_ip_list (lst : str) (ip : IpAddr) : bool :=
  if is_match_all lst then true
  else existsb (λ tok, match_ip_pattern tok ip) (split_list lst).

Definition match_port_pattern (pattern : str) (port : Z) : bool :=
  if str_eqb pattern (u "*") then true
  else match split_once pattern 45 with
  | Some (start, stop) =>
    match parse_u16 (trim start), parse_u16 (trim stop) with
    | Some s, Some e => (s <=? port) && (port <=? e)
    | _, _ => false
    end
  | None => match parse_u16 (trim pattern) with Some p => p =? port | None => false end
  end.

Definition match_port_list (lst : str) (port : Z) : bool :=
  if is_match_all lst then true
  else existsb (λ tok, match_port_pattern tok port) (split_list lst).

(** ** Compilation *)

Section Engine.
Context `{RegexEngine}.

(** The regular expression text [compile_glob] builds. *)
Definition glob_fragment (ch : Z) : str :=
  if ch =? 42 then u ".*" else if ch =? 63 then u "." else regex_escape [ch].
Definition glob_pattern (glob : str) : str :=
  u "(?i)^" ++ concat (map glob_fragment glob) ++ u "$".
Definition compile_glob (glob : str) : option Regex := regex_new (glob_pattern glob).

Definition compile_glob_list (lst : str) : list Regex :=
  if is_match_all lst then [] else omap compile_glob (split_list lst).

Definition compile_process_list (lst : str) : outcome (list Regex) :=
  if is_match_all lst then mret []
  else toks ← mapM strip_exe_suffix (split_list lst); mret (omap compile_glob toks).

Record CompiledRule : Type := MkCompiledRule {
  process_matchers : list Regex;
  process_wildcard : bool;
  c_hosts : str;
  hosts_all : bool;
  c_ports : str;
  ports_all : bool;
  domain_matchers : list Regex;
  domains_all : bool;
  c_except_hosts : option str;
  c_protocol : RuleProtocol;
  c_action : RuleAction;
  c_proxy_config_id : Z
}.

Definition compile (r : Rule) : outcome CompiledRule :=
  pm ← compile_process_list (process_names r);
  mret (MkCompiledRule pm (is_match_all (process_names r))
    (hosts r) (is_match_all (hosts r)) (ports r) (is_match_all (ports r))
    (compile_glob_list (domains r)) (is_match_all (domains r))
    (except_hosts r) (protocol r) (action r) (proxy_config_id r)).

Record RuleSet : Type := MkRuleSet { rules : list CompiledRule; has_domain_rules : bool }.

Definition ruleset_new (rs : list Rule) : outcome RuleSet :=
  compiled ← mapM compile rs;
  mret (MkRuleSet compiled (existsb (λ r, negb (domains_all r)) compiled)).

Definition needs_domain_resolution (s : RuleSet) : bool := has_domain_rules s.

Definition ruleset_is_empty (s : RuleSet) : bool :=
  match rules s with [] => true | _ => false end.

(** ** Evaluation *)

Definition as_match (r : CompiledRule) : RuleMatch :=
  MkRuleMatch (c_action r) (c_proxy_config_id r).

Definition matches_process (r : CompiledRule) (process_name : str) : outcome bool :=
  if process_wildcard r then mret true
  else name ← strip_exe_suffix process_name;
       mret (existsb (λ m, is_match m name) (process_matchers r)).

Definition matches_domain (r : CompiledRule) (domain : option str) : bool :=
  match domain with
  | Some d => existsb (λ m, is_match m d) (domain_matchers r)
  | None => false
  end.

Definition excepted (r : CompiledRule) (dest : IpAddr) : bool :=
  match c_except_hosts r with Some ex => match_ip_list ex dest | None => false end.

Definition matches_target (r : CompiledRule) (dest : IpAddr) (dest_port : Z)
    (domain : option str) : bool :=
  if excepted r dest then false
  else (hosts_all r || match_ip_list (c_hosts r) dest)
    && (ports_all r || match_port_list (c_ports r) dest_port)
    && (domains_all r || matches_domain r domain).

(** The [filtered] condition of the loop in [evaluate]. *)
Definition filtered (r : CompiledRule) : bool :=
  negb (hosts_all r) || negb (ports_all r) || negb (domains_all r)
  || bool_decide (is_Some (c_except_hosts r)).

Fixpoint evaluate_loop (rs : list CompiledRule) (fallback : option CompiledRule)
    (process_name : str) (dest : IpAddr) (dest_port : Z) (is_udp : bool)
    (domain : option str) : outcome RuleMatch :=
  match rs with
  | [] =>
    mret (match fallback with Some r => as_match r | None => MkRuleMatch Direct 0 end)
  | r :: rs' =>
    if negb (protocol_matches (c_protocol r) is_udp) then
      evaluate_loop rs' fallback process_name dest dest_port is_udp domain
    else if process_wildcard r then
      if filtered r then
        if matches_target r dest dest_port domain then mret (as_match r)
        else evaluate_loop rs' fallback process_name dest dest_port is_udp domain
      else
        evaluate_loop rs' (match fallback with None => Some r | Some _ => fallback end)
          process_name dest dest_port is_udp domain
    else
      p ← matches_process r process_name;
      if (p : bool) && matches_target r dest dest_port domain then mret (as_match r)
      else evaluate_loop rs' fallback process_name dest dest_port is_udp domain
  end.

Definition evaluate (s : RuleSet) (process_name : str) (dest : IpAddr) (dest_port : Z)
    (is_udp : bool) (domain : option str) : outcome RuleMatch :=
  evaluate_loop (rules s) None process_name dest dest_port is_udp domain.

(** ** Specification of evaluation

    The priority order the module documentation promises, without a loop: the
    first rule that matches and is not the all-wildcard fallback; failing that
    the first fallback; failing that [Direct]. *)

Definition rule_applies (name : str) (dest : IpAddr) (dest_port : Z) (is_udp : bool)
    (domain : option str) (r : CompiledRule) : bool :=
  protocol_matches (c_protocol r) is_udp
  && (if process_wildcard r then filtered r else existsb (λ m, is_match m name) (process_matchers r))
  && matches_target r dest dest_port domain.

Definition is_fallback (is_udp : bool) (r : CompiledRule) : bool :=
  protocol_matches (c_protocol r) is_udp && process_wildcard r && negb (filtered r).

Definition evaluate_spec (s : RuleSet) (name : str) (dest : IpAddr) (dest_port : Z)
    (is_udp : bool) (domain : option str) : RuleMatch :=
  match List.find (rule_applies name dest dest_port is_udp domain) (rules s) with
  | Some r => as_match r
  | None =>
    match List.find (is_fallback is_udp) (rules s) with
    | Some r => as_match r
    | None => MkRuleMatch Direct 0
    end
  end.

End Engine.

(** ** Globs, as regular expressions

    The expression [compile_glob] builds is a sequence of fragments: an escaped
    literal, [.] or [.*].  [frag_match] is the regular-expression semantics of
    such a sequence under [(?i)] on ASCII text, anchored at both ends. *)

Inductive frag : Type := FLit (c : Z) | FOne | FMany.

Definition glob_frag (ch : Z) : frag :=
  if ch =? 42 then FMany else if ch =? 63 then FOne else FLit ch.

Inductive frag_match : list frag → str → Prop :=
  | fm_nil : frag_match [] []
  | fm_lit c d fs s :
      ascii_lower c = ascii_lower d → frag_match fs s → frag_match (FLit c :: fs) (d :: s)
  | fm_one d fs s : frag_match fs s → frag_match (FOne :: fs) (d :: s)
  | fm_stop fs s : frag_match fs s → frag_match (FMany :: fs) s
  | fm_more d fs s : frag_match (FMany :: fs) s → frag_match (FMany :: fs) (d :: s).

Definition frag_text `{RegexEngine} (f : frag) : str :=
  match f with FLit c => regex_escape [c] | FOne => u "." | FMany => u ".*" end.

Definition ascii_frag (f : frag) : Prop :=
  match f with FLit c => is_ascii_char c | _ => True end.
(** ASCII text on one line. *)
Definition plain (s : str) : Prop := is_ascii s ∧ 10 ∉ s.
#[export] Instance plain_dec s : Decision (plain s).
Proof. unfold plain, is_ascii. apply _. Defined.

(** What the engine relies on of the [regex] crate: a sequence of at most 255
    ASCII fragments compiles, and matches plain text as [frag_match] says. *)
Class GlobLaws `{RegexEngine} : Prop :=
  regex_glob : ∀ fs, Forall ascii_frag fs → (length fs ≤ 255)%nat →
    ∃ r : Regex, regex_new (u "(?i)^" ++ concat (map frag_text fs) ++ u "$") = Some r
       ∧ (∀ s, plain s → (is_match r s = true ↔ frag_match fs s)).

(** A token of a process list as the rules are written. *)
Definition is_token (t : str) : Prop := trim t = t ∧ t ≠ [] ∧ (59 ∉ t) ∧ (44 ∉ t).
#[export] Instance is_token_dec t : Decision (is_token t).
Proof. unfold is_token. apply _. Defined.

Fixpoint join (sep : Z) (ts : list str) : str :=
  match ts with
  | [] => []
  | [t] => t
  | t :: ts' => t ++ sep :: join sep ts'
  end.

(** ** A regular-expression engine for this fragment

    An instance of [RegexEngine] that satisfies [GlobLaws]: it reads the text
    back into fragments. *)
Module MiniRegex.

Definition meta : str := u "\.+*?()|[]{}^$#&-~".
Definition escape (s : str) : str :=
  concat (map (λ c, if contains meta c then [92; c] else [c]) s).

Fixpoint read (s : str) : option (list frag) :=
  match s with
  | [] => None
  | c :: s1 =>
    if c =? 36 then (if is_empty s1 then Some [] else None)
    else if c =? 46 then
      match s1 with
      | d :: s2 => if d =? 42 then cons FMany <$> read s2 else cons FOne <$> read s1
      | [] => None
      end
    else if c =? 92 then
      match s1 with d :: s2 => cons (FLit d) <$> read s2 | [] => None end
    else if contains meta c then None
    else cons (FLit c) <$> read s1
  end.

Definition new (s : str) : option (list frag) :=
  body ← strip_prefix s (u "(?i)^"); read body.

Fixpoint run (fs : list frag) (s : str) : bool :=
  match fs with
  | [] => is_empty s
  | FLit c :: fs' =>
    match s with d :: s' => (ascii_lower c =? ascii_lower d) && run fs' s' | [] => false end
  | FOne :: fs' => match s with _ :: s' => run fs' s' | [] => false end
  | FMany :: fs' =>
    (fix many s := run fs' s || (match s with [] => false | _ :: s' => many s' end)) s
  end.

#[export] Instance engine : RegexEngine :=
  {| Regex := list frag; regex_new := new; is_match := run; regex_escape := escape |}.

End MiniRegex.

(** ** The engine satisfies its laws *)

Lemma mini_run_spec fs s : MiniRegex.run fs s = true ↔ frag_match fs s.
Proof.
  split.
  - revert s. induction fs as [|[c| |] fs IH]; intros s.
    + destruct s; [constructor|done].
    + destruct s as [|d s]; [done|]. simpl. intros [?%Z.eqb_eq ?]%andb_true_iff.
      constructor; auto.
    + destruct s as [|d s]; [done|]. simpl. constructor; auto.
    + induction s as [|d s IHs]; simpl; intros [H|H]%orb_true_iff; try done.
      * apply fm_stop; auto.
      * apply fm_stop; auto.
      * apply fm_more. apply IHs, H.
  - induction 1 as [|c d fs s Hc _ IH|d fs s _ IH|fs s _ IH|d fs s _ IH]; simpl; try done.
    + by rewrite Hc, Z.eqb_refl, IH.
    + destruct s; simpl in *; by rewrite IH.
    + apply orb_true_iff. by right.
Qed.

Lemma mini_read_lit c t : MiniRegex.read (MiniRegex.escape [c] ++ t) = cons (FLit c) <$> MiniRegex.read t.
Proof.
  unfold MiniRegex.escape. cbn [map]. destruct (contains MiniRegex.meta c) eqn:E; [reflexivity|].
  assert (c ∉ MiniRegex.meta) as Hn by (rewrite <-contains_spec; congruence).
  assert (c ≠ 36 ∧ c ≠ 46 ∧ c ≠ 92) as (H1%Z.eqb_neq & H2%Z.eqb_neq & H3%Z.eqb_neq).
  { split_and!; intros ->; apply Hn, contains_spec; by vm_compute. }
  cbn [concat app MiniRegex.read]. by rewrite H1, H2, H3, E.
Qed.

Lemma mini_text_not_star fs t :
  concat (map (frag_text (H:=MiniRegex.engine)) fs) ++ u "$" ≠ 42 :: t.
Proof.
  destruct fs as [|[c| |] fs]; try done. cbn [map concat frag_text regex_escape MiniRegex.engine]. unfold MiniRegex.escape.
  cbn [map]. destruct (contains MiniRegex.meta c) eqn:E; [done|]. intros [= -> _]. done.
Qed.

Lemma mini_read_frags fs :
  MiniRegex.read (concat (map (frag_text (H:=MiniRegex.engine)) fs) ++ u "$") = Some fs.
Proof.
  induction fs as [|f fs IH]; [done|].
  pose proof (mini_text_not_star fs) as Hn.
  simpl concat. rewrite <-app_assoc.
  set (t := concat _ ++ u "$") in *. clearbody t.
  destruct f as [c| |].
  - etransitivity; [apply mini_read_lit|]. by rewrite IH.
  - simpl. destruct t as [|d t]; [done|]. destruct (Z.eqb_spec d 42) as [->|]; [by destruct (Hn t)|].
    by rewrite IH.
  - simpl. by rewrite IH.
Qed.

#[export] Instance mini_laws : GlobLaws (H:=MiniRegex.engine).
Proof.
  intros fs _ _. exists fs. split; [|intros s _; apply mini_run_spec].
  cbn [regex_new MiniRegex.engine]. unfold MiniRegex.new, strip_prefix.
  rewrite starts_with_app. cbn [mbind option_bind].
  rewrite drop_app_length. apply mini_read_frags.
Qed.

(** ** Lemmas: token lists *)

Lemma token_no_sep t : is_token t → Forall (λ c, (c =? 59) || (c =? 44) = false) t.
Proof.
  intros (_ & _ & H1 & H2). apply Forall_forall. intros c Hc.
  apply orb_false_iff. split; apply Z.eqb_neq; intros ->; contradiction.
Qed.

Lemma split_join ts :
  ts ≠ [] → Forall is_token ts →
  split (λ c, (c =? 59) || (c =? 44)) (join 59 ts) = ts.
Proof.
  intros Hne. induction 1 as [|t ts Ht Hts IH]; [done|]. simpl. destruct ts as [|t' ts].
  - by apply split_none, token_no_sep.
  - rewrite split_app by (done || by apply token_no_sep). by rewrite IH.
Qed.

(** A list is the tokens it was written from. *)
Lemma split_list_join ts :
  ts ≠ [] → Forall is_token ts → split_list (join 59 ts) = ts.
Proof.
  intros Hne Hts. unfold split_list. rewrite split_join by done. clear Hne.
  induction Hts as [|t ts (Htr & Hn & _) _ IH]; [done|]. simpl.
  rewrite Htr. destruct t; [done|]. simpl. by rewrite IH.
Qed.

(** ** Lemmas: [strip_exe_suffix] *)

Lemma strip_exe_panics t :
  strip_exe_suffix t = Panic ↔ 4 ≤ len t ∧ (∀ a b, t = a ++ b → len b ≠ 4).
Proof.
  unfold strip_exe_suffix. change (len SUFFIX) with 4.
  destruct (Z.leb_spec 4 (len t)) as [Hl|Hl]; [|split; [done|lia]].
  destruct (split_at t (len t - 4)) as [[a b]|] eqn:E; simpl.
  - split; [done|]. intros [_ H]. apply split_at_inv in E as [-> Ha].
    destruct (H a b); [done|]. rewrite len_app in Ha. lia.
  - split; [|done]. intros _. split; [done|]. intros a b -> Hb.
    rewrite len_app, Hb in E. replace (len a + 4 - 4) with (len a) in E by lia.
    by rewrite split_at_len in E.
Qed.

Lemma strip_exe_total t :
  (∃ t', strip_exe_suffix t = Done t') ∨ strip_exe_suffix t = Panic.
Proof. destruct (strip_exe_suffix t); eauto. Qed.

Lemma strip_exe_ascii t : is_ascii t → ∃ t', strip_exe_suffix t = Done t'.
Proof.
  intros Ht. unfold strip_exe_suffix. change (len SUFFIX) with 4.
  destruct (Z.leb_spec 4 (len t)); [|by eexists].
  destruct (split_at_ascii t (len t - 4)) as (a & b & ->); [done|lia|]. by eexists.
Qed.

(** A suffix [.exe], in any case, is removed. *)
Lemma strip_exe_app t sfx :
  eq_ignore_ascii_case sfx SUFFIX = true → len sfx = 4 → strip_exe_suffix (t ++ sfx) = Done t.
Proof.
  intros He Hl. unfold strip_exe_suffix. change (len SUFFIX) with 4.
  rewrite len_app, Hl. pose proof (len_nonneg t). bool_lit.
  replace (len t + 4 - 4) with (len t) by lia. rewrite split_at_len. simpl. by rewrite He.
Qed.

Lemma strip_exe_incl t t' : strip_exe_suffix t = Done t' → ∃ s, t = t' ++ s.
Proof.
  unfold strip_exe_suffix. case_match; [|intros [= <-]; exists []; by rewrite app_nil_r].
  destruct (split_at t _) as [[a b]|] eqn:E; [|done]. simpl. apply split_at_inv in E as [-> _].
  destruct (eq_ignore_ascii_case b SUFFIX); intros [= <-]; [by eexists|].
  exists []. by rewrite app_nil_r.
Qed.

(** ** Lemmas: globs *)

Lemma glob_pattern_frags `{RegexEngine} g :
  glob_pattern g = u "(?i)^" ++ concat (map frag_text (map glob_frag g)) ++ u "$".
Proof.
  unfold glob_pattern. do 2 f_equal. rewrite map_map. f_equal. apply map_ext. intros c.
  unfold glob_fragment, glob_frag. repeat case_match; done.
Qed.

Lemma glob_frags_ascii g : is_ascii g → Forall ascii_frag (map glob_frag g).
Proof.
  intros Hg. apply Forall_map. eapply Forall_impl; [exact Hg|]. intros c Hc. simpl.
  unfold glob_frag. by repeat case_match.
Qed.

(** What [compile_glob] makes of an ASCII glob. *)
Lemma compile_glob_spec `{GlobLaws} g :
  is_ascii g → (length g ≤ 255)%nat →
  ∃ r, compile_glob g = Some r
     ∧ ∀ s, plain s → (is_match r s = true ↔ frag_match (map glob_frag g) s).
Proof.
  intros Hg Hl. unfold compile_glob. rewrite glob_pattern_frags.
  apply regex_glob; [by apply glob_frags_ascii|]. by rewrite length_map.
Qed.

Lemma compile_globs_spec `{GlobLaws} gs s :
  Forall (λ g, is_ascii g ∧ (length g ≤ 255)%nat) gs → plain s →
  existsb (λ m, is_match m s) (omap compile_glob gs) = true
    ↔ ∃ g, g ∈ gs ∧ frag_match (map glob_frag g) s.
Proof.
  intros Hgs Hs. induction Hgs as [|g gs [Hg Hl] _ IH]; simpl.
  { split; [done|]. intros (g & Hg & _). by apply not_elem_of_nil in Hg. }
  destruct (compile_glob_spec g Hg Hl) as (r & -> & Hr). simpl.
  rewrite orb_true_iff, Hr, IH by done. split.
  - intros [?|(g' & ? & ?)]; eexists; (split; [|eassumption]); by constructor.
  - intros (g' & [->|Hin]%elem_of_cons & ?); eauto.
Qed.

Definition literal (w : str) : Prop := (42 ∉ w) ∧ (63 ∉ w).

Lemma glob_frag_literal w : literal w → map glob_frag w = map FLit w.
Proof.
  intros [H1 H2]. apply map_ext_in. intros c Hc%list_elem_of_In. unfold glob_frag.
  destruct (Z.eqb_spec c 42) as [->|]; [done|]. by destruct (Z.eqb_spec c 63) as [->|].
Qed.

Lemma frag_match_literal w s :
  frag_match (map FLit w) s ↔ to_ascii_lowercase w = to_ascii_lowercase s.
Proof.
  revert s. induction w as [|c w IH]; intros s; simpl.
  - split; [by inversion 1|]. destruct s; [constructor|done].
  - split.
    + inversion_clear 1. simpl. f_equal; [done|]. by apply IH.
    + destruct s as [|d s]; simpl; [done|]. intros [= ??]. constructor; [done|]. by apply IH.
Qed.

Lemma frag_match_many fs s : frag_match (FMany :: fs) s ↔ ∃ a b, s = a ++ b ∧ frag_match fs b.
Proof.
  split.
  - remember (FMany :: fs) as fs0 eqn:E. induction 1; simplify_eq.
    + by exists [], s.
    + destruct IHfrag_match as (a & b & -> & ?); [done|]. by exists (d :: a), b.
  - intros (a & b & -> & Hb). induction a; simpl; [by constructor|by apply fm_more].
Qed.

(** ** Evaluation *)

Section Evaluation.
Context `{RegexEngine} (process_name : str) (dest : IpAddr) (dest_port : Z)
  (is_udp : bool) (domain : option str).

(** A wildcard rule with a filter, whose filters accept the connection. *)
Definition wildcard_hit (r : CompiledRule) : bool :=
  protocol_matches (c_protocol r) is_udp && process_wildcard r && filtered r
  && matches_target r dest dest_port domain.

Lemma evaluate_loop_spec rs fb name :
  strip_exe_suffix process_name = Done name →
  evaluate_loop rs fb process_name dest dest_port is_udp domain =
    Done match List.find (rule_applies name dest dest_port is_udp domain) rs with
         | Some r => as_match r
         | None =>
           match fb with
           | Some r => as_match r
           | None => match List.find (is_fallback is_udp) rs with
                     | Some r => as_match r | None => MkRuleMatch Direct 0 end
           end
         end.
Proof.
  intros Hn. revert fb. induction rs as [|r rs IH]; intros fb; cbn [evaluate_loop List.find]; [done|].
  unfold rule_applies at 1, is_fallback at 1.
  destruct (protocol_matches (c_protocol r) is_udp); simpl; [|apply IH].
  destruct (process_wildcard r) eqn:Hw; simpl.
  - destruct (filtered r); simpl; [|by rewrite IH; destruct fb].
    destruct (matches_target r dest dest_port domain); [done|apply IH].
  - unfold matches_process. rewrite Hw, Hn. simpl.
    destruct (existsb _ _); simpl; [|apply IH].
    destruct (matches_target r dest dest_port domain); [done|apply IH].
Qed.

Lemma evaluate_loop_panics rs fb :
  strip_exe_suffix process_name = Panic →
  evaluate_loop rs fb process_name dest dest_port is_udp domain = Panic ↔
  ∃ pre r post, rs = pre ++ r :: post ∧ protocol_matches (c_protocol r) is_udp = true
    ∧ process_wildcard r = false ∧ Forall (λ r', wildcard_hit r' = false) pre.
Proof.
  intros Hn. revert fb. induction rs as [|r rs IH]; intros fb; cbn [evaluate_loop].
  { split; [by destruct fb|]. intros ([] & ? & ? & ? & _); done. }
  assert (∀ fb, wildcard_hit r = false →
    (protocol_matches (c_protocol r) is_udp && negb (process_wildcard r)) = false →
    evaluate_loop rs fb process_name dest dest_port is_udp domain = Panic ↔
    ∃ pre r0 post, r :: rs = pre ++ r0 :: post ∧ protocol_matches (c_protocol r0) is_udp = true
      ∧ process_wildcard r0 = false ∧ Forall (λ r', wildcard_hit r' = false) pre) as Hskip.
  { intros fb' Hh Hp. rewrite (IH fb'). split.
    - intros (pre & r0 & post & -> & ? & ? & ?). exists (r :: pre), r0, post. eauto.
    - intros ([|r1 pre] & r0 & post & Heq & H1 & H2 & H3); simplify_eq/=.
      + by rewrite H1, H2 in Hp.
      + inversion H3; subst. eauto 10. }
  unfold wildcard_hit in Hskip at 1.
  destruct (protocol_matches (c_protocol r) is_udp) eqn:Hp; simpl; [|by apply Hskip].
  destruct (process_wildcard r) eqn:Hw; simpl.
  - destruct (filtered r) eqn:Hf; simpl; [|by apply Hskip].
    destruct (matches_target r dest dest_port domain) eqn:Ht; [|by apply Hskip].
    split; [done|]. intros ([|r1 pre] & r0 & post & Heq & H1 & H2 & H3); simplify_eq/=.
    + congruence.
    + inversion H3 as [|?? H4]; subst. unfold wildcard_hit in H4. by rewrite Hp, Hw, Hf, Ht in H4.
  - unfold matches_process. rewrite Hw, Hn. simpl. split; [|done]. intros _.
    exists [], r, rs. eauto.
Qed.

End Evaluation.

(** C1: whenever the process name can be stripped of its suffix, the loop of
    [RuleSet::evaluate] computes the documented priority order: the first rule
    in order that applies and is not fully wildcard; else the first fully
    wildcard rule; else [Direct] with proxy config 0. *)
Theorem evaluate_refines_spec `{RegexEngine} s process_name name dest dest_port is_udp domain :
  strip_exe_suffix process_name = Done name →
  evaluate s process_name dest dest_port is_udp domain
    = Done (evaluate_spec s name dest dest_port is_udp domain).
Proof. intros Hn. by apply (evaluate_loop_spec _ _ _ _ _ (rules s) None). Qed.

(** C29: the exact condition under which evaluating a connection panics: the
    name is at least four bytes long and its last four bytes do not start at a
    character boundary, and some protocol-matching rule with a process filter
    is reached, that is, no filtered wildcard rule before it takes the
    connection. *)
Theorem evaluate_panics_iff `{RegexEngine} s process_name dest dest_port is_udp domain :
  evaluate s process_name dest dest_port is_udp domain = Panic ↔
  (4 ≤ len process_name ∧ (∀ a b, process_name = a ++ b → len b ≠ 4)) ∧
  ∃ pre r post, rules s = pre ++ r :: post
    ∧ protocol_matches (c_protocol r) is_udp = true ∧ process_wildcard r = false
    ∧ Forall (λ r', wildcard_hit dest dest_port is_udp domain r' = false) pre.
Proof.
  rewrite <-strip_exe_panics. destruct (strip_exe_total process_name) as [[n Hn]|Hn].
  - rewrite Hn. unfold evaluate. rewrite (evaluate_loop_spec _ _ _ _ _ _ _ n) by done. naive_solver.
  - unfold evaluate. rewrite evaluate_loop_panics by done. naive_solver.
Qed.

(** ** Process lists *)

Lemma mapM_strip ts :
  Forall is_ascii ts →
  ∃ ts', mapM strip_exe_suffix ts = Done ts'
       ∧ Forall2 (λ t t', strip_exe_suffix t = Done t') ts ts'.
Proof.
  induction 1 as [|t ts Ht _ (ts' & IH & Hf)]; [by exists []|].
  destruct (strip_exe_ascii t Ht) as [t' Ht']. exists (t' :: ts'). simpl.
  rewrite Ht'. simpl. rewrite IH. auto.
Qed.

Lemma mapM_strip_eq ts ts' :
  Forall2 (λ t t', strip_exe_suffix t = Done t') ts ts' → mapM strip_exe_suffix ts = Done ts'.
Proof. induction 1 as [|t t' ts ts' Ht _ IH]; simpl; [done|]. rewrite Ht. simpl. by rewrite IH. Qed.

Lemma compile_wildcard `{RegexEngine} r cr :
  compile r = Done cr → process_wildcard cr = is_match_all (process_names r)
  ∧ compile_process_list (process_names r) = Done (process_matchers cr).
Proof.
  unfold compile. destruct (compile_process_list _) as [pm|]; simpl; [|done].
  by intros [= <-].
Qed.

(** a rule written as a list of ASCII process tokens compiles, and takes a
    process exactly when one of its tokens, without its [.exe], matches the
    process name, without its [.exe], as a case-insensitive glob. *)
Theorem process_list_semantics `{GlobLaws} r toks name n :
  toks ≠ [] →
  Forall (λ t, is_token t ∧ is_ascii t ∧ (length t ≤ 255)%nat) toks →
  process_names r = join 59 toks → is_match_all (process_names r) = false →
  strip_exe_suffix name = Done n → plain n →
  ∃ cr b, compile r = Done cr ∧ matches_process cr name = Done b
    ∧ (b = true ↔ ∃ t t', t ∈ toks ∧ strip_exe_suffix t = Done t'
                        ∧ frag_match (map glob_frag t') n).
Proof.
  intros Hne Htoks Hnames Hall Hn Hp.
  assert (Forall is_ascii toks) as Hasc by (eapply Forall_impl; [exact Htoks|]; naive_solver).
  destruct (mapM_strip toks Hasc) as (toks' & Hm & Hf).
  unfold compile, compile_process_list. rewrite Hall, Hnames, split_list_join, Hm
    by (done || (eapply Forall_impl; [exact Htoks|]; naive_solver)). simpl.
  eexists _, _. split; [done|]. unfold matches_process. simpl.
  rewrite Hn. split; [done|].
  rewrite compile_globs_spec; [|clear -Htoks Hf|done].
  - split; [intros (t' & Hin & Hfm)|intros (t & t' & Hin & Ht & Hfm)].
    + apply list_elem_of_lookup in Hin as [i Hi].
      destruct (Forall2_lookup_r _ _ _ _ _ Hf Hi) as (t & Ht & Hs).
      exists t, t'. split; [by eapply list_elem_of_lookup_2|done].
    + apply list_elem_of_lookup in Hin as [i Hi].
      destruct (Forall2_lookup_l _ _ _ _ _ Hf Hi) as (t'' & Ht'' & Hs).
      exists t'. split; [|done]. apply list_elem_of_lookup. exists i. rewrite Ht in Hs. injection Hs as ->. exact Ht''.
  - induction Hf as [|t t' ts ts' Ht _ IH]; [constructor|].
    inversion Htoks as [|?? (_ & Ha & Hl) Htoks']; subst. constructor; [|by apply IH].
    apply strip_exe_incl in Ht as [s ->]. apply Forall_app in Ha as [Ha _].
    rewrite length_app in Hl. split; [done|lia].
Qed.

Lemma process_list_semantics_witness :
  let r := rule_new (u "brave*;Chrome.exe") in
  ∃ cr b, compile (H:=MiniRegex.engine) r = Done cr
    ∧ matches_process cr (u "chrome") = Done b
    ∧ (b = true ↔ ∃ t t', t ∈ [u "brave*"; u "Chrome.exe"] ∧ strip_exe_suffix t = Done t'
                        ∧ frag_match (map glob_frag t') (u "chrome")).
Proof.
  apply (process_list_semantics (rule_new (u "brave*;Chrome.exe")) [u "brave*"; u "Chrome.exe"]
           (u "chrome") (u "chrome")); concrete.
Defined.

(** the [.exe] suffix is irrelevant on both sides.  For tokens and a name
    that do not themselves end in [.exe], the rule written with the suffix
    compiles to the same matchers as the rule written without it, and takes the
    same processes whether or not the name the platform reports carries it. *)
Theorem exe_suffix_irrelevant `{RegexEngine} toks name cr sfx :
  Forall (λ t, strip_exe_suffix t = Done t) (name :: toks) →
  eq_ignore_ascii_case sfx SUFFIX = true → len sfx = 4 →
  toks ≠ [] → Forall is_token toks → Forall is_token (map (λ t, t ++ sfx) toks) →
  is_match_all (join 59 toks) = false → is_match_all (join 59 (map (λ t, t ++ sfx) toks)) = false →
  compile_process_list (join 59 (map (λ t, t ++ sfx) toks)) = compile_process_list (join 59 toks)
  ∧ matches_process cr (name ++ sfx) = matches_process cr name.
Proof.
  intros [Hn Ht]%Forall_cons He Hl Hne H1 H2 Ha1 Ha2. split.
  - unfold compile_process_list. rewrite Ha1, Ha2, !split_list_join by (done || by destruct toks).
    rewrite (mapM_strip_eq toks toks), (mapM_strip_eq (map _ toks) toks); [done| |].
    + clear -Ht He Hl. induction Ht; constructor; [by apply strip_exe_app|done].
    + by apply Forall_Forall2_diag.
  - unfold matches_process. by rewrite strip_exe_app, Hn.
Qed.

Lemma exe_suffix_irrelevant_witness :
  let R := MiniRegex.engine in
  let cr := MkCompiledRule [] false [] true [] true [] true None Both Proxy 1 in
  compile_process_list (u "chrome.eXe;brave*.eXe") = compile_process_list (u "chrome;brave*")
  ∧ matches_process cr (u "chrome.eXe") = matches_process cr (u "chrome").
Proof.
  intros R cr.
  apply (exe_suffix_irrelevant [u "chrome"; u "brave*"] (u "chrome") cr (u ".eXe"));
    first [concrete | repeat constructor].
Defined.

(** ** Host patterns *)

(** The texts of the IPv4 patterns the documentation lists: four octets, each a
    number or [*], and a range of addresses. *)
Inductive host_entry : Type :=
  | HostOctets (p0 p1 p2 p3 : option Z)
  | HostRange (a b : Z).

Definition octet_text (p : option Z) : str := match p with None => u "*" | Some v => dec v end.
Definition host_text (e : host_entry) : str :=
  match e with
  | HostOctets p0 p1 p2 p3 => join 46 (map octet_text [p0; p1; p2; p3])
  | HostRange a b => show_ipv4 a ++ 45 :: show_ipv4 b
  end.
Definition wf_octet (p : option Z) : Prop := match p with None => True | Some v => is_byte v end.
Definition wf_host (e : host_entry) : Prop :=
  match e with
  | HostOctets p0 p1 p2 p3 => Forall wf_octet [p0; p1; p2; p3]
  | HostRange a b => 0 ≤ a < 2 ^ 32 ∧ 0 ≤ b < 2 ^ 32
  end.
#[export] Instance wf_octet_dec p : Decision (wf_octet p).
Proof. destruct p; apply _. Defined.
#[export] Instance wf_host_dec e : Decision (wf_host e).
Proof. destruct e; apply _. Defined.

Definition octet_matches (p : option Z) (o : Z) : bool :=
  match p with None => true | Some v => v =? o end.
Definition host_matches (ip : IpAddr) (e : host_entry) : bool :=
  match ip with
  | V6 _ => false
  | V4 a =>
    match e with
    | HostOctets p0 p1 p2 p3 =>
      forallb id (zip_with octet_matches [p0; p1; p2; p3] (be_bytes 4 a))
    | HostRange s t => (s <=? a) && (a <=? t)
    end
  end.

(** The characters of these texts: digits, dots, dashes and stars. *)
Definition pattern_char (c : Z) : Prop := 48 ≤ c ≤ 57 ∨ c = 46 ∨ c = 45 ∨ c = 42.
Definition address_char (c : Z) : Prop := 48 ≤ c ≤ 57 ∨ c = 46.

Lemma dec_address n : 0 ≤ n → Forall address_char (dec n).
Proof. intros Hn. eapply Forall_impl; [by apply dec_digits|]. unfold address_char. simpl. lia. Qed.

Lemma show_ipv4_chars a : 0 ≤ a < 2 ^ 32 → Forall address_char (show_ipv4 a).
Proof.
  intros Ha. destruct (ipv4_octets a Ha) as (o0 & o1 & o2 & o3 & Ho & _ & [] & [] & [] & []).
  unfold show_ipv4. rewrite Ho. unfold address_char.
  repeat first [apply Forall_app; split | apply Forall_cons; split | by apply dec_address | lia].
Qed.

Lemma show_ipv4_nonempty a : 0 ≤ a < 2 ^ 32 → show_ipv4 a ≠ [].
Proof.
  intros Ha. destruct (ipv4_octets a Ha) as (o0 & o1 & o2 & o3 & Ho & _).
  unfold show_ipv4. rewrite Ho. by destruct (dec o0).
Qed.

Lemma octet_text_chars p :
  wf_octet p → Forall (λ c, pattern_char c ∧ c ≠ 46 ∧ c ≠ 45) (octet_text p).
Proof.
  destruct p as [v|]; simpl; unfold pattern_char; [|intros _; repeat constructor; vm_compute; auto 6; done].
  intros [Hv _]. eapply Forall_impl; [by apply dec_digits|]. simpl. lia.
Qed.

Lemma join_chars P sep ts : Forall (Forall P) ts → P sep → Forall P (join sep ts).
Proof.
  intros Hts Hs. induction Hts as [|t ts Ht Hts IH]; simpl; [constructor|].
  destruct ts; [done|]. apply Forall_app. auto.
Qed.

Lemma host_text_chars e : wf_host e → Forall pattern_char (host_text e).
Proof.
  assert (∀ s, Forall address_char s → Forall pattern_char s) as Ha.
  { intros s Hs. eapply Forall_impl; [exact Hs|]. unfold address_char, pattern_char. lia. }
  destruct e as [p0 p1 p2 p3|a b]; cbn [wf_host host_text].
  - intros Hp. apply join_chars; [|unfold pattern_char; lia].
    apply Forall_map. eapply Forall_impl; [exact Hp|]. intros p Hw.
    eapply Forall_impl; [by apply octet_text_chars|]. naive_solver.
  - intros [H1 H2]. apply Forall_app. split; [by apply Ha, show_ipv4_chars|].
    constructor; [unfold pattern_char; lia|]. by apply Ha, show_ipv4_chars.
Qed.

Lemma pattern_char_space c : pattern_char c → is_whitespace c = false.
Proof.
  unfold pattern_char, is_whitespace. intros Hc.
  repeat match goal with |- context [Z.eqb ?a ?b] => rewrite (proj2 (Z.eqb_neq a b)) by lia end.
  by bool_lit.
Qed.

Lemma Forall_not_in (P : Z → Prop) d (s : str) : Forall P s → ¬ P d → d ∉ s.
Proof. rewrite Forall_forall. intros H Hd Hin. apply Hd, H, Hin. Qed.

Lemma octet_text_not_star v : 0 ≤ v → str_eqb (dec v) (u "*") = false.
Proof.
  intros Hv. unfold str_eqb. rewrite bool_decide_eq_false. intros He.
  pose proof (dec_digits v Hv) as Hd. rewrite He in Hd. apply Forall_cons in Hd as [Hd _].
  change (48 ≤ 42 ≤ 57) in Hd. lia.
Qed.

Lemma match_octets_spec ps os :
  Forall wf_octet ps →
  match_octets (map octet_text ps) os = forallb id (zip_with octet_matches ps os).
Proof.
  intros Hps. revert os. induction Hps as [|p ps Hp _ IH]; intros [|o os]; try done.
  cbn [map match_octets zip_with forallb]. rewrite IH. destruct p as [v|]; [|done].
  unfold wf_octet, is_byte in Hp. cbn [octet_text]. rewrite octet_text_not_star by lia.
  unfold parse_u8. rewrite parse_dec_small by lia. simpl. by destruct (v =? o).
Qed.

Lemma split_dots ps :
  ps ≠ [] → Forall wf_octet ps → split (Z.eqb 46) (join 46 (map octet_text ps)) = map octet_text ps.
Proof.
  intros Hne. induction 1 as [|p ps Hp Hps IH]; [done|]. cbn [map join].
  assert (Forall (λ c, (46 =? c) = false) (octet_text p)) as Hc.
  { eapply Forall_impl; [by apply octet_text_chars|]. intros c (_ & Hn46 & _). apply Z.eqb_neq. congruence. }
  destruct ps as [|p' ps]; cbn [map]; [by apply split_none|].
  rewrite split_app by done. f_equal. by apply IH.
Qed.

Lemma app_cons_not_star (s t : str) c : s ≠ [] → s ++ c :: t ≠ u "*".
Proof. destruct s as [|d [|]]; [done|by intros _ [= _ ?]|by intros _ [= _ ?]]. Qed.

Lemma octets_no_dash ps : Forall wf_octet ps → 45 ∉ join 46 (map octet_text ps).
Proof.
  intros Hps. apply (Forall_not_in (λ c, c ≠ 45)); [|auto].
  apply join_chars; [|lia]. apply Forall_map. eapply Forall_impl; [exact Hps|]. intros p Hp.
  eapply Forall_impl; [by apply octet_text_chars|]. naive_solver.
Qed.

(** One host pattern, against an IPv4 address. *)
Lemma match_host_v4 e a :
  wf_host e → match_ip_pattern (host_text e) (V4 a) = host_matches (V4 a) e.
Proof.
  intros Hw. pose proof (host_text_chars e Hw) as Hc.
  assert (contains (host_text e) 58 = false) as H58.
  { apply contains_false. eapply Forall_not_in; [exact Hc|]. unfold pattern_char. lia. }
  unfold match_ip_pattern, match_ipv4_pattern.
  destruct e as [p0 p1 p2 p3|s t]; cbn [wf_host host_matches] in *.
  - rewrite H58. cbn [host_text]. set (ps := [p0; p1; p2; p3]) in *.
    replace (str_eqb (join 46 (map octet_text ps)) (u "*")) with false.
    2:{ symmetry. unfold str_eqb. rewrite bool_decide_eq_false. intros He.
        apply (f_equal (λ s, length (split (Z.eqb 46) s))) in He.
        rewrite split_dots in He by done. done. }
    rewrite split_once_None, split_dots by (done || by apply octets_no_dash).
    cbn [length map Nat.eqb negb]. by apply (match_octets_spec ps).
  - rewrite H58. destruct Hw as [Hs Ht]. cbn [host_text].
    replace (str_eqb _ _) with false.
    2:{ symmetry. unfold str_eqb. rewrite bool_decide_eq_false.
        by apply app_cons_not_star, show_ipv4_nonempty. }
    rewrite split_once_app by (eapply Forall_not_in; [by apply show_ipv4_chars|unfold address_char; lia]).
    assert (∀ x, 0 ≤ x < 2 ^ 32 → trim (show_ipv4 x) = show_ipv4 x) as Htr.
    { intros x Hx. apply trim_id. eapply Forall_impl; [by apply show_ipv4_chars|].
      intros c Hcc. apply pattern_char_space. unfold address_char, pattern_char in *. lia. }
    by rewrite !Htr, !parse_show_ipv4.
Qed.

Lemma match_host_v6 e a :
  wf_host e → match_ip_pattern (host_text e) (V6 a) = false.
Proof.
  intros Hw. pose proof (host_text_chars e Hw) as Hc.
  assert (contains (host_text e) 58 = false) as H58.
  { apply contains_false. eapply Forall_not_in; [exact Hc|]. unfold pattern_char. lia. }
  unfold match_ip_pattern, match_ipv6_pattern. rewrite H58.
  destruct (str_eqb (host_text e) (u "*")) eqn:E; [|done].
  unfold str_eqb in E. apply bool_decide_eq_true in E. exfalso.
  destruct e as [p0 p1 p2 p3|s t]; cbn [wf_host host_text] in *.
  - apply (f_equal (λ s, length (split (Z.eqb 46) s))) in E.
    by rewrite split_dots in E.
  - destruct Hw as [Hs _]. by apply app_cons_not_star in E; [|apply show_ipv4_nonempty].
Qed.

Lemma char_not_match_all (lst : str) :
  Forall (λ c, is_whitespace c = false) lst → lst ≠ [] → lst ≠ u "*" →
  Forall (λ c, ascii_lower c ≠ 97) lst → is_match_all lst = false.
Proof.
  intros Hw Hne Hs Ha. unfold is_match_all. rewrite trim_id by done.
  rewrite !orb_false_iff. split_and!.
  - by destruct lst.
  - unfold str_eqb. by rewrite bool_decide_eq_false.
  - unfold eq_ignore_ascii_case. rewrite bool_decide_eq_false. intros He.
    destruct lst as [|c s]; [done|]. apply Forall_cons in Ha as [Ha _].
    unfold to_ascii_lowercase in He. cbn [map] in He. injection He as Hc _. by apply Ha.
Qed.

Definition list_char (c : Z) : Prop := pattern_char c ∨ c = 59.

Lemma list_char_facts c : list_char c → is_whitespace c = false ∧ ascii_lower c ≠ 97.
Proof.
  intros Hc. split.
  - destruct Hc as [Hc| ->]; [by apply pattern_char_space|done].
  - unfold list_char, pattern_char, ascii_lower in *. case_match; lia.
Qed.

(** A list of patterns made of these characters, none of them [*] itself. *)
Lemma pattern_list_tokens ts :
  ts ≠ [] → Forall (λ t, Forall pattern_char t ∧ t ≠ [] ∧ t ≠ u "*") ts →
  split_list (join 59 ts) = ts ∧ is_match_all (join 59 ts) = false.
Proof.
  intros Hne Hts. split.
  - apply split_list_join; [done|]. eapply Forall_impl; [exact Hts|].
    intros t (Hc & Hn & _). repeat split; [|done|eapply Forall_not_in; [done|]..].
    + apply trim_id. eapply Forall_impl; [done|]. apply pattern_char_space.
    + unfold pattern_char. lia.
    + unfold pattern_char. lia.
  - assert (Forall list_char (join 59 ts)) as Hc.
    { apply join_chars; [|by right]. eapply Forall_impl; [exact Hts|].
      intros t (Hc & _). eapply Forall_impl; [exact Hc|]. by left. }
    apply char_not_match_all.
    + eapply Forall_impl; [exact Hc|]. intros c ?. by apply list_char_facts.
    + destruct Hts as [|t [|t' ts] (_ & Hn & _)]; simpl; [done|done|]. by destruct t.
    + destruct Hts as [|t [|t' ts] (_ & Hn & ?)]; simpl; [done|done|]. by apply app_cons_not_star.
    + eapply Forall_impl; [exact Hc|]. intros c ?. by apply list_char_facts.
Qed.

Lemma existsb_map {A B} (f : A → B) g (l : list A) : existsb g (map f l) = existsb (λ x, g (f x)) l.
Proof. induction l; simpl; congruence. Qed.

Lemma existsb_eq_Forall {A} (f g : A → bool) l :
  Forall (λ x, f x = g x) l → existsb f l = existsb g l.
Proof. induction 1; simpl; congruence. Qed.


Lemma host_text_not_star e : wf_host e → host_text e ≠ u "*".
Proof.
  intros Hw He. pose proof (match_host_v6 e 0 Hw) as H.
  unfold match_ip_pattern in H. by rewrite He in H.
Qed.

Lemma host_text_nonempty e : wf_host e → host_text e ≠ [].
Proof.
  intros _. destruct e as [p0 p1 p2 p3|a b]; cbn [host_text map join].
  - by destruct (octet_text p0).
  - by destruct (show_ipv4 a).
Qed.

(** host filters mean what is written.  A list of octet patterns and
    address ranges, joined by semicolons, matches an IPv4 destination exactly
    when one of its entries contains it, and never an IPv6 destination. *)
Theorem host_list_semantics es ip :
  es ≠ [] → Forall wf_host es →
  match_ip_list (join 59 (map host_text es)) ip = existsb (host_matches ip) es.
Proof.
  intros Hne Hes. unfold match_ip_list.
  destruct (pattern_list_tokens (map host_text es)) as [-> ->].
  - by destruct es.
  - apply Forall_map. eapply Forall_impl; [exact Hes|]. intros e He.
    split_and!; [by apply host_text_chars|by apply host_text_nonempty|by apply host_text_not_star].
  - rewrite existsb_map. apply existsb_eq_Forall. eapply Forall_impl; [exact Hes|].
    intros e He. destruct ip; [by apply match_host_v4|by apply match_host_v6].
Qed.

Lemma host_list_semantics_witness :
  let es := [HostOctets (Some 192) (Some 168) None None;
             HostRange (ipv4 10 0 0 1) (ipv4 10 0 0 9)] in
  join 59 (map host_text es) = u "192.168.*.*;10.0.0.1-10.0.0.9"
  ∧ match_ip_list (join 59 (map host_text es)) (V4 (ipv4 10 0 0 7))
      = existsb (host_matches (V4 (ipv4 10 0 0 7))) es.
Proof.
  intros es. split; [concrete|]. apply host_list_semantics; concrete.
Defined.

(** IPv6 CIDR patterns.  For a network and a prefix length that parse, the
    mask computation of the code accepts an address exactly when the prefix
    length is at most 128 and the top prefix-length bits agree; the length 0
    (whose shift by 128 the code must not perform) accepts every address. *)
Theorem cidr_v6_top_bits net prefix n k ip :
  58 ∈ net → 47 ∉ net →
  parse_ipv6 (trim net) = Some n → parse_u32 (trim prefix) = Some k → 0 ≤ k →
  match_ipv6_pattern (net ++ 47 :: prefix) ip = true ↔
  k ≤ 128 ∧ ∀ i, 128 - k ≤ i < 128 → Z.testbit n i = Z.testbit ip i.
Proof.
  intros H58 H47 Hn Hk Hk0. unfold match_ipv6_pattern.
  replace (str_eqb _ _) with false.
  2:{ symmetry. unfold str_eqb. rewrite bool_decide_eq_false. apply app_cons_not_star.
      intros ->. by apply not_elem_of_nil in H58. }
  replace (contains _ 58) with true
    by (symmetry; apply contains_spec, elem_of_app; by left).
  rewrite split_once_app, Hn, Hk by done. cbn [negb].
  destruct (Z.ltb_spec 128 k); [split; [done|lia]|].
  destruct (Z.eqb_spec k 0) as [->|]; [split; [split; [lia|intros; lia]|done]|].
  rewrite Z.eqb_eq. split.
  - intros He. split; [lia|]. intros i Hi. apply (f_equal (λ z, Z.testbit z i)) in He.
    rewrite !Z.land_spec in He. replace (Z.testbit _ i && Z.testbit U128_MAX i) with true in He.
    { by rewrite !andb_true_r in He. }
    symmetry. rewrite Z.shiftl_spec by lia. unfold U128_MAX.
    change (2 ^ 128 - 1) with (Z.ones 128).
    rewrite !Z.testbit_ones_nonneg by lia. by bool_lit.
  - intros [_ He]. apply Z.bits_inj'. intros i Hi. rewrite !Z.land_spec.
    unfold U128_MAX. change (2 ^ 128 - 1) with (Z.ones 128).
    rewrite Z.shiftl_spec by lia.
    destruct (Z.lt_ge_cases i 128).
    + destruct (Z.lt_ge_cases i (128 - k)); [|rewrite He by lia; done].
      rewrite (Z.testbit_neg_r (Z.ones 128)) by lia. by rewrite !andb_false_r.
    + rewrite (Z.testbit_ones_nonneg 128 i) by lia. bool_lit. by rewrite !andb_false_r.
Qed.

Lemma cidr_v6_top_bits_witness :
  let ip := of_segments [0x2001; 0xdb8; 0xffff; 0; 0; 0; 0; 1] in
  match_ipv6_pattern (u "2001:db8::" ++ 47 :: u "32") ip = true ↔
  32 ≤ 128 ∧ ∀ i, 128 - 32 ≤ i < 128 →
    Z.testbit (of_segments [0x2001; 0xdb8; 0; 0; 0; 0; 0; 0]) i = Z.testbit ip i.
Proof. intros ip. apply cidr_v6_top_bits; concrete. Defined.

(** ** Port patterns *)

Inductive port_entry : Type := PortOne (p : Z) | PortRange (a b : Z).
Definition port_text (e : port_entry) : str :=
  match e with PortOne p => dec p | PortRange a b => dec a ++ 45 :: dec b end.
Definition is_port (p : Z) : Prop := 0 ≤ p < 65536.
Definition wf_port (e : port_entry) : Prop :=
  match e with PortOne p => is_port p | PortRange a b => is_port a ∧ is_port b end.
Definition port_matches (port : Z) (e : port_entry) : bool :=
  match e with PortOne p => p =? port | PortRange a b => (a <=? port) && (port <=? b) end.
#[export] Instance wf_port_dec e : Decision (wf_port e).
Proof. destruct e; unfold wf_port, is_port; apply _. Defined.

Lemma dec_pattern n : 0 ≤ n → Forall pattern_char (dec n).
Proof. intros Hn. eapply Forall_impl; [by apply dec_digits|]. unfold pattern_char. simpl. lia. Qed.

Lemma trim_dec n : 0 ≤ n → trim (dec n) = dec n.
Proof.
  intros Hn. apply trim_id. eapply Forall_impl; [by apply dec_pattern|]. apply pattern_char_space.
Qed.

Lemma port_text_shape e :
  wf_port e → Forall pattern_char (port_text e) ∧ port_text e ≠ [] ∧ port_text e ≠ u "*".
Proof.
  destruct e as [p|a b]; cbn [wf_port port_text]; unfold is_port.
  - intros Hp. split_and!; [apply dec_pattern; lia|apply dec_nonempty|].
    intros He. pose proof (octet_text_not_star p ltac:(lia)) as H. rewrite He in H. done.
  - intros [Ha Hb]. split_and!.
    + apply Forall_app. split; [apply dec_pattern; lia|].
      constructor; [unfold pattern_char; lia|apply dec_pattern; lia].
    + by destruct (dec a).
    + apply app_cons_not_star, dec_nonempty.
Qed.

Lemma match_port_entry e port :
  wf_port e → match_port_pattern (port_text e) port = port_matches port e.
Proof.
  intros Hw. pose proof (port_text_shape e Hw) as (_ & _ & Hs). unfold match_port_pattern.
  unfold str_eqb. rewrite bool_decide_eq_false_2 by done. unfold parse_u16.
  destruct e as [p|a b]; cbn [wf_port port_text port_matches] in *; unfold is_port in *.
  - rewrite split_once_None by (apply dec_not_in; lia).
    by rewrite trim_dec, parse_dec_small by lia.
  - rewrite split_once_app by (apply dec_not_in; lia).
    by rewrite !trim_dec, !parse_dec_small by lia.
Qed.

(** port filters mean what is written: a list of ports and port ranges
    matches a port exactly when one of its entries contains it. *)
Theorem port_list_semantics es port :
  es ≠ [] → Forall wf_port es →
  match_port_list (join 59 (map port_text es)) port = existsb (port_matches port) es.
Proof.
  intros Hne Hes. unfold match_port_list.
  destruct (pattern_list_tokens (map port_text es)) as [-> ->].
  - by destruct es.
  - apply Forall_map. eapply Forall_impl; [exact Hes|]. apply port_text_shape.
  - rewrite existsb_map. apply existsb_eq_Forall. eapply Forall_impl; [exact Hes|].
    intros e He. by apply match_port_entry.
Qed.

Lemma port_list_semantics_witness :
  let es := [PortOne 80; PortOne 443; PortRange 8000 9000] in
  join 59 (map port_text es) = u "80;443;8000-9000"
  ∧ match_port_list (join 59 (map port_text es)) 8443 = existsb (port_matches 8443) es.
Proof. intros es. split; [concrete|]. apply port_list_semantics; concrete. Defined.

(** ** Domains *)

Definition suffix_glob (sfx : str) : str := u "*." ++ sfx.

Lemma suffix_glob_match sfx d :
  literal sfx →
  frag_match (map glob_frag (suffix_glob sfx)) d ↔
  ∃ a b, d = a ++ 46 :: b ∧ to_ascii_lowercase b = to_ascii_lowercase sfx.
Proof.
  intros Hl. change (map glob_frag (suffix_glob sfx)) with (FMany :: FLit 46 :: map glob_frag sfx).
  rewrite glob_frag_literal, frag_match_many by done. split.
  - intros (a & b & -> & Hb). inversion Hb as [|c d' fs s Hc Hs| | |]; subst.
    assert (d' = 46) as -> by (unfold ascii_lower in Hc; repeat case_match; simpl in *; lia).
    exists a, s. split; [done|]. symmetry. by apply frag_match_literal.
  - intros (a & b & -> & Hb). exists a, (46 :: b). split; [done|].
    constructor; [done|]. by apply frag_match_literal.
Qed.

(** a domain filter written as a list of [*.suffix] patterns takes a
    snooped host name exactly when the name is some prefix followed by a dot
    and one of the suffixes, ignoring ASCII case; a connection with no known
    host name never passes it. *)
Theorem domain_filter_semantics `{GlobLaws} r cr sfxs domain :
  compile r = Done cr → domains r = join 59 (map suffix_glob sfxs) →
  sfxs ≠ [] → is_match_all (domains r) = false →
  Forall (λ s, literal s ∧ is_ascii s ∧ (length s ≤ 253)%nat) sfxs →
  Forall is_token (map suffix_glob sfxs) →
  match domain with Some d => plain d | None => True end →
  matches_domain cr domain = true ↔
  ∃ d sfx a b, domain = Some d ∧ sfx ∈ sfxs ∧ d = a ++ 46 :: b
    ∧ to_ascii_lowercase b = to_ascii_lowercase sfx.
Proof.
  intros Hc Hd Hne Ha Hs Ht Hp.
  unfold compile in Hc. destruct (compile_process_list _); simpl in Hc; [|done].
  injection Hc as <-.
  unfold matches_domain. cbn [domain_matchers]. destruct domain as [d|]; [|naive_solver].
  unfold compile_glob_list.  rewrite Ha, Hd, split_list_join by (done || by destruct sfxs).
  rewrite compile_globs_spec; [|apply Forall_map; eapply Forall_impl; [exact Hs|]|done].
  2:{ intros s (_ & Has & Hl). unfold suffix_glob. rewrite length_app. split; [|simpl; lia].
      apply Forall_app. split; [concrete|done]. }
  rewrite Forall_forall in Hs. split.
  - intros (g & Hin & Hm). apply list_elem_of_In, in_map_iff in Hin as (sfx & <- & Hin).
    apply list_elem_of_In in Hin. destruct (Hs sfx Hin) as (Hlit & _).
    destruct (proj1 (suffix_glob_match sfx d Hlit) Hm) as (x & y & ? & ?). by exists d, sfx, x, y.
  - intros (d' & sfx & x & y & Hdd & Hin & He & Hb). injection Hdd as <-.
    exists (suffix_glob sfx). split.
    + by apply list_elem_of_In, in_map, list_elem_of_In.
    + apply suffix_glob_match; [by apply Hs|]. eauto.
Qed.

Lemma domain_filter_semantics_witness :
  let R := MiniRegex.engine in
  let r := with_domains (rule_new (u "*")) (u "*.example.com;*.test") in
  ∃ cr, compile r = Done cr ∧
    (matches_domain cr (Some (u "www.Example.com")) = true ↔
     ∃ d sfx a b, Some (u "www.Example.com") = Some d ∧ sfx ∈ [u "example.com"; u "test"]
       ∧ d = a ++ 46 :: b ∧ to_ascii_lowercase b = to_ascii_lowercase sfx).
Proof.
  intros R r. eexists. split; [vm_compute; reflexivity|].
  apply (domain_filter_semantics r _ [u "example.com"; u "test"]); unfold literal;
    first [concrete | vm_compute; reflexivity].
Defined.

(** when no rule carries a domain filter, which is what
    [needs_domain_resolution] reports and the netstack tests before it looks
    the destination up in the DNS cache, the domain does not influence the
    evaluation: skipping the lookup is sound. *)
Theorem domain_lookup_gate_sound `{RegexEngine} rs s name dest dest_port is_udp d d' :
  ruleset_new rs = Done s → needs_domain_resolution s = false →
  evaluate s name dest dest_port is_udp d = evaluate s name dest dest_port is_udp d'.
Proof.
  unfold ruleset_new. destruct (mapM compile rs) as [crs|]; simpl; [|done].
  intros [= <-]. unfold needs_domain_resolution, evaluate. cbn [has_domain_rules rules].
  generalize (None (A:=CompiledRule)). induction crs as [|r crs IH]; intros fb Hd; [done|].
  cbn [existsb] in Hd. apply orb_false_iff in Hd as [Hr%negb_false_iff Hd].
  cbn [evaluate_loop]. unfold matches_target. rewrite Hr, (IH fb Hd).
  rewrite (IH (match fb with Some _ => fb | None => Some r end) Hd). done.
Qed.

Lemma domain_lookup_gate_sound_witness :
  let R := MiniRegex.engine in
  let r := with_hosts (with_action (rule_new (u "chrome")) Block) (u "1.2.3.4") in
  ∃ s, ruleset_new [r] = Done s ∧
    evaluate s (u "chrome") (V4 (ipv4 1 2 3 4)) 80 false None
      = evaluate s (u "chrome") (V4 (ipv4 1 2 3 4)) 80 false (Some (u "a.example")).
Proof.
  intros R r. eexists. split; [vm_compute; reflexivity|].
  apply (domain_lookup_gate_sound [r]); vm_compute; reflexivity.
Defined.

Lemma evaluate_refines_spec_witness :
  let R := MiniRegex.engine in
  let r := with_action (rule_new (u "chrome.exe")) Block in
  ∃ s, ruleset_new [with_action (rule_new (u "*")) Proxy; r] = Done s ∧
    evaluate s (u "Chrome.EXE") (V4 (ipv4 1 2 3 4)) 80 false None
      = Done (evaluate_spec s (u "Chrome") (V4 (ipv4 1 2 3 4)) 80 false None).
Proof.
  intros R r. eexists. split; [vm_compute; reflexivity|].
  apply evaluate_refines_spec. vm_compute. reflexivity.
Defined.

(** A four-character name in a three-byte script, against a rule with a process
    filter: the slice at byte 8 is not on a character boundary. *)
Example multibyte_name_panics :
  match ruleset_new (H:=MiniRegex.engine) [rule_new (u "chrome")] with
  | Done s => evaluate s [0x5FAE; 0x4FE1; 0x5FAE; 0x4FE1] (V4 0) 80 false None = Panic
  | Panic => False
  end.
Proof. vm_compute. reflexivity. Qed.

(** An empty exception list makes a rule match nothing, because an empty list
    is read as every host. *)
Example empty_except_disables :
  match ruleset_new (H:=MiniRegex.engine) [with_except (with_action (rule_new (u "*")) Proxy) []] with
  | Done s => evaluate s (u "chrome") (V4 0) 80 false None = Done (MkRuleMatch Direct 0)
  | Panic => False
  end.
Proof. vm_compute. reflexivity. Qed.
