(* ===== verification/Dns.v ===== *)
(** * DNS snooping and the address-to-host-name cache ([dns.rs])

    [parse_name] and [parse_dns_answers] over the received bytes, with every
    indexing that could panic kept as an [outcome]; the cache as a finite map
    with expiry times under an explicit clock; and an encoder of DNS responses,
    the reference the parser is proved against. *)

From S2P Require Export Config.
Local Open Scope Z_scope.

(** ** Names *)

(** The state of the loop of [parse_name]. *)
Record name_state : Type := MkName {
  pos : Z; out : str; jumps : Z; jumped : bool; jumped_end : Z
}.

Inductive name_step : Type :=
  | Continue (s : name_state)
  | Return (r : option (str * Z)).

(** One iteration: the name and the new [*offset] on success. *)
Definition parse_name_step (msg : list Z) (s : name_state) : outcome name_step :=
  match get msg (pos s) with
  | None => mret (Return None)
  | Some b =>
    if b =? 0 then
      mret (Return (Some (out s, if jumped s then jumped_end s else pos s + 1)))
    else if Z.land b 0xC0 =? 0xC0 then
      match get msg (pos s + 1) with
      | None => mret (Return None)
      | Some b2 =>
        let jumped_end' := if jumped s then jumped_end s else pos s + 2 in
        let pos' := Z.lor (Z.shiftl (Z.land b 0x3F) 8) b2 in
        let jumps' := jumps s + 1 in
        if 10 <? jumps' then mret (Return None)
        else mret (Continue (MkName pos' (out s) jumps' true jumped_end'))
      end
    else
      let label_len := b in
      let pos' := pos s + 1 in
      if zlen msg <? pos' + label_len then mret (Return None)
      else
        let out' := if is_empty (out s) then out s else out s ++ [46] in
        bytes ← slice msg pos' (pos' + label_len);
        match from_utf8 bytes with
        | None => mret (Return None)
        | Some label =>
          mret (Continue (MkName (pos' + label_len) (out' ++ label)
                            (jumps s) (jumped s) (jumped_end s)))
        end
  end.

(** [None]: out of fuel. *)
Fixpoint parse_name_loop (fuel : nat) (msg : list Z) (s : name_state)
    : option (outcome (option (str * Z))) :=
  match fuel with
  | O => None
  | S fuel' =>
    match parse_name_step msg s with
    | Panic => Some Panic
    | Done (Return r) => Some (Done r)
    | Done (Continue s') => parse_name_loop fuel' msg s'
    end
  end.

Definition name_fuel (msg : list Z) : nat := 12 * (length msg + 2).

Definition name_start (offset : Z) : name_state := MkName offset [] 0 false 0.

Definition parse_name (msg : list Z) (offset : Z) : option (outcome (option (str * Z))) :=
  parse_name_loop (name_fuel msg) msg (name_start offset).

(** The same as an expression of the parser: [parse_name_total] shows that
    this reading loses nothing. *)
Definition parse_name_at (msg : list Z) (offset : Z) : outcome (option (str * Z)) :=
  default Panic (parse_name msg offset).

(** ** Responses *)

Definition u16_at (payload : list Z) (i : Z) : outcome Z :=
  a ← index payload i; b ← index payload (i + 1); mret (be_val [a; b]).

(** The loop over the remaining questions: [None] for the early return. *)
Fixpoint skip_questions (n : nat) (payload : list Z) (offset : Z) : outcome (option Z) :=
  match n with
  | O => mret (Some offset)
  | S n' =>
    if zlen payload <=? offset then mret None
    else
      r ← parse_name_at payload offset;
      match r with
      | None => mret None
      | Some (_, offset) =>
        let offset := offset + 4 in
        if zlen payload <? offset then mret None else skip_questions n' payload offset
      end
  end.

(** The address an A or AAAA record of class IN holds, if it is one. *)
Definition answer_address (payload : list Z) (rclass rtype rdlen offset : Z)
    : outcome (option IpAddr) :=
  if rclass =? 1 then
    if (rtype =? 1) && (rdlen =? 4) then
      o0 ← index payload offset; o1 ← index payload (offset + 1);
      o2 ← index payload (offset + 2); o3 ← index payload (offset + 3);
      mret (Some (V4 (ipv4 o0 o1 o2 o3)))
    else if (rtype =? 28) && (rdlen =? 16) then
      b ← slice payload offset (offset + 16);
      mret (Some (V6 (be_val b)))
    else mret None
  else mret None.

(** The loop over the answer records; [out] is accumulated in front. *)
Fixpoint read_answers (n : nat) (payload : list Z) (qname : str) (offset : Z)
    : outcome (list (IpAddr * str)) :=
  match n with
  | O => mret []
  | S n' =>
    if zlen payload <=? offset then mret []
    else
      r ← parse_name_at payload offset;
      match r with
      | None => mret []
      | Some (_, offset) =>
        if zlen payload <? offset + 10 then mret []
        else
          rtype ← u16_at payload offset;
          rclass ← u16_at payload (offset + 2);
          rdlen ← u16_at payload (offset + 8);
          let offset := offset + 10 in
          if zlen payload <? offset + rdlen then mret []
          else
            ip ← answer_address payload rclass rtype rdlen offset;
            rest ← read_answers n' payload qname (offset + rdlen);
            mret (match ip with Some a => (a, qname) :: rest | None => rest end)
      end
  end.

Definition parse_dns_answers (payload : list Z) : outcome (list (IpAddr * str)) :=
  if zlen payload <? 12 then mret []
  else
    flags ← u16_at payload 2;
    if Z.land flags 0x8000 =? 0 then mret []
    else if negb (Z.land flags 0x000F =? 0) then mret []
    else
      qdcount ← u16_at payload 4;
      ancount ← u16_at payload 6;
      if ancount =? 0 then mret []
      else
        r ← parse_name_at payload 12;
        match r with
        | None => mret []
        | Some (qname, offset) =>
          let offset := offset + 4 in
          if zlen payload <? offset then mret []
          else
            o ← skip_questions (Z.to_nat (qdcount - 1)) payload offset;
            match o with
            | None => mret []
            | Some offset => read_answers (Z.to_nat ancount) payload qname offset
            end
        end.

(** ** The cache *)

Record Entry : Type := MkEntry { domain : str; expires : Z }.

(** [entries] under its [RwLock]: [poisoned] when a writer panicked.  Times are
    nanoseconds of the monotonic clock. *)
Record DnsCache : Type := MkCache {
  entries : gmap IpAddr Entry;
  ttl : Z;
  poisoned : bool
}.

Definition DNS_CACHE_TTL : Z := 300 * 10 ^ 9.
Definition cache_new (t : Z) : DnsCache := MkCache ∅ t false.
Definition cache_default : DnsCache := cache_new DNS_CACHE_TTL.

(** [Instant + Duration] panics when the sum is not an [Instant], whose seconds
    are an [i64] (a [u64] on Windows, where the sum goes twice as far). *)
Definition INSTANT_END : Z := 2 ^ 63 * 10 ^ 9.
Definition instant_add (t d : Z) : outcome Z := if t + d <? INSTANT_END then mret (t + d) else Panic.

(** [if let Ok(mut map) = self.entries.write() { map.insert(ip, entry); }] *)
Definition insert_entry (c : DnsCache) (ip : IpAddr) (e : Entry) : DnsCache :=
  if poisoned c then c else MkCache (<[ip := e]> (entries c)) (ttl c) (poisoned c).

(** The sum is computed before the lock is taken: a panic leaves the cache as it
    was, and not poisoned. *)
Definition store (c : DnsCache) (now : Z) (ip : IpAddr) (d : str) : outcome DnsCache :=
  if is_empty d then mret c
  else e ← instant_add now (ttl c); mret (insert_entry c ip (MkEntry d e)).

Definition live (now : Z) (e : Entry) : bool := now <? expires e.

Definition lookup (c : DnsCache) (now : Z) (ip : IpAddr) : option str :=
  if poisoned c then None
  else
    e ← entries c !! ip;
    if live now e then Some (domain e) else None.

Definition purge_expired (c : DnsCache) (now : Z) : DnsCache :=
  if poisoned c then c
  else MkCache (filter (λ kv, live now kv.2 = true) (entries c)) (ttl c) (poisoned c).

Definition cache_len (c : DnsCache) (now : Z) : nat :=
  if poisoned c then 0%nat
  else size (filter (λ kv : IpAddr * Entry, live now kv.2 = true) (entries c)).

Definition cache_is_empty (c : DnsCache) (now : Z) : bool := (cache_len c now =? 0)%nat.

(** The stores of one response, the [i]-th of them at time [now i].  The cache is
    shared: what was stored before a panic stays. *)
Fixpoint store_all (c : DnsCache) (now : nat → Z) (l : list (IpAddr * str)) : DnsCache * outcome unit :=
  match l with
  | [] => (c, Done tt)
  | (ip, name) :: l' =>
    match store c (now 0%nat) ip name with
    | Panic => (c, Panic)
    | Done c' => store_all c' (λ i, now (S i)) l'
    end
  end.

Definition snoop_response (c : DnsCache) (now : nat → Z) (payload : list Z) : DnsCache * outcome unit :=
  match parse_dns_answers payload with
  | Panic => (c, Panic)
  | Done l => store_all c now l
  end.

(** ** A reference encoder

    Messages as RFC 1035 lays them out: names as labels or as a compression
    pointer to the first question, the fixed parts of questions and records. *)

Definition encode_label (l : str) : list Z := len l :: as_bytes l.
Definition encode_name (ls : list str) : list Z := concat (map encode_label ls) ++ [0].
Definition pointer_to_question : list Z := [0xC0; 12].

Record question : Type := MkQuestion { q_name : list str; q_type : Z; q_class : Z }.
Definition encode_question (q : question) : list Z :=
  encode_name (q_name q) ++ be_bytes 2 (q_type q) ++ be_bytes 2 (q_class q).

Record answer : Type := MkAnswer {
  (** The owner: [None] for the compressed form. *)
  a_owner : option (list str);
  a_type : Z; a_class : Z; a_ttl : Z; a_data : list Z
}.
Definition encode_owner (o : option (list str)) : list Z :=
  match o with Some ls => encode_name ls | None => pointer_to_question end.
Definition encode_answer (a : answer) : list Z :=
  encode_owner (a_owner a) ++ be_bytes 2 (a_type a) ++ be_bytes 2 (a_class a)
  ++ be_bytes 4 (a_ttl a) ++ be_bytes 2 (zlen (a_data a)) ++ a_data a.

Definition encode_header (id flags qd an : Z) : list Z :=
  be_bytes 2 id ++ be_bytes 2 flags ++ be_bytes 2 qd ++ be_bytes 2 an ++ [0; 0; 0; 0].

(** A message whose header announces [an] answers. *)
Definition encode_message (id flags an : Z) (q : question) (qs : list question)
    (ans : list answer) (tail : list Z) : list Z :=
  encode_header id flags (1 + zlen qs) an
  ++ concat (map encode_question (q :: qs)) ++ concat (map encode_answer ans) ++ tail.
Definition encode_response (id flags : Z) (q : question) (qs : list question)
    (ans : list answer) (tail : list Z) : list Z := encode_message id flags (zlen ans) q qs ans tail.

Definition label_ok (l : str) : Prop := is_str l ∧ 1 ≤ len l ≤ 63.
Definition name_ok (ls : list str) : Prop := Forall label_ok ls.
Definition is_u16 (v : Z) : Prop := 0 ≤ v < 65536.
Definition answer_ok (a : answer) : Prop :=
  match a_owner a with Some ls => name_ok ls | None => True end
  ∧ is_u16 (a_type a) ∧ is_u16 (a_class a) ∧ Forall is_byte (a_data a) ∧ zlen (a_data a) < 65536.

#[export] Instance label_ok_dec l : Decision (label_ok l).
Proof. unfold label_ok. apply _. Defined.
#[export] Instance name_ok_dec ls : Decision (name_ok ls).
Proof. unfold name_ok. apply _. Defined.
#[export] Instance is_u16_dec v : Decision (is_u16 v).
Proof. unfold is_u16. apply _. Defined.
#[export] Instance answer_ok_dec a : Decision (answer_ok a).
Proof. unfold answer_ok. destruct (a_owner a); apply _. Defined.

(** The text of a name, and what a record contributes. *)
Fixpoint dotted (ls : list str) : str :=
  match ls with
  | [] => []
  | [l] => l
  | l :: ls' => l ++ 46 :: dotted ls'
  end.
Definition answer_of (qname : str) (a : answer) : list (IpAddr * str) :=
  if a_class a =? 1 then
    if (a_type a =? 1) && (zlen (a_data a) =? 4) then [(V4 (be_val (a_data a)), qname)]
    else if (a_type a =? 28) && (zlen (a_data a) =? 16) then [(V6 (be_val (a_data a)), qname)]
    else []
  else [].

(** ** Names: termination and bounds *)

(** What an iteration consumes: at most eleven jumps, and between jumps the
    position moves forward inside the message. *)
Definition name_measure (msg : list Z) (s : name_state) : Z :=
  (11 - jumps s) * (zlen msg + 2) + Z.max 0 (zlen msg + 1 - pos s).

Record name_wf (msg : list Z) (start : Z) (s : name_state) : Prop := {
  nw_jumps : 0 ≤ jumps s ≤ 10;
  nw_pos : 0 ≤ pos s;
  nw_here : jumped s = false → start ≤ pos s;
  nw_end : jumped s = true → start < jumped_end s ≤ zlen msg
}.

Lemma byte_at msg i b : Forall is_byte msg → get msg i = Some b → is_byte b.
Proof. rewrite Forall_forall. intros H ?%get_In. auto. Qed.

Lemma parse_name_step_spec msg start s :
  Forall is_byte msg → name_wf msg start s →
  match parse_name_step msg s with
  | Panic => False
  | Done (Return None) => True
  | Done (Return (Some (_, off))) => start < off ≤ zlen msg
  | Done (Continue s') => name_wf msg start s' ∧ name_measure msg s' < name_measure msg s
  end.
Proof.
  intros Hb [Hj Hp Hh He]. unfold parse_name_step.
  destruct (get msg (pos s)) as [b|] eqn:Hg; [|done].
  pose proof (get_Some_range _ _ _ Hg) as Hr.
  pose proof (byte_at _ _ _ Hb Hg) as Hbb. unfold is_byte in Hbb.
  destruct (Z.eqb_spec b 0) as [->|]; simpl.
  { destruct (jumped s); [auto|]. specialize (Hh eq_refl). lia. }
  destruct (Z.land b 0xC0 =? 0xC0).
  - destruct (get msg (pos s + 1)) as [b2|] eqn:Hg2; [|done].
    pose proof (get_Some_range _ _ _ Hg2) as Hr2.
    pose proof (byte_at _ _ _ Hb Hg2) as Hbb2. unfold is_byte in Hbb2.
    destruct (Z.ltb_spec 10 (jumps s + 1)); simpl; [done|]. split.
    + split; cbn [jumps pos jumped jumped_end]; [lia| |done|].
      * apply Z.lor_nonneg. split; [|lia]. apply Z.shiftl_nonneg, Z.land_nonneg. lia.
      * intros _. destruct (jumped s); [auto|]. specialize (Hh eq_refl). lia.
    + unfold name_measure. cbn [jumps pos].
      assert (0 ≤ Z.lor (Z.shiftl (Z.land b 63) 8) b2).
      { apply Z.lor_nonneg. split; [|lia]. apply Z.shiftl_nonneg, Z.land_nonneg. lia. }
      lia.
  - destruct (Z.ltb_spec (zlen msg) (pos s + 1 + b)); [done|].
    destruct (slice_in_range msg (pos s + 1) (pos s + 1 + b)) as (bs & -> & _); [lia..|]. simpl.
    destruct (from_utf8 bs) as [label|]; [|done]. split.
    + split; cbn [jumps pos jumped jumped_end]; [lia|lia| |done].
      intros Hn. specialize (Hh Hn). lia.
    + unfold name_measure. cbn [jumps pos]. lia.
Qed.

Lemma parse_name_loop_total msg start fuel s :
  Forall is_byte msg → name_wf msg start s → name_measure msg s < Z.of_nat fuel →
  ∃ r, parse_name_loop fuel msg s = Some (Done r)
     ∧ match r with Some (_, off) => start < off ≤ zlen msg | None => True end.
Proof.
  intros Hb. revert s. induction fuel as [|fuel IH]; intros s Hw Hm.
  { destruct Hw. unfold name_measure in Hm. pose proof (zlen_nonneg msg). nia. }
  cbn [parse_name_loop]. pose proof (parse_name_step_spec msg start s Hb Hw) as Hs.
  destruct (parse_name_step msg s) as [[s'|[[n off]|]]|]; [|by eexists|by eexists|done].
  destruct Hs as [Hw' Hm']. apply IH; [done|lia].
Qed.

Lemma name_start_wf msg offset : 0 ≤ offset → name_wf msg offset (name_start offset).
Proof. intros ?. split; simpl; done || lia. Qed.

(** C16: [parse_name] terminates on every message and every start offset, however
    its compression pointers are arranged (the guard of ten jumps and the
    forward motion between jumps bound the number of iterations), never panics,
    and on success leaves the offset strictly after the start and inside the
    message. *)
Theorem parse_name_total msg offset :
  Forall is_byte msg → 0 ≤ offset →
  ∃ r, parse_name msg offset = Some (Done r) ∧ parse_name_at msg offset = Done r
     ∧ match r with Some (_, off) => offset < off ≤ zlen msg | None => True end.
Proof.
  intros Hb Ho. destruct (parse_name_loop_total msg offset (name_fuel msg) (name_start offset))
    as (r & Hr & Hs); [done|by apply name_start_wf| |].
  - unfold name_measure, name_fuel, name_start, zlen. simpl. lia.
  - exists r. unfold parse_name_at, parse_name. by rewrite Hr.
Qed.

Lemma parse_name_total_witness :
  let msg := [0xC0; 0; 0xC0; 2] in
  ∃ r, parse_name msg 2 = Some (Done r) ∧ parse_name_at msg 2 = Done r
     ∧ match r with Some (_, off) => 2 < off ≤ zlen msg | None => True end.
Proof. intros msg. apply parse_name_total; concrete. Defined.

Lemma parse_name_at_spec msg offset :
  Forall is_byte msg → 0 ≤ offset →
  ∃ r, parse_name_at msg offset = Done r
     ∧ match r with Some (_, off) => offset < off ≤ zlen msg | None => True end.
Proof.
  intros Hb Ho. destruct (parse_name_loop_total msg offset (name_fuel msg) (name_start offset))
    as (r & Hr & Hs); [done|by apply name_start_wf| |].
  - unfold name_measure, name_fuel, name_start, zlen. simpl. lia.
  - exists r. unfold parse_name_at, parse_name. by rewrite Hr.
Qed.

(** More fuel does not change the result. *)
Lemma parse_name_loop_mono fuel fuel' msg s r :
  parse_name_loop fuel msg s = Some r → (fuel ≤ fuel')%nat → parse_name_loop fuel' msg s = Some r.
Proof.
  revert fuel' s. induction fuel as [|fuel IH]; intros [|fuel'] s H Hle; try done; [lia|].
  cbn [parse_name_loop] in *. destruct (parse_name_step msg s) as [[s'|]|]; [|done..].
  apply IH; [done|lia].
Qed.

(** ** Responses: totality and soundness *)

Lemma u16_at_spec payload i :
  Forall is_byte payload → 0 ≤ i → i + 2 ≤ zlen payload →
  ∃ v, u16_at payload i = Done v ∧ 0 ≤ v < 65536.
Proof.
  intros Hb Hi Hl. unfold u16_at.
  destruct (index_in_range payload i) as (a & -> & Ha); [lia|].
  destruct (index_in_range payload (i + 1)) as (b & -> & Hb'); [lia|]. simpl.
  eexists. split; [done|]. apply (be_val_bound [a; b]).
  repeat constructor; by eapply byte_at.
Qed.

Lemma skip_questions_total n payload offset :
  Forall is_byte payload → 0 ≤ offset →
  ∃ r, skip_questions n payload offset = Done r
     ∧ match r with Some off => offset ≤ off | None => True end.
Proof.
  intros Hb. revert offset. induction n as [|n IH]; intros offset Ho; cbn [skip_questions].
  { eexists. split; [done|]. simpl. lia. }
  destruct (zlen payload <=? offset); [by eexists|].
  destruct (parse_name_at_spec payload offset Hb Ho) as ([[nm off]|] & -> & Hr); simpl; [|by eexists].
  destruct (zlen payload <? off + 4); [by eexists|].
  destruct (IH (off + 4)) as (r & -> & Hr'); [lia|]. eexists. split; [done|].
  destruct r; [lia|done].
Qed.

(** An answer is bytes of the message. *)
Definition answer_in (payload : list Z) (ip : IpAddr) : Prop :=
  wf_ip ip ∧ ∃ off, 12 ≤ off ∧ get_range payload off (off + zlen (octets ip)) = Some (octets ip).

Lemma get_range_4 {A} (l : list A) i a b c d :
  get l i = Some a → get l (i + 1) = Some b → get l (i + 2) = Some c → get l (i + 3) = Some d →
  get_range l i (i + 4) = Some [a; b; c; d].
Proof.
  intros Ha Hb Hc Hd. pose proof (get_Some_range _ _ _ Ha). pose proof (get_Some_range _ _ _ Hd).
  unfold get_range. rewrite decide_True by lia.
  unfold get in *. repeat case_decide; try lia.
  replace (Z.to_nat (i + 1)) with (S (Z.to_nat i)) in Hb by lia.
  replace (Z.to_nat (i + 2)) with (S (S (Z.to_nat i))) in Hc by lia.
  replace (Z.to_nat (i + 3)) with (S (S (S (Z.to_nat i)))) in Hd by lia.
  replace (Z.to_nat (i + 4 - i)) with 4%nat by lia.
  rewrite (drop_S _ _ _ Ha), (drop_S _ _ _ Hb), (drop_S _ _ _ Hc), (drop_S _ _ _ Hd). done.
Qed.

Lemma octets_of_bytes4 bs : Forall is_byte bs → length bs = 4%nat → octets (V4 (be_val bs)) = bs.
Proof. intros Hb Hl. simpl. rewrite <-Hl at 1. by apply be_bytes_be_val. Qed.
Lemma octets_of_bytes16 bs : Forall is_byte bs → length bs = 16%nat → octets (V6 (be_val bs)) = bs.
Proof. intros Hb Hl. simpl. rewrite <-Hl at 1. by apply be_bytes_be_val. Qed.

Lemma get_range_bytes payload a b bs :
  Forall is_byte payload → get_range payload a b = Some bs → Forall is_byte bs.
Proof.
  intros Hb Hr. apply Forall_forall. intros x Hx. rewrite Forall_forall in Hb.
  apply Hb. by apply (get_range_incl _ _ _ _ Hr).
Qed.

Lemma answer_address_total payload rclass rtype rdlen offset :
  Forall is_byte payload → 12 ≤ offset → offset + rdlen ≤ zlen payload →
  ∃ r, answer_address payload rclass rtype rdlen offset = Done r
     ∧ match r with Some ip => answer_in payload ip | None => True end.
Proof.
  intros Hb Ho Hl. unfold answer_address.
  destruct (rclass =? 1); [|by eexists]. destruct ((rtype =? 1) && (rdlen =? 4)) eqn:E4.
  { apply andb_true_iff in E4 as [_ ->%Z.eqb_eq].
    destruct (index_in_range payload offset) as (o0 & -> & H0); [lia|].
    destruct (index_in_range payload (offset + 1)) as (o1 & -> & H1); [lia|].
    destruct (index_in_range payload (offset + 2)) as (o2 & -> & H2); [lia|].
    destruct (index_in_range payload (offset + 3)) as (o3 & -> & H3); [lia|]. simpl.
    eexists. split; [done|]. pose proof (get_range_4 _ _ _ _ _ _ H0 H1 H2 H3) as Hr.
    pose proof (get_range_bytes _ _ _ _ Hb Hr) as Hbs. unfold ipv4.
    split; [apply (be_val_bound _ Hbs)|]. exists offset. split; [done|].
    by rewrite octets_of_bytes4. }
  destruct ((rtype =? 28) && (rdlen =? 16)) eqn:E6; [|by eexists].
  apply andb_true_iff in E6 as [_ ->%Z.eqb_eq].
  destruct (slice_in_range payload offset (offset + 16)) as (bs & -> & Hr); [lia..|]. simpl.
  eexists. split; [done|]. pose proof (get_range_bytes _ _ _ _ Hb Hr) as Hbs.
  pose proof (get_range_length _ _ _ _ Hr) as (_ & _ & Hlen).
  assert (length bs = 16%nat) as Hl16 by (unfold zlen in Hlen; lia).
  split; [pose proof (be_val_bound _ Hbs) as Hv; by rewrite Hlen in Hv; replace (offset + 16 - offset) with 16 in Hv by lia|].
  exists offset. split; [done|]. by rewrite octets_of_bytes16, Hlen by done;
    replace (offset + (offset + 16 - offset)) with (offset + 16) by lia.
Qed.

Lemma read_answers_total n payload qname offset :
  Forall is_byte payload → 12 ≤ offset →
  ∃ l, read_answers n payload qname offset = Done l ∧ (length l ≤ n)%nat
     ∧ Forall (λ '(ip, name), name = qname ∧ answer_in payload ip) l.
Proof.
  intros Hb. revert offset. induction n as [|n IH]; intros offset Ho; cbn [read_answers].
  { exists []. simpl. split_and!; [done|lia|constructor]. }
  assert (∃ l : list (IpAddr * str), Done (A:=list (IpAddr * str)) [] = Done l ∧ (length l ≤ S n)%nat
     ∧ Forall (λ '(ip, name), name = qname ∧ answer_in payload ip) l) as Hnil.
  { exists []. simpl. split_and!; [done|lia|constructor]. }
  destruct (zlen payload <=? offset); [exact Hnil|].
  destruct (parse_name_at_spec payload offset Hb ltac:(lia)) as ([[nm off]|] & -> & Hr);
    [|exact Hnil]. cbn [mbind outcome_bind].
  destruct (Z.ltb_spec (zlen payload) (off + 10)) as [|Hfit]; [exact Hnil|].
  destruct (u16_at_spec payload off Hb) as (rtype & -> & _); [lia..|].
  destruct (u16_at_spec payload (off + 2) Hb) as (rclass & -> & _); [lia..|].
  destruct (u16_at_spec payload (off + 8) Hb) as (rdlen & -> & Hrd); [lia..|].
  cbn [mbind outcome_bind].
  destruct (Z.ltb_spec (zlen payload) (off + 10 + rdlen)) as [|Hfit']; [exact Hnil|].
  destruct (answer_address_total payload rclass rtype rdlen (off + 10) Hb) as (r & -> & Hip); [lia..|].
  cbn [mbind outcome_bind].
  destruct (IH (off + 10 + rdlen)) as (l & -> & Hl & Hf); [lia|].
  eexists. split; [done|]. destruct r; simpl; [|split; [lia|done]].
  split; [lia|]. by constructor.
Qed.

Lemma parse_dns_answers_total payload :
  Forall is_byte payload → ∃ l, parse_dns_answers payload = Done l.
Proof.
  intros Hb.
  unfold parse_dns_answers.
  destruct (Z.ltb_spec (zlen payload) 12); [by eexists|].
  destruct (u16_at_spec payload 2 Hb) as (flags & -> & _); [lia..|].
  destruct (u16_at_spec payload 4 Hb) as (qd & -> & _); [lia..|].
  destruct (u16_at_spec payload 6 Hb) as (an & -> & _); [lia..|].
  cbn [mbind outcome_bind]. destruct (_ =? 0); [by eexists|]. destruct (negb _); [by eexists|].
  destruct (_ =? 0); [by eexists|].
  destruct (parse_name_at_spec payload 12 Hb ltac:(lia)) as ([[n off]|] & -> & Hr); [|by eexists].
  cbn [mbind outcome_bind]. destruct (_ <? _); [by eexists|].
  destruct (skip_questions_total (Z.to_nat (qd - 1)) payload (off + 4) Hb) as ([off'|] & -> & Hq);
    [lia| |by eexists]. cbn [mbind outcome_bind].
  destruct (read_answers_total (Z.to_nat an) payload n off' Hb) as (l & -> & _); [lia|]. by eexists.
Qed.

(** C21: [parse_dns_answers] never panics, whatever bytes it is given, and what
    it returns is justified by the message: a message that is not a successful
    response yields nothing; there are at most ANCOUNT answers; every answer
    carries the name the first question decodes to, and its address is four or
    sixteen consecutive bytes of the message after the header. *)
Theorem parse_dns_answers_sound payload :
  Forall is_byte payload →
  ∃ l, parse_dns_answers payload = Done l ∧
    (l ≠ [] → ∃ flags ancount qname off,
      u16_at payload 2 = Done flags ∧ Z.testbit flags 15 = true ∧ flags mod 16 = 0 ∧
      u16_at payload 6 = Done ancount ∧ zlen l ≤ ancount ∧
      parse_name payload 12 = Some (Done (Some (qname, off))) ∧
      Forall (λ '(ip, name), name = qname ∧ answer_in payload ip) l).
Proof.
  intros Hb. unfold parse_dns_answers.
  assert (∀ P : list (IpAddr * str) → Prop, ∃ l, Done (A:=list (IpAddr * str)) [] = Done l ∧ (l ≠ [] → P l))
    as Hnil by (intros P; by exists []).
  destruct (Z.ltb_spec (zlen payload) 12); [apply Hnil|].
  destruct (u16_at_spec payload 2 Hb) as (flags & Hfl & Hfr); [lia..|]. rewrite Hfl.
  destruct (u16_at_spec payload 4 Hb) as (qd & -> & _); [lia..|].
  destruct (u16_at_spec payload 6 Hb) as (an & Han & Har); [lia..|]. rewrite Han.
  cbn [mbind outcome_bind].
  destruct (Z.eqb_spec (Z.land flags 0x8000) 0) as [|Hqr]; [apply Hnil|].
  destruct (Z.eqb_spec (Z.land flags 0x000F) 0) as [Hrc|]; [|apply Hnil]. cbn [negb].
  destruct (an =? 0); [apply Hnil|].
  destruct (parse_name_loop_total payload 12 (name_fuel payload) (name_start 12))
    as (r & Hr & Hs); [done|by apply name_start_wf| |].
  { unfold name_measure, name_fuel, name_start, zlen. simpl. lia. }
  change (parse_name payload 12 = Some (Done r)) in Hr.
  unfold parse_name_at. rewrite Hr. cbn [from_option id mbind outcome_bind].
  destruct r as [[qname off]|]; [|apply Hnil].
  destruct (zlen payload <? off + 4); [apply Hnil|].
  destruct (skip_questions_total (Z.to_nat (qd - 1)) payload (off + 4) Hb) as ([off'|] & -> & Hq);
    [lia| |apply Hnil]. cbn [mbind outcome_bind].
  destruct (read_answers_total (Z.to_nat an) payload qname off' Hb) as (l & -> & Hl & Hf); [lia|].
  exists l. split; [done|]. intros _. exists flags, an, qname, off.
  split_and!; try done; [|change 0xF with (Z.ones 4) in Hrc; by rewrite Z.land_ones in Hrc|unfold zlen; lia].
  destruct (Z.testbit flags 15) eqn:E; [done|]. destruct Hqr.
  apply Z.bits_inj'. intros i Hi. rewrite Z.land_spec, Z.bits_0. change 0x8000 with (2 ^ 15).
  destruct (decide (i = 15)) as [->|]; [by rewrite E|].
  rewrite Z.pow2_bits_false by lia. apply andb_false_r.
Qed.

(** ** The cache *)

Lemma instant_add_Done t d : t + d < INSTANT_END → instant_add t d = Done (t + d).
Proof. intros Hf. unfold instant_add. by rewrite (proj2 (Z.ltb_lt _ _) Hf). Qed.

Lemma lookup_insert_entry c ip e ip' t :
  poisoned c = false →
  lookup (insert_entry c ip e) t ip' =
    if bool_decide (ip' = ip) then (if live t e then Some (domain e) else None) else lookup c t ip'.
Proof.
  intros Hp. unfold lookup, insert_entry. rewrite Hp. cbn [poisoned entries].
  case_bool_decide as Hip; [by rewrite Hip, lookup_insert_eq|by rewrite lookup_insert_ne by done].
Qed.

Lemma store_fields c now ip d c' :
  store c now ip d = Done c' → poisoned c' = poisoned c ∧ ttl c' = ttl c.
Proof.
  unfold store. destruct (is_empty d); [by intros [= <-]|]. destruct (instant_add _ _); [|done].
  intros [= <-]. unfold insert_entry. by destruct (poisoned c) eqn:E.
Qed.

(** what the cache answers.  A store panics exactly when the name is not empty
    and the end of its lifetime is not an [Instant].  Otherwise the address
    resolves to the name during [ttl] and to nothing afterwards, every other
    address is untouched, and an empty name changes nothing. *)
Theorem store_lookup c now ip d :
  poisoned c = false →
  if is_empty d then store c now ip d = Done c
  else if now + ttl c <? INSTANT_END then
    ∃ c', store c now ip d = Done c' ∧ ∀ ip' t, lookup c' t ip' =
      if bool_decide (ip' = ip) then (if t <? now + ttl c then Some d else None) else lookup c t ip'
  else store c now ip d = Panic.
Proof.
  intros Hp. unfold store, instant_add. destruct (is_empty d); [done|].
  destruct (now + ttl c <? INSTANT_END); [|done]. eexists. split; [done|].
  intros ip' t. by rewrite lookup_insert_entry.
Qed.

(** purging is invisible: it only drops entries that no longer resolve, so
    at the purge and at any later time every lookup and the number of live
    entries are what they were without it; expired entries are gone. *)
Theorem purge_invisible c now t :
  now ≤ t →
  (∀ ip, lookup (purge_expired c now) t ip = lookup c t ip)
  ∧ cache_len (purge_expired c now) t = cache_len c t
  ∧ (poisoned c = false → ∀ ip e, entries (purge_expired c now) !! ip = Some e → now < expires e).
Proof.
  intros Ht. unfold purge_expired. destruct (poisoned c) eqn:Hp; [by split_and!|].
  assert (∀ e, live t e = true → live now e = true) as Hmono.
  { intros e. unfold live. rewrite !Z.ltb_lt. lia. }
  split_and!.
  - intros ip. unfold lookup. cbn [poisoned entries]. rewrite Hp, map_lookup_filter.
    destruct (entries c !! ip) as [e|]; simpl; [|done].
    destruct (decide (live now e = true)) as [He|He].
    + by rewrite option_guard_True.
    + rewrite option_guard_False by done. simpl. destruct (live t e) eqn:Hl; [|done].
      destruct He. auto.
  - unfold cache_len. cbn [poisoned entries]. rewrite Hp. f_equal.
    rewrite map_filter_filter. apply map_filter_ext. simpl. naive_solver.
  - intros _ ip e. cbn [entries]. rewrite map_lookup_filter_Some. simpl.
    intros [_ He]. unfold live in He. lia.
Qed.

(** The stores of one response. *)
Lemma store_all_fields c now l :
  poisoned (store_all c now l).1 = poisoned c ∧ ttl (store_all c now l).1 = ttl c.
Proof.
  revert c now. induction l as [|[ip d] l IH]; intros c now; [done|]. cbn [store_all].
  destruct (store c (now 0%nat) ip d) as [c'|] eqn:E; [|done].
  destruct (store_fields _ _ _ _ _ E) as [<- <-]. apply IH.
Qed.

Lemma snoop_fields c now payload :
  poisoned (snoop_response c now payload).1 = poisoned c ∧ ttl (snoop_response c now payload).1 = ttl c.
Proof. unfold snoop_response. destruct (parse_dns_answers payload); [apply store_all_fields|done]. Qed.

(** Addresses a response does not name keep what they had. *)
Lemma lookup_store_all_other c now l ip t :
  poisoned c = false → ip ∉ l.*1 → lookup (store_all c now l).1 t ip = lookup c t ip.
Proof.
  revert c now. induction l as [|[ip' d] l IH]; intros c now Hp Hin; [done|]. cbn [store_all].
  rewrite fmap_cons, not_elem_of_cons in Hin. destruct Hin as [Hne Hin].
  unfold store. destruct (is_empty d); [by apply IH|].
  destruct (instant_add _ _) as [e|]; [|done]. cbn [mbind outcome_bind mret outcome_ret].
  rewrite IH; [|unfold insert_entry; by rewrite Hp|done].
  rewrite lookup_insert_entry by done. by rewrite bool_decide_false.
Qed.

Lemma store_all_Done c now l :
  (∀ i, now i + ttl c < INSTANT_END) → ∃ c', store_all c now l = (c', Done tt).
Proof.
  revert c now. induction l as [|[ip d] l IH]; intros c now Hf; [by eexists|]. cbn [store_all].
  assert (∃ c1, store c (now 0%nat) ip d = Done c1) as [c1 Hc].
  { unfold store. destruct (is_empty d); [by eexists|]. rewrite instant_add_Done by done. by eexists. }
  rewrite Hc. apply IH. intros i. by rewrite (proj2 (store_fields _ _ _ _ _ Hc)).
Qed.

(** After them, every address in it resolves to the name. *)
Lemma lookup_store_all c now l d ip t :
  poisoned c = false → d ≠ [] → Forall (λ x : IpAddr * str, x.2 = d) l →
  (∀ i, t < now i + ttl c < INSTANT_END) → ip ∈ l.*1 ∨ lookup c t ip = Some d →
  lookup (store_all c now l).1 t ip = Some d.
Proof.
  intros Hp Hd Hl. revert c now Hp. induction Hl as [|[ip' d'] l Hd' _ IH]; intros c now Hp Ht Hin.
  { destruct Hin as [?%not_elem_of_nil|?]; done. }
  simpl in Hd'. subst d'. cbn [store_all].
  assert (store c (now 0%nat) ip' d = Done (insert_entry c ip' (MkEntry d (now 0%nat + ttl c)))) as Hs.
  { unfold store. destruct d; [done|]. cbn [is_empty]. by rewrite instant_add_Done by apply Ht. }
  rewrite Hs. destruct (store_fields _ _ _ _ _ Hs) as [Hp' Htt]. apply IH; [congruence| |].
  - intros i. rewrite Htt. apply Ht.
  - rewrite lookup_insert_entry by done. unfold live. cbn [expires domain].
    pose proof (Ht 0%nat). rewrite (proj2 (Z.ltb_lt _ _)) by lia.
    destruct (decide (ip = ip')) as [->|Hne]; [right; by rewrite bool_decide_true by done|].
    rewrite bool_decide_false by done. destruct Hin as [[|]%elem_of_cons|]; [done|by left|by right].
Qed.

(** ** Round trip with the encoder *)

Lemma land_label b : 0 ≤ b < 64 → Z.land b 0xC0 = 0.
Proof.
  intros Hb. rewrite <-(Z.mod_small b (2 ^ 6)) by lia. rewrite <-Z.land_ones by lia.
  by rewrite <-Z.land_assoc, Z.land_0_r.
Qed.

(** The text after appending the remaining labels to what was read so far. *)
Fixpoint extend (o : str) (ls : list str) : str :=
  match ls with
  | [] => o
  | l :: ls' => extend ((if is_empty o then o else o ++ [46]) ++ l) ls'
  end.

Lemma extend_dotted o ls :
  o ≠ [] → extend o ls = o ++ concat (map (cons 46) ls).
Proof.
  revert o. induction ls as [|l ls IH]; intros o Ho; simpl; [by rewrite app_nil_r|].
  destruct o as [|c o]; [done|]. simpl. rewrite IH by done. simpl. by rewrite <-!app_assoc.
Qed.

Lemma dotted_cons l ls : dotted (l :: ls) = l ++ concat (map (cons 46) ls).
Proof.
  revert l. induction ls as [|l' ls IH]; intros l; [by rewrite app_nil_r|].
  change (dotted (l :: l' :: ls)) with (l ++ 46 :: dotted (l' :: ls)). by rewrite IH.
Qed.

Lemma extend_nil ls : name_ok ls → extend [] ls = dotted ls.
Proof.
  intros Hl. destruct Hl as [|l ls [_ Hl] _]; [done|]. simpl extend.
  rewrite dotted_cons, extend_dotted; [done|]. intros ->. simpl in Hl. lia.
Qed.

Lemma zlen_encode_name l ls : zlen (encode_name (l :: ls)) = 1 + len l + zlen (encode_name ls).
Proof.
  unfold encode_name. cbn [map concat]. unfold encode_label at 1.
  rewrite !zlen_app, zlen_cons, zlen_as_bytes. lia.
Qed.

Lemma parse_labels fuel pre ls post o j jd je :
  name_ok ls → (length ls < fuel)%nat →
  parse_name_loop fuel (pre ++ encode_name ls ++ post) (MkName (zlen pre) o j jd je)
  = Some (Done (Some (extend o ls,
      if jd then je else zlen pre + zlen (encode_name ls)))).
Proof.
  intros Hl. revert fuel pre o. induction Hl as [|l ls [Hs Hn] _ IH]; intros [|fuel] pre o Hf;
    try (simpl in Hf; lia); cbn [parse_name_loop].
  { unfold parse_name_step. cbn [pos]. change (encode_name [] ++ post) with (0 :: post).
    rewrite get_mid. done. }
  unfold parse_name_step. cbn [pos out jumps jumped jumped_end].
  assert (pre ++ encode_name (l :: ls) ++ post
    = pre ++ [len l] ++ as_bytes l ++ (encode_name ls ++ post)) as Hmsg.
  { unfold encode_name. simpl. by rewrite <-!app_assoc. }
  rewrite Hmsg. change ([len l] ++ ?x) with (len l :: x) at 1. rewrite get_mid.
  rewrite (proj2 (Z.eqb_neq (len l) 0)) by lia. rewrite land_label by lia.
  change (0 =? 192) with false. cbv iota.
  pose proof (slice_mid (pre ++ [len l]) (as_bytes l) (encode_name ls ++ post)) as Hsl.
  rewrite <-app_assoc, zlen_app, zlen_as_bytes in Hsl. change (zlen [len l]) with 1 in Hsl.
  pose proof (zlen_nonneg (encode_name ls ++ post)).
  rewrite !zlen_app, zlen_as_bytes, <-zlen_app. change (zlen [len l]) with 1.
  bool_lit. rewrite Hsl. cbn [mbind outcome_bind]. rewrite from_utf8_as_bytes by done.
  assert (zlen pre + 1 + len l = zlen ((pre ++ [len l]) ++ as_bytes l)) as ->
    by (rewrite !zlen_app, zlen_as_bytes; done).
  replace (pre ++ [len l] ++ as_bytes l ++ encode_name ls ++ post)
    with (((pre ++ [len l]) ++ as_bytes l) ++ encode_name ls ++ post) by (by rewrite <-!app_assoc).
  cbn [mret outcome_ret]. rewrite IH by (simpl in Hf; lia).
  cbn [extend]. do 4 f_equal. destruct jd; [done|].
  rewrite zlen_encode_name, !zlen_app, zlen_as_bytes. change (zlen [len l]) with 1. lia.
Qed.

Lemma Forall_byte_names ls : name_ok ls → Forall is_byte (encode_name ls).
Proof.
  intros Hl. apply Forall_app. split; [|repeat constructor; unfold is_byte; lia].
  induction Hl as [|l ls [Hs Hn] _ IH]; [constructor|]. simpl.
  constructor; [unfold is_byte; lia|]. apply Forall_app. split; [by apply as_bytes_bytes|done].
Qed.

(** Any run that finishes gives the value of [parse_name_at]. *)
Lemma parse_name_at_run fuel msg offset r :
  Forall is_byte msg → 0 ≤ offset →
  parse_name_loop fuel msg (name_start offset) = Some (Done r) → parse_name_at msg offset = Done r.
Proof.
  intros Hb Ho Hr.
  destruct (parse_name_loop_total msg offset (name_fuel msg) (name_start offset))
    as (r' & Hr' & _); [done|by apply name_start_wf| |].
  { unfold name_measure, name_fuel, name_start, zlen. simpl. lia. }
  apply (parse_name_loop_mono _ (fuel + name_fuel msg)) in Hr; [|lia].
  pose proof Hr' as Hm. apply (parse_name_loop_mono _ (fuel + name_fuel msg)) in Hm; [|lia].
  unfold parse_name_at, parse_name. rewrite Hr'. simpl. congruence.
Qed.

Lemma parse_name_encoded pre ls post :
  Forall is_byte (pre ++ encode_name ls ++ post) → name_ok ls →
  parse_name_at (pre ++ encode_name ls ++ post) (zlen pre)
    = Done (Some (dotted ls, zlen pre + zlen (encode_name ls))).
Proof.
  intros Hb Hl. apply (parse_name_at_run (S (length ls))); [done|apply zlen_nonneg|].
  unfold name_start. rewrite parse_labels by (done || lia). by rewrite extend_nil.
Qed.

(** A compression pointer to an encoded name reads that name. *)
Lemma parse_name_pointer pre0 ls post0 pre post :
  zlen pre0 = 12 → pre0 ++ encode_name ls ++ post0 = pre ++ pointer_to_question ++ post →
  Forall is_byte (pre0 ++ encode_name ls ++ post0) → name_ok ls →
  parse_name_at (pre0 ++ encode_name ls ++ post0) (zlen pre)
    = Done (Some (dotted ls, zlen pre + 2)).
Proof.
  intros H12 Heq Hb Hl.
  apply (parse_name_at_run (S (S (length ls)))); [done|apply zlen_nonneg|].
  assert (get (pre0 ++ encode_name ls ++ post0) (zlen pre) = Some 0xC0) as G1
    by (rewrite Heq; apply get_mid).
  assert (get (pre0 ++ encode_name ls ++ post0) (zlen pre + 1) = Some 12) as G2.
  { rewrite Heq. pose proof (get_mid (pre ++ [192]) 12 post) as Hg.
    by rewrite <-app_assoc, zlen_app in Hg. }
  change (parse_name_loop (S (S (length ls))) ?m ?s) with
    (match parse_name_step m s with
     | Panic => Some Panic | Done (Return r) => Some (Done r)
     | Done (Continue s') => parse_name_loop (S (length ls)) m s' end).
  replace (parse_name_step _ _) with (Done (Continue (MkName (zlen pre0) [] 1 true (zlen pre + 2)))).
  - rewrite parse_labels by (done || lia). by rewrite extend_nil.
  - unfold parse_name_step. cbn [name_start pos out jumps jumped jumped_end].
    rewrite G1. change (0xC0 =? 0) with false. change (Z.land 0xC0 0xC0 =? 0xC0) with true.
    cbv iota. rewrite G2, H12. reflexivity.
Qed.

Lemma u16_at_encoded pre v post :
  is_u16 v → u16_at (pre ++ be_bytes 2 v ++ post) (zlen pre) = Done v.
Proof.
  intros Hv. unfold u16_at. pose proof (be_val_be_bytes 2 v) as Hbv.
  rewrite Z.mod_small in Hbv by (unfold is_u16 in Hv; simpl; lia).
  pose proof (length_be_bytes 2 v) as Hl. destruct (be_bytes 2 v) as [|a [|b []]]; try done.
  cbn [app]. rewrite index_mid. cbn [mbind outcome_bind].
  pose proof (index_mid (pre ++ [a]) b post) as Hi. rewrite <-app_assoc, zlen_app in Hi.
  change (zlen [a]) with 1 in Hi. simpl in Hi. rewrite Hi. simpl. by rewrite Hbv.
Qed.

Lemma zlen_encode_question q : zlen (encode_question q) = zlen (encode_name (q_name q)) + 4.
Proof. unfold encode_question. autorewrite with zlen. lia. Qed.

Section Message.
(** A message [M] whose first question, at offset 12, is named [qn]. *)
Context (M pre0 post0 : list Z) (qn : list str).
Hypothesis M_bytes : Forall is_byte M.
Hypothesis M_question : M = pre0 ++ encode_name qn ++ post0.
Hypothesis M_header : zlen pre0 = 12.
Hypothesis qn_ok : name_ok qn.

Lemma u16_at_eq pre v post off :
  M = pre ++ be_bytes 2 v ++ post → off = zlen pre → is_u16 v → u16_at M off = Done v.
Proof. intros -> ->. apply u16_at_encoded. Qed.

Lemma parse_name_eq pre ls post off :
  M = pre ++ encode_name ls ++ post → off = zlen pre → name_ok ls →
  parse_name_at M off = Done (Some (dotted ls, zlen pre + zlen (encode_name ls))).
Proof. intros HM -> Hl. rewrite HM in M_bytes |- *. by apply parse_name_encoded. Qed.

Lemma parse_owner pre o post :
  M = pre ++ encode_owner o ++ post → match o with Some ls => name_ok ls | None => True end →
  ∃ n, parse_name_at M (zlen pre) = Done (Some (n, zlen pre + zlen (encode_owner o))).
Proof.
  destruct o as [ls|]; simpl encode_owner; intros HM Ho.
  - eexists. by apply (parse_name_eq pre ls post).
  - exists (dotted qn). rewrite M_question in HM, M_bytes |- *. by eapply parse_name_pointer.
Qed.

Lemma skip_questions_encoded qs pre post :
  M = pre ++ concat (map encode_question qs) ++ post → Forall (λ q, name_ok (q_name q)) qs →
  skip_questions (length qs) M (zlen pre) = Done (Some (zlen (pre ++ concat (map encode_question qs)))).
Proof.
  intros HM Hqs. revert pre HM. induction Hqs as [|q qs Hq _ IH]; intros pre HM.
  { simpl. by rewrite app_nil_r. }
  cbn [length skip_questions map concat] in *. rewrite <-!app_assoc in HM.
  assert (HM' : M = pre ++ encode_name (q_name q) ++ be_bytes 2 (q_type q) ++ be_bytes 2 (q_class q)
    ++ concat (map encode_question qs) ++ post).
  { rewrite HM. unfold encode_question at 1. by rewrite <-!app_assoc. }
  rewrite (parse_name_eq pre (q_name q) _ _ HM') by done. cbn [mbind outcome_bind].
  assert (zlen pre + zlen (encode_name (q_name q)) + 4 = zlen (pre ++ encode_question q)) as ->.
  { rewrite zlen_app, zlen_encode_question. lia. }
  assert (zlen pre < zlen M ∧ zlen (pre ++ encode_question q) ≤ zlen M) as [Hl1 Hl2].
  { rewrite HM. rewrite !zlen_app, zlen_encode_question.
    pose proof (zlen_nonneg (encode_name (q_name q))).
    pose proof (zlen_nonneg (concat (map encode_question qs))). pose proof (zlen_nonneg post). lia. }
  bool_lit. rewrite app_assoc. apply IH. rewrite HM. by rewrite <-!app_assoc.
Qed.

Lemma answer_address_encoded pre d post t c :
  M = pre ++ d ++ post →
  answer_address M c t (zlen d) (zlen pre) =
    Done (if c =? 1 then
            if (t =? 1) && (zlen d =? 4) then Some (V4 (be_val d))
            else if (t =? 28) && (zlen d =? 16) then Some (V6 (be_val d)) else None
          else None).
Proof.
  intros HM. pose proof (slice_mid pre d post) as Hs. unfold answer_address.
  destruct (c =? 1); [|done]. destruct ((t =? 1) && (zlen d =? 4)) eqn:E4.
  - apply andb_true_iff in E4 as [_ E4%Z.eqb_eq]. unfold zlen in E4.
    destruct d as [|a [|b [|c' [|e []]]]]; simpl in E4; try lia. rewrite HM. cbn [app].
    rewrite index_mid. cbn [mbind outcome_bind].
    pose proof (index_mid (pre ++ [a]) b (c' :: e :: post)) as H1.
    pose proof (index_mid (pre ++ [a; b]) c' (e :: post)) as H2.
    pose proof (index_mid (pre ++ [a; b; c']) e post) as H3.
    rewrite <-app_assoc, zlen_app in H1, H2, H3. cbn [app] in *.
    change (zlen [a]) with 1 in H1. change (zlen [a; b]) with 2 in H2.
    change (zlen [a; b; c']) with 3 in H3. by rewrite H1, H2, H3.
  - destruct ((t =? 28) && (zlen d =? 16)) eqn:E6; [|done].
    apply andb_true_iff in E6 as [_ E6%Z.eqb_eq]. rewrite HM, <-E6, Hs. done.
Qed.

(** The loop reads every answer there is, also when more are announced. *)
Lemma read_answers_encoded n qname ans pre post :
  M = pre ++ concat (map encode_answer ans) ++ post → Forall answer_ok ans →
  n = length ans ∨ (length ans ≤ n)%nat ∧ post = [] →
  read_answers n M qname (zlen pre) = Done (concat (map (answer_of qname) ans)).
Proof.
  intros HM Hans. revert n pre HM. induction Hans as [|a ans Ha _ IH]; intros n pre HM Hn.
  { destruct n as [|n]; [done|]. destruct Hn as [?|[_ ->]]; [done|]. cbn [read_answers].
    rewrite HM. cbn [map concat]. rewrite !app_nil_r, (proj2 (Z.leb_le _ _)) by lia. done. }
  destruct n as [|n]; [exfalso; destruct Hn as [?|[? _]]; [done|simpl in *; lia]|].
  cbn [length read_answers map concat] in *. destruct Ha as (Ho & Ht & Hc & Hd & Hl).
  assert (HM' : M = pre ++ encode_owner (a_owner a) ++ be_bytes 2 (a_type a)
    ++ be_bytes 2 (a_class a) ++ be_bytes 4 (a_ttl a) ++ be_bytes 2 (zlen (a_data a))
    ++ a_data a ++ concat (map encode_answer ans) ++ post).
  { rewrite HM. unfold encode_answer at 1. by rewrite <-!app_assoc. }
  destruct (parse_owner _ _ _ HM' Ho) as [owner Howner]. rewrite Howner. cbn [mbind outcome_bind].
  assert (zlen M = zlen pre + zlen (encode_owner (a_owner a)) + 10 + zlen (a_data a)
    + zlen (concat (map encode_answer ans)) + zlen post) as HlM.
  { rewrite HM'. autorewrite with zlen. lia. }
  pose proof (zlen_nonneg (encode_owner (a_owner a))). pose proof (zlen_nonneg (a_data a)).
  pose proof (zlen_nonneg (concat (map encode_answer ans))). pose proof (zlen_nonneg post).
  set (off := zlen pre + zlen (encode_owner (a_owner a))) in *.
  rewrite (proj2 (Z.leb_gt (zlen M) (zlen pre))) by lia.
  rewrite (proj2 (Z.ltb_ge (zlen M) (off + 10))) by lia.
  rewrite (u16_at_eq (pre ++ encode_owner (a_owner a)) (a_type a)
             (be_bytes 2 (a_class a) ++ be_bytes 4 (a_ttl a) ++ be_bytes 2 (zlen (a_data a))
              ++ a_data a ++ concat (map encode_answer ans) ++ post) off);
    [|by rewrite HM', <-!app_assoc|unfold off; autorewrite with zlen; lia|done].
  rewrite (u16_at_eq (pre ++ encode_owner (a_owner a) ++ be_bytes 2 (a_type a)) (a_class a)
             (be_bytes 4 (a_ttl a) ++ be_bytes 2 (zlen (a_data a))
              ++ a_data a ++ concat (map encode_answer ans) ++ post) (off + 2));
    [|by rewrite HM', <-!app_assoc|unfold off; autorewrite with zlen; lia|done].
  rewrite (u16_at_eq (pre ++ encode_owner (a_owner a) ++ be_bytes 2 (a_type a)
               ++ be_bytes 2 (a_class a) ++ be_bytes 4 (a_ttl a)) (zlen (a_data a))
             (a_data a ++ concat (map encode_answer ans) ++ post) (off + 8));
    [|by rewrite HM', <-!app_assoc|unfold off; autorewrite with zlen; lia|unfold is_u16; lia].
  cbn [mbind outcome_bind]. rewrite (proj2 (Z.ltb_ge _ _)) by lia.
  pose (pre1 := pre ++ encode_owner (a_owner a) ++ be_bytes 2 (a_type a)
               ++ be_bytes 2 (a_class a) ++ be_bytes 4 (a_ttl a) ++ be_bytes 2 (zlen (a_data a))).
  assert (off + 10 = zlen pre1) as -> by (unfold pre1; autorewrite with zlen; lia).
  rewrite (answer_address_encoded pre1 (a_data a) (concat (map encode_answer ans) ++ post))
    by (unfold pre1; by rewrite HM', <-!app_assoc).
  cbn [mbind outcome_bind]. rewrite <-zlen_app.
  rewrite (IH n (pre1 ++ a_data a)); [|unfold pre1; by rewrite HM', <-!app_assoc|].
  2: { destruct Hn as [[= ->]|[Hn ->]]; [by left|right; split; [simpl in Hn; lia|done]]. }
  cbn [mbind outcome_bind mret outcome_ret]. f_equal.
  generalize (concat (map (answer_of qname) ans)). intros rest. unfold answer_of.
  by repeat case_match; simplify_eq/=.
Qed.

End Message.

Lemma header_u16 id flags qd an rest :
  is_u16 flags → is_u16 qd → is_u16 an →
  let m := encode_header id flags qd an ++ rest in
  u16_at m 2 = Done flags ∧ u16_at m 4 = Done qd ∧ u16_at m 6 = Done an ∧ 12 ≤ zlen m.
Proof.
  intros Hf Hq Ha m. unfold m, encode_header. rewrite <-!app_assoc.
  pose proof (u16_at_encoded (be_bytes 2 id) flags
    (be_bytes 2 qd ++ be_bytes 2 an ++ [0; 0; 0; 0] ++ rest) Hf) as H1.
  pose proof (u16_at_encoded (be_bytes 2 id ++ be_bytes 2 flags) qd
    (be_bytes 2 an ++ [0; 0; 0; 0] ++ rest) Hq) as H2.
  pose proof (u16_at_encoded (be_bytes 2 id ++ be_bytes 2 flags ++ be_bytes 2 qd) an
    ([0; 0; 0; 0] ++ rest) Ha) as H3.
  rewrite <-!app_assoc in H2, H3. autorewrite with zlen in H1, H2, H3.
  split_and!; [exact H1|exact H2|exact H3|].
  autorewrite with zlen. pose proof (zlen_nonneg rest). lia.
Qed.

Definition question_ok (q : question) : Prop := name_ok (q_name q).
#[export] Instance question_ok_dec q : Decision (question_ok q).
Proof. unfold question_ok. apply _. Defined.

Lemma encode_message_bytes id flags an q qs ans tail :
  Forall question_ok (q :: qs) → Forall answer_ok ans → Forall is_byte tail →
  Forall is_byte (encode_message id flags an q qs ans tail).
Proof.
  intros Hq Ha Ht. unfold encode_message, encode_header.
  assert (∀ q', question_ok q' → Forall is_byte (encode_question q')) as Hqb.
  { intros q' Hq'. unfold encode_question.
    repeat first [by apply Forall_byte_names | by auto with ace | apply Forall_app; split]. }
  assert (∀ a, answer_ok a → Forall is_byte (encode_answer a)) as Hab.
  { intros a (Ho & _ & _ & Hd & _). unfold encode_answer.
    apply Forall_app; split; [|repeat first [by auto with ace | apply Forall_app; split]].
    destruct (a_owner a); [by apply Forall_byte_names|concrete]. }
  apply Forall_app; split; [repeat first [by auto with ace | concrete | apply Forall_app; split]|].
  apply Forall_app; split; [|apply Forall_app; split; [|done]]; apply Forall_concat, Forall_map.
  - eapply Forall_impl; [exact Hq|exact Hqb].
  - eapply Forall_impl; [exact Ha|exact Hab].
Qed.

(** The snooper on a response as laid out above.  The count of answers in the header
    may exceed those there are when nothing follows them. *)
Lemma parse_encoded_message id flags an q qs ans tail :
  is_u16 flags → Z.land flags 0x8000 ≠ 0 → Z.land flags 0x000F = 0 →
  Forall question_ok (q :: qs) → 1 + zlen qs < 65536 →
  Forall answer_ok ans → an = zlen ans ∨ zlen ans ≤ an ∧ tail = [] → an < 65536 → Forall is_byte tail →
  parse_dns_answers (encode_message id flags an q qs ans tail)
    = Done (concat (map (answer_of (dotted (q_name q))) ans)).
Proof.
  intros Hf Hqr Hrc Hqs Hlq Hans Han Han' Ht.
  pose proof (encode_message_bytes id flags an q qs ans tail Hqs Hans Ht) as Hb.
  unfold parse_dns_answers.
  pose proof (zlen_nonneg qs). pose proof (zlen_nonneg ans).
  assert (is_u16 an ∧ zlen ans ≤ an) as [Hu Hle'] by (unfold is_u16; destruct Han as [->|[? _]]; lia).
  destruct (header_u16 id flags (1 + zlen qs) an
    (concat (map encode_question (q :: qs)) ++ concat (map encode_answer ans) ++ tail))
    as (H2 & H4 & H6 & H12); [done|unfold is_u16; lia|done|].
  change (encode_header _ _ _ _ ++ _) with (encode_message id flags an q qs ans tail) in H2, H4, H6, H12.
  set (M := encode_message id flags an q qs ans tail) in *.
  rewrite (proj2 (Z.ltb_ge _ _) H12), H2, H4, H6. cbn [mbind outcome_bind].
  rewrite (proj2 (Z.eqb_neq _ _) Hqr), Hrc. cbn [Z.eqb negb].
  destruct (Z.eqb_spec an 0) as [Hz|_].
  { assert (zlen ans = 0) as Hz' by lia. unfold zlen in Hz'. by destruct ans. }
  set (hdr := encode_header id flags (1 + zlen qs) an).
  assert (zlen hdr = 12) as Hh by (unfold hdr, encode_header; autorewrite with zlen; done).
  assert (M = hdr ++ encode_name (q_name q) ++ be_bytes 2 (q_type q) ++ be_bytes 2 (q_class q)
     ++ concat (map encode_question qs) ++ concat (map encode_answer ans) ++ tail) as HM.
  { unfold M, encode_message. cbn [map concat]. unfold encode_question at 1. by rewrite <-!app_assoc. }
  apply Forall_cons in Hqs as [Hq Hqs].
  rewrite (parse_name_eq M Hb hdr (q_name q) _ 12 HM) by done. cbn [mbind outcome_bind].
  assert (zlen hdr + zlen (encode_name (q_name q)) + 4 = zlen (hdr ++ encode_question q)) as ->
    by (rewrite zlen_app, zlen_encode_question; lia).
  assert (M = (hdr ++ encode_question q) ++ concat (map encode_question qs)
     ++ concat (map encode_answer ans) ++ tail) as HM'
    by (rewrite HM; unfold encode_question at 2; by rewrite <-!app_assoc).
  assert (zlen (hdr ++ encode_question q) ≤ zlen M) as Hle%Z.ltb_ge.
  { rewrite HM', (zlen_app (hdr ++ _)).
    pose proof (zlen_nonneg (concat (map encode_question qs) ++ concat (map encode_answer ans) ++ tail)).
    lia. }
  rewrite Hle.
  replace (Z.to_nat (1 + zlen qs - 1)) with (length qs) by (unfold zlen; lia).
  rewrite (skip_questions_encoded M Hb qs _ _ HM' Hqs). cbn [mbind outcome_bind].
  eapply read_answers_encoded; [exact Hb|exact HM|exact Hh|exact Hq| |done|].
  - rewrite HM', <-!app_assoc. done.
  - destruct Han as [->|[? ->]]; [left|right; split; [|done]]; unfold zlen in *; lia.
Qed.

(** ** Messages as RFC 1035 lays them out

    What a message denotes, read off its bytes: a name is the root, a label and a
    name, or a pointer to a name anywhere in the message.  [name_at M n off ls e]:
    at [off] is the name of the labels [ls], through [n] pointers, and what
    follows it begins at [e]. *)

(** The bytes [bs] are at [off]. *)
Definition holds (M : list Z) (off : Z) (bs : list Z) : Prop :=
  get_range M off (off + zlen bs) = Some bs.
#[export] Instance holds_dec M off bs : Decision (holds M off bs).
Proof. unfold holds. apply _. Defined.

Inductive name_at (M : list Z) : nat → Z → list str → Z → Prop :=
  | name_root off : holds M off [0] → name_at M 0 off [] (off + 1)
  | name_label n off l ls e :
      label_ok l → holds M off (encode_label l) →
      name_at M n (off + (1 + len l)) ls e → name_at M n off (l :: ls) e
  | name_pointer n off target ls e :
      0 ≤ target < 2 ^ 14 → holds M off (be_bytes 2 (0xC000 + target)) →
      name_at M n target ls e → name_at M (S n) off ls (off + 2).

Inductive questions_at (M : list Z) : Z → list question → Z → Prop :=
  | no_question off : questions_at M off [] off
  | next_question n off q e qs stop :
      (n ≤ 10)%nat → name_at M n off (q_name q) e →
      holds M e (be_bytes 2 (q_type q) ++ be_bytes 2 (q_class q)) →
      questions_at M (e + 4) qs stop → questions_at M off (q :: qs) stop.

(** The fixed part of a record and its data; the owner may be any name. *)
Definition record_body (a : answer) : list Z :=
  be_bytes 2 (a_type a) ++ be_bytes 2 (a_class a) ++ be_bytes 4 (a_ttl a)
  ++ be_bytes 2 (zlen (a_data a)) ++ a_data a.
Inductive records_at (M : list Z) : Z → list answer → Z → Prop :=
  | no_record off : records_at M off [] off
  | next_record n off a e ls ans stop :
      (n ≤ 10)%nat → name_at M n off ls e → is_u16 (a_type a) → is_u16 (a_class a) →
      zlen (a_data a) < 65536 → holds M e (record_body a) →
      records_at M (e + zlen (record_body a)) ans stop → records_at M off (a :: ans) stop.

(** A successful response with the question [q], more questions [qs] and the
    answers [ans].  Nothing is said of the identifier, of the other flags, of the
    authority and additional sections and of their counts. *)
Record response_at (M : list Z) (q : question) (qs : list question) (ans : list answer) : Prop := {
  ra_flags : ∃ flags, is_u16 flags ∧ holds M 2 (be_bytes 2 flags)
               ∧ Z.land flags 0x8000 ≠ 0 ∧ Z.land flags 0x000F = 0;
  ra_counts : 1 + zlen qs < 65536 ∧ zlen ans < 65536
               ∧ holds M 4 (be_bytes 2 (1 + zlen qs)) ∧ holds M 6 (be_bytes 2 (zlen ans));
  ra_sections : ∃ mid stop, questions_at M 12 (q :: qs) mid ∧ records_at M mid ans stop
}.

Lemma get_range_split {A} (l : list A) a b r :
  get_range l a b = Some r → ∃ pre post, l = pre ++ r ++ post ∧ zlen pre = a.
Proof.
  unfold get_range. case_decide as Hr; [|done]. intros [= <-].
  exists (take (Z.to_nat a) l), (drop (Z.to_nat (b - a)) (drop (Z.to_nat a) l)).
  rewrite take_drop, take_drop. split; [done|]. unfold zlen in *. rewrite length_take. lia.
Qed.

Lemma holds_split M off bs : holds M off bs → ∃ pre post, M = pre ++ bs ++ post ∧ zlen pre = off.
Proof. apply get_range_split. Qed.

Lemma holds_in M off bs : holds M off bs → 0 ≤ off ∧ off + zlen bs ≤ zlen M.
Proof. intros (H1 & H2 & _)%get_range_length. done. Qed.

Lemma holds_app M off bs bs' : holds M off (bs ++ bs') → holds M off bs ∧ holds M (off + zlen bs) bs'.
Proof.
  intros (pre & post & -> & <-)%holds_split. unfold holds. split.
  - rewrite <-app_assoc. apply get_range_mid.
  - rewrite <-app_assoc, app_assoc, <-zlen_app. apply get_range_mid.
Qed.

Lemma holds_get M off b bs : holds M off (b :: bs) → get M off = Some b.
Proof. intros (pre & post & -> & <-)%holds_split. apply get_mid. Qed.

Lemma holds_u16 M off v : is_u16 v → holds M off (be_bytes 2 v) → u16_at M off = Done v.
Proof. intros Hv (pre & post & -> & <-)%holds_split. by apply u16_at_encoded. Qed.

Lemma pointer_bytes target :
  0 ≤ target < 2 ^ 14 → be_bytes 2 (0xC000 + target) = [0xC0 + target / 256; target mod 256].
Proof.
  intros Ht. unfold be_bytes. cbn [le_bytes]. rewrite !land_255, Z.shiftr_div_pow2 by lia.
  cbn [reverse rev_append]. change (2 ^ 8) with 256. f_equal; [dlia|]. f_equal. dlia.
Qed.

Lemma pointer_bits hi lo :
  0 ≤ hi < 64 → 0 ≤ lo < 256 →
  Z.land (0xC0 + hi) 0xC0 = 0xC0 ∧ Z.lor (Z.shiftl (Z.land (0xC0 + hi) 0x3F) 8) lo = hi * 256 + lo.
Proof.
  intros Hh Hl. assert (0xC0 + hi = Z.lor 0xC0 hi) as ->.
  { pose proof (lor_shiftl_add 6 3 hi ltac:(lia) ltac:(lia)) as Hlor. change (Z.shiftl 3 6) with 0xC0 in Hlor. lia. }
  rewrite !Z.land_lor_distr_l. change (Z.land 0xC0 0xC0) with 0xC0. change (Z.land 0xC0 0x3F) with 0.
  rewrite land_label by lia. split; [done|]. change 0x3F with (Z.ones 6).
  rewrite Z.land_ones, Z.mod_small by lia. rewrite Z.lor_0_l. by apply (lor_shiftl_add 8); lia.
Qed.

Lemma name_at_in M n off ls e : name_at M n off ls e → 0 ≤ off < zlen M ∧ off < e ≤ zlen M.
Proof.
  induction 1 as [off H1|n off l ls e [_ Hl] H1 _ IH|n off t ls e Ht H1 _ IH];
    apply holds_in in H1; unfold encode_label in *; autorewrite with zlen in *;
    rewrite ?zlen_as_bytes in *; lia.
Qed.

(** The loop reads the name that is there, as long as it takes ten jumps at most. *)
Lemma parse_name_loop_at M n off ls e :
  name_at M n off ls e → ∀ o j jd je, j + Z.of_nat n ≤ 10 →
  ∃ fuel, parse_name_loop fuel M (MkName off o j jd je)
    = Some (Done (Some (extend o ls, if jd then je else e))).
Proof.
  induction 1 as [off H1|n off l ls e [Hs Hn] H1 _ IH|n off t ls e Ht H1 Hname IH]; intros o j jd je Hj.
  - exists 1%nat. cbn [parse_name_loop]. unfold parse_name_step. cbn [pos].
    by rewrite (holds_get _ _ _ _ H1).
  - destruct (IH ((if is_empty o then o else o ++ [46]) ++ l) j jd je Hj) as [fuel Hf].
    exists (S fuel). cbn [parse_name_loop]. unfold parse_name_step. cbn [pos out jumps jumped jumped_end].
    rewrite (holds_get _ _ _ _ H1), (proj2 (Z.eqb_neq (len l) 0)) by lia. rewrite land_label by lia.
    pose proof (holds_in _ _ _ H1) as Hin. change (encode_label l) with ([len l] ++ as_bytes l) in H1, Hin.
    rewrite zlen_app, zlen_as_bytes in Hin. change (zlen [len l]) with 1 in Hin.
    apply holds_app in H1 as [_ H1]. change (zlen [len l]) with 1 in H1. unfold holds in H1.
    rewrite zlen_as_bytes in H1. change (0 =? 192) with false. cbv iota. bool_lit.
    unfold slice. rewrite H1. cbn [mbind outcome_bind]. rewrite from_utf8_as_bytes by done.
    cbn [mret outcome_ret]. replace (off + 1 + len l) with (off + (1 + len l)) by lia. exact Hf.
  - destruct (IH o (j + 1) true (if jd then je else off + 2)) as [fuel Hf]; [lia|].
    exists (S fuel). cbn [parse_name_loop]. unfold parse_name_step. cbn [pos out jumps jumped jumped_end].
    rewrite pointer_bytes in H1 by done. pose proof (holds_app _ _ [_] [_] H1) as [G1 G2].
    rewrite (holds_get _ _ _ _ G1). change (zlen [_]) with 1 in G2. rewrite (holds_get _ _ _ _ G2).
    destruct (pointer_bits (t / 256) (t mod 256)) as [-> ->]; [dlia|by apply Z.mod_pos_bound|].
    rewrite (proj2 (Z.eqb_neq _ 0)) by dlia. change (0xC0 =? 0xC0) with true. cbv iota.
    rewrite (proj2 (Z.ltb_ge 10 (j + 1))) by lia. cbn [mret outcome_ret].
    replace (t / 256 * 256 + t mod 256) with t by dlia. exact Hf.
Qed.

Lemma name_at_ok M n off ls e : name_at M n off ls e → name_ok ls.
Proof. induction 1; [constructor|by constructor|done]. Qed.

Section Layout.
Context (M : list Z).
Hypothesis M_bytes : Forall is_byte M.

Lemma parse_name_laid_out n off ls e :
  name_at M n off ls e → (n ≤ 10)%nat → parse_name_at M off = Done (Some (dotted ls, e)).
Proof.
  intros Hn Hj. destruct (parse_name_loop_at M n off ls e Hn [] 0 false 0) as [fuel Hf]; [lia|].
  rewrite extend_nil in Hf by (by eapply name_at_ok).
  apply (parse_name_at_run fuel); [done|apply name_at_in in Hn; lia|exact Hf].
Qed.

Lemma skip_questions_laid_out off qs stop :
  questions_at M off qs stop → skip_questions (length qs) M off = Done (Some stop).
Proof.
  induction 1 as [off|n off q e qs stop Hj Hn Hh _ IH]; [done|]. cbn [length skip_questions].
  destruct (name_at_in _ _ _ _ _ Hn) as [? ?]. rewrite (proj2 (Z.leb_gt _ _)) by lia.
  rewrite (parse_name_laid_out n off _ e) by done. cbn [mbind outcome_bind].
  apply holds_in in Hh. autorewrite with zlen in Hh. by rewrite (proj2 (Z.ltb_ge _ _)) by lia.
Qed.

Lemma read_answers_laid_out qname off ans stop :
  records_at M off ans stop →
  read_answers (length ans) M qname off = Done (concat (map (answer_of qname) ans)).
Proof.
  induction 1 as [off|n off a e ls ans stop Hj Hn Ht Hc Hl Hh _ IH]; [done|].
  cbn [length read_answers map concat]. destruct (name_at_in _ _ _ _ _ Hn) as [? ?].
  rewrite (proj2 (Z.leb_gt _ _)) by lia. rewrite (parse_name_laid_out n off _ e) by done.
  cbn [mbind outcome_bind]. pose proof (holds_in _ _ _ Hh) as Hin. pose proof (zlen_nonneg (a_data a)).
  unfold record_body in Hh, Hin, IH. autorewrite with zlen in Hin, IH. 
  rewrite (proj2 (Z.ltb_ge _ _)) by lia.
  apply holds_app in Hh as [Hb1 Hh]. apply holds_app in Hh as [Hb2 Hh].
  apply holds_app in Hh as [_ Hh]. apply holds_app in Hh as [Hb4 Hh].
  autorewrite with zlen in *. replace (e + Z.of_nat 2 + Z.of_nat 2 + Z.of_nat 4) with (e + 8) in * by lia.
  change (e + Z.of_nat 2) with (e + 2) in *.
  rewrite (holds_u16 M e _ Ht Hb1), (holds_u16 M (e + 2) _ Hc Hb2). cbn [mbind outcome_bind].
  rewrite (holds_u16 M (e + 8) _ (conj (zlen_nonneg _) Hl) Hb4). cbn [mbind outcome_bind].
  rewrite (proj2 (Z.ltb_ge _ _)) by lia. apply holds_split in Hh as (pre & post & HM & Hpre).
  replace (e + 8 + Z.of_nat 2) with (e + 10) in Hpre by lia. rewrite <-Hpre.
  rewrite (answer_address_encoded M pre (a_data a) post) by done. cbn [mbind outcome_bind].
  replace (zlen pre + zlen (a_data a)) with
    (e + (Z.of_nat 2 + (Z.of_nat 2 + (Z.of_nat 4 + (Z.of_nat 2 + zlen (a_data a)))))) by lia.
  rewrite IH. cbn [mbind outcome_bind mret outcome_ret]. f_equal. unfold answer_of.
  by repeat case_match; simplify_eq/=.
Qed.

(** The snooper on any such message. *)
Lemma parse_response_at q qs ans :
  response_at M q qs ans → parse_dns_answers M = Done (concat (map (answer_of (dotted (q_name q))) ans)).
Proof.
  intros [(flags & Hf & Hhf & Hqr & Hrc) (Hlq & Hla & Hhq & Hha) (mid & stop & Hq & Ha)].
  inversion Hq as [|n off q' e qs' stop' Hj Hn Hh Hqs]; subst.
  destruct (name_at_in _ _ _ _ _ Hn) as [Hin _]. pose proof (zlen_nonneg qs). pose proof (zlen_nonneg ans).
  unfold parse_dns_answers. rewrite (proj2 (Z.ltb_ge _ _)) by lia.
  rewrite (holds_u16 M 2 flags), (holds_u16 M 4 (1 + zlen qs)), (holds_u16 M 6 (zlen ans))
    by (done || unfold is_u16; lia).
  cbn [mbind outcome_bind]. rewrite (proj2 (Z.eqb_neq _ _) Hqr), Hrc. cbn [Z.eqb negb].
  destruct (Z.eqb_spec (zlen ans) 0) as [Hz|_]; [unfold zlen in Hz; by destruct ans|].
  rewrite (parse_name_laid_out n 12 _ e) by done. cbn [mbind outcome_bind].
  apply holds_in in Hh. autorewrite with zlen in Hh. rewrite (proj2 (Z.ltb_ge _ _)) by lia.
  replace (Z.to_nat (1 + zlen qs - 1)) with (length qs) by (unfold zlen; lia).
  rewrite (skip_questions_laid_out _ _ _ Hqs). cbn [mbind outcome_bind].
  replace (Z.to_nat (zlen ans)) with (length ans) by (unfold zlen; lia).
  by apply (read_answers_laid_out _ _ _ stop).
Qed.

End Layout.

(** C11: the snooper reads what RFC 1035 says a response holds.  For every
    message that is a successful response — any number of questions, records of
    any type in any order, each name written in full, compressed, or partly
    compressed through pointers to anywhere in the message, any authority and
    additional records after the answers and any counts of them — it returns
    exactly the A and AAAA records of class IN among the answers, in order, each
    under the dotted form of the first question's name, provided the labels are
    UTF-8 and no name takes more than ten pointers. *)
Theorem parse_dns_answers_complete M q qs ans :
  Forall is_byte M → response_at M q qs ans →
  parse_dns_answers M = Done (concat (map (answer_of (dotted (q_name q))) ans)).
Proof. intros Hb. by apply parse_response_at. Qed.

(** A response as a resolver writes it: the second owner is a label and a pointer
    into the data of the first record, which itself ends in a pointer; an OPT
    record follows, announced in the additional count. *)
Definition compressed_response : list Z :=
  be_bytes 2 7 ++ be_bytes 2 0x8180 ++ be_bytes 2 1 ++ be_bytes 2 2 ++ be_bytes 2 0 ++ be_bytes 2 1
  ++ encode_name [u "www"; u "a"; u "com"] ++ be_bytes 2 1 ++ be_bytes 2 1
  ++ be_bytes 2 0xC00C ++ be_bytes 2 5 ++ be_bytes 2 1 ++ be_bytes 4 60 ++ be_bytes 2 6
     ++ encode_label (u "cdn") ++ be_bytes 2 0xC010
  ++ encode_label (u "x") ++ be_bytes 2 0xC027 ++ be_bytes 2 1 ++ be_bytes 2 1 ++ be_bytes 4 60
     ++ be_bytes 2 4 ++ [93; 184; 216; 34]
  ++ [0; 0; 41; 16; 0; 0; 0; 0; 0; 0; 0].

Definition compressed_answers : list answer :=
  [MkAnswer None 5 1 60 (encode_label (u "cdn") ++ be_bytes 2 0xC010);
   MkAnswer None 1 1 60 [93; 184; 216; 34]].

Lemma compressed_response_at :
  response_at compressed_response (MkQuestion [u "www"; u "a"; u "com"] 1 1) []
    compressed_answers.
Proof.
  assert (name_at compressed_response 0 18 [u "com"] 23) as Hcom.
  { apply name_label; [concrete..|]. apply (name_root _ 22). concrete. }
  assert (name_at compressed_response 0 16 [u "a"; u "com"] 23) as Ha.
  { apply name_label; [concrete..|exact Hcom]. }
  assert (name_at compressed_response 0 12 [u "www"; u "a"; u "com"] 23) as Hwww.
  { apply name_label; [concrete..|exact Ha]. }
  assert (name_at compressed_response 1 39 [u "cdn"; u "a"; u "com"] 45) as Hcdn.
  { apply name_label; [concrete..|]. apply (name_pointer _ 0 43 16 _ 23); [concrete..|exact Ha]. }
  split; [exists 0x8180; split_and!; concrete|split_and!; concrete|].
  exists 27, 63. split.
  - apply (next_question _ 0 12 _ 23); [concrete|exact Hwww|concrete|constructor].
  - apply (next_record _ 1 27 _ 29 [u "www"; u "a"; u "com"]); [concrete| |concrete..|].
    { apply (name_pointer _ 0 27 12 _ 23); [concrete..|exact Hwww]. }
    apply (next_record _ 2 45 _ 49 [u "x"; u "cdn"; u "a"; u "com"]); [concrete| |concrete..|constructor].
    apply name_label; [concrete..|]. apply (name_pointer _ 1 47 39 _ 45); [concrete..|exact Hcdn].
Qed.

Lemma parse_dns_answers_complete_witness :
  parse_dns_answers compressed_response = Done [(V4 (ipv4 93 184 216 34), u "www.a.com")].
Proof.
  apply (parse_dns_answers_complete compressed_response (MkQuestion [u "www"; u "a"; u "com"] 1 1) []
    compressed_answers); [concrete|exact compressed_response_at].
Defined.

Lemma parse_dns_answers_sound_witness :
  let payload := encode_response 7 0x8180 (MkQuestion [u "a"] 1 1) []
                   [MkAnswer None 1 1 60 [93; 184; 216; 34]] [] in
  ∃ l, parse_dns_answers payload = Done l ∧
    (l ≠ [] → ∃ flags ancount qname off,
      u16_at payload 2 = Done flags ∧ Z.testbit flags 15 = true ∧ flags mod 16 = 0 ∧
      u16_at payload 6 = Done ancount ∧ zlen l ≤ ancount ∧
      parse_name payload 12 = Some (Done (Some (qname, off))) ∧
      Forall (λ '(ip, name), name = qname ∧ answer_in payload ip) l).
Proof. intros payload. apply parse_dns_answers_sound. concrete. Defined.

Lemma store_lookup_witness :
  ∃ c', store cache_default 0 (V4 1) (u "a.example") = Done c' ∧ ∀ ip' t, lookup c' t ip' =
    if bool_decide (ip' = V4 1) then (if t <? 0 + ttl cache_default then Some (u "a.example") else None)
    else lookup cache_default t ip'.
Proof. exact (store_lookup cache_default 0 (V4 1) (u "a.example") eq_refl). Defined.

Lemma purge_invisible_witness :
  let c := insert_entry cache_default (V4 1) (MkEntry (u "a.example") DNS_CACHE_TTL) in
  (∀ ip, lookup (purge_expired c (400 * 10 ^ 9)) (400 * 10 ^ 9) ip = lookup c (400 * 10 ^ 9) ip)
  ∧ cache_len (purge_expired c (400 * 10 ^ 9)) (400 * 10 ^ 9) = cache_len c (400 * 10 ^ 9)
  ∧ (poisoned c = false → ∀ ip e,
       entries (purge_expired c (400 * 10 ^ 9)) !! ip = Some e → 400 * 10 ^ 9 < expires e).
Proof. intros c. apply purge_invisible. lia. Defined.

(** [DnsCache::new(Duration::MAX)] panics at its first store. *)
Example endless_lifetime_panics :
  store (cache_new (2 ^ 64 * 10 ^ 9 - 1)) 0 (V4 1) (u "a.example") = Panic.
Proof. reflexivity. Qed.
