(* ===== verification/DnsHistory.v ===== *)
(** * The name cache against its history ([DnsCache] of [dns.rs])

    What a lookup answers is a function of the stores made so far: a log of them
    is the specification of the cache, and the map with its expiry times and its
    purges refines it.  A store whose expiry time is not an [Instant] panics, in
    the task that makes it: the cache goes on without it. *)

From S2P Require Export Dns.
Local Open Scope Z_scope.

(** ** The specification: a log of stores *)

Record stored : Type := MkStored { st_time : Z; st_addr : IpAddr; st_name : str }.

(** The name an address has at time [t]: that of the last store for it, for as
    long as [ttl]. *)
Definition answer_at (ttl t : Z) (log : list stored) (ip : IpAddr) : option str :=
  s ← List.find (λ s, bool_decide (st_addr s = ip)) (reverse log);
  if t <? st_time s + ttl then Some (st_name s) else None.

(** ** The operations, and what they log *)

Inductive cache_op : Type :=
  | OpStore (now : Z) (ip : IpAddr) (name : str)
  | OpSnoop (now : nat → Z) (payload : list Z)   (* the clock at each store *)
  | OpPurge (now : Z).

(** The cache after an operation, and how the operation ended. *)
Definition apply_op (c : DnsCache) (op : cache_op) : DnsCache * outcome unit :=
  match op with
  | OpStore now ip name => match store c now ip name with Done c' => (c', Done tt) | Panic => (c, Panic) end
  | OpSnoop now payload => snoop_response c now payload
  | OpPurge now => (purge_expired c now, Done tt)
  end.
Definition apply_ops (c : DnsCache) (ops : list cache_op) : DnsCache :=
  foldl (λ c op, (apply_op c op).1) c ops.

(** The names an operation has to store, each at its time. *)
Fixpoint timed (now : nat → Z) (l : list (IpAddr * str)) : list stored :=
  match l with
  | [] => []
  | (ip, name) :: l' => MkStored (now 0%nat) ip name :: timed (λ i, now (S i)) l'
  end.
Definition to_store (op : cache_op) : list stored :=
  match op with
  | OpStore now ip name => [MkStored now ip name]
  | OpSnoop now payload => match parse_dns_answers payload with Done l => timed now l | Panic => [] end
  | OpPurge _ => []
  end.

(** The store that cannot be made, and those before it; empty names are passed
    over. *)
Definition overruns (ttl : Z) (s : stored) : bool :=
  negb (is_empty (st_name s)) && (INSTANT_END <=? st_time s + ttl).
Fixpoint made (ttl : Z) (l : list stored) : list stored :=
  match l with
  | [] => []
  | s :: l' => if overruns ttl s then [] else (if is_empty (st_name s) then [] else [s]) ++ made ttl l'
  end.
Definition log_op (ttl : Z) (op : cache_op) : list stored := made ttl (to_store op).

(** Purges so far are not after [t], and payloads are bytes. *)
Definition op_ok (t : Z) (op : cache_op) : Prop :=
  match op with
  | OpStore _ _ _ => True
  | OpSnoop _ payload => Forall is_byte payload
  | OpPurge now => now ≤ t
  end.

(** ** Refinement *)

(** [c] answers at time [t] as the log does. *)
Definition refines (ttl_ t : Z) (c : DnsCache) (log : list stored) : Prop :=
  poisoned c = false ∧ ttl c = ttl_ ∧ ∀ ip, lookup c t ip = answer_at ttl_ t log ip.

Lemma answer_at_snoc ttl t log s ip :
  answer_at ttl t (log ++ [s]) ip
  = if bool_decide (st_addr s = ip)
    then (if t <? st_time s + ttl then Some (st_name s) else None) else answer_at ttl t log ip.
Proof. unfold answer_at. rewrite reverse_snoc. simpl. by case_bool_decide. Qed.

Lemma store_made c now ip name :
  store c now ip name =
    if overruns (ttl c) (MkStored now ip name) then Panic
    else Done (if is_empty name then c else insert_entry c ip (MkEntry name (now + ttl c))).
Proof.
  unfold store, overruns, instant_add. cbn [st_name st_time]. destruct (is_empty name); [done|]. simpl.
  destruct (Z.ltb_spec (now + ttl c) INSTANT_END), (Z.leb_spec INSTANT_END (now + ttl c)); done || lia.
Qed.

Lemma refines_insert ttl_ t c log now ip name :
  refines ttl_ t c log →
  refines ttl_ t (insert_entry c ip (MkEntry name (now + ttl c))) (log ++ [MkStored now ip name]).
Proof.
  intros (Hp & Ht & Hl). split_and!; [unfold insert_entry; by rewrite Hp..|]. intros ip'.
  rewrite lookup_insert_entry, answer_at_snoc, <-Hl, <-Ht by done. unfold live. cbn.
  destruct (decide (ip' = ip)) as [->|Hne]; [by rewrite !bool_decide_true by done|].
  by rewrite !bool_decide_false by congruence.
Qed.

(** The stores of an operation, one after the other until one cannot be made. *)
Lemma refines_store_all ttl_ t now l c log :
  refines ttl_ t c log →
  refines ttl_ t (store_all c now l).1 (log ++ made ttl_ (timed now l))
  ∧ (store_all c now l).2 = if existsb (overruns ttl_) (timed now l) then Panic else Done tt.
Proof.
  revert now c log. induction l as [|[ip name] l IH]; intros now c log Hr; cbn [store_all timed made existsb].
  { by rewrite app_nil_r. }
  rewrite store_made. assert (ttl c = ttl_) as -> by apply Hr.
  destruct (overruns _ _); [by rewrite app_nil_r|]. cbn [st_name orb]. rewrite app_assoc.
  apply IH. destruct (is_empty name); [by rewrite app_nil_r|].
  assert (ttl_ = ttl c) as -> by (symmetry; apply Hr). by apply refines_insert.
Qed.

Lemma refines_purge ttl_ t c log now :
  now ≤ t → refines ttl_ t c log → refines ttl_ t (purge_expired c now) log.
Proof.
  intros Hn (Hp & Ht & Hl). destruct (purge_invisible c now t Hn) as [Hlk _].
  split_and!; [unfold purge_expired; by rewrite Hp..|]. intros ip. by rewrite Hlk.
Qed.

Lemma refines_op ttl_ t c log op :
  op_ok t op → refines ttl_ t c log →
  refines ttl_ t (apply_op c op).1 (log ++ log_op ttl_ op)
  ∧ (apply_op c op).2 = if existsb (overruns ttl_) (to_store op) then Panic else Done tt.
Proof.
  intros Hop Hr. destruct op as [now ip name|now payload|now]; cbn [op_ok apply_op to_store] in *.
  - pose proof (refines_store_all ttl_ t (λ _, now) [(ip, name)] c log Hr) as Hs. cbn [store_all timed] in Hs.
    unfold log_op, to_store. by destruct (store c now ip name).
  - unfold snoop_response, log_op, to_store. destruct (parse_dns_answers_total payload Hop) as [l ->].
    by apply refines_store_all.
  - split; [|done]. unfold log_op. cbn [to_store made]. rewrite app_nil_r. by apply refines_purge.
Qed.

Lemma refines_ops ttl_ t ops c log :
  Forall (op_ok t) ops → refines ttl_ t c log →
  refines ttl_ t (apply_ops c ops) (log ++ concat (log_op ttl_ <$> ops)).
Proof.
  intros Hops. revert c log. induction Hops as [|op ops Hop _ IH]; intros c log Hr; simpl.
  - by rewrite app_nil_r.
  - rewrite app_assoc. apply IH, refines_op, Hr. done.
Qed.

Lemma refines_new lifetime t : refines lifetime t (cache_new lifetime) [].
Proof. split_and!; [done..|]. intros ip. unfold lookup. simpl. by rewrite lookup_empty. Qed.

(** C22: the name cache is a log of what was stored.  After any sequence of
    stores, snooped responses (whatever their bytes) and purges on a new cache of
    any lifetime, a lookup at time [t] answers with the name of the last store for
    the address if less than the lifetime has passed since, and with nothing
    otherwise, provided no purge ran at a time after [t]; and the next operation
    panics exactly when it has a name to store whose end of life is past the last
    [Instant], in which case what it stored before that stays. *)
Theorem cache_refines_log lifetime ops op t :
  Forall (op_ok t) (op :: ops) →
  let c := apply_ops (cache_new lifetime) ops in
  let log := concat (log_op lifetime <$> ops) in
  (∀ ip, lookup c t ip = answer_at lifetime t log ip)
  ∧ ((apply_op c op).2 = if existsb (overruns lifetime) (to_store op) then Panic else Done tt)
  ∧ (∀ ip, lookup (apply_op c op).1 t ip = answer_at lifetime t (log ++ log_op lifetime op) ip).
Proof.
  intros [Hop Hops]%Forall_cons c log.
  assert (refines lifetime t c log) as Hr by (apply (refines_ops _ _ _ _ []); [done|apply refines_new]).
  destruct (refines_op _ _ _ _ _ Hop Hr) as [Hr' Ho]. split_and!; [apply Hr|done|apply Hr'].
Qed.

Lemma cache_refines_log_witness :
  let response := encode_response 7 0x8180 (MkQuestion [u "new"] 1 1) [] [MkAnswer None 1 1 60 [10; 0; 0; 1]] [] in
  let ops := [OpStore 0 (V4 (ipv4 10 0 0 1)) (u "old"); OpSnoop (λ _, 5) response; OpPurge 50] in
  let op := OpStore (INSTANT_END - 100) (V4 2) (u "late") in
  (∀ ip, lookup (apply_ops (cache_new 100) ops) 60 ip = answer_at 100 60 (concat (log_op 100 <$> ops)) ip)
  ∧ (apply_op (apply_ops (cache_new 100) ops) op).2 = Panic
  ∧ answer_at 100 60 (concat (log_op 100 <$> ops)) (V4 (ipv4 10 0 0 1)) = Some (u "new").
Proof.
  intros response ops op.
  destruct (cache_refines_log 100 ops op 60) as (H1 & H2 & _).
  { unfold ops. rewrite !Forall_cons. split_and!; [done..| |simpl; lia|by apply Forall_nil].
    change (Forall is_byte response). concrete. }
  split_and!; [exact H1|exact H2|concrete].
Defined.
