(* ===== verification/Conn.v ===== *)
(** * Connections and the asynchronous operations on them

    The handshakes of [proxy.rs] run over a [tokio::net::TcpStream].  A
    connection is the script of what the peer sends, in the pieces the network
    delivers it, what the next writes answer, and the bytes sent so far; an
    [async fn] over it is a computation in the monad [io], whose outcome is
    [Ready] or [Failed] for [Ok] and [Err], [Hang] for a future that never
    completes, [Crash] for a panic.

    [read_exact] is proved against a view of the script as one byte sequence:
    the handshakes that use it do not depend on how the peer's bytes are cut. *)

From S2P Require Export Config.
Local Open Scope Z_scope.

(** What a read finds: a non-empty piece of data, the end of the stream, an
    error.  [RData []] stands for nothing arriving and is passed over. *)
Inductive read_event : Type :=
  | RData (bs : list Z)
  | REof
  | RErr (e : io_error).

(** [write_results]: for each write to come, [None] for success, and [Some (k, r)]
    for one that gets no further than [k] bytes: an error [r], or no answer ever (a
    peer that does not read).  Writes succeed when the list is exhausted. *)
Record conn : Type := MkConn {
  inbox : list read_event;
  write_results : list (option (Z * option io_error));
  outbox : list Z
}.

Inductive io_out (A : Type) : Type :=
  | Ready (a : A)
  | Failed (e : io_error)
  | Hang
  | Crash
  | OutOfFuel.
Arguments Ready {A} a.
Arguments Failed {A} e.
Arguments Hang {A}.
Arguments Crash {A}.
Arguments OutOfFuel {A}.

Definition io (A : Type) : Type := conn → io_out A * conn.

#[export] Instance io_ret : MRet io := λ A a c, (Ready a, c).
#[export] Instance io_bind : MBind io := λ A B k m c,
  match m c with
  | (Ready a, c') => k a c'
  | (Failed e, c') => (Failed e, c')
  | (Hang, c') => (Hang, c')
  | (Crash, c') => (Crash, c')
  | (OutOfFuel, c') => (OutOfFuel, c')
  end.
#[export] Instance io_fmap : FMap io := λ A B f m, x ← m; mret (f x).

Definition io_fail {A} (e : io_error) : io A := λ c, (Failed e, c).
Definition io_crash {A} : io A := λ c, (Crash, c).
Definition io_out_of_fuel {A} : io A := λ c, (OutOfFuel, c).

(** [result?] inside an [async fn]. *)
Definition io_try {A} (r : result io_error A) : io A :=
  match r with Ok a => mret a | Err e => io_fail e end.

Definition with_inbox (c : conn) (i : list read_event) : conn :=
  MkConn i (write_results c) (outbox c).

Definition eof_error : io_error := IoError UnexpectedEof "early eof".

(** [stream.read(&mut buf)] with a buffer of [n] bytes: [[]] at the end. *)
Fixpoint read_from (n : Z) (i : list read_event) : io_out (list Z) * list read_event :=
  match i with
  | [] => (Hang, [])
  | REof :: _ => (Ready [], i)
  | RErr e :: i' => (Failed e, i')
  | RData [] :: i' => read_from n i'
  | RData bs :: i' =>
    if n <? zlen bs
    then (Ready (take (Z.to_nat n) bs), RData (drop (Z.to_nat n) bs) :: i')
    else (Ready bs, i')
  end.
Definition read (n : Z) : io (list Z) := λ c,
  let '(r, i) := read_from n (inbox c) in (r, with_inbox c i).

(** [stream.read_exact(&mut buf)] with a buffer of [n] bytes. *)
Fixpoint read_exact_from (n : Z) (i : list read_event) : io_out (list Z) * list read_event :=
  if n <=? 0 then (Ready [], i)
  else match i with
  | [] => (Hang, [])
  | REof :: _ => (Failed eof_error, i)
  | RErr e :: i' => (Failed e, i')
  | RData bs :: i' =>
    if n <? zlen bs
    then (Ready (take (Z.to_nat n) bs), RData (drop (Z.to_nat n) bs) :: i')
    else match read_exact_from (n - zlen bs) i' with
    | (Ready more, i'') => (Ready (bs ++ more), i'')
    | r => r
    end
  end.
Definition read_exact (n : Z) : io (list Z) := λ c,
  let '(r, i) := read_exact_from n (inbox c) in (r, with_inbox c i).

(** [stream.write_all(bytes)] *)
Definition write_all (bytes : list Z) : io unit := λ c,
  match write_results c with
  | Some (k, r) :: ws =>
    (match r with Some e => Failed e | None => Hang end,
     MkConn (inbox c) ws (outbox c ++ take (Z.to_nat k) bytes))
  | _ => (Ready tt, MkConn (inbox c) (tail (write_results c)) (outbox c ++ bytes))
  end.

(** [tokio::time::timeout(d, fut).await] with the error [e] for an elapsed
    timer: a future that hangs is cut off. *)
Definition timeout {A} (e : io_error) (m : io A) : io A := λ c,
  match m c with (Hang, c') => (Failed e, c') | r => r end.

(** ** The script as a byte sequence *)

Inductive ending : Type := EndHang | EndEof | EndErr (e : io_error).

Fixpoint view (i : list read_event) : list Z * ending :=
  match i with
  | [] => ([], EndHang)
  | REof :: _ => ([], EndEof)
  | RErr e :: _ => ([], EndErr e)
  | RData bs :: i' => let '(more, e) := view i' in (bs ++ more, e)
  end.

Definition ending_result {A} (e : ending) : io_out A :=
  match e with EndHang => Hang | EndEof => Failed eof_error | EndErr e => Failed e end.

(** ** Lemmas *)

Lemma read_exact_from_spec n i bs e :
  view i = (bs, e) →
  if n <=? zlen bs
  then ∃ i', read_exact_from n i = (Ready (take (Z.to_nat n) bs), i')
           ∧ view i' = (drop (Z.to_nat n) bs, e)
  else ∃ i', read_exact_from n i = (ending_result e, i').
Proof.
  revert n bs. induction i as [|[d| |er] i IH]; intros n bs Hv; cbn [view read_exact_from] in *.
  - injection Hv as <- <-. change (zlen []) with 0. destruct (Z.leb_spec n 0); [|by eexists].
    replace (Z.to_nat n) with 0%nat by lia. by exists [].
  - destruct (view i) as [more e'] eqn:E. injection Hv as <- <-. rewrite zlen_app.
    pose proof (zlen_nonneg d). pose proof (zlen_nonneg more).
    destruct (Z.leb_spec n 0).
    { bool_lit. replace (Z.to_nat n) with 0%nat by lia. exists (RData d :: i).
      split; [done|]. simpl. by rewrite E. }
    destruct (Z.ltb_spec n (zlen d)).
    { bool_lit. eexists. split.
      - f_equal. f_equal. rewrite take_app_le; [done|unfold zlen in *; lia].
      - simpl. rewrite E. f_equal. rewrite drop_app_le; [done|unfold zlen in *; lia]. }
    specialize (IH (n - zlen d) more eq_refl).
    destruct (Z.leb_spec (n - zlen d) (zlen more)).
    + destruct IH as (i' & -> & Hv'). bool_lit. exists i'.
      assert (Z.to_nat n = length d + Z.to_nat (n - zlen d))%nat as -> by (unfold zlen in *; lia).
      by rewrite take_app_add, drop_app_add.
    + destruct IH as (i' & ->). bool_lit. exists i'. by destruct e'.
  - injection Hv as <- <-. change (zlen []) with 0. destruct (Z.leb_spec n 0); [|by eexists].
    replace (Z.to_nat n) with 0%nat by lia. by exists (REof :: i).
  - injection Hv as <- <-. change (zlen []) with 0. destruct (Z.leb_spec n 0); [|by eexists].
    replace (Z.to_nat n) with 0%nat by lia. by exists (RErr er :: i).
Qed.

(** What a computation may depend on: the byte sequence, not its pieces. *)
Record same_view (c c' : conn) : Prop := {
  sv_inbox : view (inbox c) = view (inbox c');
  sv_writes : write_results c = write_results c';
  sv_outbox : outbox c = outbox c'
}.

#[export] Instance same_view_equiv : Equivalence same_view.
Proof.
  split.
  - by intros c.
  - by intros c c' [? ? ?].
  - intros c1 c2 c3 [? ? ?] [? ? ?]. split; congruence.
Qed.

(** A computation that cannot tell two scripts with the same view apart. *)
Definition chunking_free {A} (m : io A) : Prop :=
  ∀ c c', same_view c c' →
    (m c).1 = (m c').1 ∧ outbox (m c).2 = outbox (m c').2
    ∧ (∀ a, (m c).1 = Ready a → same_view (m c).2 (m c').2).

Lemma chunking_free_ret {A} (a : A) : chunking_free (mret (M:=io) a).
Proof. intros c c' Hs. split_and!; [done|by destruct Hs|by intros]. Qed.

Lemma chunking_free_fail {A} e : chunking_free (io_fail (A:=A) e).
Proof. intros c c' Hs. split_and!; [done|by destruct Hs|by intros]. Qed.

Lemma chunking_free_crash {A} : chunking_free (io_crash (A:=A)).
Proof. intros c c' Hs. split_and!; [done|by destruct Hs|by intros]. Qed.

Lemma chunking_free_try {A} (r : result io_error A) : chunking_free (io_try r).
Proof. destruct r; [apply chunking_free_ret|apply chunking_free_fail]. Qed.

Lemma chunking_free_bind {A B} (m : io A) (k : A → io B) :
  chunking_free m → (∀ a, chunking_free (k a)) → chunking_free (m ≫= k).
Proof.
  intros Hm Hk c c' Hs. destruct (Hm c c' Hs) as (H1 & H2 & H3).
  unfold mbind, io_bind. destruct (m c) as [[a|e| | |] c1], (m c') as [[a'|e'| | |] c1'];
    simpl in *; simplify_eq; try (split_and!; done).
  apply Hk. by apply (H3 a').
Qed.

Lemma chunking_free_write bytes : chunking_free (write_all bytes).
Proof.
  intros c c' [H1 H2 H3]. unfold write_all. rewrite <-H2.
  destruct (write_results c) as [|[[k [e|]]|] ws]; simpl; rewrite H3; split_and!; try done;
    intros; split; simpl; congruence.
Qed.

Lemma chunking_free_read_exact n : chunking_free (read_exact n).
Proof.
  intros c c' [H1 H2 H3]. unfold read_exact.
  destruct (view (inbox c)) as [bs e] eqn:E. symmetry in H1.
  pose proof (read_exact_from_spec n _ _ _ E) as Hs.
  pose proof (read_exact_from_spec n _ _ _ H1) as Hs'.
  destruct (n <=? zlen bs).
  - destruct Hs as (i & -> & Hv), Hs' as (i' & -> & Hv'). split_and!; [done|done|].
    intros a _. split; simpl; congruence.
  - destruct Hs as (i & ->), Hs' as (i' & ->). split_and!; [done|done|].
    intros a. by destruct e.
Qed.

#[export] Hint Resolve chunking_free_ret chunking_free_fail chunking_free_crash
  chunking_free_try chunking_free_bind chunking_free_write chunking_free_read_exact : ace.

(** ** Specifying a handshake by the peer's bytes

    [meets m s e (Some (a, sent, rest))]: on any connection whose writes succeed
    and whose peer sends [s] and then ends as [e], [m] returns [a] having sent
    [sent] and left [rest] unread.  [meets m s e None]: [m] is refused, that is,
    fails or waits forever; it does not panic. *)

Definition refused {A} (r : io_out A) : Prop := match r with Failed _ | Hang => True | _ => False end.

Definition opened (c : conn) (s : list Z) (e : ending) : Prop :=
  view (inbox c) = (s, e) ∧ write_results c = [].

Definition meets {A} (m : io A) (s : list Z) (e : ending) (x : option (A * list Z * list Z)) : Prop :=
  ∀ c, opened c s e →
    match x with
    | Some (a, sent, rest) =>
      ∃ c', m c = (Ready a, c') ∧ outbox c' = outbox c ++ sent ∧ opened c' rest e
    | None => ∃ r c', m c = (r, c') ∧ refused r
    end.

Definition after {B} (sent : list Z) (x : option (B * list Z * list Z)) : option (B * list Z * list Z) :=
  '(b, sent', rest) ← x; Some (b, sent ++ sent', rest).

Lemma meets_ret {A} (a : A) s e : meets (mret a) s e (Some (a, [], s)).
Proof. intros c Hc. exists c. by rewrite app_nil_r. Qed.

Lemma meets_fail {A} er s e : meets (io_fail (A:=A) er) s e None.
Proof. intros c Hc. by exists (Failed er), c. Qed.

Lemma meets_write bytes s e : meets (write_all bytes) s e (Some (tt, bytes, s)).
Proof. intros c [Hv Hw]. unfold write_all. rewrite Hw. by eexists. Qed.

Lemma meets_read n s e :
  meets (read_exact n) s e
    (if n <=? zlen s then Some (take (Z.to_nat n) s, [], drop (Z.to_nat n) s) else None).
Proof.
  intros c [Hv Hw]. pose proof (read_exact_from_spec n _ _ _ Hv) as H. unfold read_exact.
  destruct (n <=? zlen s).
  - destruct H as (i & -> & Hi). eexists. split; [done|]. simpl. by rewrite app_nil_r.
  - destruct H as (i & ->). eexists _, _. split; [done|]. by destruct e.
Qed.

Lemma meets_bind {A B} (m : io A) (k : A → io B) s e a sent rest y :
  meets m s e (Some (a, sent, rest)) → meets (k a) rest e y →
  meets (m ≫= k) s e (after sent y).
Proof.
  intros Hm Hk c Hc. destruct (Hm c Hc) as (c1 & E1 & Ho & Hc1).
  specialize (Hk c1 Hc1). unfold mbind, io_bind. rewrite E1.
  destruct y as [[[b sent'] rest']|]; simpl; [|done].
  destruct Hk as (c2 & -> & Ho2 & ?). exists c2. by rewrite Ho2, Ho, <-app_assoc.
Qed.

Lemma meets_write_then {B} bytes (k : io B) s e y :
  meets k s e y → meets (write_all bytes ;; k) s e (after bytes y).
Proof. intros Hk. by eapply meets_bind; [apply meets_write|]. Qed.

Lemma meets_bind_refused {A B} (m : io A) (k : A → io B) s e :
  meets m s e None → meets (m ≫= k) s e None.
Proof.
  intros Hm c Hc. destruct (Hm c Hc) as (r & c1 & E1 & Hr). unfold mbind, io_bind.
  rewrite E1. destruct r; try done; by eexists _, _.
Qed.

Lemma after_nil {B} (x : option (B * list Z * list Z)) : after [] x = x.
Proof. by destruct x as [[[]]|]. Qed.

(** A read followed by the rest of the handshake. *)
Lemma meets_read_bind {B} n (k : list Z → io B) s e y :
  (n ≤ zlen s → meets (k (take (Z.to_nat n) s)) (drop (Z.to_nat n) s) e y) →
  (zlen s < n → y = None) →
  meets (read_exact n ≫= k) s e y.
Proof.
  intros Hk Hn. pose proof (meets_read n s e) as Hr. destruct (Z.leb_spec n (zlen s)).
  - rewrite <-(after_nil y). by eapply meets_bind; [exact Hr|apply Hk].
  - rewrite Hn by lia. by apply meets_bind_refused.
Qed.

(** A computation that sends nothing, whatever its outcome. *)
Definition quiet {A} (m : io A) : Prop := ∀ c, outbox (m c).2 = outbox c.

Lemma quiet_ret {A} (a : A) : quiet (mret (M:=io) a).
Proof. done. Qed.
Lemma quiet_fail {A} e : quiet (io_fail (A:=A) e).
Proof. done. Qed.
Lemma quiet_crash {A} : quiet (io_crash (A:=A)).
Proof. done. Qed.
Lemma quiet_fuel {A} : quiet (io_out_of_fuel (A:=A)).
Proof. done. Qed.
Lemma quiet_try {A} (r : result io_error A) : quiet (io_try r).
Proof. by destruct r. Qed.
Lemma quiet_read n : quiet (read n).
Proof. intros c. unfold read. by destruct (read_from n (inbox c)). Qed.
Lemma quiet_read_exact n : quiet (read_exact n).
Proof. intros c. unfold read_exact. by destruct (read_exact_from n (inbox c)). Qed.
Lemma quiet_bind {A B} (m : io A) (k : A → io B) : quiet m → (∀ a, quiet (k a)) → quiet (m ≫= k).
Proof.
  intros Hm Hk c. specialize (Hm c). unfold mbind, io_bind.
  destruct (m c) as [[a|e| | |] c1]; simpl in *; [by rewrite Hk|done..].
Qed.
#[export] Hint Resolve quiet_ret quiet_fail quiet_crash quiet_fuel quiet_try quiet_read
  quiet_read_exact quiet_bind : ace.

(** A write sends a prefix of its bytes, all of them when it succeeds. *)
Lemma write_all_cases bytes c :
  (∃ c', write_all bytes c = (Ready tt, c') ∧ outbox c' = outbox c ++ bytes ∧ inbox c' = inbox c)
  ∨ (∃ r c' k, write_all bytes c = (match r with Some e => Failed e | None => Hang end, c')
       ∧ outbox c' = outbox c ++ take k bytes).
Proof.
  unfold write_all. destruct (write_results c) as [|[[k r]|] ws]; [left|right|left]; by repeat eexists.
Qed.

(** ** Outcomes *)

Definition bytes_ok (c : conn) : Prop := Forall is_byte (view (inbox c)).1.

(** On any connection that delivers bytes, the computation fails, waits, or
    returns a value satisfying [Q]; it neither panics nor runs out of fuel. *)
Definition well_behaved {A} (m : io A) (Q : A → Prop) : Prop :=
  ∀ c, bytes_ok c →
    match m c with
    | (Ready a, c') => Q a ∧ bytes_ok c'
    | (r, _) => refused r
    end.

Lemma wb_ret {A} (a : A) (Q : A → Prop) : Q a → well_behaved (mret a) Q.
Proof. intros Ha c Hc. done. Qed.

Lemma wb_fail {A} e (Q : A → Prop) : well_behaved (io_fail e) Q.
Proof. intros c Hc. done. Qed.

Lemma wb_try {A} (r : result io_error A) : well_behaved (io_try r) (λ _, True).
Proof. destruct r; [by apply wb_ret|apply wb_fail]. Qed.

Lemma wb_write bytes : well_behaved (write_all bytes) (λ _, True).
Proof. intros c Hc. unfold write_all. by destruct (write_results c) as [|[[? []]|] ?]. Qed.

Lemma wb_bind {A B} (m : io A) (k : A → io B) P Q :
  well_behaved m P → (∀ a, P a → well_behaved (k a) Q) → well_behaved (m ≫= k) Q.
Proof.
  intros Hm Hk c Hc. specialize (Hm c Hc). unfold mbind, io_bind.
  destruct (m c) as [[a|e| | |] c1]; try done. destruct Hm as [Ha Hc1]. by apply Hk.
Qed.

Lemma wb_read_exact n :
  well_behaved (read_exact n) (λ bs, Forall is_byte bs ∧ zlen bs = Z.max 0 n).
Proof.
  intros c Hc. unfold bytes_ok in *. destruct (view (inbox c)) as [s e] eqn:E.
  pose proof (read_exact_from_spec n _ _ _ E) as H. unfold read_exact.
  destruct (Z.leb_spec n (zlen s)).
  - destruct H as (i & -> & Hi). unfold with_inbox. cbn [inbox]. rewrite Hi. split_and!.
    + by apply Forall_take.
    + unfold zlen in *. rewrite length_take. lia.
    + by apply Forall_drop.
  - destruct H as (i & ->). by destruct e.
Qed.

(** One read of at most [n] bytes. *)
Lemma read_from_spec n i s e :
  0 < n → view i = (s, e) →
  (∃ i', read_from n i = (Ready [], i') ∧ s = [] ∧ e = EndEof)
  ∨ (∃ bs s' i', read_from n i = (Ready bs, i') ∧ bs ≠ [] ∧ zlen bs ≤ n
       ∧ s = bs ++ s' ∧ view i' = (s', e))
  ∨ (∃ r i', read_from n i = (r, i') ∧ refused r ∧ s = [] ∧ e ≠ EndEof).
Proof.
  intros Hn. revert s. induction i as [|[bs| |er] i IH]; intros s Hv; cbn [view read_from] in *.
  - right; right. simplify_eq. by eexists _, _.
  - destruct (view i) as [more e'] eqn:E. destruct bs as [|b bs].
    { simplify_eq. by apply IH. }
    right; left. simplify_eq. destruct (Z.ltb_spec n (zlen (b :: bs))).
    + eexists _, (drop (Z.to_nat n) (b :: bs) ++ more), _. split_and!; [done| | | |].
      * intros Ht%(f_equal length). rewrite length_take in Ht. unfold zlen in *. simpl in *. lia.
      * unfold zlen in *. rewrite length_take. lia.
      * by rewrite app_assoc, take_drop.
      * cbn [view]. by rewrite E.
    + eexists _, more, _. by split_and!.
  - left. simplify_eq. by eexists.
  - right; right. simplify_eq. by eexists _, _.
Qed.
