(* ===== verification/Proxy.v ===== *)
(** * Upstream proxy connectors ([proxy.rs])

    The HTTP CONNECT and SOCKS5 handshakes over a connection of [Conn].  The
    [base64] crate is external: the class [Base64] is its [STANDARD.encode],
    and [Base64Laws] states the alphabet of its output.  [connect_answer] is
    the answer of [TcpStream::connect], given to [connect_via_proxy]. *)

From S2P Require Export Conn.
Local Open Scope Z_scope.

Class Base64 : Type := b64_encode : list Z → str.

Definition SOCKS5_VERSION : Z := 0x05.
Definition SOCKS5_CMD_CONNECT : Z := 0x01.
Definition SOCKS5_ATYP_IPV4 : Z := 0x01.
Definition SOCKS5_ATYP_DOMAIN : Z := 0x03.
Definition SOCKS5_ATYP_IPV6 : Z := 0x04.
Definition SOCKS5_AUTH_NONE : Z := 0x00.
Definition SOCKS5_AUTH_USERPASS : Z := 0x02.

Inductive Target : Type :=
  | Ip (ip : IpAddr) (port : Z)
  | Domain (host : str) (port : Z).

Definition target_port (t : Target) : Z := match t with Ip _ p | Domain _ p => p end.
Definition host_string (t : Target) : str :=
  match t with Ip ip _ => show_ip ip | Domain h _ => h end.

Definition UPSTREAM_CONNECT_TIMEOUT : Z := 10 * 10 ^ 9.

(** [io::Error::other(msg)]; the second form for a message built with [format!]. *)
Definition other (msg : string) : io_error := IoError Other msg.
Definition to_string (s : str) : string :=
  String.string_of_list_ascii (map (λ c, Ascii.ascii_of_nat (Z.to_nat c)) s).
Definition other_fmt (msg : str) : io_error := other (to_string msg).

(** ** HTTP CONNECT *)

Definition CRLF : str := [13; 10].

Section Http.
Context `{Base64}.

Definition build_http_connect_request (host : str) (port : Z) (auth : option (str * str)) : list Z :=
  let req := u "CONNECT " ++ host ++ [58] ++ dec port ++ u " HTTP/1.1" ++ CRLF
             ++ u "Host: " ++ host ++ [58] ++ dec port ++ CRLF in
  let req := match auth with
             | Some (user, pass) =>
               let token := b64_encode (as_bytes (user ++ [58] ++ pass)) in
               req ++ u "Proxy-Authorization: Basic " ++ token ++ CRLF
             | None => req
             end in
  as_bytes (req ++ u "Proxy-Connection: keep-alive" ++ CRLF ++ CRLF).

Definition parse_http_status (response : list Z) : option Z :=
  text ← from_utf8 response;
  line ← first_line text;
  if negb (starts_with line (u "HTTP/1.")) then None
  else w ← split_whitespace line !! 1%nat; parse_u16 w.

(** [buf.len() >= 4 && buf[buf.len() - 4..] == *b"\r\n\r\n"] *)
Definition head_complete (buf : list Z) : outcome bool :=
  if 4 <=? zlen buf
  then last4 ← slice buf (zlen buf - 4) (zlen buf); mret (bool_decide (last4 = [13; 10; 13; 10]))
  else mret false.

(** The header loop: reads of at most 512 bytes until the accumulated bytes end
    in a blank line. *)
Fixpoint read_head (fuel : nat) (buf : list Z) : io (list Z) :=
  match fuel with
  | O => io_out_of_fuel
  | S fuel' =>
    tmp ← read 512;
    if zlen tmp =? 0 then io_fail (IoError UnexpectedEof "proxy closed during CONNECT")
    else
      let buf := buf ++ tmp in
      match head_complete buf with
      | Panic => io_crash
      | Done true => mret buf
      | Done false =>
        if 65536 <? zlen buf
        then io_fail (IoError InvalidData "HTTP CONNECT response headers too large")
        else read_head fuel' buf
      end
  end.

(** Every round but the last adds a byte, and 65537 bytes end the loop. *)
Definition head_fuel : nat := Z.to_nat 65538.

Definition auth_of (cfg : ProxyConfig) : option (str * str) :=
  user ← username cfg; pass ← password cfg; Some (user, pass).

Definition http_connect (cfg : ProxyConfig) (dest : Target) : io unit :=
  write_all (build_http_connect_request (host_string dest) (target_port dest) (auth_of cfg)) ;;
  buf ← read_head head_fuel [];
  match parse_http_status buf with
  | None => io_fail (IoError InvalidData "invalid HTTP CONNECT response")
  | Some status =>
    if negb (status =? 200) then io_fail (other_fmt (u "HTTP CONNECT failed with status " ++ dec status))
    else mret tt
  end.

End Http.

(** ** SOCKS5 *)

Definition build_socks5_greeting (use_auth : bool) : list Z :=
  if use_auth then [SOCKS5_VERSION; 0x02; SOCKS5_AUTH_NONE; SOCKS5_AUTH_USERPASS]
  else [SOCKS5_VERSION; 0x01; SOCKS5_AUTH_NONE].

(** [as u8]: the low eight bits. *)
Definition as_u8 (n : Z) : Z := n mod 256.

Definition build_socks5_userpass (user pass : str) : result io_error (list Z) :=
  if (255 <? len user) || (255 <? len pass) then Err (other "SOCKS5 credential too long")
  else Ok ([0x01; as_u8 (len user)] ++ as_bytes user ++ [as_u8 (len pass)] ++ as_bytes pass).

Definition build_socks5_connect_request (dest : Target) : result io_error (list Z) :=
  let buf := [SOCKS5_VERSION; SOCKS5_CMD_CONNECT; 0x00] in
  buf ← match dest with
        | Ip (V4 a) _ => Ok (buf ++ [SOCKS5_ATYP_IPV4] ++ octets (V4 a))
        | Ip (V6 a) _ => Ok (buf ++ [SOCKS5_ATYP_IPV6] ++ octets (V6 a))
        | Domain host _ =>
          if is_empty host || (255 <? len host) then Err (other "invalid SOCKS5 domain length")
          else Ok (buf ++ [SOCKS5_ATYP_DOMAIN; as_u8 (len host)] ++ as_bytes host)
        end;
  Ok (buf ++ be_bytes 2 (target_port dest)).

(** The slot [scratch[..drain]] of the 270-byte buffer. *)
Definition scratch_slice (drain : Z) : io Z := if 270 <? drain then io_crash else mret drain.

Definition byte_of (buf : list Z) (i : nat) : Z := nth i buf 0.

Definition read_socks5_reply : io unit :=
  hdr ← read_exact 4;
  if negb (byte_of hdr 0 =? SOCKS5_VERSION) || negb (byte_of hdr 1 =? 0x00)
  then io_fail (other_fmt (u "SOCKS5 CONNECT rejected (reply=" ++ dec (byte_of hdr 1) ++ u ")"))
  else
    let atyp := byte_of hdr 3 in
    drain ← (if atyp =? SOCKS5_ATYP_IPV4 then mret (4 + 2)
             else if atyp =? SOCKS5_ATYP_IPV6 then mret (16 + 2)
             else if atyp =? SOCKS5_ATYP_DOMAIN then
               dlen ← read_exact 1; mret (byte_of dlen 0 + 2)
             else io_fail (other "unknown SOCKS5 ATYP in reply"));
    n ← scratch_slice drain;
    read_exact n ;;
    mret tt.

Definition socks5_connect (cfg : ProxyConfig) (dest : Target) : io unit :=
  let use_auth := match username cfg with Some _ => true | None => false end in
  write_all (build_socks5_greeting use_auth) ;;
  method ← read_exact 2;
  if negb (byte_of method 0 =? SOCKS5_VERSION)
  then io_fail (IoError InvalidData "bad SOCKS5 version")
  else
    (if byte_of method 1 =? SOCKS5_AUTH_NONE then mret tt
     else if byte_of method 1 =? SOCKS5_AUTH_USERPASS then
       match username cfg, password cfg with
       | Some user, Some pass =>
         msg ← io_try (build_socks5_userpass user pass);
         write_all msg ;;
         ok ← read_exact 2;
         if negb (byte_of ok 1 =? 0x00) then io_fail (other "SOCKS5 authentication failed")
         else mret tt
       | _, _ => io_fail (other "proxy requires auth but none configured")
       end
     else io_fail (other "no acceptable SOCKS5 auth method")) ;;
    req ← io_try (build_socks5_connect_request dest);
    write_all req ;;
    read_socks5_reply.

(** ** Connecting *)

(** The answer of [TcpStream::connect]: the connection, an error, nothing. *)
Inductive connect_answer : Type :=
  | Connected (c : conn)
  | ConnectFailed (e : io_error)
  | ConnectHang.

Section Connect.
Context `{Base64}.

Definition handshake (cfg : ProxyConfig) (dest : Target) : io unit :=
  match proxy_type cfg with
  | Http => http_connect cfg dest
  | Socks5 => socks5_connect cfg dest
  end.

Definition connect_via_proxy_inner (answer : connect_answer) (cfg : ProxyConfig) (dest : Target)
    : io_out conn :=
  match answer with
  | ConnectFailed e => Failed e
  | ConnectHang => Hang
  | Connected c =>
    match handshake cfg dest c with
    | (Ready _, c') => Ready c'
    | (Failed e, _) => Failed e
    | (Hang, _) => Hang
    | (Crash, _) => Crash
    | (OutOfFuel, _) => OutOfFuel
    end
  end.

Definition timed_out (msg : string) : io_error := IoError TimedOut msg.

Definition connect_via_proxy (answer : connect_answer) (cfg : ProxyConfig) (dest : Target)
    : io_out conn :=
  match connect_via_proxy_inner answer cfg dest with
  | Hang => Failed (timed_out "upstream proxy connect timed out")
  | r => r
  end.

End Connect.

(** ** Reference decoders: the server's side of the messages *)

Definition decode_port (bs : list Z) : option Z :=
  match bs with [a; b] => Some (be_val [a; b]) | _ => None end.

Definition decode_socks5_request (bs : list Z) : option Target :=
  match bs with
  | v :: cmd :: _ :: atyp :: rest =>
    if (v =? SOCKS5_VERSION) && (cmd =? SOCKS5_CMD_CONNECT) then
      if atyp =? SOCKS5_ATYP_IPV4 then
        p ← decode_port (drop 4 rest); Some (Ip (V4 (be_val (take 4 rest))) p)
      else if atyp =? SOCKS5_ATYP_IPV6 then
        p ← decode_port (drop 16 rest); Some (Ip (V6 (be_val (take 16 rest))) p)
      else if atyp =? SOCKS5_ATYP_DOMAIN then
        match rest with
        | n :: rest' =>
          p ← decode_port (drop (Z.to_nat n) rest');
          h ← from_utf8 (take (Z.to_nat n) rest'); Some (Domain h p)
        | [] => None
        end
      else None
    else None
  | _ => None
  end.

Definition decode_userpass (bs : list Z) : option (str * str) :=
  match bs with
  | v :: n :: rest =>
    if v =? 0x01 then
      user ← from_utf8 (take (Z.to_nat n) rest);
      match drop (Z.to_nat n) rest with
      | m :: rest' =>
        if zlen rest' =? m then pass ← from_utf8 rest'; Some (user, pass) else None
      | [] => None
      end
    else None
  | _ => None
  end.

Definition is_port (p : Z) : Prop := 0 ≤ p < 65536.
Definition wf_target (t : Target) : Prop :=
  match t with Ip ip p => wf_ip ip ∧ is_port p | Domain h p => is_str h ∧ is_port p end.
#[export] Instance wf_target_dec t : Decision (wf_target t).
Proof. destruct t as [[]|]; unfold wf_target, wf_ip, is_port; apply _. Defined.

(** ** The SOCKS5 dialogue, as a function of the server's bytes *)

Definition drain_of (atyp : Z) (rest : list Z) : option (list Z) :=
  let skip n := if zlen rest <? n then None else Some (drop (Z.to_nat n) rest) in
  if atyp =? SOCKS5_ATYP_IPV4 then skip 6
  else if atyp =? SOCKS5_ATYP_IPV6 then skip 18
  else if atyp =? SOCKS5_ATYP_DOMAIN then
    match rest with
    | n :: rest' => if zlen rest' <? n + 2 then None else Some (drop (Z.to_nat (n + 2)) rest')
    | [] => None
    end
  else None.

Definition reply_rest (server : list Z) : option (list Z) :=
  match server with
  | v :: rep :: _ :: atyp :: rest =>
    if (v =? SOCKS5_VERSION) && (rep =? 0) then drain_of atyp rest else None
  | _ => None
  end.

Definition auth_rest (cfg : ProxyConfig) (method : Z) (server : list Z) : option (list Z * list Z) :=
  if method =? SOCKS5_AUTH_NONE then Some ([], server)
  else if method =? SOCKS5_AUTH_USERPASS then
    user ← username cfg; pass ← password cfg;
    match build_socks5_userpass user pass, server with
    | Ok msg, _ :: status :: rest => if status =? 0 then Some (msg, rest) else None
    | _, _ => None
    end
  else None.

(** The bytes sent and the server bytes left for the tunnel, when it opens. *)
Definition socks5_dialogue (cfg : ProxyConfig) (dest : Target) (server : list Z)
    : option (list Z * list Z) :=
  match server with
  | v :: method :: s1 =>
    if v =? SOCKS5_VERSION then
      '(auth, s2) ← auth_rest cfg method s1;
      match build_socks5_connect_request dest with
      | Ok req =>
        rest ← reply_rest s2;
        Some (build_socks5_greeting (bool_decide (is_Some (username cfg))) ++ auth ++ req, rest)
      | Err _ => None
      end
    else None
  | _ => None
  end.

(** ** Codec lemmas *)

Lemma be2_port p : is_port p → ∃ a b, be_bytes 2 p = [a; b] ∧ be_val [a; b] = p.
Proof.
  intros Hp. pose proof (length_be_bytes 2 p) as Hl. pose proof (be_val_be_bytes 2 p) as Hv.
  rewrite Z.mod_small in Hv by (unfold is_port in Hp; simpl; lia).
  destruct (be_bytes 2 p) as [|a [|b []]]; try done. eauto.
Qed.

Lemma decode_port_be p : is_port p → decode_port (be_bytes 2 p) = Some p.
Proof. intros Hp. destruct (be2_port p Hp) as (a & b & -> & <-). done. Qed.

Lemma as_u8_small n : 0 ≤ n ≤ 255 → as_u8 n = n.
Proof. intros ?. unfold as_u8. apply Z.mod_small. lia. Qed.

Lemma take_len_bytes s t : take (Z.to_nat (len s)) (as_bytes s ++ t) = as_bytes s.
Proof. rewrite <-zlen_as_bytes. unfold zlen. by rewrite Nat2Z.id, take_app_length. Qed.
Lemma drop_len_bytes s t : drop (Z.to_nat (len s)) (as_bytes s ++ t) = t.
Proof. rewrite <-zlen_as_bytes. unfold zlen. by rewrite Nat2Z.id, drop_app_length. Qed.

(** the SOCKS5 CONNECT request.  Every target except a host name that is
    empty or longer than 255 bytes is encoded, and a server that follows
    RFC 1928 reads back exactly that address or name and that port. *)
Theorem socks5_request_roundtrip t :
  wf_target t →
  match build_socks5_connect_request t with
  | Ok bs => decode_socks5_request bs = Some t ∧ Forall is_byte bs ∧ zlen bs ≤ 262
  | Err _ => ∃ h p, t = Domain h p ∧ (h = [] ∨ 255 < len h)
  end.
Proof.
  unfold build_socks5_connect_request. destruct t as [[a|a] p|h p]; cbn [wf_target target_port].
  - intros [Hw Hp]. cbn [mbind result_bind]. split_and!.
    + cbn -[octets be_bytes be_val decode_port take drop].
      rewrite drop_app_length', take_app_length' by (by rewrite length_octets).
      rewrite decode_port_be by done. cbn [mbind option_bind].
      by rewrite (be_val_octets (V4 a)).
    + repeat (apply Forall_app; split); [concrete|concrete|apply octets_bytes|auto with ace].
    + rewrite !zlen_app. unfold zlen. rewrite length_octets, length_be_bytes. simpl. lia.
  - intros [Hw Hp]. cbn [mbind result_bind]. split_and!.
    + cbn -[octets be_bytes be_val decode_port take drop].
      rewrite drop_app_length', take_app_length' by (by rewrite length_octets).
      rewrite decode_port_be by done. cbn [mbind option_bind].
      by rewrite (be_val_octets (V6 a)).
    + repeat (apply Forall_app; split); [concrete|concrete|apply octets_bytes|auto with ace].
    + rewrite !zlen_app. unfold zlen. rewrite length_octets, length_be_bytes. simpl. lia.
  - intros [Hh Hp]. destruct (is_empty h) eqn:E; [destruct h; [|done]; simpl; eauto 6|].
    destruct (Z.ltb_spec 255 (len h)); cbn [orb mbind result_bind]; [eauto 6|].
    pose proof (len_nonneg h). rewrite as_u8_small by lia. split_and!.
    + rewrite <-!app_assoc. cbn -[as_bytes be_bytes be_val decode_port take drop Z.to_nat].
      rewrite drop_len_bytes, take_len_bytes, decode_port_be, from_utf8_as_bytes by done. done.
    + repeat (apply Forall_app; split); [concrete| |by apply as_bytes_bytes|auto with ace].
      repeat constructor; unfold is_byte, SOCKS5_ATYP_DOMAIN; lia.
    + rewrite !zlen_app, zlen_as_bytes, zlen_be_bytes. unfold zlen. simpl. lia.
Qed.

Lemma socks5_request_roundtrip_witness :
  match build_socks5_connect_request (Domain (u "example.com") 443) with
  | Ok bs => decode_socks5_request bs = Some (Domain (u "example.com") 443)
             ∧ Forall is_byte bs ∧ zlen bs ≤ 262
  | Err _ => ∃ h p, Domain (u "example.com") 443 = Domain h p ∧ (h = [] ∨ 255 < len h)
  end.
Proof. apply socks5_request_roundtrip. concrete. Defined.

(** username/password authentication.  Credentials of at most 255 bytes
    each are encoded so that an RFC 1929 server reads them back exactly; longer
    ones are refused, never truncated to the one-byte length field. *)
Theorem socks5_userpass_roundtrip user pass :
  is_str user → is_str pass →
  match build_socks5_userpass user pass with
  | Ok bs => decode_userpass bs = Some (user, pass) ∧ Forall is_byte bs
             ∧ len user ≤ 255 ∧ len pass ≤ 255
  | Err _ => 255 < len user ∨ 255 < len pass
  end.
Proof.
  intros Hu Hp. unfold build_socks5_userpass. pose proof (len_nonneg user). pose proof (len_nonneg pass).
  destruct (Z.ltb_spec 255 (len user)), (Z.ltb_spec 255 (len pass)); cbn [orb]; try lia.
  rewrite !as_u8_small by lia. split_and!; [| |lia|lia].
  - cbn -[as_bytes take drop Z.to_nat from_utf8].
    rewrite take_len_bytes, drop_len_bytes, !from_utf8_as_bytes by done. cbn -[as_bytes from_utf8].
    by rewrite zlen_as_bytes, Z.eqb_refl.
  - repeat (apply Forall_app; split); try by apply as_bytes_bytes.
    all: repeat constructor; unfold is_byte; lia.
Qed.

Lemma socks5_userpass_roundtrip_witness :
  match build_socks5_userpass (u "user") (u "p:ss") with
  | Ok bs => decode_userpass bs = Some (u "user", u "p:ss") ∧ Forall is_byte bs
             ∧ len (u "user") ≤ 255 ∧ len (u "p:ss") ≤ 255
  | Err _ => 255 < len (u "user") ∨ 255 < len (u "p:ss")
  end.
Proof. apply socks5_userpass_roundtrip; concrete. Defined.

(** ** The SOCKS5 handshake against the dialogue *)

Lemma reply_meets server e :
  Forall is_byte server →
  meets read_socks5_reply server e ((λ rest, (tt, [], rest)) <$> reply_rest server).
Proof.
  intros Hb. unfold read_socks5_reply. apply meets_read_bind.
  2:{ intros Hl. unfold zlen in Hl.
      destruct server as [|? [|? [|? [|? ?]]]]; simpl in *; try done; lia. }
  intros Hl. destruct server as [|v [|rep [|x [|atyp rest]]]];
    try (unfold zlen in Hl; simpl in Hl; lia).
  change (Z.to_nat 4) with 4%nat. cbn [take drop byte_of nth reply_rest].
  destruct (Z.eqb_spec v SOCKS5_VERSION) as [->|]; [|apply meets_fail].
  destruct (Z.eqb_spec rep 0) as [->|]; [|apply meets_fail]. cbn [negb orb andb].
  assert (∀ n, n ≤ 270 → meets (n' ← scratch_slice n; read_exact n' ;; mret tt) rest e
    ((λ r, (tt, [], r)) <$> if zlen rest <? n then None else Some (drop (Z.to_nat n) rest))) as Hskip.
  { intros n Hn. rewrite <-(after_nil (_ <$> _)). eapply meets_bind.
    { unfold scratch_slice. bool_lit. apply meets_ret. }
    apply meets_read_bind.
    - intros Hle. bool_lit. apply meets_ret.
    - intros Hlt. by bool_lit. }
  unfold drain_of. destruct (atyp =? SOCKS5_ATYP_IPV4).
  { rewrite <-(after_nil (_ <$> _)). eapply meets_bind; [apply meets_ret|]. by apply Hskip. }
  destruct (atyp =? SOCKS5_ATYP_IPV6).
  { rewrite <-(after_nil (_ <$> _)). eapply meets_bind; [apply meets_ret|]. by apply Hskip. }
  destruct (atyp =? SOCKS5_ATYP_DOMAIN); [|apply meets_bind_refused, meets_fail].
  destruct rest as [|n rest].
  { apply meets_bind_refused. eapply meets_read_bind; [|done].
    unfold zlen. simpl. lia. }
  assert (is_byte n) as Hn by (rewrite !Forall_cons in Hb; naive_solver).
  rewrite <-(after_nil (_ <$> _)). eapply (meets_bind _ _ _ _ (n + 2) [] rest).
  { rewrite <-(after_nil (Some _)). eapply meets_read_bind; [|unfold zlen; simpl; lia].
    intros _. apply meets_ret. }
  unfold is_byte in Hn. unfold scratch_slice. bool_lit.
  rewrite <-(after_nil (_ <$> _)). eapply meets_bind; [apply meets_ret|].
  apply meets_read_bind; intros; bool_lit; [apply meets_ret|done].
Qed.

Lemma drop_bytes n (s : list Z) : Forall is_byte s → Forall is_byte (drop n s).
Proof. apply Forall_drop. Qed.

(** The authentication step. *)
Definition authenticate (cfg : ProxyConfig) (m : Z) : io unit :=
  if m =? SOCKS5_AUTH_NONE then mret tt
  else if m =? SOCKS5_AUTH_USERPASS then
    match username cfg, password cfg with
    | Some user, Some pass =>
      msg ← io_try (build_socks5_userpass user pass);
      write_all msg ;;
      ok ← read_exact 2;
      if negb (byte_of ok 1 =? 0x00) then io_fail (other "SOCKS5 authentication failed")
      else mret tt
    | _, _ => io_fail (other "proxy requires auth but none configured")
    end
  else io_fail (other "no acceptable SOCKS5 auth method").

Lemma auth_meets cfg m server e :
  meets (authenticate cfg m) server e ((λ '(sent, rest), (tt, sent, rest)) <$> auth_rest cfg m server).
Proof.
  unfold authenticate, auth_rest.
  destruct (m =? SOCKS5_AUTH_NONE); [apply meets_ret|].
  destruct (m =? SOCKS5_AUTH_USERPASS); [|apply meets_fail].
  destruct (username cfg) as [user|]; [|apply meets_fail].
  destruct (password cfg) as [pass|]; [|apply meets_fail]. cbn [mbind option_bind].
  destruct (build_socks5_userpass user pass) as [msg|er]; [|apply meets_bind_refused, meets_fail].
  rewrite <-(after_nil (_ <$> _)). eapply meets_bind; [apply meets_ret|].
  assert (meets (ok ← read_exact 2;
    if negb (byte_of ok 1 =? 0x00) then io_fail (other "SOCKS5 authentication failed") else mret tt)
    server e (match server with
              | _ :: st :: rest => if st =? 0 then Some (tt, [], rest) else None
              | _ => None end)) as Hr.
  { apply meets_read_bind.
    - intros Hl. destruct server as [|? [|st rest]]; try (unfold zlen in Hl; simpl in Hl; lia).
      change (Z.to_nat 2) with 2%nat. cbn [take drop byte_of nth].
      destruct (st =? 0); [apply meets_ret|apply meets_fail].
    - intros Hl. unfold zlen in Hl. destruct server as [|? [|? ?]]; simpl in *; try done; lia. }
  apply (meets_write_then msg) in Hr.
  destruct server as [|? [|st rest]]; [exact Hr..|].
  destruct (st =? 0); [|exact Hr]. simpl in Hr |- *. by rewrite app_nil_r in Hr.
Qed.

Lemma auth_rest_drop cfg m server auth rest :
  auth_rest cfg m server = Some (auth, rest) → ∃ k, rest = drop k server.
Proof.
  unfold auth_rest. destruct (m =? SOCKS5_AUTH_NONE); [intros [= _ <-]; by exists 0%nat|].
  destruct (m =? SOCKS5_AUTH_USERPASS); [|done].
  destruct (username cfg) as [user|]; [|done]. destruct (password cfg) as [pass|]; [|done].
  cbn [mbind option_bind]. destruct (build_socks5_userpass user pass); [|done].
  destruct server as [|? [|st server]]; [done..|]. destruct (st =? 0); [|done].
  intros [= _ <-]. by exists 2%nat.
Qed.

(** Everything after the method selection. *)
Definition negotiate (cfg : ProxyConfig) (dest : Target) (m : Z) : io unit :=
  authenticate cfg m ;;
  req ← io_try (build_socks5_connect_request dest);
  write_all req ;;
  read_socks5_reply.

Definition negotiate_rest (cfg : ProxyConfig) (dest : Target) (m : Z) (server : list Z)
    : option (unit * list Z * list Z) :=
  '(auth, s2) ← auth_rest cfg m server;
  match build_socks5_connect_request dest with
  | Ok req => rest ← reply_rest s2; Some (tt, auth ++ req, rest)
  | Err _ => None
  end.

Lemma negotiate_meets cfg dest m server e :
  Forall is_byte server → meets (negotiate cfg dest m) server e (negotiate_rest cfg dest m server).
Proof.
  intros Hb. unfold negotiate, negotiate_rest. pose proof (auth_meets cfg m server e) as Ha.
  pose proof (auth_rest_drop cfg m server) as Hd.
  destruct (auth_rest cfg m server) as [[auth s2]|]; simpl in Ha |- *; [|by apply meets_bind_refused].
  destruct (Hd auth s2 eq_refl) as [k ->]. clear Hd.
  assert (∀ r, meets (req ← io_try (build_socks5_connect_request dest);
        write_all req ;; read_socks5_reply) (drop k server) e r → meets (authenticate cfg m ;;
    req ← io_try (build_socks5_connect_request dest);
        write_all req ;; read_socks5_reply) server e (after auth r)) as Hk.
  { intros r Hr. by eapply meets_bind. }
  destruct (build_socks5_connect_request dest) as [req|er].
  2:{ apply (Hk None), meets_bind_refused, meets_fail. }
  pose proof (reply_meets (drop k server) e (drop_bytes k server Hb)) as Hrep.
  apply (meets_write_then req) in Hrep.
  assert (∀ r, meets (write_all req ;; read_socks5_reply) (drop k server) e r →
    meets (req ← io_try (Ok req); write_all req ;; read_socks5_reply) (drop k server) e r) as Hret.
  { intros r Hr. rewrite <-(after_nil r). by eapply meets_bind; [apply meets_ret|]. }
  apply Hret, Hk in Hrep. destruct (reply_rest (drop k server)) as [rest|]; [|exact Hrep].
  simpl in Hrep |- *. by rewrite app_nil_r in Hrep.
Qed.

(** The method selection and what follows it. *)
Definition after_greeting (cfg : ProxyConfig) (dest : Target) : io unit :=
  method ← read_exact 2;
  if negb (byte_of method 0 =? SOCKS5_VERSION)
  then io_fail (IoError InvalidData "bad SOCKS5 version")
  else negotiate cfg dest (byte_of method 1).

Lemma after_greeting_meets cfg dest server e :
  Forall is_byte server →
  meets (after_greeting cfg dest) server e
    (match server with
     | v :: m :: s1 => if v =? SOCKS5_VERSION then negotiate_rest cfg dest m s1 else None
     | _ => None end).
Proof.
  intros Hb. apply meets_read_bind.
  - intros Hl. destruct server as [|v [|m s1]]; try (unfold zlen in Hl; simpl in Hl; lia).
    change (Z.to_nat 2) with 2%nat. cbn [take drop byte_of nth].
    destruct (v =? SOCKS5_VERSION); [|apply meets_fail].
    apply negotiate_meets. rewrite !Forall_cons in Hb. naive_solver.
  - intros Hl. unfold zlen in Hl. destruct server as [|? [|? ?]]; simpl in *; try done; lia.
Qed.

Lemma socks5_connect_unfold cfg dest :
  socks5_connect cfg dest =
    (write_all (build_socks5_greeting (bool_decide (is_Some (username cfg)))) ;;
     after_greeting cfg dest).
Proof.
  replace (bool_decide _) with (match username cfg with Some _ => true | None => false end); [done|].
  destruct (username cfg) as [user|].
  - by rewrite bool_decide_true by eauto.
  - by rewrite bool_decide_false by (by intros [? ?]).
Qed.

(** C6: the SOCKS5 client, completely.  Against a server that sends any byte
    sequence, cut in any pieces, and then stays silent, closes or errors: if the
    sequence begins with a successful dialogue (a method the client can answer,
    an accepted authentication, a granted reply with its bound address), the
    handshake succeeds, the bytes sent are the greeting, the credentials when
    asked for and the request, and every byte after the reply is left for the
    tunnel; otherwise the handshake fails or waits, and never panics. *)
Theorem socks5_connect_correct cfg dest server e c :
  Forall is_byte server → view (inbox c) = (server, e) → write_results c = [] →
  match socks5_dialogue cfg dest server with
  | Some (sent, rest) => ∃ c', socks5_connect cfg dest c = (Ready tt, c')
      ∧ outbox c' = outbox c ++ sent ∧ view (inbox c') = (rest, e)
  | None => ∃ r c', socks5_connect cfg dest c = (r, c') ∧ refused r
  end.
Proof.
  intros Hb Hv Hw.
  pose proof (after_greeting_meets cfg dest server e Hb) as H.
  apply (meets_write_then (build_socks5_greeting (bool_decide (is_Some (username cfg))))) in H.
  rewrite <-socks5_connect_unfold in H. specialize (H c (conj Hv Hw)).
  unfold socks5_dialogue. destruct server as [|v [|m s1]]; [exact H..|].
  destruct (v =? SOCKS5_VERSION); [|exact H]. unfold negotiate_rest in H.
  destruct (auth_rest cfg m s1) as [[auth s2]|]; simpl in H |- *; [|exact H].
  destruct (build_socks5_connect_request dest); [|exact H].
  destruct (reply_rest s2); [|exact H]. destruct H as (c' & ? & ? & ? & ?). by exists c'.
Qed.

Lemma socks5_connect_correct_witness :
  let cfg := with_auth (socks5 (u "127.0.0.1") 1080) (u "user") (u "pass") in
  let dest := Domain (u "example.com") 443 in
  let server := [5; 2; 1; 0; 5; 0; 0; 3; 1; 65; 0; 80; 22; 3; 1] in
  let c := MkConn [RData [5]; RData [2; 1]; RData [0; 5; 0; 0; 3; 1; 65; 0; 80; 22; 3]; RData [1]] [] [] in
  ∃ c', socks5_connect cfg dest c = (Ready tt, c')
      ∧ outbox c' = ([5; 2; 0; 2] ++ [1; 4] ++ u "user" ++ [4] ++ u "pass")
                    ++ [5; 1; 0; 3; 11] ++ u "example.com" ++ [1; 187]
      ∧ view (inbox c') = ([22; 3; 1], EndHang).
Proof.
  intros cfg dest server c.
  exact (socks5_connect_correct cfg dest server EndHang c ltac:(concrete) eq_refl eq_refl).
Defined.

(** ** What is sent, and when *)

Lemma reply_quiet : quiet read_socks5_reply.
Proof.
  unfold read_socks5_reply. apply quiet_bind; [auto with ace|]. intros hdr.
  destruct (_ || _); [auto with ace|]. apply quiet_bind.
  - destruct (_ =? _); [auto with ace|]. destruct (_ =? _); [auto with ace|].
    destruct (_ =? _); [|auto with ace]. apply quiet_bind; auto with ace.
  - intros n. apply quiet_bind; [unfold scratch_slice; destruct (_ <? _); auto with ace|].
    intros n'. apply quiet_bind; auto with ace.
Qed.

Definition request_bytes (dest : Target) : list Z :=
  match build_socks5_connect_request dest with Ok req => req | Err _ => [] end.

Lemma request_sends dest c :
  ∃ k, outbox ((req ← io_try (build_socks5_connect_request dest);
                write_all req ;; read_socks5_reply) c).2 = outbox c ++ take k (request_bytes dest).
Proof.
  unfold request_bytes, mbind, io_bind. destruct (build_socks5_connect_request dest) as [req|er];
    cbn [io_try mret io_ret io_fail].
  - destruct (write_all_cases req c) as [(c' & -> & Ho & _)|(r & c' & k & -> & Ho)].
    + exists (length req). by rewrite reply_quiet, Ho, firstn_all.
    + exists k. by destruct r.
  - exists 0%nat. simpl. by rewrite app_nil_r.
Qed.

(** C36: credentials are sent only on request.  Whatever the server sends, in
    whatever pieces, and whether writes succeed, fail or wait forever: unless the server answers
    the greeting by selecting method 2 (username/password), the bytes sent are a
    prefix of the greeting followed by the CONNECT request. *)
Theorem credentials_only_on_request cfg dest c server e :
  view (inbox c) = (server, e) → (∀ rest, server ≠ SOCKS5_VERSION :: SOCKS5_AUTH_USERPASS :: rest) →
  ∃ k, outbox (socks5_connect cfg dest c).2 = outbox c
    ++ take k (build_socks5_greeting (bool_decide (is_Some (username cfg))) ++ request_bytes dest).
Proof.
  intros Hv Hno. rewrite socks5_connect_unfold.
  set (g := build_socks5_greeting _). unfold mbind at 1, io_bind at 1.
  destruct (write_all_cases g c) as [(c' & -> & Ho & Hi)|(er & c' & k & -> & Ho)].
  2:{ exists (min k (length g)). replace (snd _) with c' by (by destruct er). rewrite Ho. f_equal.
      rewrite take_app_le by lia. by rewrite <-(take_take g), (firstn_all g). }
  assert (∀ s : list Z, s = outbox c ++ g → ∃ k, s = outbox c ++ take k (g ++ request_bytes dest)) as Hg.
  { intros s ->. exists (length g). by rewrite take_app_length. }
  rewrite <-Hi in Hv. unfold after_greeting, mbind, io_bind.
  pose proof (read_exact_from_spec 2 _ _ _ Hv) as Hr. pose proof (quiet_read_exact 2 c') as Hq.
  unfold read_exact in *. destruct (2 <=? zlen server) eqn:Hl; [apply Z.leb_le in Hl|].
  2:{ destruct Hr as (i & Hr). rewrite Hr in *. apply Hg. by destruct e. }
  destruct Hr as (i & Hr & _). rewrite Hr in *. change (Z.to_nat 2) with 2%nat. cbn [snd] in Hq.
  destruct server as [|v [|m s1]]; try (unfold zlen in Hl; simpl in Hl; lia).
  cbn [take byte_of nth]. destruct (Z.eqb_spec v SOCKS5_VERSION) as [->|]; cbn [negb].
  2:{ apply Hg. cbn [io_fail snd]. by rewrite Hq. }
  unfold negotiate, authenticate. destruct (m =? SOCKS5_AUTH_NONE).
  - destruct (request_sends dest (with_inbox c' i)) as [k Hk].
    exists (length g + k)%nat. rewrite take_app_add.
    change (outbox (with_inbox c' i)) with (outbox c') in Hk. rewrite Ho in Hk.
    rewrite app_assoc. exact Hk.
  - destruct (Z.eqb_spec m SOCKS5_AUTH_USERPASS) as [->|]; [by destruct (Hno s1)|].
    apply Hg. unfold mbind, io_bind. cbn [io_fail snd]. by rewrite Hq.
Qed.

Lemma credentials_only_on_request_witness :
  let cfg := with_auth (socks5 (u "127.0.0.1") 1080) (u "user") (u "pass") in
  let dest := Ip (V4 (ipv4 1 2 3 4)) 80 in
  ∃ k, outbox (socks5_connect cfg dest (MkConn [RData [5; 0; 5]; REof] [] [])).2 = []
    ++ take k (build_socks5_greeting true ++ request_bytes dest).
Proof.
  intros cfg dest.
  exact (credentials_only_on_request cfg dest (MkConn [RData [5; 0; 5]; REof] [] []) [5; 0; 5] EndEof
           eq_refl ltac:(intros ? [=])).
Defined.

(** how the network cuts the server's bytes into reads makes no difference
    to the SOCKS5 handshake: same outcome, same bytes sent, and on success the
    same bytes left for the tunnel. *)
Theorem socks5_chunking_irrelevant cfg dest : chunking_free (socks5_connect cfg dest).
Proof.
  rewrite socks5_connect_unfold. apply chunking_free_bind; [auto with ace|]. intros _.
  apply chunking_free_bind; [auto with ace|]. intros method.
  destruct (negb _); [auto with ace|]. apply chunking_free_bind.
  - unfold authenticate. destruct (_ =? _); [auto with ace|]. destruct (_ =? _); [|auto with ace].
    destruct (username cfg), (password cfg); auto with ace.
    apply chunking_free_bind; [auto with ace|]. intros msg.
    apply chunking_free_bind; [auto with ace|]. intros _.
    apply chunking_free_bind; [auto with ace|]. intros ok. destruct (negb _); auto with ace.
  - intros _. apply chunking_free_bind; [auto with ace|]. intros req.
    apply chunking_free_bind; [auto with ace|]. intros _. unfold read_socks5_reply.
    apply chunking_free_bind; [auto with ace|]. intros hdr.
    destruct (_ || _); [auto with ace|]. apply chunking_free_bind.
    + destruct (_ =? _); [auto with ace|]. destruct (_ =? _); [auto with ace|].
      destruct (_ =? _); [|auto with ace]. apply chunking_free_bind; auto with ace.
    + intros n. apply chunking_free_bind; [unfold scratch_slice; destruct (_ <? _); auto with ace|].
      intros n'. apply chunking_free_bind; auto with ace.
Qed.

(** ** HTTP CONNECT: the response *)

Definition blank_line : list Z := [13; 10; 13; 10].

Lemma head_complete_spec buf :
  ∃ b, head_complete buf = Done b ∧ (b = true ↔ ∃ p, buf = p ++ blank_line).
Proof.
  unfold head_complete. destruct (Z.leb_spec 4 (zlen buf)) as [Hl|Hl].
  - destruct (slice_in_range buf (zlen buf - 4) (zlen buf)) as (r & -> & Hr); [lia..|].
    eexists. split; [done|]. rewrite bool_decide_eq_true. unfold get_range in Hr.
    rewrite decide_True in Hr by lia. injection Hr as <-.
    rewrite take_ge by (rewrite length_drop; unfold zlen in *; lia). split.
    + intros Hd. exists (take (Z.to_nat (zlen buf - 4)) buf). unfold blank_line.
      rewrite <-Hd. by rewrite take_drop.
    + intros [p ->]. rewrite zlen_app. change (zlen blank_line) with 4.
      replace (Z.to_nat _) with (length p) by (unfold zlen; lia). by rewrite drop_app_length.
  - exists false. split; [done|]. split; [done|]. intros [p ->].
    rewrite zlen_app in Hl. change (zlen blank_line) with 4 in Hl. pose proof (zlen_nonneg p). lia.
Qed.

Lemma read_head_spec fuel buf0 c s e :
  view (inbox c) = (s, e) → zlen buf0 ≤ 65536 → 65537 - zlen buf0 < Z.of_nat fuel →
  match read_head fuel buf0 c with
  | (Ready buf, c') => ∃ head rest, buf = buf0 ++ head ∧ s = head ++ rest
      ∧ view (inbox c') = (rest, e) ∧ (∃ p, buf = p ++ blank_line) ∧ zlen buf ≤ 65536 + 512
  | (r, _) => refused r
  end.
Proof.
  revert buf0 c s. induction fuel as [|fuel IH]; intros buf0 c s Hv Hl Hf; [lia|].
  cbn [read_head]. unfold mbind at 1, io_bind at 1. unfold read at 1.
  destruct (read_from_spec 512 _ _ _ ltac:(lia) Hv)
    as [(i & -> & -> & ->)|[(bs & s' & i & -> & Hne & Hle & -> & Hv')|(r & i & -> & Hr & _)]].
  - done.
  - assert (0 < zlen bs) by (unfold zlen; destruct bs; simpl in *; done || lia).
    rewrite (proj2 (Z.eqb_neq _ _)) by lia. cbn zeta.
    destruct (head_complete_spec (buf0 ++ bs)) as ([] & -> & Hb).
    { exists bs, s'. split_and!; try done; [by apply Hb|rewrite zlen_app; lia]. }
    destruct (Z.ltb_spec 65536 (zlen (buf0 ++ bs))) as [|Hl']; [done|].
    specialize (IH (buf0 ++ bs) (with_inbox c i) s' Hv' Hl').
    rewrite zlen_app in IH. specialize (IH ltac:(lia)).
    destruct (read_head fuel (buf0 ++ bs) (with_inbox c i)) as [[buf|er| | |] c1]; try done.
    destruct IH as (head & rest & -> & -> & Hv1 & Hb1 & Hl1).
    exists (bs ++ head), rest. rewrite <-!app_assoc in *. split_and!; done.
  - by destruct r.
Qed.

Lemma read_head_quiet f b : quiet (read_head f b).
Proof.
  revert b. induction f as [|f IH]; intros b; cbn [read_head]; [auto with ace|].
  apply quiet_bind; [auto with ace|]. intros tmp. destruct (_ =? _); [auto with ace|].
  destruct (head_complete _) as [[]|]; [auto with ace| |auto with ace].
  destruct (_ <? _); [auto with ace|apply IH].
Qed.

Lemma head_fuel_enough : 65537 < Z.of_nat head_fuel.
Proof. unfold head_fuel. rewrite Z2Nat.id; lia. Qed.
#[global] Opaque head_fuel.

(** C37: HTTP CONNECT, soundness and boundedness.  On any connection, whatever
    the peer sends and however writes fail, the handshake ends (or waits for
    the peer) without panicking; and it succeeds only after sending the whole
    request and reading a response head of at most 66048 bytes that ends in a
    blank line and whose status is 200, leaving every later byte unread. *)
Theorem http_connect_sound `{Base64} cfg dest c server e :
  view (inbox c) = (server, e) →
  match http_connect cfg dest c with
  | (Ready _, c') => ∃ head rest, server = head ++ rest ∧ view (inbox c') = (rest, e)
      ∧ outbox c' = outbox c ++ build_http_connect_request (host_string dest) (target_port dest) (auth_of cfg)
      ∧ (∃ p, head = p ++ blank_line) ∧ zlen head ≤ 66048 ∧ parse_http_status head = Some 200
  | (r, _) => refused r
  end.
Proof.
  intros Hv. unfold http_connect. set (req := build_http_connect_request _ _ _).
  unfold mbind at 1, io_bind at 1.
  destruct (write_all_cases req c) as [(c1 & -> & Ho & Hi)|([er|] & c1 & k & -> & _)]; [|done..].
  rewrite <-Hi in Hv.
  pose proof (read_head_spec head_fuel [] c1 server e Hv ltac:(done) head_fuel_enough) as Hh.
  pose proof (read_head_quiet head_fuel [] c1) as Hq. unfold mbind, io_bind.
  destruct (read_head head_fuel [] c1) as [[buf|er| | |] c2]; try done.
  destruct Hh as (head & rest & -> & -> & Hv2 & Hb & Hl).
  cbn [app] in *. destruct (parse_http_status head) as [st|] eqn:Es; [|done].
  destruct (Z.eqb_spec st 200) as [->|]; [|done].
  cbn [snd negb] in *. exists head, rest. split_and!; try done. by rewrite Hq, Ho.
Qed.

(** Reads that deliver the pieces of a response one by one. *)
Lemma read_head_chunks fuel buf0 chunks tail c :
  inbox c = map RData chunks ++ tail → chunks ≠ [] →
  Forall (λ ch, ch ≠ [] ∧ zlen ch ≤ 512) chunks →
  zlen (buf0 ++ concat chunks) ≤ 65536 →
  (length chunks ≤ fuel)%nat →
  (∃ p, buf0 ++ concat chunks = p ++ blank_line) →
  (∀ pre post, chunks = pre ++ post → pre ≠ [] → post ≠ [] → ¬ ∃ p, buf0 ++ concat pre = p ++ blank_line) →
  read_head fuel buf0 c = (Ready (buf0 ++ concat chunks), with_inbox c tail).
Proof.
  revert buf0 chunks c. induction fuel as [|fuel IH]; intros buf0 chunks c Hi Hne Hc Hl Hf Hb Hno.
  { destruct chunks; [done|simpl in Hf; lia]. }
  destruct Hc as [|ch chunks [Hch Hle] Hc]; [done|]. cbn [read_head].
  unfold mbind at 1, io_bind at 1, read. rewrite Hi. cbn [map app read_from].
  destruct ch as [|b ch]; [done|]. bool_lit. set (ch' := b :: ch) in *.
  rewrite (proj2 (Z.eqb_neq _ _)) by (unfold zlen; simpl; lia). cbn zeta.
  cbn [concat] in *. rewrite !app_assoc in *.
  destruct (head_complete_spec (buf0 ++ ch')) as (bb & -> & Hbb).
  destruct (decide (chunks = [])) as [->|Hne'].
  - cbn [concat] in *. rewrite app_nil_r in *. by rewrite (proj2 Hbb Hb).
  - destruct bb.
    { destruct (Hno [ch'] chunks) as []; [done|done|done|]. cbn [concat]. rewrite app_nil_r. by apply Hbb. }
    assert (zlen (buf0 ++ ch') ≤ 65536) by (rewrite zlen_app in Hl; pose proof (zlen_nonneg (concat chunks)); lia).
    bool_lit. rewrite (IH (buf0 ++ ch') chunks); try done; [simpl in Hf; lia|].
    intros pre post -> Hpre Hpost Hex. destruct (Hno (ch' :: pre) post) as []; try done.
    cbn [concat]. by rewrite app_assoc.
Qed.

(** HTTP CONNECT, completeness.  A peer that accepts the request and answers
    with a 200 head in reads of at most 512 bytes, the last of which ends the
    head and no earlier one of which ends in a blank line, is accepted: the
    handshake returns with exactly the head consumed. *)
Theorem http_connect_accepts `{Base64} cfg dest c chunks tail :
  inbox c = map RData chunks ++ tail → write_results c = [] →
  chunks ≠ [] → Forall (λ ch, ch ≠ [] ∧ zlen ch ≤ 512) chunks → zlen (concat chunks) ≤ 65536 →
  (∃ p, concat chunks = p ++ blank_line) →
  (∀ pre post, chunks = pre ++ post → pre ≠ [] → post ≠ [] → ¬ ∃ p, concat pre = p ++ blank_line) →
  parse_http_status (concat chunks) = Some 200 →
  http_connect cfg dest c = (Ready tt, MkConn tail []
    (outbox c ++ build_http_connect_request (host_string dest) (target_port dest) (auth_of cfg))).
Proof.
  intros Hi Hw Hne Hc Hl Hb Hno Hst. unfold http_connect. set (req := build_http_connect_request _ _ _).
  unfold mbind, io_bind, write_all. rewrite Hw. cbn [List.tl].
  rewrite (read_head_chunks head_fuel [] chunks tail); try done.
  - cbn [app]. by rewrite Hst.
  - assert (zlen chunks ≤ zlen (concat chunks)) as Hlc.
    { clear -Hc. induction Hc as [|ch chunks [Hch _] _ IH]; [done|]. cbn [concat].
      rewrite zlen_cons, zlen_app. assert (1 ≤ zlen ch) by (destruct ch; [done|rewrite zlen_cons; pose proof (zlen_nonneg ch); lia]).
      lia. }
    pose proof head_fuel_enough. unfold zlen in *. lia.
Qed.

(** ** HTTP CONNECT: the request *)

(** A proxy's reading of the request: lines ended by CRLF, a request line of
    three words, an authority that is a bracketed IPv6 address or a host without
    a colon (RFC 3986) with its port, the headers the client
    may send in their order, a blank line, and nothing after it. *)
Fixpoint next_line (s : str) : option (str * str) :=
  match s with
  | [] => None
  | c :: s' =>
    if (c =? 13) && match s' with d :: _ => d =? 10 | [] => false end
    then Some ([], tail s')
    else '(l, r) ← next_line s'; Some (c :: l, r)
  end.

Definition rsplit_once (s : str) (d : Z) : option (str * str) :=
  '(b, a) ← split_once (reverse s) d; Some (reverse a, reverse b).

Definition split_authority (s : str) : option (str * str) :=
  match s with
  | 91 :: s' =>
    '(v6, s'') ← split_once s' 93;
    match s'' with 58 :: p => Some (91 :: v6 ++ [93], p) | _ => None end
  | _ => split_once s 58
  end.

Definition decode_connect (s : str) : option (str * Z * option str) :=
  '(line, s) ← next_line s;
  line ← strip_prefix line (u "CONNECT ");
  '(authority, version) ← split_once line 32;
  '(h, p) ← split_authority authority;
  p ← parse_u16 p;
  '(host_line, s) ← next_line s;
  '(line, s) ← next_line s;
  '(token, line, s) ← (match strip_prefix line (u "Proxy-Authorization: Basic ") with
                       | Some t => '(line, s) ← next_line s; Some (Some t, line, s)
                       | None => Some (None, line, s)
                       end);
  '(blank, s) ← next_line s;
  if str_eqb version (u "HTTP/1.1") && str_eqb host_line (u "Host: " ++ authority)
     && str_eqb line (u "Proxy-Connection: keep-alive") && is_empty blank && is_empty s
  then Some (h, p, token) else None.

Class Base64Laws `{Base64} : Prop :=
  b64_chars : ∀ bs, Forall (λ c, 33 ≤ c < 127) (b64_encode bs).

(** RFC 4648 encoding, an instance of the class. *)
Definition b64_char (v : Z) : Z :=
  if v <? 26 then 65 + v else if v <? 52 then 71 + v else if v <? 62 then v - 4
  else if v =? 62 then 43 else 47.
Fixpoint std_b64 (bs : list Z) : str :=
  match bs with
  | [] => []
  | [a] => [b64_char (a / 4 mod 64); b64_char (a mod 4 * 16); 61; 61]
  | [a; b] =>
    [b64_char (a / 4 mod 64); b64_char (a mod 4 * 16 + b / 16 mod 16); b64_char (b mod 16 * 4); 61]
  | a :: b :: c :: bs' =>
    b64_char (a / 4 mod 64) :: b64_char (a mod 4 * 16 + b / 16 mod 16)
    :: b64_char (b mod 16 * 4 + c / 64 mod 4) :: b64_char (c mod 64) :: std_b64 bs'
  end.
#[export] Instance std_base64 : Base64 := std_b64.

(** A host name without blanks and control characters. *)
Definition host_ok (h : str) : Prop := Forall (λ c, 33 ≤ c < 127) h.
#[export] Instance host_ok_dec h : Decision (host_ok h).
Proof. unfold host_ok. apply _. Defined.

(** One that an authority can hold: bracketed, or without colons and brackets. *)
Definition authority_host (h : str) : Prop :=
  ((58 ∉ h) ∧ (91 ∉ h)) ∨ ∃ v6, h = 91 :: v6 ++ [93] ∧ (93 ∉ v6).

Lemma next_line_app s t : 13 ∉ s → next_line (s ++ CRLF ++ t) = Some (s, t).
Proof.
  induction s as [|c s IH]; intros Hn; [done|].
  apply not_elem_of_cons in Hn as [Hc Hn]. cbn [app next_line].
  rewrite (proj2 (Z.eqb_neq _ _)) by done. cbn [andb]. change ((s ++ [13; 10]) ++ t) with (s ++ CRLF ++ t).
  by rewrite IH.
Qed.

Lemma rsplit_once_app a d b : d ∉ b → rsplit_once (a ++ d :: b) d = Some (a, b).
Proof.
  intros Hb. unfold rsplit_once. rewrite reverse_app, reverse_cons, <-app_assoc.
  cbn [app]. rewrite split_once_app by (by rewrite elem_of_reverse). simpl.
  by rewrite !reverse_involutive.
Qed.

Lemma text_not_in (P : Z → Prop) (s : str) d : Forall P s → ¬ P d → d ∉ s.
Proof. rewrite Forall_forall. intros H Hd Hin. by apply Hd, H. Qed.

(** The request, as the lines it is made of. *)
Definition request_lines (authority : str) (tok : option str) : str :=
  (u "CONNECT " ++ authority ++ u " HTTP/1.1") ++ CRLF ++ (u "Host: " ++ authority) ++ CRLF ++
  (match tok with Some t => (u "Proxy-Authorization: Basic " ++ t) ++ CRLF | None => [] end) ++
  u "Proxy-Connection: keep-alive" ++ CRLF ++ [] ++ CRLF ++ [].

Definition visible (s : str) : Prop := Forall (λ c, 33 ≤ c < 127) s.

Lemma visible_ascii s : visible s → is_ascii s.
Proof. intros Hs. eapply Forall_impl; [exact Hs|]. unfold is_ascii_char. simpl. lia. Qed.

Lemma visible_authority host port :
  host_ok host → is_port port → visible (host ++ [58] ++ dec port).
Proof.
  intros Hh Hp. unfold is_port in Hp. apply Forall_app. split; [done|]. constructor; [lia|].
  eapply Forall_impl; [apply dec_digits; lia|]. simpl. lia.
Qed.

Definition token_of `{Base64} (auth : option (str * str)) : option str :=
  (λ '(user, pass), b64_encode (as_bytes (user ++ [58] ++ pass))) <$> auth.

Lemma visible_token `{Base64Laws} auth : from_option visible True (token_of auth).
Proof. destruct auth as [[us pw]|]; [|done]. exact (b64_chars (as_bytes (us ++ [58] ++ pw))). Qed.

Lemma request_in_lines `{Base64Laws} host port auth :
  host_ok host → is_port port →
  build_http_connect_request host port auth = request_lines (host ++ [58] ++ dec port) (token_of auth).
Proof.
  intros Hh Hp. unfold build_http_connect_request, request_lines. rewrite as_bytes_ascii.
  - unfold token_of. destruct auth as [[]|]; simpl fmap; cbv beta iota; rewrite <-!app_assoc; done.
  - unfold is_port in Hp. pose proof (visible_ascii host Hh) as Hha.
    pose proof (dec_ascii port ltac:(lia)) as Hpa. pose proof (visible_token auth) as Ht.
    destruct auth as [[us pw]|]; [pose proof (visible_ascii _ Ht) as Hta|];
      repeat (apply Forall_app; split); first [exact Hha | exact Hpa | exact Hta | concrete].
Qed.

Lemma no_cr p s : 13 ∉ p → visible s → 13 ∉ p ++ s.
Proof.
  intros Hp Hs. apply not_elem_of_app. split; [done|]. eapply text_not_in; [exact Hs|]. simpl. lia.
Qed.

Lemma split_authority_app h p : authority_host h → split_authority (h ++ 58 :: p) = Some (h, p).
Proof.
  intros [[H58 H91]|(v6 & -> & H93)].
  - transitivity (split_once (h ++ 58 :: p) 58); [|by apply split_once_app].
    destruct h as [|c h]; [done|]. cbn [app split_authority]. apply not_elem_of_cons in H91 as [Hc _].
    destruct c as [|c|c]; try done. do 7 (destruct c as [c|c|]; try done).
  - cbn [app split_authority]. rewrite <-app_assoc. cbn [app]. by rewrite split_once_app.
Qed.

Lemma decode_lines host port tok :
  host_ok host → authority_host host → is_port port → from_option visible True tok →
  decode_connect (request_lines (host ++ [58] ++ dec port) tok) = Some (host, port, tok).
Proof.
  intros Hh Hau Hp Ht. pose proof (visible_authority host port Hh Hp) as Ha. unfold is_port in Hp.
  set (authority := host ++ [58] ++ dec port) in *. unfold decode_connect, request_lines.
  rewrite next_line_app by (rewrite app_assoc; apply not_elem_of_app; split;
    [by apply no_cr; [concrete|]|concrete]). cbn [mbind option_bind].
  rewrite strip_prefix_app. cbn [mbind option_bind].
  change (u " HTTP/1.1") with (32 :: u "HTTP/1.1").
  rewrite split_once_app by (eapply text_not_in; [exact Ha|simpl; lia]). cbn [mbind option_bind].
  change (split_authority authority) with (split_authority (host ++ 58 :: dec port)).
  rewrite split_authority_app by done.
  cbn [mbind option_bind]. unfold parse_u16. rewrite parse_dec_small by lia. cbn [mbind option_bind].
  rewrite next_line_app by (by apply no_cr; [concrete|]). cbn [mbind option_bind].
  destruct tok as [t|].
  - rewrite <-!app_assoc, app_assoc. rewrite next_line_app by (by apply no_cr; [concrete|]).
    cbn [mbind option_bind]. rewrite strip_prefix_app, next_line_app by concrete.
    cbn [mbind option_bind]. change (next_line ([] ++ CRLF ++ [])) with (Some ([] : str, [] : str)).
    cbn [mbind option_bind]. unfold str_eqb. by rewrite !bool_decide_true by done.
  - cbn [app]. rewrite next_line_app by concrete. cbn [mbind option_bind].
    change (next_line (CRLF ++ [])) with (Some ([] : str, [] : str)).
    replace (strip_prefix _ _) with (@None str) by done.
    cbn [mbind option_bind]. unfold str_eqb. by rewrite !bool_decide_true by done.
Qed.

(** C35: the CONNECT request means what was asked.  For every host of visible
    ASCII characters that is a name or an IPv4 address (no colon or bracket in it)
    or a bracketed IPv6 address, every port and any credentials, a proxy that
    reads the request as HTTP/1.1 finds exactly that host, that port and the Basic
    token of those credentials, a Host header for the same authority, and no other
    header or body. *)
Theorem http_request_roundtrip `{Base64Laws} host port auth :
  host_ok host → authority_host host → is_port port →
  decode_connect (build_http_connect_request host port auth) =
    Some (host, port, (λ '(user, pass), b64_encode (as_bytes (user ++ [58] ++ pass))) <$> auth).
Proof.
  intros Hh Hau Hp. rewrite request_in_lines by done. apply decode_lines; [done..|]. apply visible_token.
Qed.

Lemma b64_char_range v : 0 ≤ v < 64 → 33 ≤ b64_char v < 127.
Proof. intros Hv. unfold b64_char. bool_cases; lia. Qed.

#[export] Instance std_base64_laws : Base64Laws (H:=std_base64).
Proof.
  intros bs. unfold b64_encode, std_base64.
  assert (∀ n (bs : list Z), (length bs < n)%nat → Forall (λ c, 33 ≤ c < 127) (std_b64 bs)) as H.
  { induction n as [|n IH]; intros l Hl; [lia|].
    destruct l as [|a [|b [|c l]]]; cbn [std_b64];
      repeat first [apply Forall_nil; exact I | apply Forall_cons; split
                   | apply b64_char_range; dlia | lia].
    apply IH. simpl in Hl. lia. }
  by apply (H (S (length bs))); lia.
Qed.

Lemma http_request_roundtrip_witness :
  decode_connect (build_http_connect_request (u "www.example.com") 443 (Some (u "user", u "pass")))
  = Some (u "www.example.com", 443,
          (λ '(user, pass), b64_encode (as_bytes (user ++ [58] ++ pass))) <$> Some (u "user", u "pass")).
Proof. apply http_request_roundtrip; [concrete|left; split; concrete|unfold is_port; lia]. Defined.

Example std_b64_ex : std_b64 (u "user:pass") = u "dXNlcjpwYXNz".
Proof. concrete. Qed.

Definition ok_head : list Z := u "HTTP/1.1 200 OK" ++ CRLF ++ CRLF.

Lemma http_connect_accepts_witness :
  let cfg := http (u "127.0.0.1") 8080 in
  let dest := Domain (u "example.com") 443 in
  http_connect cfg dest (MkConn [RData (take 9 ok_head); RData (drop 9 ok_head); RData [22; 3]] [] [])
  = (Ready tt, MkConn [RData [22; 3]] [] (build_http_connect_request (u "example.com") 443 None)).
Proof.
  intros cfg dest.
  apply (http_connect_accepts cfg dest
    (MkConn [RData (take 9 ok_head); RData (drop 9 ok_head); RData [22; 3]] [] [])
    [take 9 ok_head; drop 9 ok_head] [RData [22; 3]]); try reflexivity; try concrete.
  - exists (u "HTTP/1.1 200 OK"). concrete.
  - intros [|p1 [|p2 [|? ?]]] post Heq Hpre Hpost; try done; simplify_eq/=.
    intros [p Hp]. apply (f_equal reverse) in Hp. rewrite reverse_app in Hp. vm_compute in Hp.
    discriminate Hp.
Defined.

Lemma http_connect_sound_witness :
  let cfg := http (u "127.0.0.1") 8080 in
  let dest := Domain (u "example.com") 443 in
  let c := MkConn [RData ok_head; RData [22; 3]] [] [] in
  match http_connect cfg dest c with
  | (Ready _, c') => ∃ head rest, ok_head ++ [22; 3] = head ++ rest ∧ view (inbox c') = (rest, EndHang)
      ∧ outbox c' = outbox c ++ build_http_connect_request (host_string dest) (target_port dest) (auth_of cfg)
      ∧ (∃ p, head = p ++ blank_line) ∧ zlen head ≤ 66048 ∧ parse_http_status head = Some 200
  | (r, _) => refused r
  end.
Proof.
  intros cfg dest c. apply (http_connect_sound cfg dest c (ok_head ++ [22; 3]) EndHang). reflexivity.
Defined.

(** ** Connecting *)

Lemma http_connect_refused `{Base64} cfg dest c server e :
  view (inbox c) = (server, e) →
  match (http_connect cfg dest c).1 with Ready _ => True | r => refused r end.
Proof.
  intros Hv. unfold http_connect. set (req := build_http_connect_request _ _ _).
  unfold mbind, io_bind.
  destruct (write_all_cases req c) as [(c1 & -> & _ & Hi)|([er|] & c1 & k & -> & _)]; [|done..].
  rewrite <-Hi in Hv.
  pose proof (read_head_spec head_fuel [] c1 server e Hv ltac:(done) head_fuel_enough) as Hh.
  destruct (read_head head_fuel [] c1) as [[buf|er| | |] c2]; try done.
  destruct (parse_http_status buf); [|done]. by destruct (_ =? _).
Qed.

Lemma reply_wb : well_behaved read_socks5_reply (λ _, True).
Proof.
  unfold read_socks5_reply. eapply wb_bind; [apply wb_read_exact|]. intros hdr _.
  destruct (_ || _); [apply wb_fail|].
  apply (wb_bind _ _ (λ n, n ≤ 270)).
  - destruct (_ =? _); [by apply wb_ret|]. destruct (_ =? _); [by apply wb_ret|].
    destruct (_ =? _); [|apply wb_fail]. eapply wb_bind; [apply wb_read_exact|].
    intros d [Hd Hl]. apply wb_ret. unfold byte_of. destruct d as [|b d]; cbn [nth]; [lia|].
    apply Forall_cons in Hd as [Hb _]. unfold is_byte in Hb. lia.
  - intros n Hn. eapply wb_bind.
    + unfold scratch_slice. bool_lit. by apply (wb_ret n (λ _, True)).
    + intros n' _. eapply wb_bind; [apply wb_read_exact|]. intros. by apply wb_ret.
Qed.

Lemma socks5_wb cfg dest : well_behaved (socks5_connect cfg dest) (λ _, True).
Proof.
  rewrite socks5_connect_unfold. eapply wb_bind; [apply wb_write|]. intros _ _.
  eapply wb_bind; [apply wb_read_exact|]. intros method _.
  destruct (negb _); [apply wb_fail|]. apply (wb_bind _ _ (λ _, True)).
  - unfold authenticate. destruct (_ =? _); [by apply wb_ret|]. destruct (_ =? _); [|apply wb_fail].
    destruct (username cfg), (password cfg); try apply wb_fail.
    eapply wb_bind; [apply wb_try|]. intros msg _.
    eapply wb_bind; [apply wb_write|]. intros _ _.
    eapply wb_bind; [apply wb_read_exact|]. intros ok _. destruct (negb _); [apply wb_fail|by apply wb_ret].
  - intros _ _. eapply wb_bind; [apply wb_try|]. intros req _.
    eapply wb_bind; [apply wb_write|]. intros _ _. apply reply_wb.
Qed.

(** connecting to an upstream proxy always ends, with a tunnel or with an
    error: whatever the proxy does — refuses, stalls at any point, floods,
    sends malformed bytes — the handshake does not panic, and a future that
    would wait forever is turned into a [TimedOut] error. *)
Theorem connect_via_proxy_ends `{Base64} answer cfg dest :
  (∀ c, answer = Connected c → bytes_ok c) →
  (∃ c', connect_via_proxy answer cfg dest = Ready c')
  ∨ (∃ e, connect_via_proxy answer cfg dest = Failed e
          ∧ (connect_via_proxy_inner answer cfg dest = Hang → ie_kind e = TimedOut)).
Proof.
  intros Hb. unfold connect_via_proxy, connect_via_proxy_inner.
  destruct answer as [c|e|]; [|right; by eexists|right; by eexists].
  assert (match (handshake cfg dest c).1 with Ready _ => True | r => refused r end) as Hr.
  { specialize (Hb c eq_refl). unfold handshake. destruct (proxy_type cfg).
    - destruct (view (inbox c)) as [s e] eqn:E. by apply (http_connect_refused cfg dest c s e).
    - pose proof (socks5_wb cfg dest c Hb) as Hh. by destruct (socks5_connect cfg dest c) as [[]]. }
  destruct (handshake cfg dest c) as [[a|e| | |] c']; simpl in Hr; try done;
    [left; by eexists|right; by eexists..].
Qed.

Lemma connect_via_proxy_ends_witness :
  let c := MkConn [RData [5; 0; 5]] [] [] in
  let cfg := socks5 (u "127.0.0.1") 1080 in
  let dest := Domain (u "example.com") 443 in
  (∃ c', connect_via_proxy (Connected c) cfg dest = Ready c')
  ∨ (∃ e, connect_via_proxy (Connected c) cfg dest = Failed e
          ∧ (connect_via_proxy_inner (Connected c) cfg dest = Hang → ie_kind e = TimedOut)).
Proof.
  intros c cfg dest. apply connect_via_proxy_ends. intros c' [= <-]. unfold bytes_ok. concrete.
Defined.

(** ** Observations *)

(** A proxy whose first tunnelled bytes arrive in the same read as the end of
    its response head is not recognised: the blank line is looked for only at
    the end of what has been read, so the connection times out. *)
Example coalesced_tunnel_bytes_time_out :
  connect_via_proxy (Connected (MkConn [RData (ok_head ++ [22; 3; 1])] [] []))
    (http (u "127.0.0.1") 8080) (Domain (u "example.com") 443)
  = Failed (timed_out "upstream proxy connect timed out").
Proof. vm_compute. reflexivity. Qed.

(** A snooped host name is not checked for line ends: it can add a header. *)
Example snooped_name_adds_header :
  build_http_connect_request (u "a" ++ CRLF ++ u "X: ") 443 None
  = u "CONNECT a" ++ CRLF ++ u "X: :443 HTTP/1.1" ++ CRLF
    ++ u "Host: a" ++ CRLF ++ u "X: :443" ++ CRLF ++ u "Proxy-Connection: keep-alive" ++ CRLF ++ CRLF.
Proof. vm_compute. reflexivity. Qed.

(** An IPv6 target is written without the brackets an authority needs. *)
Example ipv6_authority_unbracketed :
  build_http_connect_request (host_string (Ip (V6 1) 443)) 443 None
  = u "CONNECT ::1:443 HTTP/1.1" ++ CRLF ++ u "Host: ::1:443" ++ CRLF
    ++ u "Proxy-Connection: keep-alive" ++ CRLF ++ CRLF
  ∧ decode_connect (build_http_connect_request (host_string (Ip (V6 1) 443)) 443 None) = None.
Proof. split; vm_compute; reflexivity. Qed.
