(* ===== verification/State.v ===== *)
(** * Shared engine state ([state.rs])

    [Shared] with its immutable configuration and its mutable parts: the DNS
    cache, the once-set interface, the counters and the running flag.  Counters
    are [AtomicU64]: [fetch_add] wraps at 2^64. *)

From S2P Require Export Platform Rule Dns.
Local Open Scope Z_scope.

Inductive QuicPolicy : Type := QuicDrop | QuicAllow.
#[export] Instance QuicPolicy_eq_dec : EqDecision QuicPolicy.
Proof. solve_decision. Defined.

Record Stats : Type := MkStats {
  tcp_flows : Z;
  udp_flows : Z;
  blocked : Z;
  quic_dropped : Z;
  proxy_fallbacks : Z;
  group_dropped : Z;
  udp_send_errors : Z
}.
#[export] Instance Stats_eq_dec : EqDecision Stats.
Proof. solve_decision. Defined.

(** [Stats::default()] *)
Definition stats_default : Stats := MkStats 0 0 0 0 0 0 0.

Definition U64 : Z := 2 ^ 64.
(** [counter.fetch_add(1, Ordering::Relaxed)] *)
Definition fetch_add1 (n : Z) : Z := (n + 1) mod U64.

Definition add_tcp_flows (s : Stats) : Stats :=
  MkStats (fetch_add1 (tcp_flows s)) (udp_flows s) (blocked s) (quic_dropped s)
    (proxy_fallbacks s) (group_dropped s) (udp_send_errors s).
Definition add_udp_flows (s : Stats) : Stats :=
  MkStats (tcp_flows s) (fetch_add1 (udp_flows s)) (blocked s) (quic_dropped s)
    (proxy_fallbacks s) (group_dropped s) (udp_send_errors s).
Definition add_blocked (s : Stats) : Stats :=
  MkStats (tcp_flows s) (udp_flows s) (fetch_add1 (blocked s)) (quic_dropped s)
    (proxy_fallbacks s) (group_dropped s) (udp_send_errors s).
Definition add_quic_dropped (s : Stats) : Stats :=
  MkStats (tcp_flows s) (udp_flows s) (blocked s) (fetch_add1 (quic_dropped s))
    (proxy_fallbacks s) (group_dropped s) (udp_send_errors s).
Definition add_proxy_fallbacks (s : Stats) : Stats :=
  MkStats (tcp_flows s) (udp_flows s) (blocked s) (quic_dropped s)
    (fetch_add1 (proxy_fallbacks s)) (group_dropped s) (udp_send_errors s).
Definition add_group_dropped (s : Stats) : Stats :=
  MkStats (tcp_flows s) (udp_flows s) (blocked s) (quic_dropped s)
    (proxy_fallbacks s) (fetch_add1 (group_dropped s)) (udp_send_errors s).
Definition add_udp_send_errors (s : Stats) : Stats :=
  MkStats (tcp_flows s) (udp_flows s) (blocked s) (quic_dropped s)
    (proxy_fallbacks s) (group_dropped s) (fetch_add1 (udp_send_errors s)).

(** [StatsSnapshot] has the same fields; [snapshot] loads each counter. *)
Definition StatsSnapshot : Type := Stats.

Section Shared.
Context `{RegexEngine}.

Record Shared : Type := MkShared {
  rules_of : RuleSet;
  proxy_configs : list ProxyConfig;
  dns_cache : DnsCache;
  localhost_via_proxy : bool;
  quic_port : Z;
  quic_policy : QuicPolicy;
  current_pid : Z;
  iface_cell : option PhysicalInterface;
  stats : Stats;
  has_log_cb : bool;
  has_conn_cb : bool;
  running : bool
}.

Definition with_stats (f : Stats → Stats) (s : Shared) : Shared :=
  MkShared (rules_of s) (proxy_configs s) (dns_cache s) (localhost_via_proxy s) (quic_port s)
    (quic_policy s) (current_pid s) (iface_cell s) (f (stats s)) (has_log_cb s) (has_conn_cb s)
    (running s).
Definition with_cache (c : DnsCache) (s : Shared) : Shared :=
  MkShared (rules_of s) (proxy_configs s) c (localhost_via_proxy s) (quic_port s)
    (quic_policy s) (current_pid s) (iface_cell s) (stats s) (has_log_cb s) (has_conn_cb s)
    (running s).
Definition with_running (b : bool) (s : Shared) : Shared :=
  MkShared (rules_of s) (proxy_configs s) (dns_cache s) (localhost_via_proxy s) (quic_port s)
    (quic_policy s) (current_pid s) (iface_cell s) (stats s) (has_log_cb s) (has_conn_cb s) b.
(** [self.iface.set(i)]: a [OnceLock] keeps the first value. *)
Definition iface_set (i : PhysicalInterface) (s : Shared) : Shared :=
  match iface_cell s with
  | Some _ => s
  | None =>
    MkShared (rules_of s) (proxy_configs s) (dns_cache s) (localhost_via_proxy s) (quic_port s)
      (quic_policy s) (current_pid s) (Some i) (stats s) (has_log_cb s) (has_conn_cb s) (running s)
  end.

Definition iface (s : Shared) : PhysicalInterface := default default_interface (iface_cell s).

Definition find_proxy_config (s : Shared) (id : Z) : option ProxyConfig :=
  match List.find (λ c, config_id c =? id) (proxy_configs s) with
  | Some c => Some c
  | None => head (proxy_configs s)
  end.

Definition snapshot (s : Shared) : StatsSnapshot := stats s.

(** ** Lemmas *)

(** A lookup fails only when no configuration is registered at all. *)
Lemma find_proxy_config_None s id : find_proxy_config s id = None ↔ proxy_configs s = [].
Proof.
  unfold find_proxy_config. destruct (List.find _ _) eqn:E.
  - split; [done|]. intros Hn. by rewrite Hn in E.
  - by destruct (proxy_configs s).
Qed.

(** What it returns is registered, and carries the id asked for when some
    registered configuration does. *)
Lemma find_proxy_config_Some s id c :
  find_proxy_config s id = Some c →
  c ∈ proxy_configs s ∧ (config_id c = id ∨
    (Forall (λ c', config_id c' ≠ id) (proxy_configs s) ∧ head (proxy_configs s) = Some c)).
Proof.
  unfold find_proxy_config. destruct (List.find _ _) as [c'|] eqn:E.
  - intros [= ->]. apply List.find_some in E as [Hin He%Z.eqb_eq].
    split; [by apply list_elem_of_In|by left].
  - intros Hh. pose proof (List.find_none _ _ E) as Hn. split.
    + destruct (proxy_configs s); simplify_eq/=. by left.
    + right. split; [|done]. apply Forall_forall. intros x Hx%list_elem_of_In.
      specialize (Hn x Hx). simpl in Hn. by apply Z.eqb_neq in Hn.
Qed.

End Shared.
