(* ===== verification/Dial.v ===== *)
(** * Outbound sockets pinned to the physical interface ([dial.rs])

    The two dialers, as the sequence of socket calls they make and their
    result, over the answers the operating system gives to those calls.
    Pinning itself is the platform's [pin_socket]. *)

From S2P Require Export Platform Conn.
Local Open Scope Z_scope.

Definition CONNECT_TIMEOUT : Z := 10 * 10 ^ 9.
Definition UDP_SEND_BUFFER : Z := 512 * 1024.

Inductive sock_op : Type :=
  | OpNewTcp (v6 : bool)
  | OpBindUdp (bind : SocketAddr)
  | OpPin (index : Z) (dest : IpAddr) (answer : option io_error)
  | OpSendBuffer (bytes : Z)
  | OpConnect (dest : SocketAddr).
#[export] Instance sock_op_eq_dec : EqDecision sock_op.
Proof. solve_decision. Defined.

(** The operating system's answers to one dial; [None] is success. *)
Record dial_os : Type := MkDialOs {
  os_new : option io_error;
  os_pin : option io_error;
  os_send_buffer : option io_error;
  os_connect : io_out unit
}.

Definition dest_is_v6 (dest : SocketAddr) : bool := is_ipv6 (sa_ip dest).

(** The pin step of both dialers: attempted when the family has an index.  A
    failure is logged and ignored: the socket goes on unpinned. *)
Definition pin_ops (os : dial_os) (dest : SocketAddr) (i : PhysicalInterface) : list sock_op :=
  match index_for i (sa_ip dest) with
  | Some index => [OpPin index (sa_ip dest) (os_pin os)]
  | None => []
  end.

Definition dial_tcp (os : dial_os) (dest : SocketAddr) (i : PhysicalInterface)
    : list sock_op * io_out unit :=
  match os_new os with
  | Some e => ([OpNewTcp (dest_is_v6 dest)], Failed e)
  | None =>
    (OpNewTcp (dest_is_v6 dest) :: pin_ops os dest i ++ [OpConnect dest],
     match os_connect os with
     | Hang => Failed (IoError TimedOut "outbound connect timed out")
     | r => r
     end)
  end.

Definition wildcard_bind (dest : SocketAddr) : SocketAddr :=
  if dest_is_v6 dest then SockAddr (V6 0) 0 else SockAddr (V4 0) 0.

Definition dial_udp (os : dial_os) (dest : SocketAddr) (i : PhysicalInterface)
    : list sock_op * io_out unit :=
  match os_new os with
  | Some e => ([OpBindUdp (wildcard_bind dest)], Failed e)
  | None =>
    (OpBindUdp (wildcard_bind dest) :: pin_ops os dest i
     ++ [OpSendBuffer UDP_SEND_BUFFER; OpConnect dest],
     os_connect os)
  end.

(** A dial that is pinned: every connect in it comes after a pin of the same
    socket to the index that the system granted. *)
Definition pinned (index : Z) (ops : list sock_op) : Prop :=
  ∀ pre dest post, ops = pre ++ OpConnect dest :: post → OpPin index (sa_ip dest) None ∈ pre.

(** The system refused the pin of the socket. *)
Definition pin_refused (dest : SocketAddr) (ops : list sock_op) : Prop :=
  ∃ index e, OpPin index (sa_ip dest) (Some e) ∈ ops.

(** The literal socket addresses of the source parse to these binds. *)
Example wildcard_bind_literals :
  parse_socket_addr (u "0.0.0.0:0") = Some (SockAddr (V4 0) 0)
  ∧ parse_socket_addr (u "[::]:0") = Some (SockAddr (V6 0) 0).
Proof. split; vm_compute; reflexivity. Qed.

Lemma pin_ops_connect_free os dest i d : OpConnect d ∉ pin_ops os dest i.
Proof. unfold pin_ops. destruct (index_for _ _); set_solver. Qed.

(** With an index for the destination's family, both dialers pin the socket to
    it before they connect it, unless the system refuses the pin. *)
Lemma dial_tcp_pinned os dest i index :
  index_for i (sa_ip dest) = Some index →
  let ops := (dial_tcp os dest i).1 in
  pinned index ops ∨ pin_refused dest ops ∧ os_pin os ≠ None.
Proof.
  intros Hi ops. unfold ops, dial_tcp, pin_ops. rewrite Hi. destruct (os_new os); simpl.
  { left. intros pre d post Heq. destruct pre as [|? [|]]; simplify_eq/=. }
  destruct (os_pin os) as [e|].
  - right. split; [|done]. exists index, e. set_solver.
  - left. intros pre d post Heq. destruct pre as [|? [|? [|? [|]]]]; simplify_eq/=. set_solver.
Qed.

Lemma dial_udp_pinned os dest i index :
  index_for i (sa_ip dest) = Some index →
  let ops := (dial_udp os dest i).1 in
  pinned index ops ∨ pin_refused dest ops ∧ os_pin os ≠ None.
Proof.
  intros Hi ops. unfold ops, dial_udp, pin_ops. rewrite Hi. destruct (os_new os); simpl.
  { left. intros pre d post Heq. destruct pre as [|? [|]]; simplify_eq/=. }
  destruct (os_pin os) as [e|].
  - right. split; [|done]. exists index, e. set_solver.
  - left. intros pre d post Heq. destruct pre as [|? [|? [|? [|? [|]]]]]; simplify_eq/=. set_solver.
Qed.
