(* ===== verification/Netstack.v ===== *)
(** * Flow dispatch ([netstack.rs])

    The decision for a flow, the TCP and UDP handlers, the connection report
    and the accept loop.  A handler is a function from the shared state and the
    environment's answers to its outcome, the new shared state and the trace of
    its externally visible effects, in order. *)

From S2P Require Export State Dial Proxy.
Local Open Scope Z_scope.

Definition UDP_IDLE_TIMEOUT : Z := 30 * 10 ^ 9.
Definition UDP_BUFFER : Z := 65535.

(** [Decision], its constructors prefixed: the source's names are taken by
    [RuleAction]. *)
Inductive Decision : Type := DDirect | DProxy (id : Z) | DBlock.
#[export] Instance Decision_eq_dec : EqDecision Decision.
Proof. solve_decision. Defined.

Record FlowFacts : Type := MkFacts {
  ff_dest : SocketAddr;
  ff_is_udp : bool;
  ff_pid : option Z;
  ff_process_name : str;
  ff_domain : option str
}.

Definition is_group_address (ip : IpAddr) : bool :=
  match ip with
  | V4 a => is_multicast (V4 a) || is_broadcast_v4 a
  | V6 a => is_multicast (V6 a)
  end.

(** ** Effects *)

Inductive log_msg : Type :=
  | LogAcceptEnded (e : io_error)
  | LogTcpEnded (e : io_error)
  | LogUdpEnded (e : io_error)
  | LogProxyMissing (id : Z) (dest : SocketAddr)
  | LogProxyUnavailable (dest : SocketAddr) (e : io_error)
  | LogLoopStopped.

Inductive event : Type :=
  | EvLog (m : log_msg)
  | EvReport (info : ConnectionInfo)
  | EvDialTcp (ops : list sock_op)
  | EvDialUdp (ops : list sock_op)
  | EvProxy (cfg : ProxyConfig) (target : Target)
  | EvCopyDirect
  | EvCopyProxy
  | EvShutdown
  | EvDrop
  | EvSend (datagram : list Z)
  | EvSendFailed (datagram : list Z)
  | EvDeliver (datagram : list Z)
  | EvDeliverFailed (datagram : list Z).

Section Netstack.
Context `{RegexEngine} `{ProcessTable} `{Base64}.

(** ** The decision *)

Definition decide (shared : Shared) (facts : FlowFacts) : outcome Decision :=
  let ip := sa_ip (ff_dest facts) in
  if bool_decide (ff_pid facts = Some (current_pid shared)) then
    if negb (is_loopback ip) && bool_decide (index_for (iface shared) ip = None)
    then mret DBlock else mret DDirect
  else if is_loopback ip && negb (localhost_via_proxy shared) then mret DDirect
  else if is_group_address ip then mret DBlock
  else if ff_is_udp facts && (sa_port (ff_dest facts) =? quic_port shared)
          && bool_decide (quic_policy shared = QuicDrop) then mret DBlock
  else
    m ← evaluate (rules_of shared) (ff_process_name facts) ip (sa_port (ff_dest facts))
          (ff_is_udp facts) (ff_domain facts);
    mret match rm_action m with
         | Direct => DDirect
         | Block => DBlock
         | Config.Proxy => DProxy (rm_proxy_config_id m)
         end.

Definition attribute (src dest : SocketAddr) (is_udp : bool) : option Z * str :=
  let pid := resolve_pid src dest is_udp in
  let name := match pid ≫= process_name with
              | Some n => to_ascii_lowercase n
              | None => []
              end in
  (pid, name).

Definition domain_for (shared : Shared) (now : Z) (dest : IpAddr) : option str :=
  if needs_domain_resolution (rules_of shared) then Dns.lookup (dns_cache shared) now dest else None.

(** [{:?}] of a [ProxyType]. *)
Definition show_proxy_type (t : ProxyType) : str :=
  match t with Http => u "Http" | Socks5 => u "Socks5" end.

Definition report_info (shared : Shared) (facts : FlowFacts) (decision : Decision) : ConnectionInfo :=
  let '(action, proxy_info) :=
    match decision with
    | DDirect => (Direct, u "Direct")
    | DBlock => (Block, u "Blocked")
    | DProxy id =>
      (Config.Proxy,
       match find_proxy_config shared id with
       | Some c => u "Proxy " ++ show_proxy_type (proxy_type c) ++ u "://" ++ host c ++ [58] ++ dec (port c)
       | None => u "Proxy (unconfigured)"
       end)
    end in
  MkConnectionInfo (ff_process_name facts) (default 0 (ff_pid facts)) (sa_ip (ff_dest facts))
    (sa_port (ff_dest facts)) action proxy_info.

Definition report (shared : Shared) (facts : FlowFacts) (decision : Decision) : list event :=
  if negb (has_conn_cb shared) then [] else [EvReport (report_info shared facts decision)].

(** [Shared::log]: the callback, when one is set. *)
Definition log (shared : Shared) (m : log_msg) : list event :=
  if has_log_cb shared then [EvLog m] else [].

(** ** TCP *)

(** What the environment answers to one TCP flow: the clock, the direct dial,
    the proxy's connection, and the end of [copy_bidirectional]. *)
Record tcp_env : Type := MkTcpEnv {
  te_now : Z;
  te_os : dial_os;
  te_proxy : connect_answer;
  te_copy : io_out unit
}.

Definition flow_facts (shared : Shared) (now : Z) (src dest : SocketAddr) (is_udp : bool) : FlowFacts :=
  let '(pid, name) := attribute src dest is_udp in
  MkFacts dest is_udp pid name (domain_for shared now (sa_ip dest)).

Definition fail_closed : list event := [EvShutdown].

Definition target_for (cfg : ProxyConfig) (domain : option str) (dest : SocketAddr) : Target :=
  match send_domain_to_proxy cfg, domain with
  | true, Some d => Domain d (sa_port dest)
  | _, _ => Ip (sa_ip dest) (sa_port dest)
  end.

Definition handle_tcp (env : tcp_env) (src dest : SocketAddr) (shared : Shared)
    : io_out unit * Shared * list event :=
  let facts := flow_facts shared (te_now env) src dest false in
  match decide shared facts with
  | Panic => (Crash, shared, [])
  | Done decision =>
    let reported := report shared facts decision in
    match decision with
    | DBlock => (Ready tt, with_stats add_blocked shared, reported ++ [EvDrop])
    | DDirect =>
      let '(ops, r) := dial_tcp (te_os env) dest (iface shared) in
      match r with
      | Ready _ => (te_copy env, shared, reported ++ [EvDialTcp ops; EvCopyDirect])
      | Failed e => (Failed e, shared, reported ++ [EvDialTcp ops])
      | r => (r, shared, reported ++ [EvDialTcp ops])
      end
    | DProxy config_id =>
      match find_proxy_config shared config_id with
      | None =>
        (Ready tt, with_stats add_blocked (with_stats add_proxy_fallbacks shared),
         reported ++ log shared (LogProxyMissing config_id dest) ++ fail_closed)
      | Some cfg =>
        let target := target_for cfg (ff_domain facts) dest in
        match connect_via_proxy (te_proxy env) cfg target with
        | Ready _ => (te_copy env, shared, reported ++ [EvProxy cfg target; EvCopyProxy])
        | Failed e =>
          (Ready tt, with_stats add_blocked (with_stats add_proxy_fallbacks shared),
           reported ++ [EvProxy cfg target] ++ log shared (LogProxyUnavailable dest e) ++ fail_closed)
        | Hang => (Hang, shared, reported ++ [EvProxy cfg target])
        | Crash => (Crash, shared, reported ++ [EvProxy cfg target])
        | OutOfFuel => (OutOfFuel, shared, reported ++ [EvProxy cfg target])
        end
      end
    end
  end.

(** ** UDP *)

(** What a send or a write answers; [AnsNever] when it never completes. *)
Inductive io_answer : Type := AnsOk | AnsErr (e : io_error) | AnsNever.
#[export] Instance io_answer_eq_dec : EqDecision io_answer.
Proof. solve_decision. Defined.

(** What becomes ready for the select, in order, each after [wait] nanoseconds of
    the turn that waits for it: a datagram from the application with the answer of
    its send, the application's end, a datagram from the peer with its arrival time
    and the answer of its delivery, a receive error.  After the last of them
    nothing ever does. *)
Inductive udp_event : Type :=
  | ClientData (wait : Z) (bs : list Z) (sent : io_answer)
  | ClientClosed (wait : Z)
  | ServerData (wait : Z) (bs : list Z) (now : Z) (written : io_answer)
  | ServerError (wait : Z) (e : io_error).

Definition wait_of (e : udp_event) : Z :=
  match e with ClientData w _ _ | ClientClosed w | ServerData w _ _ _ | ServerError w _ => w end.

(** The [select!] over the two [timeout]s, which start together at each turn:
    [None] when they fire, because the next event is late or never comes. *)
Definition select (script : list udp_event) : option udp_event :=
  e ← head script; if wait_of e <=? UDP_IDLE_TIMEOUT then Some e else None.

(** The arms of the select: whether the loop goes on, or [Hang] when a call in the
    arm never completes, [Crash] when it panics; the shared state and the effects
    are those up to there. *)
Definition relay_step (is_dns : bool) (e : udp_event) (shared : Shared)
    : io_out bool * Shared * list event :=
  match e with
  | ClientData _ [] _ | ClientClosed _ | ServerError _ _ => (Ready false, shared, [])
  | ClientData _ bs sent =>
    let bs := take (Z.to_nat UDP_BUFFER) bs in
    match sent with
    | AnsOk => (Ready true, shared, [EvSend bs])
    | AnsErr _ => (Ready true, with_stats add_udp_send_errors shared, [EvSendFailed bs])
    | AnsNever => (Hang, shared, [])
    end
  | ServerData _ bs now written =>
    let bs := take (Z.to_nat UDP_BUFFER) bs in
    let '(cache, snooped) :=
      if is_dns then snoop_response (dns_cache shared) (λ _, now) bs else (dns_cache shared, Done tt) in
    let shared := with_cache cache shared in
    match snooped, written with
    | Panic, _ => (Crash, shared, [])
    | Done _, AnsOk => (Ready true, shared, [EvDeliver bs])
    | Done _, AnsErr _ => (Ready false, shared, [EvDeliverFailed bs])
    | Done _, AnsNever => (Hang, shared, [])
    end
  end.

Fixpoint relay_loop (is_dns : bool) (script : list udp_event) (shared : Shared)
    : io_out unit * Shared * list event :=
  match select script, script with
  | Some e, _ :: script' =>
    let '(r, shared, evs) := relay_step is_dns e shared in
    match r with
    | Ready true =>
      let '(r, shared, evs') := relay_loop is_dns script' shared in (r, shared, evs ++ evs')
    | Ready false => (Ready tt, shared, evs)
    | Failed e => (Failed e, shared, evs)
    | Hang => (Hang, shared, evs)
    | Crash => (Crash, shared, evs)
    | OutOfFuel => (OutOfFuel, shared, evs)
    end
  | _, _ => (Ready tt, shared, [])
  end.

Record udp_env : Type := MkUdpEnv {
  ue_now : Z;
  ue_os : dial_os;
  ue_script : list udp_event
}.

(** The counter a blocked UDP flow is recorded in. *)
Definition count_udp_block (shared : Shared) (dest : SocketAddr) : Stats → Stats :=
  if sa_port dest =? quic_port shared then add_quic_dropped
  else if is_group_address (sa_ip dest) then add_group_dropped
  else add_blocked.

Definition handle_udp (env : udp_env) (src dest : SocketAddr) (shared : Shared)
    : io_out unit * Shared * list event :=
  let facts := flow_facts shared (ue_now env) src dest true in
  match decide shared facts with
  | Panic => (Crash, shared, [])
  | Done decision =>
    let reported := report shared facts decision in
    match decision with
    | DBlock => (Ready tt, with_stats (count_udp_block shared dest) shared, reported ++ [EvDrop])
    | DDirect | DProxy _ =>
      let '(ops, r) := dial_udp (ue_os env) dest (iface shared) in
      match r with
      | Ready _ =>
        let is_dns := sa_port dest =? 53 in
        let '(r, shared', evs) := relay_loop is_dns (ue_script env) shared in
        (r, shared', reported ++ [EvDialUdp ops] ++ evs)
      | Failed e => (Failed e, shared, reported ++ [EvDialUdp ops])
      | r => (r, shared, reported ++ [EvDialUdp ops])
      end
    end
  end.

(** ** The accept loop *)

Inductive accept_event : Type :=
  | AcceptTcp (src dest : SocketAddr)
  | AcceptUdp (src dest : SocketAddr)
  | AcceptUnknownTransport (proto : Z)
  | AcceptUnknownNetwork (bytes : list Z)
  | AcceptError (e : io_error)
  | ShutdownChanged.

(** A task spawned for a flow; it runs its handler, and its error is logged. *)
Inductive task : Type :=
  | TaskTcp (src dest : SocketAddr)
  | TaskUdp (src dest : SocketAddr).

Definition task_tcp (env : tcp_env) (src dest : SocketAddr) (shared : Shared)
    : io_out unit * Shared * list event :=
  let '(r, shared', evs) := handle_tcp env src dest shared in
  match r with
  | Failed e => (Ready tt, shared', evs ++ log shared (LogTcpEnded e))
  | r => (r, shared', evs)
  end.

Definition task_udp (env : udp_env) (src dest : SocketAddr) (shared : Shared)
    : io_out unit * Shared * list event :=
  let '(r, shared', evs) := handle_udp env src dest shared in
  match r with
  | Failed e => (Ready tt, shared', evs ++ log shared (LogUdpEnded e))
  | r => (r, shared', evs)
  end.

(** [run] over the events its select delivers: the tasks it spawns, the shared
    state as the loop itself changes it, what it logs, and whether it ended
    (it waits when the events are exhausted). *)
Fixpoint run (script : list accept_event) (shared : Shared)
    : bool * list task * Shared * list event :=
  match script with
  | [] => (false, [], shared, [])
  | ShutdownChanged :: _ => (true, [], shared, log shared LogLoopStopped)
  | AcceptError e :: _ =>
    (true, [], shared, log shared (LogAcceptEnded e) ++ log shared LogLoopStopped)
  | AcceptTcp src dest :: script' =>
    let '(b, ts, s, evs) := run script' (with_stats add_tcp_flows shared) in
    (b, TaskTcp src dest :: ts, s, evs)
  | AcceptUdp src dest :: script' =>
    let '(b, ts, s, evs) := run script' (with_stats add_udp_flows shared) in
    (b, TaskUdp src dest :: ts, s, evs)
  | AcceptUnknownTransport _ :: script' | AcceptUnknownNetwork _ :: script' => run script' shared
  end.

End Netstack.

#[global] Opaque UDP_BUFFER.

(** ** Group addresses *)

Lemma shiftr_div a n : 0 ≤ n → Z.shiftr a n = a / 2 ^ n.
Proof. apply Z.shiftr_div_pow2. Qed.

(** the group-address test is the address ranges it stands for: 224.0.0.0 to
    239.255.255.255 and 255.255.255.255 for IPv4, ff00::/8 for IPv6. *)
Theorem group_address_ranges ip :
  wf_ip ip →
  is_group_address ip = true ↔
  match ip with
  | V4 a => ipv4 224 0 0 0 ≤ a ≤ ipv4 239 255 255 255 ∨ a = ipv4 255 255 255 255
  | V6 a => of_segments [0xff00; 0; 0; 0; 0; 0; 0; 0] ≤ a
  end.
Proof.
  destruct ip as [a|a]; cbn [wf_ip is_group_address is_multicast]; intros Ha.
  - change (ipv4 224 0 0 0) with (224 * 2 ^ 24). change (ipv4 239 255 255 255) with (240 * 2 ^ 24 - 1).
    change (ipv4 255 255 255 255) with 0xffffffff. unfold is_broadcast_v4.
    rewrite orb_true_iff, andb_true_iff, !Z.leb_le, Z.eqb_eq, shiftr_div by lia. dlia.
  - change (of_segments [0xff00; 0; 0; 0; 0; 0; 0; 0]) with (0xff00 * 2 ^ 112).
    rewrite Z.eqb_eq, shiftr_div by lia.
    assert (0 ≤ a / 2 ^ 112 < 2 ^ 16) as Hd.
    { split; [apply Z.div_pos; lia|]. apply Z.div_lt_upper_bound; lia. }
    assert (0xff00 * 2 ^ 112 ≤ a ↔ 0xff00 ≤ a / 2 ^ 112) as ->.
    { split; intros Hle; [apply Z.div_le_lower_bound; lia|].
      pose proof (Z.mul_div_le a (2 ^ 112)). lia. }
    revert Hd. generalize (a / 2 ^ 112). intros d Hd.
    replace (Z.land d 0xff00) with (d / 2 ^ 8 * 2 ^ 8).
    2:{ change 0xff00 with (Z.shiftl (Z.ones 8) 8).
        apply Z.bits_inj'. intros i Hi. rewrite Z.land_spec, Z.shiftl_spec by lia.
        rewrite <-(Z.shiftl_mul_pow2 _ 8) by lia. rewrite <-Z.shiftr_div_pow2 by lia.
        rewrite Z.shiftl_spec by lia. destruct (Z.lt_ge_cases i 8).
        - rewrite !(Z.testbit_neg_r _ (i - 8)) by lia. by rewrite andb_false_r.
        - rewrite Z.shiftr_spec by lia. replace (i - 8 + 8) with i by lia.
          rewrite Z.testbit_ones_nonneg by lia.
          destruct (Z.ltb_spec (i - 8) 8); [by rewrite andb_true_r|]. rewrite andb_false_r.
          rewrite <-(Z.mod_small d (2 ^ 16)) by lia. by rewrite Z.mod_pow2_bits_high by lia. }
    dlia.
Qed.

Lemma group_address_ranges_witness :
  is_group_address (V4 (ipv4 239 255 255 250)) = true ↔
  (ipv4 224 0 0 0 ≤ ipv4 239 255 255 250 ≤ ipv4 239 255 255 255
   ∨ ipv4 239 255 255 250 = ipv4 255 255 255 255).
Proof. apply (group_address_ranges (V4 (ipv4 239 255 255 250))). vm_compute. split; congruence. Defined.

Section Handlers.
Context `{RegexEngine} `{ProcessTable} `{Base64}.

(** ** The decision *)

(** For a flow of another process, to a destination that is neither an exempt
    loopback nor a group address, outside the QUIC drop, the rules decide. *)
Lemma decide_own shared facts :
  ff_pid facts = Some (current_pid shared) →
  ∃ d, decide shared facts = Done d ∧ (∀ id, d ≠ DProxy id)
    ∧ (d = DDirect → is_loopback (sa_ip (ff_dest facts)) = true
         ∨ ∃ i, index_for (iface shared) (sa_ip (ff_dest facts)) = Some i).
Proof.
  intros Hp. unfold decide. rewrite bool_decide_true by done.
  destruct (is_loopback (sa_ip (ff_dest facts))); simpl; [eauto 8|].
  destruct (index_for (iface shared) (sa_ip (ff_dest facts))) as [i|] eqn:E.
  - rewrite bool_decide_false by done. eauto 8.
  - rewrite bool_decide_true by done. eexists. split_and!; done.
Qed.

Lemma facts_pid shared now src dest is_udp :
  ff_pid (flow_facts shared now src dest is_udp) = resolve_pid src dest is_udp.
Proof. done. Qed.
Lemma facts_dest shared now src dest is_udp : ff_dest (flow_facts shared now src dest is_udp) = dest.
Proof. done. Qed.

Lemma report_events shared facts d ev :
  ev ∈ report shared facts d → ∃ info, ev = EvReport info.
Proof. unfold report. destruct (negb _); [set_solver|]. intros ->%list_elem_of_singleton. eauto. Qed.

(** An effect that leaves the process without being pinned to the physical
    interface of the destination's family. *)
Definition escapes (shared : Shared) (dest : SocketAddr) (ev : event) : Prop :=
  match ev with
  | EvProxy _ _ => True
  | EvDialTcp ops | EvDialUdp ops =>
    ¬ ∃ index, index_for (iface shared) (sa_ip dest) = Some index ∧ pinned index ops
  | _ => False
  end.

(** A dial whose pin the system refused. *)
Definition refused_pin (dest : SocketAddr) (ev : event) : Prop :=
  match ev with EvDialTcp ops | EvDialUdp ops => pin_refused dest ops | _ => False end.

(** What the loop guard lets through. *)
Definition guarded (shared : Shared) (dest : SocketAddr) (ev : event) : Prop :=
  escapes shared dest ev → refused_pin dest ev.

(** What the relay itself does. *)
Definition relay_event (ev : event) : Prop :=
  match ev with EvSend _ | EvSendFailed _ | EvDeliver _ | EvDeliverFailed _ => True | _ => False end.

Lemma relay_step_events is_dns e shared : Forall relay_event (relay_step is_dns e shared).2.
Proof.
  destruct e as [w [|b bs] sent|w|w bs now written|w er]; cbn [relay_step]; try constructor.
  - destruct sent; repeat constructor.
  - destruct (if is_dns then _ else _) as [c [[]|]]; [destruct written|]; repeat constructor.
Qed.

Lemma relay_loop_events is_dns script shared : Forall relay_event (relay_loop is_dns script shared).2.
Proof.
  revert shared. induction script as [|e script IH]; intros shared; [constructor|].
  unfold relay_loop; fold relay_loop. destruct (select (e :: script)) as [e'|]; [|constructor].
  pose proof (relay_step_events is_dns e' shared) as Hs.
  destruct (relay_step is_dns e' shared) as [[r s1] evs]. cbn [snd] in Hs.
  destruct r as [[]| | | |]; try done. specialize (IH s1).
  destruct (relay_loop is_dns script s1) as [[r2 s2] evs2]. by apply Forall_app.
Qed.

(** Closes a [Forall] over a trace: its known parts by hypothesis, its literal
    events by computation. *)
Ltac trace :=
  repeat first
    [ assumption | apply Forall_app; split | apply Forall_nil; exact I
    | apply Forall_cons; split | intros []; fail | split | discriminate ].

Lemma report_guarded shared dest facts d : Forall (guarded shared dest) (report shared facts d).
Proof. apply Forall_forall. intros ev [info ->]%report_events []. Qed.

Lemma relay_guarded shared dest is_dns script s :
  Forall (guarded shared dest) (relay_loop is_dns script s).2.
Proof.
  eapply Forall_impl; [apply relay_loop_events|]. intros [] Hr; try done; intros [].
Qed.

Lemma own_tcp_guarded env src dest shared :
  is_loopback (sa_ip dest) = false → resolve_pid src dest false = Some (current_pid shared) →
  Forall (guarded shared dest) (handle_tcp env src dest shared).2.
Proof.
  intros Hl Hp. unfold handle_tcp.
  set (facts := flow_facts shared (te_now env) src dest false).
  destruct (decide_own shared facts Hp) as (d & -> & Hnp & Hd).
  change (ff_dest facts) with dest in Hd. rewrite Hl in Hd. pose proof (report_guarded shared dest facts d) as Hrep.
  destruct d as [|id|]; [|by destruct (Hnp id)|cbn [snd]; trace; intros []].
  destruct (Hd eq_refl) as [|[i Hi]]; [done|].
  assert (guarded shared dest (EvDialTcp (dial_tcp (te_os env) dest (iface shared)).1)) as He.
  { intros Hesc. destruct (dial_tcp_pinned (te_os env) dest (iface shared) i Hi) as [Hpin|[Href _]];
      [destruct Hesc; by exists i|done]. }
  destruct (dial_tcp _ _ _) as [ops r]. destruct r; cbn [snd fst] in *; trace; intros [].
Qed.

Lemma own_udp_guarded env src dest shared :
  is_loopback (sa_ip dest) = false → resolve_pid src dest true = Some (current_pid shared) →
  Forall (guarded shared dest) (handle_udp env src dest shared).2.
Proof.
  intros Hl Hp. unfold handle_udp.
  set (facts := flow_facts shared (ue_now env) src dest true).
  destruct (decide_own shared facts Hp) as (d & -> & Hnp & Hd).
  change (ff_dest facts) with dest in Hd. rewrite Hl in Hd. pose proof (report_guarded shared dest facts d) as Hrep.
  destruct d as [|id|]; [|by destruct (Hnp id)|cbn [snd]; trace; intros []].
  destruct (Hd eq_refl) as [|[i Hi]]; [done|].
  assert (guarded shared dest (EvDialUdp (dial_udp (ue_os env) dest (iface shared)).1)) as He.
  { intros Hesc. destruct (dial_udp_pinned (ue_os env) dest (iface shared) i Hi) as [Hpin|[Href _]];
      [destruct Hesc; by exists i|done]. }
  destruct (dial_udp _ _ _) as [ops r]. destruct r; cbn [snd fst] in *; try (trace; intros []).
  pose proof (relay_guarded shared dest (sa_port dest =? 53) (ue_script env) shared) as Hrel.
  destruct (relay_loop _ _ _) as [[r' s'] evs]. cbn [snd] in *. trace.
Qed.

(** When the system grants the pins it is asked for, none is refused. *)
Definition grants_pins (os : dial_os) (ev : event) : Prop :=
  os_pin os = None → ∀ dest, ¬ refused_pin dest ev.

Lemma pin_ops_granted os dest i : os_pin os = None → ∀ d, ¬ pin_refused d (pin_ops os dest i).
Proof.
  intros Hp d (index & e & Hin). unfold pin_ops in Hin. rewrite Hp in Hin. destruct (index_for _ _); set_solver.
Qed.

Lemma dial_granted os dest i :
  os_pin os = None →
  (∀ d, ¬ pin_refused d (dial_tcp os dest i).1) ∧ (∀ d, ¬ pin_refused d (dial_udp os dest i).1).
Proof.
  intros Hp. split; intros d; pose proof (pin_ops_granted os dest i Hp d) as Hpin;
    unfold pin_refused, dial_tcp, dial_udp in *; destruct (os_new os); cbn [fst];
    intros (index & e & Hin); [set_solver| |set_solver|]; apply Hpin; exists index, e; set_solver.
Qed.

Lemma tcp_grants env src dest shared :
  Forall (grants_pins (te_os env)) (handle_tcp env src dest shared).2.
Proof.
  assert (∀ l, Forall (λ ev, ∀ d, ¬ refused_pin d ev) l → Forall (grants_pins (te_os env)) l) as Hq.
  { intros l Hl. eapply Forall_impl; [exact Hl|]. by intros ev Hev _. }
  assert (∀ facts d, Forall (λ ev, ∀ d', ¬ refused_pin d' ev) (report shared facts d)) as Hrep.
  { intros facts d. apply Forall_forall. intros ev [info ->]%report_events d' []. }
  assert (∀ m, Forall (λ ev, ∀ d', ¬ refused_pin d' ev) (log shared m)) as Hlog.
  { intros m. unfold log. destruct (has_log_cb shared); trace; intros d' []. }
  unfold handle_tcp. set (facts := flow_facts _ _ _ _ _).
  destruct (decide shared facts) as [[|id|]|]; [| | |constructor].
  - assert (grants_pins (te_os env) (EvDialTcp (dial_tcp (te_os env) dest (iface shared)).1)) as Hd.
    { intros Hp. by apply dial_granted. }
    destruct (dial_tcp _ _ _) as [ops r]. destruct r; cbn [snd]; apply Forall_app;
      (split; [by apply Hq|]); trace; intros _ d' [].
  - destruct (find_proxy_config shared id) as [cfg|]; [destruct (connect_via_proxy _ _ _)|];
      cbn [snd]; apply Hq; trace; try apply Hrep; try apply Hlog; intros d' [].
  - cbn [snd]. apply Hq. trace; [apply Hrep|intros d' []].
Qed.

Lemma udp_grants env src dest shared :
  Forall (grants_pins (ue_os env)) (handle_udp env src dest shared).2.
Proof.
  assert (∀ l, Forall (λ ev, ∀ d, ¬ refused_pin d ev) l → Forall (grants_pins (ue_os env)) l) as Hq.
  { intros l Hl. eapply Forall_impl; [exact Hl|]. by intros ev Hev _. }
  assert (∀ facts d, Forall (λ ev, ∀ d', ¬ refused_pin d' ev) (report shared facts d)) as Hrep.
  { intros facts d. apply Forall_forall. intros ev [info ->]%report_events d' []. }
  assert (Forall (λ ev, ∀ d', ¬ refused_pin d' ev)
    (relay_loop (sa_port dest =? 53) (ue_script env) shared).2) as Hrel.
  { eapply Forall_impl; [apply relay_loop_events|]. intros [] Hr d'; try done; intros []. }
  assert (grants_pins (ue_os env) (EvDialUdp (dial_udp (ue_os env) dest (iface shared)).1)) as Hd.
  { intros Hp. by apply dial_granted. }
  unfold handle_udp. set (facts := flow_facts _ _ _ _ _).
  destruct (decide shared facts) as [[|id|]|]; [| |cbn [snd]; apply Hq; trace; [apply Hrep|intros d' []]|constructor].
  all: destruct (dial_udp _ _ _) as [ops r]; destruct r; cbn [snd];
    try (apply Forall_app; split; [by apply Hq|]; trace; fail).
  all: destruct (relay_loop _ _ _) as [[r' s'] evs]; cbn [snd fst] in *; apply Forall_app; split; [by apply Hq|];
    apply Forall_app; split; [trace|by apply Hq].
Qed.

(** C2: the loop guard.  A flow that this process owns and whose destination is
    not loopback does not re-enter the tunnel, over TCP or UDP, whatever the
    rules and the policy: it is never sent to a proxy, and every socket opened for
    it is pinned to the physical interface of its family before it is connected,
    unless the system refuses to pin that very socket.  So while the system grants
    the pins, nothing escapes.  (A refused pin is logged and the socket connected
    all the same, which is a finding.) *)
Theorem own_flow_never_loops tenv uenv src dest shared :
  is_loopback (sa_ip dest) = false →
  (resolve_pid src dest false = Some (current_pid shared) →
   Forall (guarded shared dest) (handle_tcp tenv src dest shared).2
   ∧ (os_pin (te_os tenv) = None → Forall (λ ev, ¬ escapes shared dest ev) (handle_tcp tenv src dest shared).2))
  ∧ (resolve_pid src dest true = Some (current_pid shared) →
     Forall (guarded shared dest) (handle_udp uenv src dest shared).2
     ∧ (os_pin (ue_os uenv) = None → Forall (λ ev, ¬ escapes shared dest ev) (handle_udp uenv src dest shared).2)).
Proof.
  intros Hl. split; intros Hp.
  - pose proof (own_tcp_guarded tenv src dest shared Hl Hp) as Hg. split; [done|]. intros Hpin.
    pose proof (tcp_grants tenv src dest shared) as Hr. rewrite Forall_forall in *.
    intros ev Hev Hesc. exact (Hr ev Hev Hpin dest (Hg ev Hev Hesc)).
  - pose proof (own_udp_guarded uenv src dest shared Hl Hp) as Hg. split; [done|]. intros Hpin.
    pose proof (udp_grants uenv src dest shared) as Hr. rewrite Forall_forall in *.
    intros ev Hev Hesc. exact (Hr ev Hev Hpin dest (Hg ev Hev Hesc)).
Qed.

(** the QUIC drop does not depend on who owns the flow.  With the policy
    [Drop], a UDP flow to the QUIC port from any other process, known or not,
    under any rules, is counted and dropped without a socket being opened or a
    datagram relayed; loopback that is exempt from redirection is the only
    exception. *)
Theorem quic_dropped_unconditionally env src dest shared :
  quic_policy shared = QuicDrop → sa_port dest = quic_port shared →
  resolve_pid src dest true ≠ Some (current_pid shared) →
  is_loopback (sa_ip dest) && negb (localhost_via_proxy shared) = false →
  ∃ reported, handle_udp env src dest shared
    = (Ready tt, with_stats add_quic_dropped shared, reported ++ [EvDrop])
  ∧ Forall (λ ev, ∃ info, ev = EvReport info ∧ ci_action info = Block) reported.
Proof.
  intros Hq Hport Hp Hl. unfold handle_udp.
  assert (decide shared (flow_facts shared (ue_now env) src dest true) = Done DBlock) as ->.
  { unfold decide. rewrite facts_dest, facts_pid, bool_decide_false, Hl by done.
    destruct (is_group_address (sa_ip dest)); [done|]. cbn [flow_facts ff_is_udp attribute].
    rewrite Hport, Z.eqb_refl, bool_decide_true by done. done. }
  eexists. split.
  - unfold count_udp_block. by rewrite Hport, Z.eqb_refl.
  - unfold report. destruct (has_conn_cb shared); repeat constructor. by eexists.
Qed.

(** ** Fail closed *)

(** A TCP connection straight to the destination. *)
Definition direct_effect (ev : event) : Prop :=
  match ev with EvDialTcp _ | EvDialUdp _ | EvCopyDirect => True | _ => False end.

(** C7: a TCP flow the rules send to a proxy never reaches its destination
    directly; and when the proxy cannot be used — no configuration, an error, a
    timeout at any point of the handshake — the flow is shut down, both counters
    record it, and the handler returns normally without relaying a byte. *)
Theorem proxied_flow_fails_closed env src dest shared id :
  decide shared (flow_facts shared (te_now env) src dest false) = Done (DProxy id) →
  let '(r, shared', evs) := handle_tcp env src dest shared in
  Forall (λ ev, ¬ direct_effect ev) evs
  ∧ ((∀ cfg, find_proxy_config shared id = Some cfg → ∃ e,
        connect_via_proxy (te_proxy env) cfg
          (target_for cfg (ff_domain (flow_facts shared (te_now env) src dest false)) dest) = Failed e) →
     r = Ready tt ∧ last evs = Some EvShutdown ∧ (EvCopyProxy ∉ evs)
     ∧ stats shared' = add_blocked (add_proxy_fallbacks (stats shared))).
Proof.
  intros Hd. unfold handle_tcp. rewrite Hd.
  set (facts := flow_facts _ _ _ _ _).
  assert (Forall (λ ev, ¬ direct_effect ev ∧ ev ≠ EvCopyProxy) (report shared facts (DProxy id))) as Hrep.
  { apply Forall_forall. intros ev [info ->]%report_events. split; [intros []|done]. }
  assert (∀ m, Forall (λ ev, ¬ direct_effect ev ∧ ev ≠ EvCopyProxy) (log shared m)) as Hlog.
  { intros m. unfold log. destruct (has_log_cb shared); trace; intros []. }
  assert (∀ evs, Forall (λ ev, ¬ direct_effect ev ∧ ev ≠ EvCopyProxy) evs →
    Forall (λ ev, ¬ direct_effect ev) evs ∧ (EvCopyProxy ∉ evs)) as Hboth.
  { intros evs Hf. split; [eapply Forall_impl; [exact Hf|naive_solver]|].
    rewrite Forall_forall in Hf. intros Hin. by destruct (Hf _ Hin). }
  assert (∀ evs, Forall (λ ev, ¬ direct_effect ev ∧ ev ≠ EvCopyProxy) evs →
    Forall (λ ev, ¬ direct_effect ev ∧ ev ≠ EvCopyProxy) (evs ++ fail_closed)
    ∧ last (evs ++ fail_closed) = Some EvShutdown) as Hshut.
  { intros evs Hf. split; [|apply last_snoc]. trace; intros []. }
  destruct (find_proxy_config shared id) as [cfg|].
  - set (target := target_for _ _ _).
    destruct (connect_via_proxy (te_proxy env) cfg target) as [c'|e| | |] eqn:Ec.
    2:{ rewrite !app_assoc.
        destruct (Hshut ((report shared facts (DProxy id) ++ [EvProxy cfg target])
          ++ log shared (LogProxyUnavailable dest e))) as [Hf Hlast].
        { trace; try apply Hlog; intros []. }
        destruct (Hboth _ Hf). by split_and!. }
    all: split; [destruct (Hboth _ Hrep) as [? _]; trace; intros []|].
    all: intros Hall; destruct (Hall cfg eq_refl) as [e He].
    all: change (connect_via_proxy (te_proxy env) cfg target = Failed e) in He; congruence.
  - rewrite app_assoc.
    destruct (Hshut (report shared facts (DProxy id) ++ log shared (LogProxyMissing id dest)))
      as [Hf Hlast]; [by apply Forall_app|].
    destruct (Hboth _ Hf). by split_and!.
Qed.

(** ** Totality *)

Lemma evaluate_ascii s name dest dest_port is_udp domain :
  is_ascii name → ∃ m, evaluate s name dest dest_port is_udp domain = Done m.
Proof.
  intros Hn. destruct (strip_exe_ascii name Hn) as [n Hs]. unfold evaluate.
  rewrite (evaluate_loop_spec _ _ _ _ _ _ _ n) by done. by eexists.
Qed.

Lemma lower_ascii s : is_ascii s → is_ascii (to_ascii_lowercase s).
Proof.
  intros Hs. apply Forall_map. eapply Forall_impl; [exact Hs|].
  unfold is_ascii_char, ascii_lower. intros c Hc. simpl. case_match; lia.
Qed.

(** flows of processes with ASCII names, and flows with no known process,
    are always decided: neither handler panics in the decision. *)
Theorem decide_total_ascii shared now src dest is_udp :
  (∀ pid n, process_name pid = Some n → is_ascii n) →
  ∃ d, decide shared (flow_facts shared now src dest is_udp) = Done d.
Proof.
  intros Hn. unfold decide.
  assert (is_ascii (ff_process_name (flow_facts shared now src dest is_udp))) as Ha.
  { unfold flow_facts, attribute. cbn [ff_process_name].
    destruct (resolve_pid src dest is_udp) as [pid|]; [|exact (List.Forall_nil _)]. cbn [mbind option_bind].
    destruct (process_name pid) as [n|] eqn:E; [|exact (List.Forall_nil _)]. apply lower_ascii. exact (Hn pid n E). }
  edestruct (evaluate_ascii (rules_of shared)) as [m ->]; [exact Ha|].
  cbn [mbind outcome_bind]. unfold mret, outcome_ret. repeat case_match; by eexists.
Qed.

(** ** The UDP relay *)

(** The flow goes on after the event. *)
Definition goes_on (e : udp_event) : bool :=
  match e with
  | ClientData _ (_ :: _) (AnsOk | AnsErr _) | ServerData _ _ _ AnsOk => true
  | _ => false
  end.

(** The events the relay handles: those in time, up to the first that ends it. *)
Fixpoint relayed (script : list udp_event) : list udp_event :=
  match script with
  | [] => []
  | e :: script' =>
    if wait_of e <=? UDP_IDLE_TIMEOUT then e :: if goes_on e then relayed script' else [] else []
  end.

(** What one handled event transmits. *)
Definition transmitted (e : udp_event) : list event :=
  match e with
  | ClientData _ (b :: bs) AnsOk => [EvSend (take (Z.to_nat UDP_BUFFER) (b :: bs))]
  | ClientData _ (b :: bs) (AnsErr _) => [EvSendFailed (take (Z.to_nat UDP_BUFFER) (b :: bs))]
  | ServerData _ bs _ AnsOk => [EvDeliver (take (Z.to_nat UDP_BUFFER) bs)]
  | ServerData _ bs _ (AnsErr _) => [EvDeliverFailed (take (Z.to_nat UDP_BUFFER) bs)]
  | _ => []
  end.
Definition is_failed_send (e : udp_event) : bool :=
  match e with ClientData _ (_ :: _) (AnsErr _) => true | _ => false end.
(** A call of the event's arm never completes. *)
Definition never_ends (e : udp_event) : bool :=
  match e with ClientData _ (_ :: _) AnsNever | ServerData _ _ _ AnsNever => true | _ => false end.

(** The bytes the network delivers are bytes, at times whose sum with the cache's
    lifetime is an [Instant]. *)
Definition udp_bytes (e : udp_event) : Prop :=
  match e with ClientData _ bs _ | ServerData _ bs _ _ => Forall is_byte bs | _ => True end.
Definition udp_fits (ttl : Z) (e : udp_event) : Prop :=
  match e with ServerData _ _ now _ => now + ttl < INSTANT_END | _ => True end.

#[export] Instance udp_bytes_dec e : base.Decision (udp_bytes e).
Proof. destruct e; cbn; apply _. Defined.
#[export] Instance udp_fits_dec ttl e : base.Decision (udp_fits ttl e).
Proof. destruct e; cbn; apply _. Defined.

Lemma snoop_total c now payload :
  Forall is_byte payload → (∀ i, now i + ttl c < INSTANT_END) →
  ∃ c', snoop_response c now payload = (c', Done tt).
Proof.
  intros Hb Hf. unfold snoop_response.
  destruct (parse_dns_answers_total payload Hb) as [l ->]. by apply store_all_Done.
Qed.

(** Each failed send of [l] is one addition to the counter. *)
Definition count_failed (l : list udp_event) (s : Stats) : Stats :=
  Nat.iter (length (List.filter is_failed_send l)) add_udp_send_errors s.

Lemma iter_S {A} n (f : A → A) x : Nat.iter (S n) f x = Nat.iter n f (f x).
Proof. induction n as [|n IH]; [done|]. change (f (Nat.iter (S n) f x) = f (Nat.iter n f (f x))). by rewrite IH. Qed.

Lemma never_ends_stops e : never_ends e = true → goes_on e = false.
Proof. by destruct e as [? [] []|?|? ? ? []|? ?]. Qed.

(** One turn: what it transmits, whether the loop goes on, what it counts. *)
Lemma relay_step_spec is_dns e shared :
  udp_bytes e → (is_dns = true → udp_fits (ttl (dns_cache shared)) e) →
  ∃ shared', relay_step is_dns e shared
      = (if never_ends e then Hang else Ready (goes_on e), shared', transmitted e)
    ∧ stats shared' = count_failed [e] (stats shared)
    ∧ ttl (dns_cache shared') = ttl (dns_cache shared)
    ∧ (is_dns = false → dns_cache shared' = dns_cache shared).
Proof.
  intros Hb Hf. destruct e as [w [|b bs] sent|w|w bs now written|w er]; cbn [relay_step].
  1,3,5: exists shared; by split_and!.
  1: destruct sent; eexists; by split_and!.
  destruct is_dns.
  - destruct (snoop_total (dns_cache shared) (λ _, now) (take (Z.to_nat UDP_BUFFER) bs)) as [c Hs];
      [by apply Forall_take|intros _; by apply Hf|].
    pose proof (snoop_fields (dns_cache shared) (λ _, now) (take (Z.to_nat UDP_BUFFER) bs)) as [_ Htt].
    rewrite Hs in *. destruct written; eexists; by split_and!.
  - exists shared. assert (with_cache (dns_cache shared) shared = shared) as -> by by destruct shared.
    by destruct written.
Qed.

(** C33: the UDP relay is faithful.  It transmits exactly the datagrams of the
    events up to the first that ends it — the application closing, a receive or a
    delivery error, thirty seconds in which nothing arrives — each to the other
    side, in order and unmodified (up to the 65535-byte buffer); a send that fails
    costs that one datagram, which is counted and not transmitted, and does not end
    the flow; the relay returns normally unless a send or a delivery never
    completes, and then it waits for that one; it changes no other counter and,
    unless the flow is DNS, leaves the cache alone. *)
Theorem udp_relay_faithful is_dns script shared :
  Forall udp_bytes script → (is_dns = true → Forall (udp_fits (ttl (dns_cache shared))) script) →
  ∃ shared', relay_loop is_dns script shared
      = (if existsb never_ends (relayed script) then Hang else Ready tt, shared',
         concat (map transmitted (relayed script)))
    ∧ stats shared' = count_failed (relayed script) (stats shared)
    ∧ (is_dns = false → dns_cache shared' = dns_cache shared).
Proof.
  intros Hb. revert shared. induction Hb as [|e script He _ IH]; intros shared Hf; [by exists shared|].
  unfold relay_loop; fold relay_loop. unfold select. cbn [head mbind option_bind relayed].
  destruct (wait_of e <=? UDP_IDLE_TIMEOUT); [|by exists shared].
  assert (is_dns = true → udp_fits (ttl (dns_cache shared)) e
    ∧ Forall (udp_fits (ttl (dns_cache shared))) script) as Hfe.
  { intros Hd. specialize (Hf Hd). by apply Forall_cons in Hf. }
  destruct (relay_step_spec is_dns e shared He) as (s1 & -> & K1 & K2 & K3); [intros Hd; by apply Hfe|].
  cbn [map concat existsb]. destruct (never_ends e) eqn:En.
  { exists s1. rewrite (never_ends_stops e En).
    cbn [map concat]. rewrite app_nil_r. by split_and!. }
  cbn [orb]. destruct (goes_on e).
  - destruct (IH s1) as (s' & -> & I1 & I2); [intros Hd; rewrite K2; by apply Hfe|].
    exists s'. split_and!; [done| |].
    + rewrite I1, K1. unfold count_failed. cbn [List.filter]. destruct (is_failed_send e); [|done].
      symmetry. apply iter_S.
    + intros Hd. by rewrite (I2 Hd), (K3 Hd).
  - exists s1. cbn [existsb map concat]. rewrite app_nil_r. by split_and!.
Qed.

(** ** From a DNS answer to the name a proxy is asked for *)

(** The configuration, which the relay does not touch. *)
Lemma relay_keeps {A} (f : Shared → A) is_dns script shared :
  (∀ c s, f (with_cache c s) = f s) → (∀ g s, f (with_stats g s) = f s) →
  f (relay_loop is_dns script shared).1.2 = f shared.
Proof.
  intros Hc Hs. revert shared. induction script as [|e script IH]; intros shared; [done|].
  unfold relay_loop; fold relay_loop. destruct (select (e :: script)) as [e'|]; [|done].
  assert (f (relay_step is_dns e' shared).1.2 = f shared) as Hstep.
  { destruct e' as [w [|b bs] sent|w|w bs now written|w er]; try done; cbn [relay_step].
    - destruct sent; try done. apply Hs.
    - destruct (if is_dns then _ else _) as [c [[]|]]; [destruct written|]; apply Hc. }
  destruct (relay_step is_dns e' shared) as [[r s1] evs]. cbn [fst snd] in Hstep. rewrite <-Hstep.
  destruct r as [[]| | | |]; try done. specialize (IH s1).
  by destruct (relay_loop is_dns script s1) as [[r2 s2] evs2].
Qed.

(** The name of an address outlives what does not name it. *)
Definition names (ip : IpAddr) (e : udp_event) : Prop :=
  match e with
  | ServerData _ bs _ _ =>
    ∃ l, parse_dns_answers (take (Z.to_nat UDP_BUFFER) bs) = Done l ∧ ip ∈ l.*1
  | _ => False
  end.

Lemma relay_step_lookup is_dns e shared ip t :
  poisoned (dns_cache shared) = false → ¬ names ip e →
  let c := dns_cache (relay_step is_dns e shared).1.2 in
  poisoned c = false ∧ Dns.lookup c t ip = Dns.lookup (dns_cache shared) t ip.
Proof.
  intros Hp Hn. destruct e as [w [|b bs] sent|w|w bs now written|w er]; cbn [relay_step]; try done.
  { by destruct sent. }
  destruct is_dns; [|by destruct written]. unfold snoop_response. cbn [names] in Hn.
  destruct (parse_dns_answers (take (Z.to_nat UDP_BUFFER) bs)) as [l|]; [|by destruct written].
  destruct (store_all_fields (dns_cache shared) (λ _, now) l) as [Hp' _].
  pose proof (lookup_store_all_other (dns_cache shared) (λ _, now) l ip t Hp) as Hl.
  destruct (store_all (dns_cache shared) (λ _, now) l) as [c [[]|]]; [destruct written|];
    cbn [fst snd with_cache dns_cache] in *; (split; [by rewrite Hp'|]); apply Hl; naive_solver.
Qed.

Lemma relay_loop_lookup is_dns script shared ip t :
  poisoned (dns_cache shared) = false → Forall (λ e, ¬ names ip e) script →
  Dns.lookup (dns_cache (relay_loop is_dns script shared).1.2) t ip = Dns.lookup (dns_cache shared) t ip.
Proof.
  intros Hp Hn. revert shared Hp. induction Hn as [|e script He _ IH]; intros shared Hp; [done|].
  unfold relay_loop; fold relay_loop. unfold select. cbn [head mbind option_bind].
  destruct (_ <=? _); [|done]. destruct (relay_step_lookup is_dns e shared ip t Hp He) as [Hp' <-].
  destruct (relay_step is_dns e shared) as [[r s1] evs]. cbn [fst snd] in *.
  destruct r as [[]| | | |]; try done. specialize (IH s1 Hp').
  by destruct (relay_loop is_dns script s1) as [[r2 s2] evs2].
Qed.

(** A flow that has gone on this long is where it is. *)
Lemma relay_loop_app is_dns pre script shared :
  Forall udp_bytes pre → (is_dns = true → Forall (udp_fits (ttl (dns_cache shared))) pre) →
  relayed pre = pre → Forall (λ e, goes_on e = true) pre → poisoned (dns_cache shared) = false →
  ∃ s1, (relay_loop is_dns (pre ++ script) shared).1.2 = (relay_loop is_dns script s1).1.2
    ∧ ttl (dns_cache s1) = ttl (dns_cache shared) ∧ poisoned (dns_cache s1) = false.
Proof.
  intros Hb. revert shared. induction Hb as [|e pre He _ IH]; intros shared Hf Hr Hg Hp; [by exists shared|].
  apply Forall_cons in Hg as [Hge Hg]. cbn [relayed] in Hr. cbn [app].
  unfold relay_loop; fold relay_loop. unfold select. cbn [head mbind option_bind].
  destruct (wait_of e <=? UDP_IDLE_TIMEOUT); [|done]. rewrite Hge in Hr. injection Hr as Hr.
  assert (is_dns = true → udp_fits (ttl (dns_cache shared)) e
    ∧ Forall (udp_fits (ttl (dns_cache shared))) pre) as Hfe.
  { intros Hd. specialize (Hf Hd). by apply Forall_cons in Hf. }
  destruct (relay_step_spec is_dns e shared He) as (s1 & Hs & _ & Ht & _); [intros Hd; by apply Hfe|].
  assert (poisoned (dns_cache s1) = false) as Hp1.
  { replace s1 with (relay_step is_dns e shared).1.2 by (by rewrite Hs).
    destruct e as [w [|b bs] sent|w|w bs now written|w er]; cbn [relay_step]; try done; [by destruct sent|].
    destruct is_dns; [|by destruct written].
    pose proof (snoop_fields (dns_cache shared) (λ _, now) (take (Z.to_nat UDP_BUFFER) bs)) as [Hp' _].
    destruct (snoop_response _ _ _) as [c [[]|]]; [destruct written|]; cbn [fst snd] in *;
      by rewrite <-Hp, <-Hp'. }
  rewrite Hs. rewrite Hge. destruct (never_ends e) eqn:En; [by rewrite (never_ends_stops e En) in Hge|].
  destruct (IH s1) as (s2 & K1 & K2 & K3); [intros Hd; rewrite Ht; by apply Hfe|done..|].
  exists s2. split_and!; [|congruence|done]. rewrite <-K1.
  by destruct (relay_loop is_dns (pre ++ script) s1) as [[r2 s'] evs2].
Qed.


(** without a rule that carries a domain filter, no proxied flow is ever
    requested by name, whatever the cache knows and whatever the proxy
    configuration asks for. *)
Theorem no_domain_rules_no_names shared now src dest is_udp cfg :
  needs_domain_resolution (rules_of shared) = false →
  target_for cfg (ff_domain (flow_facts shared now src dest is_udp)) dest = Ip (sa_ip dest) (sa_port dest).
Proof.
  intros Hn. unfold target_for, flow_facts, domain_for. cbn. rewrite Hn.
  by destruct (send_domain_to_proxy cfg).
Qed.

(** ** The accept loop *)

Lemma fetch_add_acc n k : 0 ≤ k → (fetch_add1 n + k) mod U64 = (n + (1 + k)) mod U64.
Proof. intros Hk. unfold fetch_add1. rewrite Zplus_mod_idemp_l. f_equal. lia. Qed.

Definition ends_loop (e : accept_event) : bool :=
  match e with AcceptError _ | ShutdownChanged => true | _ => false end.
Definition task_of (e : accept_event) : option task :=
  match e with
  | AcceptTcp src dest => Some (TaskTcp src dest)
  | AcceptUdp src dest => Some (TaskUdp src dest)
  | _ => None
  end.
Definition is_tcp (e : accept_event) : bool := match e with AcceptTcp _ _ => true | _ => false end.
Definition is_udp_flow (e : accept_event) : bool := match e with AcceptUdp _ _ => true | _ => false end.

(** the accept loop.  It serves the flows accepted before the first
    shutdown signal or accept error, all of them and in order, one task each;
    it counts TCP and UDP flows exactly; packets of other protocols create
    nothing; and it ends exactly when such an event comes, logging that last. *)
Theorem accept_loop_correct script stop rest shared :
  Forall (λ e, ends_loop e = false) script → ends_loop stop = true →
  0 ≤ tcp_flows (stats shared) < U64 → 0 ≤ udp_flows (stats shared) < U64 →
  ∃ shared' evs, run (script ++ stop :: rest) shared = (true, omap task_of script, shared', evs)
    ∧ tcp_flows (stats shared') = (tcp_flows (stats shared) + zlen (List.filter is_tcp script)) mod U64
    ∧ udp_flows (stats shared') = (udp_flows (stats shared) + zlen (List.filter is_udp_flow script)) mod U64
    ∧ dns_cache shared' = dns_cache shared
    ∧ (has_log_cb shared = true → last evs = Some (EvLog LogLoopStopped)).
Proof.
  intros Hs Hstop. revert shared. induction Hs as [|e script He _ IH]; intros shared Ht Hu.
  { exists shared. assert (∀ n, 0 ≤ n < U64 → (n + 0) mod U64 = n) as Hm.
    { intros n Hn. rewrite Z.add_0_r. by apply Z.mod_small. }
    change (zlen (List.filter _ [])) with 0. destruct stop; try done; cbn [run app omap list_omap].
    - eexists. split_and!; [done|by rewrite Hm|by rewrite Hm|done|].
      intros Hl. unfold log. by rewrite Hl.
    - eexists. split_and!; [done|by rewrite Hm|by rewrite Hm|done|].
      intros Hl. unfold log. by rewrite Hl. }
  destruct e as [src dest|src dest|proto|bytes|er|]; try done; cbn [app run].
  - destruct (IH (with_stats add_tcp_flows shared)) as (s' & evs & -> & H2 & H3 & H4 & H5);
      [simpl; unfold fetch_add1; by apply Z.mod_pos_bound|done|].
    exists s', evs. split_and!; try done. rewrite H2. cbn [List.filter is_tcp]. rewrite zlen_cons.
    apply fetch_add_acc, zlen_nonneg.
  - destruct (IH (with_stats add_udp_flows shared)) as (s' & evs & -> & H2 & H3 & H4 & H5);
      [done|simpl; unfold fetch_add1; by apply Z.mod_pos_bound|].
    exists s', evs. split_and!; try done. rewrite H3. cbn [List.filter is_udp_flow]. rewrite zlen_cons.
    apply fetch_add_acc, zlen_nonneg.
  - by apply IH.
  - by apply IH.
Qed.

End Handlers.

(** ** Concrete runs *)

Module Demo.

#[local] Existing Instance MiniRegex.engine.

(** Two processes: the engine itself (pid 7) and a browser (pid 9). *)
#[export] Instance table : ProcessTable :=
  {| resolve_pid := λ src _ _, if sa_port src =? 1000 then Some 7
                              else if sa_port src =? 2000 then Some 9 else None;
     process_name := λ pid, if pid =? 9 then Some (u "Chrome.exe") else None |}.

Definition proxy_rule : Rule := with_domains (with_action (rule_new (u "chrome")) Config.Proxy) (u "*").
Definition domain_rule : Rule := with_domains (with_action (rule_new (u "*")) Block) (u "*.ads.example").
Definition ruleset (rs : list Rule) : RuleSet :=
  match ruleset_new rs with Done s => s | Panic => MkRuleSet [] false end.

Definition shared (rs : list Rule) (cfgs : list ProxyConfig) : Shared :=
  MkShared (ruleset rs) cfgs cache_default false 443 QuicDrop 7
    (Some (MkPhysicalInterface (Some 12) None)) stats_default true true true.

Definition os : dial_os := MkDialOs None None None (Ready tt).
Definition refusing : connect_answer := ConnectFailed (IoError Other "refused").
Definition tcp0 : tcp_env := MkTcpEnv 0 os refusing (Ready tt).
Definition own : SocketAddr := SockAddr (V4 (ipv4 10 63 7 1)) 1000.
Definition browser : SocketAddr := SockAddr (V4 (ipv4 10 63 7 1)) 2000.
Definition unknown : SocketAddr := SockAddr (V4 (ipv4 10 63 7 1)) 3000.
Definition web : SocketAddr := SockAddr (V4 (ipv4 93 184 216 34)) 443.
Definition resolver : SocketAddr := SockAddr (V4 (ipv4 9 9 9 9)) 53.

End Demo.
#[local] Existing Instance MiniRegex.engine.
#[local] Existing Instance Demo.table.

Definition udp_demo : udp_env := MkUdpEnv 0 Demo.os [ClientData 0 [1] AnsOk].

Lemma own_flow_never_loops_witness :
  let s := Demo.shared [Demo.proxy_rule] [socks5 (u "p") 1080] in
  Forall (λ ev, ¬ escapes s Demo.web ev) (handle_tcp Demo.tcp0 Demo.own Demo.web s).2
  ∧ Forall (λ ev, ¬ escapes s Demo.web ev) (handle_udp udp_demo Demo.own Demo.web s).2.
Proof.
  intros s. destruct (own_flow_never_loops Demo.tcp0 udp_demo Demo.own Demo.web s eq_refl) as [K1 K2].
  split; [exact (proj2 (K1 eq_refl) eq_refl)|exact (proj2 (K2 eq_refl) eq_refl)].
Defined.

(** When the system refuses the pin the engine's own connection leaves unpinned,
    into the tunnel it came from. *)
Example refused_pin_loops :
  let s := Demo.shared [] [] in
  let env := MkTcpEnv 0 (MkDialOs None (Some (IoError PermissionDenied "setsockopt")) None (Ready tt))
               Demo.refusing (Ready tt) in
  Exists (escapes s Demo.web) (handle_tcp env Demo.own Demo.web s).2.
Proof.
  intros s env. apply Exists_exists.
  exists (EvDialTcp (dial_tcp (te_os env) Demo.web (iface s)).1). split; [vm_compute; set_solver|].
  intros (index & _ & Hpin).
  specialize (Hpin (take 2 (dial_tcp (te_os env) Demo.web (iface s)).1) Demo.web [] eq_refl).
  revert Hpin. vm_compute. set_solver.
Qed.

Lemma quic_dropped_unconditionally_witness :
  let s := Demo.shared [] [] in
  ∃ reported, handle_udp udp_demo Demo.unknown Demo.web s
    = (Ready tt, with_stats add_quic_dropped s, reported ++ [EvDrop])
  ∧ Forall (λ ev, ∃ info, ev = EvReport info ∧ ci_action info = Block) reported.
Proof. intros s. by apply quic_dropped_unconditionally. Defined.

Lemma proxied_flow_fails_closed_witness :
  let s := Demo.shared [Demo.proxy_rule] [socks5 (u "p") 1080] in
  let '(r, shared', evs) := handle_tcp Demo.tcp0 Demo.browser Demo.web s in
  r = Ready tt ∧ last evs = Some EvShutdown ∧ (EvCopyProxy ∉ evs)
  ∧ stats shared' = add_blocked (add_proxy_fallbacks (stats s)).
Proof.
  intros s.
  assert (decide s (flow_facts s (te_now Demo.tcp0) Demo.browser Demo.web false) = Done (DProxy 0)) as Hd
    by (vm_compute; exact eq_refl).
  pose proof (proxied_flow_fails_closed Demo.tcp0 Demo.browser Demo.web s 0 Hd) as H.
  destruct (handle_tcp Demo.tcp0 Demo.browser Demo.web s) as [[r s'] evs]. apply H.
  intros cfg _. by eexists.
Defined.

Lemma decide_total_ascii_witness :
  ∃ d, decide (Demo.shared [Demo.proxy_rule] [])
         (flow_facts (Demo.shared [Demo.proxy_rule] []) 0 Demo.browser Demo.web false) = Done d.
Proof.
  apply decide_total_ascii. intros pid n. simpl. destruct (pid =? 9); [|done].
  intros [= <-]. concrete.
Defined.

Lemma udp_relay_faithful_witness :
  let script := [ClientData 5 [1; 2] (AnsErr (IoError Other "no buffer space"));
                 ServerData 7 [3] 5 AnsOk; ClientData 0 [4] AnsOk; ClientData (31 * 10 ^ 9) [5] AnsOk] in
  let s := Demo.shared [] [] in
  ∃ shared', relay_loop false script s = (Ready tt, shared', [EvSendFailed [1; 2]; EvDeliver [3]; EvSend [4]])
    ∧ stats shared' = add_udp_send_errors (stats s)
    ∧ (false = false → dns_cache shared' = dns_cache s).
Proof. intros script s. apply (udp_relay_faithful false script s); [concrete|done]. Defined.

(** The resolver's flow carries a query, and the compressed response to it. *)
Definition dns_demo : udp_env :=
  MkUdpEnv 0 Demo.os [ClientData 0 [7; 7] AnsOk; ServerData 20 compressed_response 5 AnsOk; ClientClosed 0].


Lemma no_domain_rules_no_names_witness :
  let s := Demo.shared [Demo.proxy_rule] [socks5 (u "p") 1080] in
  target_for (socks5 (u "p") 1080) (ff_domain (flow_facts s 0 Demo.browser Demo.web false)) Demo.web
    = Ip (sa_ip Demo.web) (sa_port Demo.web).
Proof. intros s. apply no_domain_rules_no_names. vm_compute. exact eq_refl. Defined.

Lemma accept_loop_correct_witness :
  let s := Demo.shared [] [] in
  let script := [AcceptTcp Demo.browser Demo.web; AcceptUnknownTransport 1; AcceptUdp Demo.own Demo.resolver] in
  ∃ shared' evs, run (script ++ ShutdownChanged :: [AcceptTcp Demo.own Demo.web]) s
      = (true, omap task_of script, shared', evs)
    ∧ tcp_flows (stats shared') = (0 + zlen (List.filter is_tcp script)) mod U64
    ∧ udp_flows (stats shared') = (0 + zlen (List.filter is_udp_flow script)) mod U64
    ∧ dns_cache shared' = dns_cache s
    ∧ (has_log_cb s = true → last evs = Some (EvLog LogLoopStopped)).
Proof.
  intros s script. apply (accept_loop_correct script ShutdownChanged [AcceptTcp Demo.own Demo.web] s);
    [by repeat constructor|done|vm_compute; split; congruence..].
Defined.

(** ** Observations *)

(** Under the policy [Allow], a UDP flow to the QUIC port that a rule blocks is
    recorded as a QUIC drop, not as blocked. *)
Example rule_block_on_quic_port_miscounted :
  let s0 := Demo.shared [with_action (rule_new (u "*")) Block] [] in
  let s := MkShared (rules_of s0) [] cache_default false 443 QuicAllow 7 None stats_default true true true in
  stats (handle_udp (MkUdpEnv 0 Demo.os []) Demo.browser Demo.web s).1.2 = add_quic_dropped stats_default.
Proof. vm_compute. reflexivity. Qed.

(** A group-addressed TCP flow is counted as blocked. *)
Example tcp_group_counted_blocked :
  stats (handle_tcp Demo.tcp0 Demo.browser (SockAddr (V4 (ipv4 224 0 0 1)) 80) (Demo.shared [] [])).1.2
  = add_blocked stats_default.
Proof. vm_compute. reflexivity. Qed.

(** The description of a proxied connection prints the type as [{:?}] does. *)
Example report_proxy_info :
  ci_proxy_info (report_info (Demo.shared [] [http (u "127.0.0.1") 8080])
    (MkFacts Demo.web false None [] None) (DProxy 0)) = u "Proxy Http://127.0.0.1:8080".
Proof. vm_compute. reflexivity. Qed.
