(* ===== verification/Tasks.v ===== *)
(** * The tasks of the netstack, interleaved ([netstack.rs])

    [run] spawns one task per flow, and the tasks of a session run at the same
    time over one [Shared]: its counters are atomics, its DNS cache is behind a
    lock.  Here a handler is a program: a tree of reads of [Shared], accesses that
    change it, and effects, in the order of the code.  The system interleaves the
    accept loop and any number of such programs, one node at a time, each read and
    each access on the state as it is at that moment, as a schedule says.  The
    theorems are about every schedule.

    A program may read anything at any time; that the handlers' results do not
    depend on when they read is a fact about them ([settled]): after the look-up of
    the destination's name they read only what never changes during a session.  The
    process table is a part of the environment, and each flow has its own: who
    owns an endpoint changes during a session.  [Lookups] says where its answers
    come from. *)

From S2P Require Export Netstack.
Local Open Scope Z_scope.

(** ** Accesses *)

(** The counters of [Stats]. *)
Inductive counter : Type :=
  | CTcpFlows | CUdpFlows | CBlocked | CQuicDropped | CProxyFallbacks | CGroupDropped | CUdpSendErrors.
#[export] Instance counter_eq_dec : EqDecision counter.
Proof. solve_decision. Defined.

(** [stats.<counter>.fetch_add(1, Ordering::Relaxed)] and [.load(..)]. *)
Definition bump (c : counter) : Stats → Stats :=
  match c with
  | CTcpFlows => add_tcp_flows | CUdpFlows => add_udp_flows | CBlocked => add_blocked
  | CQuicDropped => add_quic_dropped | CProxyFallbacks => add_proxy_fallbacks
  | CGroupDropped => add_group_dropped | CUdpSendErrors => add_udp_send_errors
  end.
Definition read_counter (c : counter) : Stats → Z :=
  match c with
  | CTcpFlows => tcp_flows | CUdpFlows => udp_flows | CBlocked => blocked
  | CQuicDropped => quic_dropped | CProxyFallbacks => proxy_fallbacks
  | CGroupDropped => group_dropped | CUdpSendErrors => udp_send_errors
  end.

(** One atomic access to [Shared], or one effect.  [Purge] is the caller's, who
    holds the cache through [TunRedirect::dns_cache]. *)
Inductive access : Type :=
  | Count (c : counter)
  | InsertName (ip : IpAddr) (e : Entry)
  | Purge (now : Z)
  | Emit (ev : event).

Definition emitted (a : access) : list event := match a with Emit ev => [ev] | _ => [] end.
Definition trace_of (l : list access) : list event := concat (map emitted l).

Section Tasks.
Context `{RegexEngine} `{Base64}.

Definition perform (a : access) (s : Shared) : Shared :=
  match a with
  | Count c => with_stats (bump c) s
  | InsertName ip e => with_cache (insert_entry (dns_cache s) ip e) s
  | Purge now => with_cache (purge_expired (dns_cache s) now) s
  | Emit _ => s
  end.
Definition perform_all (l : list access) (s : Shared) : Shared := foldl (λ s a, perform a s) s l.

(** ** The handlers as programs *)

Inductive prog : Type :=
  | PEnd (r : io_out unit)
  | PRead (k : Shared → prog)
  | PAct (a : access) (k : prog).

Fixpoint p_then (p : prog) (k : io_out unit → prog) : prog :=
  match p with
  | PEnd r => k r
  | PRead f => PRead (λ s, p_then (f s) k)
  | PAct a p' => PAct a (p_then p' k)
  end.
Fixpoint emits (l : list event) (k : prog) : prog :=
  match l with [] => k | ev :: l' => PAct (Emit ev) (emits l' k) end.

Definition log_prog (m : log_msg) (k : prog) : prog := PRead (λ s, emits (log s m) k).
Definition report_prog (facts : FlowFacts) (d : Decision) (k : prog) : prog :=
  PRead (λ s, emits (report s facts d) k).

(** The proxy cannot be used. *)
Definition fail_closed_prog (m : log_msg) : prog :=
  PAct (Count CProxyFallbacks) (PAct (Count CBlocked) (log_prog m (emits fail_closed (PEnd (Ready tt))))).

(** [handle_tcp]: the look-up of the name, then everything after it. *)
Definition tcp_decided (env : tcp_env) (facts : FlowFacts) : prog :=
  let dest := ff_dest facts in
  PRead (λ s, match decide s facts with
  | Panic => PEnd Crash
  | Done decision =>
    report_prog facts decision
    match decision with
    | DBlock => PAct (Count CBlocked) (PAct (Emit EvDrop) (PEnd (Ready tt)))
    | DDirect =>
      PRead (λ s,
      let '(ops, r) := dial_tcp (te_os env) dest (iface s) in
      PAct (Emit (EvDialTcp ops))
      match r with
      | Ready _ => PAct (Emit EvCopyDirect) (PEnd (te_copy env))
      | r => PEnd r
      end)
    | DProxy config_id =>
      PRead (λ s,
      match find_proxy_config s config_id with
      | None => fail_closed_prog (LogProxyMissing config_id dest)
      | Some cfg =>
        let target := target_for cfg (ff_domain facts) dest in
        PAct (Emit (EvProxy cfg target))
        match connect_via_proxy (te_proxy env) cfg target with
        | Ready _ => PAct (Emit EvCopyProxy) (PEnd (te_copy env))
        | Failed e => fail_closed_prog (LogProxyUnavailable dest e)
        | Hang => PEnd Hang
        | Crash => PEnd Crash
        | OutOfFuel => PEnd OutOfFuel
        end
      end)
    end
  end).
Definition tcp_prog `{ProcessTable} (env : tcp_env) (src dest : SocketAddr) : prog :=
  let '(pid, name) := attribute src dest false in
  PRead (λ s, tcp_decided env (MkFacts dest false pid name (domain_for s (te_now env) (sa_ip dest)))).

(** [snoop_response]: each answer is stored under its own acquisition of the
    cache's lock, the expiry time computed before it. *)
Definition store_prog (now : Z) (ip : IpAddr) (name : str) (k : prog) : prog :=
  if is_empty name then k
  else PRead (λ s, match instant_add now (ttl (dns_cache s)) with
                   | Panic => PEnd Crash
                   | Done e => PAct (InsertName ip (MkEntry name e)) k
                   end).
Fixpoint store_all_prog (now : Z) (l : list (IpAddr * str)) (k : prog) : prog :=
  match l with [] => k | (ip, name) :: l' => store_prog now ip name (store_all_prog now l' k) end.

Fixpoint relay_prog (is_dns : bool) (script : list udp_event) : prog :=
  match select script, script with
  | Some e, _ :: script' =>
    let next := relay_prog is_dns script' in
    match e with
    | ClientData _ [] _ | ClientClosed _ | ServerError _ _ => PEnd (Ready tt)
    | ClientData _ bs sent =>
      let bs := take (Z.to_nat UDP_BUFFER) bs in
      match sent with
      | AnsOk => PAct (Emit (EvSend bs)) next
      | AnsErr _ => PAct (Emit (EvSendFailed bs)) (PAct (Count CUdpSendErrors) next)
      | AnsNever => PEnd Hang
      end
    | ServerData _ bs now written =>
      let bs := take (Z.to_nat UDP_BUFFER) bs in
      let deliver :=
        match written with
        | AnsOk => PAct (Emit (EvDeliver bs)) next
        | AnsErr _ => PAct (Emit (EvDeliverFailed bs)) (PEnd (Ready tt))
        | AnsNever => PEnd Hang
        end in
      if is_dns then
        match parse_dns_answers bs with
        | Panic => PEnd Crash
        | Done l => store_all_prog now l deliver
        end
      else deliver
    end
  | _, _ => PEnd (Ready tt)
  end.

Definition udp_block_counter (conf : Shared) (dest : SocketAddr) : counter :=
  if sa_port dest =? quic_port conf then CQuicDropped
  else if is_group_address (sa_ip dest) then CGroupDropped
  else CBlocked.

Definition udp_decided (env : udp_env) (facts : FlowFacts) : prog :=
  let dest := ff_dest facts in
  PRead (λ s, match decide s facts with
  | Panic => PEnd Crash
  | Done decision =>
    report_prog facts decision
    match decision with
    | DBlock => PRead (λ s, PAct (Count (udp_block_counter s dest)) (PAct (Emit EvDrop) (PEnd (Ready tt))))
    | DDirect | DProxy _ =>
      PRead (λ s,
      let '(ops, r) := dial_udp (ue_os env) dest (iface s) in
      PAct (Emit (EvDialUdp ops))
      match r with
      | Ready _ => relay_prog (sa_port dest =? 53) (ue_script env)
      | r => PEnd r
      end)
    end
  end).
Definition udp_prog `{ProcessTable} (env : udp_env) (src dest : SocketAddr) : prog :=
  let '(pid, name) := attribute src dest true in
  PRead (λ s, udp_decided env (MkFacts dest true pid name (domain_for s (ue_now env) (sa_ip dest)))).

(** A flow with the answers its handler will get.  [table] is the process table
    as the handler finds it: who owns an endpoint changes during a session. *)
Inductive flow : Type :=
  | FTcp (table : ProcessTable) (env : tcp_env) (src dest : SocketAddr)
  | FUdp (table : ProcessTable) (env : udp_env) (src dest : SocketAddr).

Definition flow_table (f : flow) : ProcessTable :=
  match f with FTcp table _ _ _ | FUdp table _ _ _ => table end.
Definition flow_is_udp (f : flow) : bool := match f with FTcp _ _ _ _ => false | FUdp _ _ _ _ => true end.
Definition flow_src (f : flow) : SocketAddr :=
  match f with FTcp _ _ src _ | FUdp _ _ src _ => src end.

Definition flow_dest (f : flow) : SocketAddr :=
  match f with FTcp _ _ _ dest | FUdp _ _ _ dest => dest end.
Definition flow_now (f : flow) : Z := match f with FTcp _ env _ _ => te_now env | FUdp _ env _ _ => ue_now env end.
Definition flow_task (f : flow) : task :=
  match f with FTcp _ _ src dest => TaskTcp src dest | FUdp _ _ src dest => TaskUdp src dest end.
Definition flow_event (f : flow) : accept_event :=
  match f with FTcp _ _ src dest => AcceptTcp src dest | FUdp _ _ src dest => AcceptUdp src dest end.
Definition flow_counter (f : flow) : counter := match f with FTcp _ _ _ _ => CTcpFlows | FUdp _ _ _ _ => CUdpFlows end.
Definition flow_ended (f : flow) (e : io_error) : log_msg :=
  match f with FTcp _ _ _ _ => LogTcpEnded e | FUdp _ _ _ _ => LogUdpEnded e end.
Definition flow_owner (f : flow) : option Z :=
  @resolve_pid (flow_table f) (flow_src f) (flow_dest f) (flow_is_udp f).

(** The spawned block: the handler, and the log of its error. *)
Definition task_end (f : flow) (r : io_out unit) : prog :=
  match r with
  | Failed e => log_prog (flow_ended f e) (PEnd (Ready tt))
  | r => PEnd r
  end.
Definition task_prog (f : flow) : prog :=
  p_then match f with
         | FTcp table env src dest => tcp_prog env src dest
         | FUdp table env src dest => udp_prog env src dest
         end (task_end f).

(** The task run alone. *)
Definition run_flow (f : flow) (s : Shared) : io_out unit * Shared * list event :=
  match f with
  | FTcp table env src dest => task_tcp env src dest s
  | FUdp table env src dest => task_udp env src dest s
  end.

(** ** The system *)

(** A spawned task: what it has done, and the program it has still to run. *)
Record thread : Type := MkThread {
  th_flow : flow;
  th_done : list access;
  th_prog : prog
}.

(** The state of a session's netstack.  [sy_history] is the sequence of all
    accesses so far with who made them, [None] for the accept loop and for the
    program that embeds the engine. *)
Record system : Type := MkSystem {
  sy_shared : Shared;
  sy_threads : list thread;
  sy_accepting : bool;
  sy_history : list (option nat * access)
}.

Definition sys_start (s : Shared) : system := MkSystem s [] true [].

Inductive sched : Type :=
  | SAccept (f : flow)
  | SUnknown
  | SEnd (e : option io_error)
  | SPurge (now : Z)
  | SRun (i : nat).

Definition record (who : option nat) (l : list access) (y : system) : system :=
  MkSystem (perform_all l (sy_shared y)) (sy_threads y) (sy_accepting y)
    (sy_history y ++ map (pair who) l).
Definition set_thread (i : nat) (th : thread) (y : system) : system :=
  MkSystem (sy_shared y) (<[i := th]> (sy_threads y)) (sy_accepting y) (sy_history y).

(** What the loop logs when it ends. *)
Definition loop_end_log (s : Shared) (e : option io_error) : list event :=
  match e with Some e => log s (LogAcceptEnded e) | None => [] end ++ log s LogLoopStopped.

(** One move: the accept loop takes a flow, a packet it does not handle, the
    shutdown signal or an error; the embedding program purges the cache; the
    task [i] runs the next node of its program, on the state as it is now. *)
Definition sys_step (l : sched) (y : system) : option system :=
  match l with
  | SAccept f =>
    if sy_accepting y then
      let y := record None [Count (flow_counter f)] y in
      Some (MkSystem (sy_shared y) (sy_threads y ++ [MkThread f [] (task_prog f)]) true (sy_history y))
    else None
  | SUnknown => if sy_accepting y then Some y else None
  | SEnd e =>
    if sy_accepting y then
      let y := record None (map Emit (loop_end_log (sy_shared y) e)) y in
      Some (MkSystem (sy_shared y) (sy_threads y) false (sy_history y))
    else None
  | SPurge now => Some (record None [Purge now] y)
  | SRun i =>
    th ← sy_threads y !! i;
    match th_prog th with
    | PEnd _ => None
    | PRead k => Some (set_thread i (MkThread (th_flow th) (th_done th) (k (sy_shared y))) y)
    | PAct a k => Some (set_thread i (MkThread (th_flow th) (th_done th ++ [a]) k) (record (Some i) [a] y))
    end
  end.

Fixpoint sys_run (ls : list sched) (y : system) : option system :=
  match ls with [] => Some y | l :: ls' => y' ← sys_step l y; sys_run ls' y' end.

(** What the task [i] did, in the order it did it. *)
Definition own (i : nat) (h : list (option nat * access)) : list access :=
  omap (λ '(who, a), if bool_decide (who = Some i) then Some a else None) h.

Definition finished_task (th : thread) : bool :=
  match th_prog th with PEnd _ => true | _ => false end.

(** *** What a handler does, in one list

    The accesses of a handler and its result, when the configuration is [conf] and
    the look-up found [domain].  [exec_task] shows that they are what its program
    does. *)

Definition tcp_accesses `{ProcessTable} (conf : Shared) (env : tcp_env) (src dest : SocketAddr)
    (domain : option str) : list access * io_out unit :=
  let '(pid, name) := attribute src dest false in
  let facts := MkFacts dest false pid name domain in
  match decide conf facts with
  | Panic => ([], Crash)
  | Done decision =>
    let '(rest, r) :=
      match decision with
      | DBlock => ([Count CBlocked; Emit EvDrop], Ready tt)
      | DDirect =>
        let '(ops, r) := dial_tcp (te_os env) dest (iface conf) in
        match r with
        | Ready _ => ([Emit (EvDialTcp ops); Emit EvCopyDirect], te_copy env)
        | r => ([Emit (EvDialTcp ops)], r)
        end
      | DProxy config_id =>
        match find_proxy_config conf config_id with
        | None =>
          ([Count CProxyFallbacks; Count CBlocked]
             ++ map Emit (log conf (LogProxyMissing config_id dest) ++ fail_closed), Ready tt)
        | Some cfg =>
          let target := target_for cfg domain dest in
          match connect_via_proxy (te_proxy env) cfg target with
          | Ready _ => ([Emit (EvProxy cfg target); Emit EvCopyProxy], te_copy env)
          | Failed e =>
            (Emit (EvProxy cfg target) :: [Count CProxyFallbacks; Count CBlocked]
               ++ map Emit (log conf (LogProxyUnavailable dest e) ++ fail_closed), Ready tt)
          | Hang => ([Emit (EvProxy cfg target)], Hang)
          | Crash => ([Emit (EvProxy cfg target)], Crash)
          | OutOfFuel => ([Emit (EvProxy cfg target)], OutOfFuel)
          end
        end
      end in
    (map Emit (report conf facts decision) ++ rest, r)
  end.

Fixpoint insert_accesses (ttl now : Z) (l : list (IpAddr * str)) : list access * outcome unit :=
  match l with
  | [] => ([], Done tt)
  | (ip, name) :: l' =>
    if is_empty name then insert_accesses ttl now l'
    else match instant_add now ttl with
    | Panic => ([], Panic)
    | Done e => let '(a, o) := insert_accesses ttl now l' in (InsertName ip (MkEntry name e) :: a, o)
    end
  end.

Definition relay_accesses (ttl : Z) (is_dns : bool) (e : udp_event) : list access * io_out bool :=
  match e with
  | ClientData _ [] _ | ClientClosed _ | ServerError _ _ => ([], Ready false)
  | ClientData _ bs sent =>
    let bs := take (Z.to_nat UDP_BUFFER) bs in
    match sent with
    | AnsOk => ([Emit (EvSend bs)], Ready true)
    | AnsErr _ => ([Emit (EvSendFailed bs); Count CUdpSendErrors], Ready true)
    | AnsNever => ([], Hang)
    end
  | ServerData _ bs now written =>
    let bs := take (Z.to_nat UDP_BUFFER) bs in
    let '(stores, snooped) :=
      if is_dns then match parse_dns_answers bs with Panic => ([], Panic) | Done l => insert_accesses ttl now l end
      else ([], Done tt) in
    match snooped, written with
    | Panic, _ => (stores, Crash)
    | Done _, AnsOk => (stores ++ [Emit (EvDeliver bs)], Ready true)
    | Done _, AnsErr _ => (stores ++ [Emit (EvDeliverFailed bs)], Ready false)
    | Done _, AnsNever => (stores, Hang)
    end
  end.

Fixpoint relay_loop_accesses (ttl : Z) (is_dns : bool) (script : list udp_event) : list access * io_out unit :=
  match select script, script with
  | Some e, _ :: script' =>
    let '(l, r) := relay_accesses ttl is_dns e in
    match r with
    | Ready true => let '(l', r) := relay_loop_accesses ttl is_dns script' in (l ++ l', r)
    | Ready false => (l, Ready tt)
    | Failed e => (l, Failed e)
    | Hang => (l, Hang)
    | Crash => (l, Crash)
    | OutOfFuel => (l, OutOfFuel)
    end
  | _, _ => ([], Ready tt)
  end.

Definition udp_accesses `{ProcessTable} (conf : Shared) (env : udp_env) (src dest : SocketAddr)
    (domain : option str) : list access * io_out unit :=
  let '(pid, name) := attribute src dest true in
  let facts := MkFacts dest true pid name domain in
  match decide conf facts with
  | Panic => ([], Crash)
  | Done decision =>
    let '(rest, r) :=
      match decision with
      | DBlock => ([Count (udp_block_counter conf dest); Emit EvDrop], Ready tt)
      | DDirect | DProxy _ =>
        let '(ops, r) := dial_udp (ue_os env) dest (iface conf) in
        match r with
        | Ready _ =>
          let '(l, r) := relay_loop_accesses (ttl (dns_cache conf)) (sa_port dest =? 53) (ue_script env) in
          (Emit (EvDialUdp ops) :: l, r)
        | r => ([Emit (EvDialUdp ops)], r)
        end
      end in
    (map Emit (report conf facts decision) ++ rest, r)
  end.

Definition task_accesses (conf : Shared) (f : flow) (domain : option str) : list access * io_out unit :=
  let '(l, r) :=
    match f with
    | FTcp table env src dest => tcp_accesses conf env src dest domain
    | FUdp table env src dest => udp_accesses conf env src dest domain
    end in
  match r with
  | Failed e => (l ++ map Emit (log conf (flow_ended f e)), Ready tt)
  | r => (l, r)
  end.


(** ** What a task cannot change *)

(** The configuration: all of [Shared] but its counters, the entries of its cache
    and its running flag. *)
Definition config_of (s : Shared) : Shared :=
  with_stats (λ _, stats_default) (with_cache (cache_new (ttl (dns_cache s))) (with_running false s)).
Record same_config (s s' : Shared) : Prop := { sc_config : config_of s = config_of s' }.

#[export] Instance same_config_equiv : Equivalence same_config.
Proof. split; [by intros s|by intros s s' []|intros s1 s2 s3 [] []; split; congruence]. Qed.

#[export] Instance decide_proper : Proper (same_config ==> eq ==> eq) decide.
Proof.
  intros s s' [Hs] facts _ <-. change (decide (config_of s) facts = decide (config_of s') facts).
  by rewrite Hs.
Qed.
#[export] Instance report_proper : Proper (same_config ==> eq ==> eq ==> eq) report.
Proof.
  intros s s' [Hs] facts _ <- d _ <-.
  change (report (config_of s) facts d = report (config_of s') facts d). by rewrite Hs.
Qed.
#[export] Instance log_proper : Proper (same_config ==> eq ==> eq) log.
Proof. intros s s' [Hs] m _ <-. change (log (config_of s) m = log (config_of s') m). by rewrite Hs. Qed.
#[export] Instance iface_proper : Proper (same_config ==> eq) iface.
Proof. intros s s' [Hs]. change (iface (config_of s) = iface (config_of s')). by rewrite Hs. Qed.
#[export] Instance task_accesses_proper : Proper (same_config ==> eq ==> eq ==> eq) task_accesses.
Proof.
  intros s s' [Hs] f _ <- d _ <-.
  change (task_accesses (config_of s) f d = task_accesses (config_of s') f d). by rewrite Hs.
Qed.
#[export] Instance escapes_proper : Proper (same_config ==> eq ==> eq ==> iff) escapes.
Proof.
  intros s s' [Hs] dest _ <- ev _ <-.
  change (escapes (config_of s) dest ev ↔ escapes (config_of s') dest ev). by rewrite Hs.
Qed.

Lemma perform_config a s : same_config (perform a s) s.
Proof.
  split. destruct a as [c|ip e|now|ev]; try done; cbn [perform].
  - unfold insert_entry. by destruct (poisoned (dns_cache s)).
  - unfold purge_expired. by destruct (poisoned (dns_cache s)).
Qed.

Lemma perform_all_config l s : same_config (perform_all l s) s.
Proof. revert s. induction l as [|a l IH]; intros s; [done|]. simpl. by rewrite IH, perform_config. Qed.

Lemma perform_all_app l l' s : perform_all (l ++ l') s = perform_all l' (perform_all l s).
Proof. apply foldl_app. Qed.

Lemma perform_emits l s : perform_all (map Emit l) s = s.
Proof. revert s. induction l as [|ev l IH]; intros s; simpl; [done|apply IH]. Qed.

Lemma perform_all_cons a l s : perform_all (a :: l) s = perform_all l (perform a s).
Proof. done. Qed.

Lemma trace_cons a l : trace_of (a :: l) = emitted a ++ trace_of l.
Proof. done. Qed.

Lemma trace_app l l' : trace_of (l ++ l') = trace_of l ++ trace_of l'.
Proof. unfold trace_of. by rewrite map_app, concat_app. Qed.

Lemma trace_emits l : trace_of (map Emit l) = l.
Proof. induction l as [|ev l IH]; [done|]. unfold trace_of in *. simpl. by rewrite IH. Qed.

Lemma perform_all_ttl l s : ttl (dns_cache (perform_all l s)) = ttl (dns_cache s).
Proof.
  change (ttl (dns_cache (config_of (perform_all l s))) = ttl (dns_cache (config_of s))).
  by rewrite (sc_config _ _ (perform_all_config l s)).
Qed.

(** ** Programs that read only the configuration *)

(** The accesses of a program run alone from a state, and its result. *)
Fixpoint exec (p : prog) (s : Shared) : list access * io_out unit :=
  match p with
  | PEnd r => ([], r)
  | PRead k => exec (k s) s
  | PAct a p' => let '(l, r) := exec p' (perform a s) in (a :: l, r)
  end.

Lemma exec_then p k s :
  exec (p_then p k) s
  = let '(l, r) := exec p s in let '(l', r') := exec (k r) (perform_all l s) in (l ++ l', r').
Proof.
  revert s. induction p as [r|f IH|a p IH]; intros s; cbn [p_then exec].
  - cbn [perform_all foldl]. by destruct (exec (k r) s).
  - apply IH.
  - rewrite IH. destruct (exec p (perform a s)) as [l r]. rewrite perform_all_cons.
    by destruct (exec (k r) _).
Qed.

Lemma exec_emits evs p s : exec (emits evs p) s = let '(l, r) := exec p s in (map Emit evs ++ l, r).
Proof.
  induction evs as [|ev evs IH]; cbn [emits exec map app]; [by destruct (exec p s)|].
  cbn [perform]. rewrite IH. by destruct (exec p s).
Qed.

(** Every read of the program is of the configuration. *)
Inductive settled : prog → Prop :=
  | settled_end r : settled (PEnd r)
  | settled_read k : (∀ s, k s = k (config_of s)) → (∀ s, settled (k s)) → settled (PRead k)
  | settled_act a p : settled p → settled (PAct a p).

(** Such a program does the same whenever it runs. *)
Lemma settled_exec p s s' : settled p → same_config s s' → exec p s = exec p s'.
Proof.
  intros Hp. revert s s'. induction Hp as [r|k Hk _ IH|a p _ IH]; intros s s' Hs; cbn [exec]; [done| |].
  - rewrite (Hk s), (sc_config _ _ Hs), <-(Hk s'). by apply IH.
  - rewrite (IH (perform a s) (perform a s')); [done|]. by rewrite !perform_config.
Qed.

Lemma settled_then p k : settled p → (∀ r, settled (k r)) → settled (p_then p k).
Proof.
  intros Hp Hk. induction Hp as [r|f Hf _ IH|a p _ IH]; cbn [p_then]; [apply Hk| |by constructor].
  constructor; [intros s; by rewrite (Hf s)|exact IH].
Qed.

Lemma settled_emits evs p : settled p → settled (emits evs p).
Proof. intros Hp. induction evs as [|ev evs IH]; [done|by constructor]. Qed.

(** Reads of the configuration are recognised by evaluation. *)
Ltac settle := repeat first
  [ apply settled_end | apply settled_act | apply settled_emits
  | apply settled_read; [intros ?; reflexivity|intros ?] ].

Lemma settled_tcp env facts : settled (tcp_decided env facts).
Proof.
  unfold tcp_decided. settle. destruct (decide _ facts) as [[|id|]|]; settle.
  - destruct (dial_tcp _ _ _) as [ops []]; settle.
  - destruct (find_proxy_config _ id) as [cfg|]; settle. destruct (connect_via_proxy _ _ _); settle.
Qed.

Lemma settled_store_all now l p : settled p → settled (store_all_prog now l p).
Proof.
  intros Hp. induction l as [|[ip name] l IH]; [done|]. cbn [store_all_prog]. unfold store_prog.
  destruct (is_empty name); [done|]. settle. destruct (instant_add _ _); by settle.
Qed.

Lemma settled_relay is_dns script : settled (relay_prog is_dns script).
Proof.
  induction script as [|e script IH]; [settle|]. unfold relay_prog; fold relay_prog.
  destruct (select (e :: script)) as [[w [|b bs] []|w|w bs now written|w er]|]; try by settle.
  destruct is_dns; [destruct (parse_dns_answers _); [apply settled_store_all|settle]|]; by destruct written; settle.
Qed.

Lemma settled_udp env facts : settled (udp_decided env facts).
Proof.
  unfold udp_decided. settle. destruct (decide _ facts) as [[|id|]|]; settle.
  all: destruct (dial_udp _ _ _) as [ops []]; settle; apply settled_relay.
Qed.

Lemma settled_task_end f r : settled (task_end f r).
Proof. destruct r; cbn [task_end]; by settle. Qed.

(** What a task does once it has found [domain]. *)
Definition task_after (f : flow) (domain : option str) : prog :=
  let facts := λ (pid : option Z) (name : str), MkFacts (flow_dest f) (flow_is_udp f) pid name domain in
  p_then match f with
         | FTcp table env src dest => let '(pid, name) := attribute src dest false in tcp_decided env (facts pid name)
         | FUdp table env src dest => let '(pid, name) := attribute src dest true in udp_decided env (facts pid name)
         end (task_end f).

(** A task starts with its one read of what can change, and is settled after it. *)
Lemma task_prog_lookup f :
  task_prog f = PRead (λ s, task_after f (domain_for s (flow_now f) (sa_ip (flow_dest f)))).
Proof.
  destruct f as [table env src dest|table env src dest]; unfold task_prog, task_after, tcp_prog, udp_prog;
    cbn [flow_now flow_dest flow_is_udp]; by destruct (attribute src dest _).
Qed.

Lemma settled_task f d : settled (task_after f d).
Proof.
  apply settled_then; [|apply settled_task_end].
  destruct f as [table env src dest|table env src dest]; destruct (attribute src dest _);
    [apply settled_tcp|apply settled_udp].
Qed.

(** *** What they do *)

Lemma exec_report facts d p s :
  exec (report_prog facts d p) s = let '(l, r) := exec p s in (map Emit (report s facts d) ++ l, r).
Proof. apply exec_emits. Qed.

Lemma exec_fail_closed m s :
  exec (fail_closed_prog m) s
  = ([Count CProxyFallbacks; Count CBlocked] ++ map Emit (log s m ++ fail_closed), Ready tt).
Proof.
  unfold fail_closed_prog, log_prog. cbn [exec]. rewrite exec_emits. cbn [exec fail_closed emits].
  by rewrite map_app.
Qed.

Lemma exec_store_all now l p s :
  exec (store_all_prog now l p) s
  = let '(a, o) := insert_accesses (ttl (dns_cache s)) now l in
    match o with
    | Panic => (a, Crash)
    | Done _ => let '(b, r) := exec p (perform_all a s) in (a ++ b, r)
    end.
Proof.
  revert s. induction l as [|[ip name] l IH]; intros s; cbn [store_all_prog insert_accesses].
  { cbn [perform_all foldl]. by destruct (exec p s). }
  unfold store_prog. destruct (is_empty name); [apply IH|]. cbn [exec].
  destruct (instant_add now (ttl (dns_cache s))) as [e|]; [|done]. cbn [exec]. rewrite IH.
  change (ttl (dns_cache (perform ?a s))) with (ttl (dns_cache (perform_all [a] s))). rewrite perform_all_ttl.
  destruct (insert_accesses (ttl (dns_cache s)) now l) as [a [[]|]]; [|done]. rewrite perform_all_cons.
  by destruct (exec p _).
Qed.

Lemma exec_relay is_dns script s :
  exec (relay_prog is_dns script) s = relay_loop_accesses (ttl (dns_cache s)) is_dns script.
Proof.
  revert s. induction script as [|e script IH]; intros s; [done|].
  assert (∀ l, exec (relay_prog is_dns script) (perform_all l s)
    = relay_loop_accesses (ttl (dns_cache s)) is_dns script) as IH' by (intros l; by rewrite IH, perform_all_ttl).
  unfold relay_prog, relay_loop_accesses; fold relay_prog relay_loop_accesses.
  destruct (select (e :: script)) as [[w [|b bs] [|er|]|w|w bs now written|w er]|]; try done;
    cbn [relay_accesses exec].
  - specialize (IH' [Emit (EvSend (take (Z.to_nat UDP_BUFFER) (b :: bs)))]). cbn [perform_all foldl] in IH'.
    by rewrite IH'; destruct (relay_loop_accesses _ _ script).
  - specialize (IH' [Emit (EvSendFailed (take (Z.to_nat UDP_BUFFER) (b :: bs))); Count CUdpSendErrors]).
    cbn [perform_all foldl] in IH'. by rewrite IH'; destruct (relay_loop_accesses _ _ script).
  - set (d := take (Z.to_nat UDP_BUFFER) bs).
    assert (∀ a, exec match written with
        | AnsOk => PAct (Emit (EvDeliver d)) (relay_prog is_dns script)
        | AnsErr _ => PAct (Emit (EvDeliverFailed d)) (PEnd (Ready tt))
        | AnsNever => PEnd Hang end (perform_all a s)
      = match written with
        | AnsOk => let '(l, r) := relay_loop_accesses (ttl (dns_cache s)) is_dns script in
                   (Emit (EvDeliver d) :: l, r)
        | AnsErr _ => ([Emit (EvDeliverFailed d)], Ready tt)
        | AnsNever => ([], Hang) end) as Hw.
    { intros a. destruct written; try done. specialize (IH' (a ++ [Emit (EvDeliver d)])).
      rewrite perform_all_app in IH'. cbn [perform_all foldl] in IH'. cbn [exec]. by rewrite IH'. }
    destruct is_dns.
    + destruct (parse_dns_answers d) as [l|]; [|done]. rewrite exec_store_all.
      destruct (insert_accesses _ now l) as [a [[]|]]; [|by destruct written]. rewrite Hw.
      destruct written; rewrite ?app_nil_r; [|done..].
      destruct (relay_loop_accesses _ true script). by rewrite <-app_assoc.
    + specialize (Hw []). cbn [perform_all foldl] in Hw. rewrite Hw. destruct written; try done.
Qed.

(** The program of a task, from the look-up on, does what [task_accesses] says. *)
Lemma exec_task f d s : exec (task_after f d) s = task_accesses s f d.
Proof.
  unfold task_after, task_accesses. rewrite exec_then.
  assert (∀ a (r : io_out unit), (let '(l', r') := exec (task_end f r) (perform_all a s) in (a ++ l', r'))
    = match r with Failed e => (a ++ map Emit (log s (flow_ended f e)), Ready tt) | r => (a, r) end) as Hend.
  { intros a r. destruct r; cbn [task_end exec]; rewrite ?app_nil_r; try done.
    unfold log_prog. cbn [exec]. rewrite exec_emits. cbn [exec]. rewrite app_nil_r.
    by rewrite (log_proper _ _ (perform_all_config a s) _ _ eq_refl). }
  assert (∀ (x y : list access * io_out unit), x = y →
    (let '(l, r) := x in let '(l', r') := exec (task_end f r) (perform_all l s) in (l ++ l', r'))
    = let '(l, r) := y in
      match r with Failed e => (l ++ map Emit (log s (flow_ended f e)), Ready tt) | r => (l, r) end) as Hx.
  { intros [a r] _ <-. apply Hend. }
  apply Hx. destruct f as [table env src dest|table env src dest]; cbn [flow_dest flow_is_udp].
  - unfold tcp_accesses. destruct (attribute src dest false) as [pid name]. unfold tcp_decided.
    cbn [exec ff_dest ff_domain]. set (facts := MkFacts _ _ _ _ _).
    destruct (decide s facts) as [[|id|]|]; [| | |done]; rewrite exec_report; cbn [exec].
    + destruct (dial_tcp _ _ _) as [ops []]; done.
    + destruct (find_proxy_config s id) as [cfg|]; [|by rewrite exec_fail_closed]. cbn [exec perform].
      destruct (connect_via_proxy _ _ _); try done. by rewrite exec_fail_closed.
    + done.
  - unfold udp_accesses. destruct (attribute src dest true) as [pid name]. unfold udp_decided.
    cbn [exec ff_dest ff_domain]. set (facts := MkFacts _ _ _ _ _).
    destruct (decide s facts) as [[|id|]|]; [| | |done]; rewrite exec_report; cbn [exec].
    3: done.
    all: destruct (dial_udp _ _ _) as [ops []]; try done; cbn [exec perform]; rewrite exec_relay;
      by destruct (relay_loop_accesses _ _ _).
Qed.

(** ** The accesses are the handlers' *)

Lemma store_all_performs now l s :
  (store_all (dns_cache s) (λ _, now) l)
  = let '(a, o) := insert_accesses (ttl (dns_cache s)) now l in (dns_cache (perform_all a s), o).
Proof.
  revert s. induction l as [|[ip name] l IH]; intros s; [done|]. cbn [store_all insert_accesses].
  unfold store. destruct (is_empty name); [apply IH|].
  destruct (instant_add now (ttl (dns_cache s))) as [e|]; [|done]. cbn [mbind outcome_bind mret outcome_ret].
  assert (ttl (insert_entry (dns_cache s) ip (MkEntry name e)) = ttl (dns_cache s)) as Ht
    by (unfold insert_entry; destruct (poisoned (dns_cache s)); reflexivity).
  specialize (IH (perform (InsertName ip (MkEntry name e)) s)). cbn [perform with_cache dns_cache] in IH.
  rewrite Ht in IH. rewrite IH. destruct (insert_accesses (ttl (dns_cache s)) now l) as [a o].
  reflexivity.
Qed.

Lemma inserts_only ttl now l :
  let a := (insert_accesses ttl now l).1 in
  trace_of a = [] ∧ ∀ s, perform_all a s = with_cache (dns_cache (perform_all a s)) s.
Proof.
  induction l as [|[ip name] l [I1 I2]]; cbn [insert_accesses]; [split; [done|]; by intros []|].
  destruct (is_empty name); [done|]. destruct (instant_add now ttl) as [e|]; [|split; [done|]; by intros []].
  destruct (insert_accesses ttl now l) as [a o]. cbn [fst] in *. split; [exact I1|]. intros s.
  rewrite perform_all_cons. rewrite I2 at 1. by destruct s.
Qed.

Lemma relay_step_accesses is_dns e s :
  relay_step is_dns e s =
    let '(l, r) := relay_accesses (ttl (dns_cache s)) is_dns e in (r, perform_all l s, trace_of l).
Proof.
  destruct e as [w [|b bs] []|w|w bs now written|w er]; try done; cbn [relay_step relay_accesses].
  set (d := take _ bs). destruct is_dns.
  - unfold snoop_response. destruct (parse_dns_answers d) as [l|]; [|by destruct s].
    rewrite store_all_performs. destruct (inserts_only (ttl (dns_cache s)) now l) as [I1 I2].
    destruct (insert_accesses _ now l) as [a o]. cbn [fst] in I1, I2.
    destruct o as [[]|]; [destruct written|]; rewrite ?perform_all_app, ?trace_app, ?I1, <-?I2; done.
  - assert (with_cache (dns_cache s) s = s) as -> by by destruct s. by destruct written.
Qed.

Lemma relay_loop_accesses_spec is_dns script s :
  relay_loop is_dns script s =
    let '(l, r) := relay_loop_accesses (ttl (dns_cache s)) is_dns script in (r, perform_all l s, trace_of l).
Proof.
  revert s. induction script as [|e script IH]; intros s; [done|].
  unfold relay_loop, relay_loop_accesses; fold relay_loop relay_loop_accesses.
  destruct (select (e :: script)) as [e'|]; [|done]. rewrite relay_step_accesses.
  destruct (relay_accesses _ is_dns e') as [l r]. destruct r as [[]| | | |]; try done.
  rewrite IH, perform_all_ttl. destruct (relay_loop_accesses _ is_dns script) as [l' r'].
  by rewrite perform_all_app, trace_app.
Qed.

Lemma tcp_accesses_spec `{ProcessTable} env src dest s :
  handle_tcp env src dest s =
    let '(l, r) := tcp_accesses s env src dest (domain_for s (te_now env) (sa_ip dest)) in
    (r, perform_all l s, trace_of l).
Proof.
  unfold handle_tcp, tcp_accesses, flow_facts. destruct (attribute src dest false) as [pid name].
  set (facts := MkFacts _ _ _ _ _). destruct (decide s facts) as [d|]; [|done].
  assert (∀ l (r : io_out unit), (let '(l', r') := (map Emit (report s facts d) ++ l, r) in
      (r', perform_all l' s, trace_of l')) = (r, perform_all l s, report s facts d ++ trace_of l)) as Hrep.
  { intros l r. by rewrite perform_all_app, perform_emits, trace_app, trace_emits. }
  destruct d as [|id|].
  - destruct (dial_tcp _ _ _) as [ops r]. destruct r; by rewrite Hrep.
  - destruct (find_proxy_config s id) as [cfg|]; cbn [ff_domain facts].
    + destruct (connect_via_proxy _ _ _); rewrite Hrep; try done.
      by rewrite <-app_comm_cons, !perform_all_cons, perform_all_app, perform_emits, trace_cons,
        trace_app, trace_emits.
    + by rewrite Hrep, perform_all_app, perform_emits, trace_app, trace_emits.
  - by rewrite Hrep.
Qed.

Lemma count_udp_block_bump s dest : count_udp_block s dest = bump (udp_block_counter s dest).
Proof. unfold count_udp_block, udp_block_counter. by repeat case_match. Qed.

Lemma udp_accesses_spec `{ProcessTable} env src dest s :
  handle_udp env src dest s =
    let '(l, r) := udp_accesses s env src dest (domain_for s (ue_now env) (sa_ip dest)) in
    (r, perform_all l s, trace_of l).
Proof.
  unfold handle_udp, udp_accesses, flow_facts. destruct (attribute src dest true) as [pid name].
  set (facts := MkFacts _ _ _ _ _). destruct (decide s facts) as [d|]; [|done].
  assert (∀ l (r : io_out unit), (let '(l', r') := (map Emit (report s facts d) ++ l, r) in
      (r', perform_all l' s, trace_of l')) = (r, perform_all l s, report s facts d ++ trace_of l)) as Hrep.
  { intros l r. by rewrite perform_all_app, perform_emits, trace_app, trace_emits. }
  destruct d as [|id|]; [| |by rewrite Hrep, count_udp_block_bump].
  all: destruct (dial_udp _ _ _) as [ops r]; destruct r; try by rewrite Hrep.
  all: rewrite relay_loop_accesses_spec; destruct (relay_loop_accesses _ _ _) as [l r]; by rewrite Hrep.
Qed.

(** A task run alone performs its accesses one after the other. *)
Lemma run_flow_accesses f s :
  run_flow f s =
    let '(l, r) := task_accesses s f (domain_for s (flow_now f) (sa_ip (flow_dest f))) in
    (r, perform_all l s, trace_of l).
Proof.
  destruct f as [table env src dest|table env src dest]; cbn [run_flow flow_now flow_dest];
    unfold task_accesses, flow_ended, task_tcp, task_udp; rewrite ?tcp_accesses_spec, ?udp_accesses_spec.
  1: destruct (tcp_accesses _ _ _ _ _) as [l r]. 2: destruct (udp_accesses _ _ _ _ _) as [l r].
  all: destruct r; try done.
  all: cbv beta iota; by rewrite perform_all_app, perform_emits, trace_app, trace_emits.
Qed.

(** The same, with the accesses read off any state of the same configuration. *)
Lemma run_flow_config f s1 s :
  same_config s1 s →
  run_flow f s1 =
    let '(l, r) := task_accesses s f (domain_for s1 (flow_now f) (sa_ip (flow_dest f))) in
    (r, perform_all l s1, trace_of l).
Proof.
  intros Hc. rewrite run_flow_accesses.
  by rewrite (task_accesses_proper s1 s Hc f f eq_refl _ _ eq_refl).
Qed.

(** ** Every schedule is serial, task by task *)

Lemma own_app i h h' : own i (h ++ h') = own i h ++ own i h'.
Proof. apply omap_app. Qed.

Lemma own_mine i l : own i (map (pair (Some i)) l) = l.
Proof. induction l as [|a l IH]; [done|]. simpl. rewrite bool_decide_true by done. by f_equal. Qed.

Lemma own_others i who l : who ≠ Some i → own i (map (pair who) l) = [].
Proof. intros Hw. induction l as [|a l IH]; [done|]. simpl. by rewrite bool_decide_false. Qed.

(** The state when the history was [h]. *)
Definition state_after (s : Shared) (h : list (option nat * access)) : Shared := perform_all (map snd h) s.

Lemma state_after_config s h : same_config (state_after s h) s.
Proof. apply perform_all_config. Qed.

Lemma state_after_record s h who l :
  state_after s (h ++ map (pair who) l) = perform_all l (state_after s h).
Proof.
  unfold state_after. rewrite map_app, perform_all_app, map_map. by rewrite map_id.
Qed.

(** The task looked its name up when the history was [before], and what it has
    done and its program has to do is what it would do alone from there. *)
Definition looked_up (s : Shared) (y : system) (i : nat) (th : thread) : Prop :=
  settled (th_prog th)
  ∧ ∃ before after, sy_history y = before ++ after ∧ own i before = []
    ∧ task_accesses s (th_flow th)
        (domain_for (state_after s before) (flow_now (th_flow th)) (sa_ip (flow_dest (th_flow th))))
      = let '(todo, r) := exec (th_prog th) s in (th_done th ++ todo, r).

Definition thread_inv (s : Shared) (y : system) (i : nat) (th : thread) : Prop :=
  own i (sy_history y) = th_done th
  ∧ (th_prog th = task_prog (th_flow th) ∧ th_done th = [] ∨ looked_up s y i th).

Record sys_inv (s : Shared) (y : system) : Prop := {
  si_state : sy_shared y = state_after s (sy_history y);
  si_threads : ∀ i th, sy_threads y !! i = Some th → thread_inv s y i th;
  si_fresh : ∀ i, (length (sy_threads y) ≤ i)%nat → own i (sy_history y) = []
}.

(** What others do leaves a task where it was. *)
Lemma thread_inv_others s y i th who l :
  who ≠ Some i → thread_inv s y i th → thread_inv s (record who l y) i th.
Proof.
  intros Hw [Ho Hr]. unfold thread_inv. cbn [record sy_history].
  rewrite own_app, (own_others i who), app_nil_r by done. split; [done|].
  destruct Hr as [Hr|(Hst & before & after & Hh & Hb & Ht)]; [by left|right].
  split; [done|]. exists before, (after ++ map (pair who) l). cbn [record sy_history].
  split_and!; [|done..]. by rewrite Hh, app_assoc.
Qed.

Lemma sys_inv_outside s y l : sys_inv s y → sys_inv s (record None l y).
Proof.
  intros [Hs Ht Hf]. split; cbn [record sy_shared sy_history sy_threads].
  - by rewrite state_after_record, Hs.
  - intros i th Hi. by apply thread_inv_others; [done|apply Ht].
  - intros i Hi. rewrite own_app, own_others, app_nil_r by done. by apply Hf.
Qed.

Lemma sys_inv_step s l y y' : sys_inv s y → sys_step l y = Some y' → sys_inv s y'.
Proof.
  intros Hy Hstep. destruct l as [f| |e|now|i]; cbn [sys_step] in Hstep.
  - destruct (sy_accepting y); [|done]. injection Hstep as <-.
    destruct (sys_inv_outside s y [Count (flow_counter f)] Hy) as [Hs Ht Hf].
    split; cbn [sy_shared sy_history sy_threads record] in *; [done| |].
    + intros i th [Hi|[Hi Hth]]%lookup_app_Some; [by apply (Ht i)|].
      apply list_lookup_singleton_Some in Hth as [Hz <-]. split; [by apply Hf|by left].
    + intros i. rewrite length_app. intros Hi. apply Hf. lia.
  - destruct (sy_accepting y); by simplify_eq.
  - destruct (sy_accepting y); [|done]. injection Hstep as <-.
    destruct (sys_inv_outside s y (map Emit (loop_end_log (sy_shared y) e)) Hy) as [Hs Ht Hf]. by split.
  - injection Hstep as <-. by apply sys_inv_outside.
  - destruct Hy as [Hs Ht Hf]. destruct (sy_threads y !! i) as [th|] eqn:Hi; [|done]. simpl in Hstep.
    pose proof (lookup_lt_Some _ _ _ Hi) as Hlt. destruct (Ht i th Hi) as [Ho Hr].
    destruct (th_prog th) as [r|k|a p] eqn:Ep; [done| |]; injection Hstep as <-.
    + split; cbn [set_thread record sy_shared sy_history sy_threads]; [done| |].
      2: { intros j. rewrite length_insert. apply Hf. }
      intros j th' [(<- & <- & _)|[Hj Hth]]%list_lookup_insert_Some; [|by apply (Ht j)].
      split; [done|]. right. cbn [th_prog th_flow th_done sy_history set_thread].
      destruct Hr as [[Hp Hd]|(Hst & before & after & Hh & Hb & Hta)].
      * rewrite task_prog_lookup in Hp. injection Hp as ->. split; [apply settled_task|].
        exists (sy_history y), []. cbn [sy_history set_thread th_flow th_done th_prog]. rewrite app_nil_r.
        split_and!; [done|by rewrite Ho|]. rewrite exec_task, <-Hs, Hd. cbn [app].
        by destruct (task_accesses _ _ _).
      * rewrite Ep in Hst, Hta. inversion Hst as [|k' Hk Hset|]; subst. split; [apply Hset|].
        exists before, after. cbn [sy_history set_thread th_flow th_done th_prog]. split_and!; [done..|].
        rewrite Hta. cbn [exec]. assert (same_config (sy_shared y) s) as Hc
          by (rewrite Hs; apply state_after_config).
        by rewrite (Hk (sy_shared y)), (sc_config _ _ Hc), <-(Hk s).
    + assert (own i (sy_history y ++ [(Some i, a)]) = th_done th ++ [a]) as Ho'.
      { rewrite own_app, Ho. exact (f_equal (app _) (own_mine i [a])). }
      split; cbn [set_thread record sy_shared sy_history sy_threads map].
      * change [(Some i, a)] with (map (pair (Some i)) [a]). by rewrite state_after_record, <-Hs.
      * intros j th' [(<- & <- & _)|[Hj Hth]]%list_lookup_insert_Some.
        2: { apply (thread_inv_others s y j th' (Some i) [a]); [congruence|by apply Ht]. }
        split; [done|]. right. destruct Hr as [[Hp _]|(Hst & before & after & Hh & Hb & Hta)].
        { rewrite task_prog_lookup in Hp. done. }
        rewrite Ep in Hst, Hta. inversion Hst as [| |a' p' Hset]; subst. split; [done|].
        exists before, (after ++ [(Some i, a)]).
        cbn [sy_history set_thread record th_flow th_done th_prog map].
        split_and!; [by rewrite Hh, app_assoc|done|]. rewrite Hta. cbn [exec].
        rewrite (settled_exec p (perform a s) s Hset (perform_config a s)).
        destruct (exec p s) as [todo r]. by rewrite <-app_assoc.
      * intros j. rewrite length_insert. intros Hj. rewrite own_app, Hf by done.
        change [(Some i, a)] with (map (pair (Some i)) [a]). apply own_others. naive_solver lia.
Qed.

Lemma sys_run_ind (P : system → Prop) ls y y' :
  (∀ l y y', P y → sys_step l y = Some y' → P y') → P y → sys_run ls y = Some y' → P y'.
Proof.
  intros Hstep. revert y. induction ls as [|l ls IH]; intros y Hy; simpl; [by intros [= <-]|].
  destruct (sys_step l y) as [y1|] eqn:E; [|done]. simpl. apply IH. by eapply Hstep.
Qed.

Lemma sys_run_inv ls s y : sys_run ls (sys_start s) = Some y → sys_inv s y.
Proof.
  apply sys_run_ind; [intros; by eapply sys_inv_step|]. by split.
Qed.

(** Where a task stands: what it has done, and what its program would do now. *)
Lemma thread_stands ls s y i th :
  sys_run ls (sys_start s) = Some y → sy_threads y !! i = Some th →
  ∃ before after, sy_history y = before ++ after ∧ own i before = []
    ∧ let '(todo, r) := exec (th_prog th) (perform_all (th_done th) (state_after s before)) in
      run_flow (th_flow th) (state_after s before)
      = (r, perform_all (th_done th ++ todo) (state_after s before), trace_of (th_done th ++ todo)).
Proof.
  intros Hrun Hi. destruct (sys_run_inv ls s y Hrun) as [Hs Ht _].
  destruct (Ht i th Hi) as [Ho [[Hp Hd]|(Hst & before & after & Hh & Hb & Hta)]].
  - exists (sy_history y), []. rewrite app_nil_r, Ho, Hd, Hp, task_prog_lookup. cbn [exec perform_all foldl app].
    rewrite exec_task, run_flow_accesses. by destruct (task_accesses _ _ _).
  - exists before, after. split_and!; [done..|].
    rewrite (settled_exec _ _ s Hst) by (rewrite perform_all_config; apply state_after_config).
    rewrite (run_flow_config _ _ s (state_after_config s before)), Hta. by destruct (exec (th_prog th) s).
Qed.

(** C3: whatever the interleaving of the accept loop, the flows' tasks and the
    embedding program, in which each read and each access of a task is a step of
    its own on the shared state of that moment, each task behaves as if it had run
    alone.  The shared state is the sequence of all accesses, one after the other;
    a task's part of that sequence is, in order, what it has done so far; and that,
    continued by what its program does, is what the handler does run alone from the
    state of one moment before the task's first access, with the same effects in
    the same order and the same outcome.  A task that has ended has done just
    that. *)
Theorem tasks_serialize ls s y i th :
  sys_run ls (sys_start s) = Some y → sy_threads y !! i = Some th →
  sy_shared y = state_after s (sy_history y)
  ∧ own i (sy_history y) = th_done th
  ∧ ∃ before after, sy_history y = before ++ after ∧ own i before = []
      ∧ (let '(todo, r) := exec (th_prog th) (perform_all (th_done th) (state_after s before)) in
         run_flow (th_flow th) (state_after s before)
         = (r, perform_all (th_done th ++ todo) (state_after s before), trace_of (th_done th ++ todo)))
      ∧ (∀ r, th_prog th = PEnd r → run_flow (th_flow th) (state_after s before)
           = (r, perform_all (th_done th) (state_after s before), trace_of (th_done th))).
Proof.
  intros Hrun Hi. destruct (sys_run_inv ls s y Hrun) as [Hs Ht _]. destruct (Ht i th Hi) as [Ho _].
  destruct (thread_stands ls s y i th Hrun Hi) as (before & after & Hh & Hb & Hr).
  split_and!; [done..|]. exists before, after. split_and!; [done..|].
  intros r Hp. rewrite Hp in Hr. cbn [exec] in Hr. by rewrite app_nil_r in Hr.
Qed.

(** ** Guarantees of a flow that survive interleaving *)

(** What a task has done is a part of what its handler does alone. *)
Lemma done_trace ls s y i th :
  sys_run ls (sys_start s) = Some y → sy_threads y !! i = Some th →
  ∃ s1, same_config s1 s ∧ ∃ r s2 more, run_flow (th_flow th) s1 = (r, s2, trace_of (th_done th) ++ more).
Proof.
  intros Hrun Hi. destruct (thread_stands ls s y i th Hrun Hi) as (before & after & _ & _ & Hr).
  exists (state_after s before). split; [apply state_after_config|].
  destruct (exec (th_prog th) _) as [todo r]. rewrite Hr, trace_app. by eexists _, _, _.
Qed.

Lemma log_events s m ev : ev ∈ log s m → ∃ m', ev = EvLog m'.
Proof. unfold log. destruct (has_log_cb s); [|set_solver]. intros ->%list_elem_of_singleton. eauto. Qed.

(** The trace of a task is its handler's, and logs. *)
Lemma run_flow_trace (P : event → Prop) f s :
  (∀ m, P (EvLog m)) →
  Forall P match f with
           | FTcp table env src dest => (handle_tcp env src dest s).2
           | FUdp table env src dest => (handle_udp env src dest s).2
           end →
  Forall P (run_flow f s).2.
Proof.
  intros Hlog. assert (∀ m, Forall P (log s m)) as Hl.
  { intros m. apply Forall_forall. intros ev [m' ->]%log_events. apply Hlog. }
  destruct f; cbn [run_flow]; unfold task_tcp, task_udp;
    [destruct (handle_tcp _ _ _ _) as [[r s'] evs]|destruct (handle_udp _ _ _ _) as [[r s'] evs]];
    cbn [snd]; intros Hevs; destruct r; cbn [snd]; try done; by apply Forall_app.
Qed.

Lemma run_flow_own f s :
  flow_owner f = Some (current_pid s) → is_loopback (sa_ip (flow_dest f)) = false →
  Forall (guarded s (flow_dest f)) (run_flow f s).2.
Proof.
  intros Ho Hl. apply run_flow_trace; [intros m []|]. destruct f; cbn [flow_owner flow_dest] in *.
  - by apply own_tcp_guarded.
  - by apply own_udp_guarded.
Qed.

Definition proxy_effect (ev : event) : Prop := match ev with EvProxy _ _ | EvCopyProxy => True | _ => False end.

(** Closes [Forall P] over a trace whose pieces are reports, logs and literal
    events, for a [P] that computes. *)
Ltac traces :=
  cbn [fst snd app];
  rewrite ?trace_app, ?trace_emits, ?trace_cons, ?trace_app, ?trace_emits; cbn [emitted app];
  repeat first
    [ assumption | apply Forall_app; split | apply Forall_nil; exact I | apply Forall_cons; split
    | match goal with
      | |- Forall _ (report _ _ _) => apply Forall_forall; intros ? [? ->]%report_events
      | |- Forall _ (log _ _) => apply Forall_forall; intros ? [? ->]%log_events
      end
    | exact (λ H, H) ].

Lemma tcp_exclusive `{ProcessTable} s env src dest d :
  let l := trace_of (tcp_accesses s env src dest d).1 in
  Forall (λ ev, ¬ proxy_effect ev) l ∨ Forall (λ ev, ¬ direct_effect ev) l.
Proof.
  unfold tcp_accesses. destruct (attribute src dest false) as [pid name].
  set (facts := MkFacts _ _ _ _ _). destruct (decide s facts) as [[|id|]|]; [| | |by left; constructor].
  - left. destruct (dial_tcp _ _ _) as [ops r]. destruct r; traces.
  - right. destruct (find_proxy_config s id) as [cfg|]; [destruct (connect_via_proxy _ _ _)|]; traces.
  - left. traces.
Qed.

Lemma relay_trace ttl is_dns script : Forall relay_event (trace_of (relay_loop_accesses ttl is_dns script).1).
Proof.
  induction script as [|e script IH]; [constructor|]. unfold relay_loop_accesses; fold relay_loop_accesses.
  destruct (select (e :: script)) as [e'|]; [|constructor].
  assert (Forall relay_event (trace_of (relay_accesses ttl is_dns e').1)) as He.
  { destruct e' as [w [|b bs] []|w|w bs now written|w er]; cbn [relay_accesses]; repeat constructor.
    destruct (if is_dns then _ else _) as [a o] eqn:Ea.
    assert (trace_of a = []) as Ha.
    { destruct is_dns; [|by injection Ea as <- _]. destruct (parse_dns_answers _) as [l|]; [|by injection Ea as <- _].
      pose proof (inserts_only ttl now l) as [Hl _]. by rewrite Ea in Hl. }
    destruct o; [destruct written|]; cbn [fst]; rewrite ?trace_app, Ha; repeat constructor. }
  destruct (relay_accesses ttl is_dns e') as [l r]. cbn [fst] in He.
  destruct r as [[]| | | |]; try done. destruct (relay_loop_accesses ttl is_dns script) as [l' r'].
  cbn [fst] in *. rewrite trace_app. by apply Forall_app.
Qed.

Lemma udp_not_proxied `{ProcessTable} s env src dest d :
  Forall (λ ev, ¬ proxy_effect ev) (trace_of (udp_accesses s env src dest d).1).
Proof.
  unfold udp_accesses. destruct (attribute src dest true) as [pid name].
  set (facts := MkFacts _ _ _ _ _). destruct (decide s facts) as [[|id|]|]; [| |traces|constructor].
  all: destruct (dial_udp _ _ _) as [ops r]; destruct r; try traces.
  all: assert (Forall (λ ev, ¬ proxy_effect ev)
      (trace_of (relay_loop_accesses (ttl (dns_cache s)) (sa_port dest =? 53) (ue_script env)).1)) as Hrel
    by (eapply Forall_impl; [apply relay_trace|]; by intros [] Hev Hp).
  all: destruct (relay_loop_accesses _ _ _) as [l r]; traces.
Qed.

(** One flow never uses both ways out. *)
Lemma run_flow_exclusive f s :
  Forall (λ ev, ¬ proxy_effect ev) (run_flow f s).2 ∨ Forall (λ ev, ¬ direct_effect ev) (run_flow f s).2.
Proof.
  rewrite run_flow_accesses. set (d := domain_for _ _ _).
  assert (let l := trace_of (match f with
      | FTcp table env src dest => tcp_accesses s env src dest d
      | FUdp table env src dest => udp_accesses s env src dest d
      end).1 in Forall (λ ev, ¬ proxy_effect ev) l ∨ Forall (λ ev, ¬ direct_effect ev) l) as Hl.
  { destruct f; [apply tcp_exclusive|left; apply udp_not_proxied]. }
  unfold task_accesses. destruct (match f with FTcp _ _ _ _ => _ | FUdp _ _ _ _ => _ end) as [l r].
  cbn [fst] in Hl. destruct r; try done. destruct Hl; [left|right]; traces.
Qed.

(** What a task has done for a flow this process owns has not left the process
    unpinned, but for a pin the system refused. *)
Lemma done_own ls s y i th :
  sys_run ls (sys_start s) = Some y → sy_threads y !! i = Some th →
  flow_owner (th_flow th) = Some (current_pid s) → is_loopback (sa_ip (flow_dest (th_flow th))) = false →
  Forall (guarded s (flow_dest (th_flow th))) (trace_of (th_done th)).
Proof.
  intros Hrun Hi Ho Hl. destruct (done_trace ls s y i th Hrun Hi) as (s1 & Hc & r & s2 & more & Hf).
  pose proof (run_flow_own (th_flow th) s1) as Hown.
  assert (current_pid s1 = current_pid s) as Hpid
    by (change (current_pid (config_of s1) = current_pid (config_of s)); by rewrite (sc_config _ _ Hc)).
  rewrite Hpid in Hown. specialize (Hown Ho Hl). rewrite Hf in Hown. apply Forall_app in Hown as [Hown _].
  eapply Forall_impl; [exact Hown|]. unfold guarded. intros ev Hg Hesc. apply Hg. by rewrite Hc.
Qed.


(** ** Counters *)

Definition is_count (c : counter) (a : access) : bool :=
  match a with Count c' => bool_decide (c = c') | _ => false end.
(** How often [l] adds to [c]. *)
Definition counted (c : counter) (l : list access) : Z := zlen (List.filter (is_count c) l).

Lemma counted_app c l l' : counted c (l ++ l') = counted c l + counted c l'.
Proof. unfold counted. by rewrite List.filter_app, zlen_app. Qed.

Lemma counted_cons c a l : counted c (a :: l) = counted c [a] + counted c l.
Proof. exact (counted_app c [a] l). Qed.

Lemma counted_emit c ev l : counted c (Emit ev :: l) = counted c l.
Proof. done. Qed.

Lemma counted_emits c l : counted c (map Emit l) = 0.
Proof. by induction l. Qed.

Lemma counted_one c k : counted c [Count k] = if bool_decide (c = k) then 1 else 0.
Proof. unfold counted. cbn [List.filter is_count]. by case_bool_decide. Qed.

Lemma counted_nonneg c l : 0 ≤ counted c l.
Proof. apply zlen_nonneg. Qed.

Lemma read_bump c c' st :
  read_counter c (bump c' st) = if bool_decide (c = c') then fetch_add1 (read_counter c st) else read_counter c st.
Proof. by destruct c, c'. Qed.

Lemma counter_perform_all c l s :
  0 ≤ read_counter c (stats s) < U64 →
  read_counter c (stats (perform_all l s)) = (read_counter c (stats s) + counted c l) mod U64.
Proof.
  revert s. induction l as [|a l IH]; intros s Hs; [by rewrite Z.add_0_r, Z.mod_small|].
  assert (read_counter c (stats (perform a s))
      = (read_counter c (stats s) + counted c [a]) mod U64) as Ha.
  { destruct a as [c'|ip e|now|ev]; cbn [perform with_stats with_cache stats];
      try by rewrite Z.add_0_r, Z.mod_small.
    rewrite read_bump, counted_one. case_bool_decide; [done|]. by rewrite Z.add_0_r, Z.mod_small. }
  cbn [perform_all foldl]. change (foldl _ (perform a s) l) with (perform_all l (perform a s)).
  rewrite IH by (rewrite Ha; by apply Z.mod_pos_bound).
  rewrite Ha, Zplus_mod_idemp_l, (counted_cons c a l). f_equal. lia.
Qed.

(** Sums over the tasks. *)
Definition total (f : thread → Z) (l : list thread) : Z := foldr (λ th n, f th + n) 0 l.

Lemma total_app f l l' : total f (l ++ l') = total f l + total f l'.
Proof. unfold total. induction l as [|th l IH]; simpl in *; lia. Qed.

Lemma total_insert f l i th th' :
  l !! i = Some th → total f (<[i := th']> l) = total f l - f th + f th'.
Proof.
  revert i. induction l as [|x l IH]; intros [|i] Hi; simplify_eq/=; [lia|]. rewrite (IH i Hi). lia.
Qed.

Lemma total_le f g l : Forall (λ th, f th ≤ g th) l → total f l ≤ total g l.
Proof. induction 1; simpl; lia. Qed.

(** The flows the loop counted, and what the tasks have counted. *)
Definition opened_as (c : counter) (th : thread) : Z :=
  if bool_decide (c = flow_counter (th_flow th)) then 1 else 0.
Definition contribution (c : counter) (th : thread) : Z := opened_as c th + counted c (th_done th).

Lemma counted_step s l y y' c :
  sys_inv s y → sys_step l y = Some y' →
  counted c (map snd (sy_history y)) = total (contribution c) (sy_threads y) →
  counted c (map snd (sy_history y')) = total (contribution c) (sy_threads y').
Proof.
  intros Hy Hstep Hc. destruct l as [f| |e|now|i]; cbn [sys_step] in Hstep.
  - destruct (sy_accepting y); [|done]. injection Hstep as <-.
    cbn [sy_history sy_threads record]. rewrite map_app, counted_app, total_app, Hc.
    cbn [map snd]. rewrite counted_one. cbn [total foldr]. unfold contribution, opened_as.
    cbn [th_flow th_done]. change (counted c []) with 0. lia.
  - destruct (sy_accepting y); by simplify_eq.
  - destruct (sy_accepting y); [|done]. injection Hstep as <-.
    cbn [sy_history sy_threads record]. rewrite map_app, map_map, counted_app, Hc.
    replace (counted c (map _ _)) with 0; [lia|]. rewrite map_id, counted_emits. done.
  - injection Hstep as <-. cbn [sy_history sy_threads record]. rewrite map_app, counted_app, Hc.
    change (counted c (map snd (map (pair None) [Purge now]))) with 0. lia.
  - destruct (sy_threads y !! i) as [th|] eqn:Hi; [|done]. simpl in Hstep.
    destruct (th_prog th) as [r|k|a p]; [done| |]; injection Hstep as <-;
      cbn [sy_history sy_threads record set_thread]; rewrite (total_insert _ _ _ th) by done.
    + rewrite Hc. unfold contribution, opened_as. cbn [th_flow th_done]. lia.
    + rewrite map_app, counted_app, Hc. unfold contribution, opened_as. cbn [th_flow th_done map snd].
      rewrite counted_app. lia.
Qed.

Lemma counted_run ls s y c :
  sys_run ls (sys_start s) = Some y →
  counted c (map snd (sy_history y)) = total (contribution c) (sy_threads y).
Proof.
  intros Hrun. apply (sys_run_ind (λ y, sys_inv s y
    ∧ counted c (map snd (sy_history y)) = total (contribution c) (sy_threads y))) in Hrun; [by destruct Hrun| |].
  - intros l y1 y2 [Hi Hc] Hstep. split; [by eapply sys_inv_step|by eapply counted_step].
  - by repeat split.
Qed.

(** No increment is lost: each counter is what it was, plus one per flow accepted
    for the two flow counters, plus what each task has itself counted so far. *)
Lemma counters_exact ls s y c :
  sys_run ls (sys_start s) = Some y → 0 ≤ read_counter c (stats s) < U64 →
  read_counter c (stats (sy_shared y))
  = (read_counter c (stats s) + total (contribution c) (sy_threads y)) mod U64.
Proof.
  intros Hrun Hc. rewrite (si_state s y (sys_run_inv ls s y Hrun)). unfold state_after.
  rewrite counter_perform_all by done. by rewrite (counted_run ls s y c Hrun).
Qed.

(** *** What a task can contribute *)

(** The three ways a flow is counted as dropped. *)
Definition drops (l : list access) : Z := counted CBlocked l + counted CQuicDropped l + counted CGroupDropped l.
Definition frugal (f : flow) (l : list access) : Prop :=
  counted CTcpFlows l = 0 ∧ counted CUdpFlows l = 0 ∧ drops l ≤ 1
  ∧ counted CProxyFallbacks l ≤ match f with FTcp _ _ _ _ => 1 | FUdp _ _ _ _ => 0 end.

Lemma inserts_counted c ttl now l : counted c (insert_accesses ttl now l).1 = 0.
Proof.
  induction l as [|[ip name] l IH]; [done|]. cbn [insert_accesses]. destruct (is_empty name); [done|].
  destruct (instant_add now ttl); [|done]. by destruct (insert_accesses ttl now l).
Qed.

Lemma relay_step_counts c ttl is_dns e :
  c ≠ CUdpSendErrors → counted c (relay_accesses ttl is_dns e).1 = 0.
Proof.
  intros Hc. destruct e as [w [|b bs] [|er|]|w|w bs now written|w er]; try done; cbn [relay_accesses fst].
  { unfold counted. cbn. by rewrite bool_decide_false. }
  destruct (if is_dns then _ else _) as [a o] eqn:Ea.
  assert (counted c a = 0) as Ha.
  { destruct is_dns; [|by injection Ea as <- _]. destruct (parse_dns_answers _) as [l|]; [|by injection Ea as <- _].
    pose proof (inserts_counted c ttl now l) as Hl. by rewrite Ea in Hl. }
  destruct o; [destruct written|]; cbn [fst]; rewrite ?counted_app, Ha; done.
Qed.

Lemma relay_counts c ttl is_dns script :
  c ≠ CUdpSendErrors → counted c (relay_loop_accesses ttl is_dns script).1 = 0.
Proof.
  intros Hc. induction script as [|e script IH]; [done|].
  unfold relay_loop_accesses; fold relay_loop_accesses. destruct (select (e :: script)) as [e'|]; [|done].
  pose proof (relay_step_counts c ttl is_dns e' Hc) as He.
  destruct (relay_accesses ttl is_dns e') as [l r]. cbn [fst] in He. destruct r as [[]| | | |]; try done.
  destruct (relay_loop_accesses ttl is_dns script) as [l' r']. cbn [fst] in *. by rewrite counted_app, IH, He.
Qed.

Lemma frugal_relay table env src dest ttl is_dns script ops :
  frugal (FUdp table env src dest) (Emit (EvDialUdp ops) :: (relay_loop_accesses ttl is_dns script).1).
Proof.
  unfold frugal, drops. rewrite !counted_emit, !relay_counts by discriminate.
  repeat split; discriminate.
Qed.

Lemma task_frugal s f d : frugal f (task_accesses s f d).1.
Proof.
  assert (∀ l m, frugal f l → frugal f (l ++ map Emit m)) as Hlog.
  { intros l m. unfold frugal, drops. by rewrite !counted_app, !counted_emits, !Z.add_0_r. }
  assert (∀ l m, frugal f l → frugal f (map Emit m ++ l)) as Hrep.
  { intros l m. unfold frugal, drops. by rewrite !counted_app, !counted_emits. }
  assert (∀ l (r : io_out unit), frugal f l → frugal f (match r with
      | Failed e => (l ++ map Emit (log s (flow_ended f e)), Ready tt) | r => (l, r) end).1) as Hend.
  { intros l r Hl. destruct r; try done. by apply Hlog. }
  unfold task_accesses. destruct f as [table env src dest|table env src dest].
  - destruct (tcp_accesses s env src dest d) as [l r] eqn:E. apply Hend.
    unfold tcp_accesses in E. destruct (attribute src dest false) as [pid name].
    destruct (decide s _) as [[|id|]|]; [| | |by injection E as <- <-].
    + destruct (dial_tcp _ _ _) as [ops rd]. destruct rd; injection E as <- <-; by apply Hrep.
    + destruct (find_proxy_config s id) as [cfg|]; [destruct (connect_via_proxy _ _ _)|];
        injection E as <- <-; apply Hrep; try done;
        [apply (Hlog (Emit (EvProxy _ _) :: [Count CProxyFallbacks; Count CBlocked]))
        |apply (Hlog [Count CProxyFallbacks; Count CBlocked])]; done.
    + injection E as <- <-. by apply Hrep.
  - destruct (udp_accesses s env src dest d) as [l r] eqn:E. apply Hend.
    unfold udp_accesses in E. destruct (attribute src dest true) as [pid name].
    destruct (decide s _) as [[|id|]|]; [| | |by injection E as <- <-].
    3: { injection E as <- <-. apply Hrep. unfold udp_block_counter. by repeat case_match. }
    all: destruct (dial_udp _ _ _) as [ops rd]; destruct rd; try (injection E as <- <-; by apply Hrep).
    all: pose proof (frugal_relay table env src dest (ttl (dns_cache s)) (sa_port dest =? 53) (ue_script env) ops) as Hc;
      destruct (relay_loop_accesses _ _ _) as [l' r']; injection E as <- <-; by apply Hrep.
Qed.

Lemma frugal_prefix f l l' : frugal f (l ++ l') → frugal f l.
Proof.
  unfold frugal, drops. rewrite !counted_app.
  pose proof (λ c, counted_nonneg c l). pose proof (λ c, counted_nonneg c l').
  intros (? & ? & ? & ?).
  pose proof (counted_nonneg CTcpFlows l). pose proof (counted_nonneg CTcpFlows l').
  pose proof (counted_nonneg CUdpFlows l). pose proof (counted_nonneg CUdpFlows l').
  pose proof (counted_nonneg CBlocked l'). pose proof (counted_nonneg CQuicDropped l').
  pose proof (counted_nonneg CGroupDropped l'). pose proof (counted_nonneg CProxyFallbacks l').
  split_and!; lia.
Qed.

Lemma threads_frugal ls s y :
  sys_run ls (sys_start s) = Some y → Forall (λ th, frugal (th_flow th) (th_done th)) (sy_threads y).
Proof.
  intros Hrun. apply Forall_lookup. intros i th Hi.
  destruct (si_threads s y (sys_run_inv ls s y Hrun) i th Hi) as [_ [[_ ->]|(_ & before & after & _ & _ & Hta)]].
  { by destruct (th_flow th). }
  destruct (exec (th_prog th) s) as [todo r]. apply (frugal_prefix _ _ todo).
  pose proof (task_frugal s (th_flow th) (domain_for (state_after s before) (flow_now (th_flow th))
    (sa_ip (flow_dest (th_flow th))))) as Hf. by rewrite Hta in Hf.
Qed.

Lemma contribution_own c th :
  contribution c th = match c, th_flow th with
                      | CTcpFlows, FTcp _ _ _ _ | CUdpFlows, FUdp _ _ _ _ => 1
                      | _, _ => 0
                      end + counted c (th_done th).
Proof. unfold contribution, opened_as. by destruct c, (th_flow th). Qed.

Lemma totals l :
  Forall (λ th, frugal (th_flow th) (th_done th)) l →
  let T c := total (contribution c) l in
  T CTcpFlows = zlen (List.filter is_tcp (map (λ th, flow_event (th_flow th)) l))
  ∧ T CUdpFlows = zlen (List.filter is_udp_flow (map (λ th, flow_event (th_flow th)) l))
  ∧ T CTcpFlows + T CUdpFlows = zlen l
  ∧ 0 ≤ T CBlocked ∧ 0 ≤ T CQuicDropped ∧ 0 ≤ T CGroupDropped
  ∧ T CBlocked + T CQuicDropped + T CGroupDropped ≤ zlen l
  ∧ 0 ≤ T CProxyFallbacks ≤ T CTcpFlows.
Proof.
  intros Hl T. subst T. cbv beta. induction Hl as [|th l Hth _ IH]; [by cbn|].
  destruct IH as (I1 & I2 & I3 & I4 & I5 & I6 & I7 & I8 & I9). destruct Hth as (Ht & Hu & Hd & Hp).
  unfold drops in Hd. pose proof (λ c, counted_nonneg c (th_done th)) as Hn.
  pose proof (Hn CBlocked). pose proof (Hn CQuicDropped). pose proof (Hn CGroupDropped).
  pose proof (Hn CProxyFallbacks). clear Hn. rewrite zlen_cons. cbn [total foldr map List.filter].
  fold (total (contribution CTcpFlows) l) (total (contribution CUdpFlows) l) (total (contribution CBlocked) l)
    (total (contribution CQuicDropped) l) (total (contribution CGroupDropped) l)
    (total (contribution CProxyFallbacks) l).
  rewrite !(contribution_own _ th).
  destruct (th_flow th); cbn [flow_event is_tcp is_udp_flow] in *; rewrite ?zlen_cons; split_and!; lia.
Qed.

(** C20: the statistics are exact and add up, whatever the interleaving.  At every
    moment each counter is what it was, plus the flows accepted, plus what the
    tasks have counted so far, modulo 2^64: no increment is lost.  Each single flow
    is counted as dropped at most once over the three drop counters, its task
    counts no flow, and it falls back from a proxy at most once, and only if it is
    a TCP flow.  So a session that starts from zero and has accepted fewer than
    2^64 flows counts exactly its TCP and its UDP flows, no more drops than flows,
    and no more fallbacks than TCP flows. *)
Theorem statistics_add_up ls s y :
  sys_run ls (sys_start s) = Some y →
  let st := stats (sy_shared y) in
  (∀ c, 0 ≤ read_counter c (stats s) < U64 →
     read_counter c st = (read_counter c (stats s) + total (contribution c) (sy_threads y)) mod U64)
  ∧ (∀ i th, sy_threads y !! i = Some th →
     counted CTcpFlows (th_done th) = 0 ∧ counted CUdpFlows (th_done th) = 0
     ∧ counted CBlocked (th_done th) + counted CQuicDropped (th_done th) + counted CGroupDropped (th_done th) ≤ 1
     ∧ counted CProxyFallbacks (th_done th) ≤ if flow_is_udp (th_flow th) then 0 else 1)
  ∧ (stats s = stats_default → zlen (sy_threads y) < U64 →
     tcp_flows st = zlen (List.filter is_tcp (map (λ th, flow_event (th_flow th)) (sy_threads y)))
     ∧ udp_flows st = zlen (List.filter is_udp_flow (map (λ th, flow_event (th_flow th)) (sy_threads y)))
     ∧ 0 ≤ blocked st + quic_dropped st + group_dropped st ≤ tcp_flows st + udp_flows st
     ∧ 0 ≤ proxy_fallbacks st ≤ tcp_flows st).
Proof.
  intros Hrun st. split; [intros c Hc; by apply (counters_exact ls)|].
  split.
  { intros i th Hi. destruct (proj1 (Forall_lookup _ _) (threads_frugal ls s y Hrun) i th Hi) as (F1 & F2 & F3 & F4).
    split_and!; [done..|]. by destruct (th_flow th). }
  intros Hst Hlen. destruct (totals _ (threads_frugal ls s y Hrun)) as (T1 & T2 & T3 & T4 & T5 & T6 & T7 & T8 & T9).
  assert (∀ c, 0 ≤ total (contribution c) (sy_threads y) < U64 →
    read_counter c st = total (contribution c) (sy_threads y)) as Hread.
  { intros c Hc. unfold st. rewrite (counters_exact ls s y c Hrun), Hst.
    - by destruct c; rewrite Z.add_0_l, Z.mod_small.
    - by destruct c; rewrite Hst. }
  change (tcp_flows st) with (read_counter CTcpFlows st). change (udp_flows st) with (read_counter CUdpFlows st).
  change (blocked st) with (read_counter CBlocked st). change (quic_dropped st) with (read_counter CQuicDropped st).
  change (group_dropped st) with (read_counter CGroupDropped st).
  change (proxy_fallbacks st) with (read_counter CProxyFallbacks st).
  pose proof (zlen_nonneg (List.filter is_tcp (map (λ th, flow_event (th_flow th)) (sy_threads y)))).
  pose proof (zlen_nonneg (List.filter is_udp_flow (map (λ th, flow_event (th_flow th)) (sy_threads y)))).
  rewrite !Hread by lia. split_and!; lia.
Qed.

(** ** Progress *)

(** The moves of a task alone: its program, to the end. *)
Lemma run_prog i p th y :
  sy_threads y !! i = Some th → th_prog th = p →
  ∃ n y', sys_run (replicate n (SRun i)) y = Some y'
    ∧ let '(todo, r) := exec p (sy_shared y) in
      sy_threads y' !! i = Some (MkThread (th_flow th) (th_done th ++ todo) (PEnd r)).
Proof.
  revert th y. induction p as [r|k IH|a p IH]; intros th y Hi Hp; pose proof (lookup_lt_Some _ _ _ Hi) as Hlt.
  - exists 0%nat, y. split; [done|]. cbn [exec]. rewrite app_nil_r. destruct th. simpl in *. by subst.
  - edestruct (IH (sy_shared y) (MkThread (th_flow th) (th_done th) (k (sy_shared y)))
      (set_thread i (MkThread (th_flow th) (th_done th) (k (sy_shared y))) y)) as (n & y' & Hrun & Hi'); [by apply list_lookup_insert_eq|done|].
    exists (S n), y'. split; [|exact Hi']. cbn [replicate sys_run sys_step]. rewrite Hi. simpl. rewrite Hp. exact Hrun.
  - edestruct (IH (MkThread (th_flow th) (th_done th ++ [a]) p)
      (set_thread i (MkThread (th_flow th) (th_done th ++ [a]) p) (record (Some i) [a] y)))
      as (n & y' & Hrun & Hi'); [by apply list_lookup_insert_eq|done|].
    exists (S n), y'. split.
    { cbn [replicate sys_run sys_step]. rewrite Hi. simpl. rewrite Hp. exact Hrun. }
    cbn [exec]. cbn [set_thread record sy_shared perform_all foldl th_flow th_done] in Hi'.
    destruct (exec p (perform a (sy_shared y))) as [todo r]. by rewrite Hi', <-app_assoc.
Qed.

(** no task waits for another.  In every reachable state a task can move
    unless it has finished, and finitely many moves of its own, whatever the
    others have done before and without any move of theirs, finish it with the
    outcome its handler has alone. *)
Theorem tasks_finish ls s y i th :
  sys_run ls (sys_start s) = Some y → sy_threads y !! i = Some th →
  (finished_task th = false → is_Some (sys_step (SRun i) y))
  ∧ ∃ n y' th' r, sys_run (replicate n (SRun i)) y = Some y'
      ∧ sy_threads y' !! i = Some th' ∧ th_prog th' = PEnd r
      ∧ ∃ s1, same_config s1 s ∧ (run_flow (th_flow th) s1).1.1 = r
          ∧ (run_flow (th_flow th) s1).2 = trace_of (th_done th').
Proof.
  intros Hrun Hi. split.
  { unfold finished_task. cbn [sys_step]. rewrite Hi. simpl. destruct (th_prog th); [done|by eexists..]. }
  destruct (run_prog i (th_prog th) th y Hi eq_refl) as (n & y' & Hrun' & Hi').
  destruct (exec (th_prog th) (sy_shared y)) as [todo r].
  assert (sys_run (ls ++ replicate n (SRun i)) (sys_start s) = Some y') as Hall.
  { revert Hrun. generalize (sys_start s). clear -Hrun'. induction ls as [|l ls IH]; intros y0; simpl;
      [by intros [= ->]|]. destruct (sys_step l y0); [|done]. apply IH. }
  exists n, y', (MkThread (th_flow th) (th_done th ++ todo) (PEnd r)), r. split_and!; [done..|].
  destruct (thread_stands _ s y' i _ Hall Hi') as (before & after & _ & _ & Hr).
  cbn [th_prog th_done th_flow exec] in Hr. rewrite app_nil_r in Hr.
  exists (state_after s before). rewrite Hr. split; [apply state_after_config|done].
Qed.

(** ** The accept loop of the system is [run] *)

Definition loop_event (l : sched) : option accept_event :=
  match l with
  | SAccept f => Some (flow_event f)
  | SUnknown => Some (AcceptUnknownTransport 0)
  | SEnd (Some e) => Some (AcceptError e)
  | SEnd None => Some ShutdownChanged
  | _ => None
  end.

(** The tasks spawned so far. *)
Definition spawned (y : system) : list task := map (λ th, flow_task (th_flow th)) (sy_threads y).

Lemma run_config es s s' : (run es s).1.1 = (run es s').1.1.
Proof.
  revert s s'. induction es as [|e es IH]; intros s s'; [done|].
  destruct e as [src dest|src dest|p|bs|er|]; try done; cbn [run].
  1: specialize (IH (with_stats add_tcp_flows s) (with_stats add_tcp_flows s')).
  2: specialize (IH (with_stats add_udp_flows s) (with_stats add_udp_flows s')).
  1,2: destruct (run es (with_stats _ s)) as [[[b ts] s1] evs], (run es (with_stats _ s')) as [[[b' ts'] s1'] evs'];
    simpl in *; by simplify_eq.
  all: apply IH.
Qed.

(** A move of a task or of the embedding program spawns nothing. *)
Lemma spawned_others l y y' :
  sys_step l y = Some y' → loop_event l = None → sy_accepting y' = sy_accepting y ∧ spawned y' = spawned y.
Proof.
  intros Hs Hl. destruct l as [f| |[e|]|now|i]; try done; cbn [sys_step] in Hs; [by injection Hs as <-|].
  destruct (sy_threads y !! i) as [th|] eqn:Hi; [|done]. simpl in Hs.
  assert (∀ done p (l : list thread), l = sy_threads y →
    map (λ th, flow_task (th_flow th)) (<[i := MkThread (th_flow th) done p]> l) = spawned y) as Hins.
  { intros done p l ->. unfold spawned.
    change (map ?f ?l) with (f <$> l). rewrite list_fmap_insert. cbn [th_flow].
    apply list_insert_id. by rewrite list_lookup_fmap, Hi. }
  destruct (th_prog th) as [r|k|a p]; [done| |]; injection Hs as <-; (split; [done|by apply Hins]).
Qed.

Lemma loop_step l y y' e :
  sys_step l y = Some y' → loop_event l = Some e →
  sy_accepting y = true ∧ sy_accepting y' = negb (ends_loop e)
  ∧ spawned y' = spawned y ++ match task_of e with Some t => [t] | None => [] end.
Proof.
  intros Hs Hl. destruct l as [f| |[er|]|now|i]; try done; cbn [sys_step] in Hs;
    (destruct (sy_accepting y) eqn:Ha; [|done]); injection Hs as <-; injection Hl as <-;
    unfold spawned; cbn [sy_accepting sy_threads record]; rewrite ?app_nil_r; try done.
  destruct f; by rewrite map_app.
Qed.

Lemma closed_loop ls y y' :
  sys_run ls y = Some y' → sy_accepting y = false → omap loop_event ls = [] ∧ sy_accepting y' = false ∧ spawned y' = spawned y.
Proof.
  revert y. induction ls as [|l ls IH]; intros y; simpl; [by intros [= <-]|].
  destruct (sys_step l y) as [y1|] eqn:Hs; [|done]. simpl. intros Hrun Ha.
  destruct (loop_event l) as [e|] eqn:Hl.
  - destruct (loop_step l y y1 e Hs Hl) as [Ha' _]. congruence.
  - destruct (spawned_others l y y1 Hs Hl) as [Ha1 <-]. apply IH; [done|congruence].
Qed.

(** the accept loop of the system is [run]: over the events the schedule gives
    to the loop, [run] spawns the same tasks in the same order and is running or
    ended alike, whatever the tasks do between those events. *)
Theorem loop_is_run ls y y' s0 :
  sys_run ls y = Some y' → sy_accepting y = true →
  (run (omap loop_event ls) s0).1.1.1 = negb (sy_accepting y')
  ∧ spawned y' = spawned y ++ (run (omap loop_event ls) s0).1.1.2.
Proof.
  revert y. induction ls as [|l ls IH]; intros y.
  { intros [= <-] ->. by rewrite app_nil_r. }
  cbn [sys_run]. destruct (sys_step l y) as [y1|] eqn:Hs; [|done]. intros Hrun Ha.
  change (omap loop_event (l :: ls)) with
    (match loop_event l with Some e => e :: omap loop_event ls | None => omap loop_event ls end).
  destruct (loop_event l) as [e|] eqn:Hl.
  - destruct (loop_step l y y1 e Hs Hl) as (_ & Ha1 & Hsp). destruct (ends_loop e) eqn:He.
    + destruct (closed_loop ls y1 y' Hrun Ha1) as (-> & -> & ->). rewrite Hsp. by destruct e.
    + destruct (IH y1 Hrun Ha1) as [I1 I2]. rewrite I2, Hsp, <-app_assoc, <-I1.
      destruct e as [src dest|src dest|p|bs|er|]; try done; cbn [run task_of app].
      * pose proof (run_config (omap loop_event ls) s0 (with_stats add_tcp_flows s0)) as ->.
        by destruct (run (omap loop_event ls) (with_stats add_tcp_flows s0)) as [[[b ts] s1] evs].
      * pose proof (run_config (omap loop_event ls) s0 (with_stats add_udp_flows s0)) as ->.
        by destruct (run (omap loop_event ls) (with_stats add_udp_flows s0)) as [[[b ts] s1] evs].
  - destruct (spawned_others l y y1 Hs Hl) as [Ha1 <-]. apply IH; [done|congruence].
Qed.

End Tasks.

(** ** A concrete schedule *)

Module TaskDemo.

#[local] Existing Instance MiniRegex.engine.
#[local] Existing Instance Demo.table.

Definition shared0 : Shared := Demo.shared [Demo.proxy_rule; Demo.domain_rule] [socks5 (u "p") 1080].

Definition answer_bytes : list Z :=
  encode_response 7 0x8180 (MkQuestion [u "www"; u "example"; u "com"] 1 1) []
    [MkAnswer None 1 1 60 [93; 184; 216; 34]] [].

(** A DNS relay of the browser's, a flow of the engine's own, a flow of the
    browser's that must be proxied. *)
Definition dns_flow : flow :=
  FUdp Demo.table (MkUdpEnv 0 Demo.os [ClientData 0 [1] (AnsErr (IoError Other "full"));
                                      ServerData 0 answer_bytes 5 AnsOk])
    Demo.browser Demo.resolver.
Definition own_flow : flow := FTcp Demo.table Demo.tcp0 Demo.own Demo.web.
Definition web_flow : flow := FTcp Demo.table (MkTcpEnv 10 Demo.os Demo.refusing (Ready tt)) Demo.browser Demo.web.

(** The three tasks interleave; the browser's look-up falls after the answer. *)
Definition moves (n i : nat) : list sched := replicate n (SRun i).
Definition schedule : list sched :=
  SAccept dns_flow :: moves 4 0 ++ SAccept own_flow :: moves 2 0 ++ moves 2 1 ++ SAccept web_flow :: moves 2 0
  ++ moves 1 1 ++ moves 2 0 ++ SPurge 6 :: moves 1 2 ++ moves 1 1 ++ moves 2 2 ++ SUnknown :: moves 1 1
  ++ moves 3 2 ++ moves 1 0 ++ SEnd None :: moves 1 2 ++ moves 2 1.

Definition final : system := default (sys_start shared0) (sys_run schedule (sys_start shared0)).
Definition thread_at (i : nat) : thread := default (MkThread own_flow [] (PEnd Hang)) (sy_threads final !! i).

Lemma runs : sys_run schedule (sys_start shared0) = Some final.
Proof. vm_compute. reflexivity. Qed.

End TaskDemo.
#[local] Existing Instance MiniRegex.engine.
#[local] Existing Instance Demo.table.

Lemma tasks_serialize_witness :
  let th := TaskDemo.thread_at 2 in
  sy_shared TaskDemo.final = state_after TaskDemo.shared0 (sy_history TaskDemo.final)
  ∧ own 2 (sy_history TaskDemo.final) = th_done th
  ∧ ∃ before after, sy_history TaskDemo.final = before ++ after ∧ own 2 before = []
      ∧ let s1 := state_after TaskDemo.shared0 before in
        let '(todo, r) := exec (th_prog th) (perform_all (th_done th) s1) in
        run_flow (th_flow th) s1 = (r, perform_all (th_done th ++ todo) s1, trace_of (th_done th ++ todo)).
Proof.
  intros th.
  destruct (tasks_serialize TaskDemo.schedule TaskDemo.shared0 TaskDemo.final 2 th) as
    (K1 & K2 & before & after & K3 & K4 & K5 & _); [exact TaskDemo.runs|vm_compute; reflexivity|].
  split; [exact K1|split; [exact K2|]].
  exact (ex_intro _ before (ex_intro _ after (conj K3 (conj K4 K5)))).
Defined.


Lemma statistics_add_up_witness :
  let st := stats (sy_shared TaskDemo.final) in
  tcp_flows st = 2 ∧ udp_flows st = 1
  ∧ 0 ≤ blocked st + quic_dropped st + group_dropped st ≤ tcp_flows st + udp_flows st
  ∧ 0 ≤ proxy_fallbacks st ≤ tcp_flows st.
Proof.
  destruct (statistics_add_up TaskDemo.schedule TaskDemo.shared0 TaskDemo.final TaskDemo.runs) as (_ & _ & Hc).
  exact (Hc eq_refl eq_refl).
Defined.

Lemma tasks_finish_witness :
  let th := TaskDemo.thread_at 2 in
  (finished_task th = false → is_Some (sys_step (SRun 2) TaskDemo.final))
  ∧ ∃ n y' th' r, sys_run (replicate n (SRun 2)) TaskDemo.final = Some y'
      ∧ sy_threads y' !! 2%nat = Some th' ∧ th_prog th' = PEnd r
      ∧ ∃ s1, same_config s1 TaskDemo.shared0
          ∧ (run_flow (th_flow th) s1).1.1 = r ∧ (run_flow (th_flow th) s1).2 = trace_of (th_done th').
Proof.
  intros th. apply (tasks_finish TaskDemo.schedule TaskDemo.shared0 TaskDemo.final 2 th);
    [exact TaskDemo.runs|vm_compute; reflexivity].
Defined.

Lemma loop_is_run_witness :
  (run (omap loop_event TaskDemo.schedule) TaskDemo.shared0).1.1.1 = negb (sy_accepting TaskDemo.final)
  ∧ spawned TaskDemo.final = [] ++ (run (omap loop_event TaskDemo.schedule) TaskDemo.shared0).1.1.2.
Proof. exact (loop_is_run TaskDemo.schedule (sys_start TaskDemo.shared0) _ _ TaskDemo.runs eq_refl). Defined.

(** The flow of the browser that started after the answer was relayed asks the
    proxy for the name, though another task learnt it. *)
Example name_crosses_tasks :
  trace_of (th_done (TaskDemo.thread_at 2)) !! 1%nat
  = Some (EvProxy (socks5 (u "p") 1080) (Domain (u "www.example.com") 443)).
Proof. vm_compute. reflexivity. Qed.
