(* ===== verification/Engine.v ===== *)
(** * The engine ([lib.rs])

    The builder and its validation; the start/stop/drop life cycle of a
    [TunRedirect] with its watchdog, as a transition system.  Each successful
    start makes a session: the adapter with its routes, the cell the watchdog
    and the engine share it through, and the two tasks.  The calls of the API
    and the moves of the tasks are the labels; [run_labels] executes them. *)

From S2P Require Export Netstack.
Local Open Scope Z_scope.

Definition DEFAULT_QUIC_PORT : Z := 443.
Definition TCP_SESSION_TIMEOUT_SECS : Z := 15 * 60.

(** [ipstack_config]: the two fields it sets. *)
Record IpStackConfig : Type := MkStackConfig { mtu : Z; tcp_timeout_secs : Z }.
Definition ipstack_config : IpStackConfig := MkStackConfig TUN_MTU TCP_SESSION_TIMEOUT_SECS.

(** ** The builder *)

Record TunRedirectBuilder : Type := MkBuilder {
  b_proxy_addr : SocketAddr;
  b_rules : list Rule;
  b_proxy_configs : list ProxyConfig;
  b_quic_port : Z;
  b_quic_policy : QuicPolicy;
  b_ipv6 : bool;
  b_localhost_via_proxy : bool;
  b_log_cb : bool;
  b_conn_cb : bool
}.

Definition builder_new (a : SocketAddr) : TunRedirectBuilder :=
  MkBuilder a [] [] DEFAULT_QUIC_PORT QuicDrop true false false false.

(** [TunRedirect::builder] *)
Definition builder (proxy_addr : str) : result Error TunRedirectBuilder :=
  match parse_socket_addr proxy_addr with
  | Some a => Ok (builder_new a)
  | None => Err (InvalidAddress proxy_addr AddrParseSocket)
  end.

Definition add_rule (r : Rule) (b : TunRedirectBuilder) : TunRedirectBuilder :=
  MkBuilder (b_proxy_addr b) (b_rules b ++ [r]) (b_proxy_configs b) (b_quic_port b)
    (b_quic_policy b) (b_ipv6 b) (b_localhost_via_proxy b) (b_log_cb b) (b_conn_cb b).
Definition add_rules (rs : list Rule) (b : TunRedirectBuilder) : TunRedirectBuilder :=
  MkBuilder (b_proxy_addr b) (b_rules b ++ rs) (b_proxy_configs b) (b_quic_port b)
    (b_quic_policy b) (b_ipv6 b) (b_localhost_via_proxy b) (b_log_cb b) (b_conn_cb b).
Definition add_proxy_config (c : ProxyConfig) (b : TunRedirectBuilder) : TunRedirectBuilder :=
  MkBuilder (b_proxy_addr b) (b_rules b) (b_proxy_configs b ++ [c]) (b_quic_port b)
    (b_quic_policy b) (b_ipv6 b) (b_localhost_via_proxy b) (b_log_cb b) (b_conn_cb b).
Definition set_quic_port (p : Z) (b : TunRedirectBuilder) : TunRedirectBuilder :=
  MkBuilder (b_proxy_addr b) (b_rules b) (b_proxy_configs b) p
    (b_quic_policy b) (b_ipv6 b) (b_localhost_via_proxy b) (b_log_cb b) (b_conn_cb b).
Definition set_quic_policy (p : QuicPolicy) (b : TunRedirectBuilder) : TunRedirectBuilder :=
  MkBuilder (b_proxy_addr b) (b_rules b) (b_proxy_configs b) (b_quic_port b)
    p (b_ipv6 b) (b_localhost_via_proxy b) (b_log_cb b) (b_conn_cb b).
Definition set_ipv6 (e : bool) (b : TunRedirectBuilder) : TunRedirectBuilder :=
  MkBuilder (b_proxy_addr b) (b_rules b) (b_proxy_configs b) (b_quic_port b)
    (b_quic_policy b) e (b_localhost_via_proxy b) (b_log_cb b) (b_conn_cb b).
Definition set_localhost_via_proxy (e : bool) (b : TunRedirectBuilder) : TunRedirectBuilder :=
  MkBuilder (b_proxy_addr b) (b_rules b) (b_proxy_configs b) (b_quic_port b)
    (b_quic_policy b) (b_ipv6 b) e (b_log_cb b) (b_conn_cb b).
Definition on_log (b : TunRedirectBuilder) : TunRedirectBuilder :=
  MkBuilder (b_proxy_addr b) (b_rules b) (b_proxy_configs b) (b_quic_port b)
    (b_quic_policy b) (b_ipv6 b) (b_localhost_via_proxy b) true (b_conn_cb b).
Definition on_connection (b : TunRedirectBuilder) : TunRedirectBuilder :=
  MkBuilder (b_proxy_addr b) (b_rules b) (b_proxy_configs b) (b_quic_port b)
    (b_quic_policy b) (b_ipv6 b) (b_localhost_via_proxy b) (b_log_cb b) true.

(** The loop over [proxy_configs.iter_mut().enumerate()]: ids from [i + 1] as
    [u32], stopping at the first configuration that is not valid. *)
Fixpoint assign_ids (i : Z) (cs : list ProxyConfig) : result Error (list ProxyConfig) :=
  match cs with
  | [] => Ok []
  | c :: cs' =>
    let c := set_config_id c ((i + 1) mod 2 ^ 32) in
    _ ← validate c;
    rest ← assign_ids (i + 1) cs';
    Ok (c :: rest)
  end.

(** [build], before the engine is wrapped around the shared state. *)
Definition build_shared `{RegexEngine} (pid : Z) (b : TunRedirectBuilder) : outcome (result Error Shared) :=
  let cs := match b_proxy_configs b with
            | [] => [http (show_ip (sa_ip (b_proxy_addr b))) (sa_port (b_proxy_addr b))]
            | cs => cs
            end in
  match assign_ids 0 cs with
  | Err e => mret (Err e)
  | Ok cs =>
    rs ← ruleset_new (b_rules b);
    mret (Ok (MkShared rs cs cache_default (b_localhost_via_proxy b) (b_quic_port b) (b_quic_policy b)
                pid None stats_default (b_log_cb b) (b_conn_cb b) false))
  end.

(** ** Sessions *)

Inductive ns_state : Type := NsRunning | NsEnded | NsPanicked.
Inductive wd_state : Type := WdWaiting | WdJoining | WdDone | WdFailed | WdAborted.
#[export] Instance ns_state_eq_dec : EqDecision ns_state.
Proof. solve_decision. Defined.
#[export] Instance wd_state_eq_dec : EqDecision wd_state.
Proof. solve_decision. Defined.

(** [taken]: the shared [Option<TunAdapter>] has been emptied.  [routes],
    [session_open] and [present] say whether the engine has asked for the
    routes, the session and the device to be removed ([remove_routes],
    [shutdown_session] and the drop, which a teardown does in one go), and
    [removals] how often it did; what the system makes of the requests is in
    [Host].  [shutdown_sent]: the watch channel of the session has been sent
    [true]. *)
Record session : Type := MkSession {
  taken : bool;
  routes : bool;
  session_open : bool;
  present : bool;
  removals : nat;
  netstack : ns_state;
  watchdog : wd_state;
  shutdown_sent : bool
}.

Definition new_session : session := MkSession false true true true 0 NsRunning WdWaiting false.

(** [if let Some(mut tun) = adapter.lock().ok().and_then(|mut g| g.take())
    { tun.remove_routes(); tun.shutdown_session(); }] and the drop of [tun]. *)
Definition teardown (s : session) : session :=
  if taken s then s
  else MkSession true false false false (S (removals s)) (netstack s) (watchdog s) (shutdown_sent s).

Definition with_netstack (n : ns_state) (s : session) : session :=
  MkSession (taken s) (routes s) (session_open s) (present s) (removals s) n (watchdog s) (shutdown_sent s).
Definition with_watchdog (w : wd_state) (s : session) : session :=
  MkSession (taken s) (routes s) (session_open s) (present s) (removals s) (netstack s) w (shutdown_sent s).
Definition send_shutdown (s : session) : session :=
  MkSession (taken s) (routes s) (session_open s) (present s) (removals s) (netstack s) (watchdog s) true.

(** ** The engine *)

Inductive engine_log : Type := LogAdapterUp (i : PhysicalInterface) | LogStopped | LogTornDown.

(** [running_flag] is [shared.running]; [handle] is the [RunState] behind
    [self.running], by its session; [stopping] are the sessions a pending
    [stop] call awaits. *)
Record engine : Type := MkEngine {
  running_flag : bool;
  handle : option nat;
  sessions : list session;
  cell : option PhysicalInterface;
  stopping : list nat;
  logs : list engine_log;
  dropped : bool
}.

Definition engine_new : engine := MkEngine false None [] None [] [] false.

Definition with_sessions (f : list session → list session) (e : engine) : engine :=
  MkEngine (running_flag e) (handle e) (f (sessions e)) (cell e) (stopping e) (logs e) (dropped e).
Definition set_running (b : bool) (h : option nat) (e : engine) : engine :=
  MkEngine b h (sessions e) (cell e) (stopping e) (logs e) (dropped e).
Definition set_cell (i : PhysicalInterface) (e : engine) : engine :=
  MkEngine (running_flag e) (handle e) (sessions e)
    (match cell e with Some j => Some j | None => Some i end) (stopping e) (logs e) (dropped e).
Definition set_stopping (l : list nat) (e : engine) : engine :=
  MkEngine (running_flag e) (handle e) (sessions e) (cell e) l (logs e) (dropped e).
Definition add_log (l : engine_log) (e : engine) : engine :=
  MkEngine (running_flag e) (handle e) (sessions e) (cell e) (stopping e) (logs e ++ [l]) (dropped e).
Definition set_dropped (e : engine) : engine :=
  MkEngine (running_flag e) (handle e) (sessions e) (cell e) (stopping e) (logs e) true.

(** The platform's answers to one start; [None] is success. *)
Record start_env : Type := MkStartEnv {
  se_discover : PhysicalInterface;
  se_privileged : bool;
  se_create : option Error;
  se_session : option io_error;
  se_device : option io_error
}.

(** [Backend::create] *)
Definition backend_create (env : start_env) : result Error unit :=
  if negb (se_privileged env) then Err NotElevated
  else match se_create env with Some er => Err er | None => Ok tt end.

Definition no_interface : Error :=
  netcfg_error (u "discover_physical_interface") (IoError NotConnected "no internet-facing interface found").

(** [start_inner]: the new session's index.  An adapter created before a later
    step fails is dropped on the way out. *)
Definition start_inner (env : start_env) (e : engine) : result Error nat * engine :=
  let iface := se_discover env in
  if interface_is_empty iface then (Err no_interface, e)
  else
    let e := set_cell iface e in
    match backend_create env with
    | Err er => (Err er, e)
    | Ok _ =>
      let e := add_log (LogAdapterUp iface) e in
      match se_session env, se_device env with
      | Some er, _ | None, Some er => (Err (Io er), e)
      | None, None =>
        (Ok (length (sessions e)), with_sessions (λ ss, ss ++ [new_session]) e)
      end
    end.

Definition start (env : start_env) (e : engine) : result Error unit * engine :=
  if running_flag e then (Err AlreadyRunning, e)
  else match start_inner env (set_running true (handle e) e) with
  | (Ok k, e) => (Ok tt, set_running true (Some k) e)
  | (Err er, e) => (Err er, set_running false (handle e) e)
  end.

(** [stop] up to its await, and after it. *)
Definition stop_begin (e : engine) : result Error nat * engine :=
  match handle e with
  | None => (Err NotRunning, e)
  | Some k =>
    (Ok k, set_stopping (k :: stopping e)
             (with_sessions (alter send_shutdown k) (set_running false None e)))
  end.

Definition finished (w : wd_state) : bool :=
  match w with WdDone | WdFailed | WdAborted => true | _ => false end.

Definition stop_end (k : nat) (e : engine) : option engine :=
  s ← sessions e !! k;
  if bool_decide (k ∈ stopping e) && finished (watchdog s) then
    let e := set_stopping (List.filter (λ j, negb (j =? k)%nat) (stopping e)) e in
    let e := match watchdog s with
             | WdDone => e
             | _ => with_sessions (alter teardown k) e
             end in
    Some (add_log LogStopped e)
  else None.

Definition is_running (e : engine) : bool := match handle e with Some _ => true | None => false end.

(** [Drop for TunRedirect] *)
Definition drop_engine (e : engine) : engine :=
  match handle e with
  | None => set_dropped e
  | Some k =>
    set_dropped (with_sessions
      (alter (λ s, let s := teardown (send_shutdown s) in
                   if finished (watchdog s) then s else with_watchdog WdAborted s) k)
      (set_running false None e))
  end.

(** ** The transition system *)

(** [LNetstackEnds] is the netstack's loop leaving by [shutdown.changed()],
    which needs the signal; [LAcceptEnds] its leaving by an error of [accept]. *)
Inductive label : Type :=
  | LStart (env : start_env)
  | LStopBegin
  | LStopEnd (k : nat)
  | LStopCancel (k : nat)
  | LNetstackEnds (k : nat)
  | LAcceptEnds (k : nat)
  | LNetstackPanics (k : nat)
  | LWatchdogTeardown (k : nat)
  | LWatchdogJoin (k : nat)
  | LWatchdogFails (k : nat)
  | LDrop.

Definition session_step (k : nat) (enabled : session → bool) (f : session → session) (e : engine)
    : option engine :=
  s ← sessions e !! k;
  if enabled s then Some (with_sessions (alter f k) e) else None.

Definition step (l : label) (e : engine) : option engine :=
  match l with
  | LStart env => if dropped e then None else Some (start env e).2
  | LStopBegin => if dropped e then None else Some (stop_begin e).2
  | LStopEnd k => stop_end k e
  | LStopCancel k =>
    if bool_decide (k ∈ stopping e)
    then Some (set_stopping (List.filter (λ j, negb (j =? k)%nat) (stopping e)) e) else None
  | LNetstackEnds k =>
    session_step k (λ s, bool_decide (netstack s = NsRunning) && shutdown_sent s) (with_netstack NsEnded) e
  | LAcceptEnds k =>
    session_step k (λ s, bool_decide (netstack s = NsRunning)) (with_netstack NsEnded) e
  | LNetstackPanics k =>
    session_step k (λ s, bool_decide (netstack s = NsRunning)) (with_netstack NsPanicked) e
  | LWatchdogTeardown k =>
    session_step k (λ s, bool_decide (watchdog s = WdWaiting) && bool_decide (netstack s ≠ NsRunning))
      (λ s, with_watchdog WdJoining (teardown s)) e
  | LWatchdogJoin k =>
    e' ← session_step k (λ s, bool_decide (watchdog s = WdJoining) && negb (session_open s))
           (with_watchdog WdDone) e;
    Some (add_log LogTornDown e')
  | LWatchdogFails k =>
    session_step k (λ s, negb (finished (watchdog s))) (with_watchdog WdFailed) e
  | LDrop => if dropped e || bool_decide (stopping e ≠ []) then None else Some (drop_engine e)
  end.

Fixpoint run_labels (ls : list label) (e : engine) : option engine :=
  match ls with [] => Some e | l :: ls' => e' ← step l e; run_labels ls' e' end.

Definition reachable (e : engine) : Prop := ∃ ls, run_labels ls engine_new = Some e.

(** ** The builder *)

Lemma assign_ids_ok i cs cs' :
  assign_ids i cs = Ok cs' →
  cs' = imap (λ j c, set_config_id c ((i + Z.of_nat j + 1) mod 2 ^ 32)) cs
  ∧ Forall (λ c, validate c = Ok tt) cs'.
Proof.
  revert i cs'. induction cs as [|c cs IH]; intros i cs'; cbn [assign_ids]; [by intros [= <-]|].
  rewrite validate_set_config_id. destruct (validate c) as [[]|] eqn:Ev; cbn [mbind result_bind]; [|done].
  destruct (assign_ids (i + 1) cs) as [rest|] eqn:Er; cbn [mbind result_bind]; [|done].
  intros [= <-]. destruct (IH _ _ Er) as [-> Hf]. split.
  - simpl. f_equal; [f_equal; f_equal; lia|]. apply imap_ext. intros j x _. simpl.
    f_equal. f_equal. lia.
  - constructor; [by rewrite validate_set_config_id|done].
Qed.

Lemma assign_ids_err i cs er :
  assign_ids i cs = Err er → ∃ c, c ∈ cs ∧ validate c = Err er.
Proof.
  revert i. induction cs as [|c cs IH]; intros i; cbn [assign_ids]; [done|].
  rewrite validate_set_config_id. destruct (validate c) as [[]|er'] eqn:Ev; cbn [mbind result_bind].
  - destruct (assign_ids (i + 1) cs) as [rest|er'] eqn:Er; cbn [mbind result_bind]; [done|].
    intros [= ->]. destruct (IH _ Er) as (c' & ? & ?). exists c'. split; [by right|done].
  - intros [= ->]. exists c. split; [by left|done].
Qed.

(** C39: what [build] produces.  A successful build, from fewer than 2^32 - 1
    configurations, registers at least one
    upstream proxy — the builder's address when the caller gave none — and every
    registered configuration is valid and carries the next id from 1; so a
    [Proxy] rule always finds a configuration: its own when it names one of
    1..n, the first registered otherwise. *)
Theorem build_configs `{RegexEngine} pid b s :
  build_shared pid b = Done (Ok s) → zlen (b_proxy_configs b) < 2 ^ 32 - 1 →
  let cs := proxy_configs s in
  cs ≠ [] ∧ Forall (λ c, trim (host c) ≠ [] ∧ port c ≠ 0) cs
  ∧ (∀ j c, cs !! j = Some c → config_id c = Z.of_nat j + 1)
  ∧ (∀ id, ∃ c, find_proxy_config s id = Some c
       ∧ if (1 <=? id) && (id <=? zlen cs) then cs !! Z.to_nat (id - 1) = Some c else head cs = Some c).
Proof.
  unfold build_shared. set (cs0 := match b_proxy_configs b with [] => _ | cs => cs end).
  destruct (assign_ids 0 cs0) as [cs|] eqn:Ea; [|done].
  destruct (ruleset_new (b_rules b)) as [rs|]; cbn [mbind outcome_bind]; [|done].
  intros [= <-] Hlen. cbn [proxy_configs].
  assert (cs0 ≠ [] ∧ zlen cs0 < 2 ^ 32) as [Hne Hl0].
  { unfold cs0. destruct (b_proxy_configs b) as [|c l]; [done|]. split; [done|]. unfold zlen in *. lia. }
  destruct (assign_ids_ok _ _ _ Ea) as [-> Hv]. clear Ea. set (cs := imap _ cs0) in *.
  assert (length cs = length cs0) as Hlc by apply length_imap.
  assert (∀ j c, cs !! j = Some c → config_id c = Z.of_nat j + 1) as Hid.
  { intros j c Hj. unfold cs in Hj. rewrite list_lookup_imap in Hj.
    destruct (cs0 !! j) as [c0|] eqn:E; [|done]. simplify_eq/=.
    apply lookup_lt_Some in E. unfold zlen in Hl0. rewrite Z.mod_small by lia. lia. }
  assert (cs ≠ []) as Hne' by (intros He; rewrite He in Hlc; by destruct cs0).
  split_and!; [done| |done|].
  - eapply Forall_impl; [exact Hv|]. intros c Hc. by apply validate_ok.
  - intros id. unfold find_proxy_config. cbn [proxy_configs].
    destruct (List.find (λ c, config_id c =? id) cs) as [c|] eqn:Ef.
    + apply List.find_some in Ef as [Hin%list_elem_of_In He%Z.eqb_eq]. exists c. split; [done|].
      apply list_elem_of_lookup in Hin as [j Hj]. pose proof (Hid _ _ Hj) as Hj'.
      pose proof (lookup_lt_Some _ _ _ Hj). assert (1 ≤ id ≤ zlen cs) by (unfold zlen; lia).
      bool_lit. cbn [andb].
      by replace (Z.to_nat (id - 1)) with j by lia.
    + pose proof (List.find_none _ _ Ef) as Hn. destruct cs as [|c cs'] eqn:Ec; [done|].
      exists c. split; [done|].
      destruct (Z.leb_spec 1 id), (Z.leb_spec id (zlen (c :: cs'))); try done. exfalso.
      assert (1 ≤ id ≤ zlen (c :: cs')) as Hr by done.
      destruct (lookup_lt_is_Some_2 (c :: cs') (Z.to_nat (id - 1))) as [c' Hc']; [unfold zlen in Hr; lia|].
      pose proof (Hid _ _ Hc') as Hi. specialize (Hn c').
      rewrite Hi in Hn. unfold zlen in Hr. rewrite Z2Nat.id in Hn by lia.
      replace (id - 1 + 1) with id in Hn by lia. rewrite Z.eqb_refl in Hn.
      discriminate Hn. apply list_elem_of_In. by eapply list_elem_of_lookup_2.
Qed.

Lemma build_configs_witness :
  let b := add_proxy_config (socks5 (u "b") 1080) (add_proxy_config (http (u "a") 8080)
             (builder_new (SockAddr (V4 (ipv4 127 0 0 1)) 8080))) in
  ∃ s, build_shared (H:=MiniRegex.engine) 7 b = Done (Ok s)
  ∧ let cs := proxy_configs s in
    cs ≠ [] ∧ Forall (λ c, trim (host c) ≠ [] ∧ port c ≠ 0) cs
    ∧ (∀ j c, cs !! j = Some c → config_id c = Z.of_nat j + 1)
    ∧ (∀ id, ∃ c, find_proxy_config s id = Some c
         ∧ if (1 <=? id) && (id <=? zlen cs) then cs !! Z.to_nat (id - 1) = Some c else head cs = Some c).
Proof.
  intros b. eexists. split; [vm_compute; exact eq_refl|].
  apply (build_configs (H:=MiniRegex.engine) 7 b); [vm_compute; exact eq_refl|vm_compute; exact eq_refl].
Defined.

(** ** Invariant *)

Definition session_wf (s : session) : Prop :=
  (if taken s
   then routes s = false ∧ session_open s = false ∧ present s = false ∧ removals s = 1%nat
   else routes s = true ∧ session_open s = true ∧ present s = true ∧ removals s = 0%nat)
  ∧ (watchdog s ∈ [WdJoining; WdDone; WdAborted] → taken s = true).

(** Session [k] has been sent the shutdown signal. *)
Definition asked (e : engine) (k : nat) : Prop := ∃ s, sessions e !! k = Some s ∧ shutdown_sent s = true.

Record engine_wf (e : engine) : Prop := {
  ew_sessions : Forall session_wf (sessions e);
  ew_flag : running_flag e = is_running e;
  ew_handle : ∀ k, handle e = Some k → (k < length (sessions e))%nat ∧ k ∉ stopping e;
  ew_stopping : Forall (asked e) (stopping e);
  ew_dropped : dropped e = true → handle e = None
}.

Lemma teardown_wf s : session_wf s → session_wf (teardown s) ∧ taken (teardown s) = true.
Proof.
  unfold session_wf, teardown. destruct (taken s) eqn:E; simpl; [rewrite E; done|].
  intros [(? & ? & ? & ->) _]. done.
Qed.

Lemma session_wf_netstack n s : session_wf s → session_wf (with_netstack n s).
Proof. done. Qed.
Lemma session_wf_shutdown s : session_wf s → session_wf (send_shutdown s).
Proof. done. Qed.
Lemma session_wf_watchdog w s :
  session_wf s → taken s = true ∨ w ∈ [WdWaiting; WdFailed] → session_wf (with_watchdog w s).
Proof.
  intros [H1 _] Hw. split; [exact H1|]. simpl. intros Hin. destruct Hw as [|Hw]; [done|set_solver].
Qed.

Lemma alter_wf f k (ss : list session) :
  Forall session_wf ss → (∀ s, ss !! k = Some s → session_wf s → session_wf (f s)) →
  Forall session_wf (alter f k ss).
Proof. intros Hs Hf. apply Forall_alter; [done|]. auto. Qed.

Lemma teardown_asked s : shutdown_sent (teardown s) = shutdown_sent s.
Proof. unfold teardown. by destruct (taken s). Qed.

Lemma asked_alter f k j e :
  (∀ s, shutdown_sent s = true → shutdown_sent (f s) = true) →
  asked e j → asked (with_sessions (alter f k) e) j.
Proof.
  intros Hf (s & Hs & Ha). unfold asked. cbn [with_sessions sessions].
  destruct (Nat.eq_dec j k) as [->|Hj].
  - exists (f s). rewrite list_lookup_alter_eq, Hs. auto.
  - exists s. by rewrite list_lookup_alter_ne.
Qed.

(** An update of one session keeps the rest of the invariant. *)
Lemma engine_wf_alter f k e :
  engine_wf e → (∀ s, sessions e !! k = Some s → session_wf s → session_wf (f s)) →
  (∀ s, shutdown_sent s = true → shutdown_sent (f s) = true) →
  engine_wf (with_sessions (alter f k) e).
Proof.
  intros [H1 H2 H3 H4 H5] Hf Ha. split; simpl; rewrite ?length_alter; auto; [by apply alter_wf|].
  eapply Forall_impl; [exact H4|]. intros j. by apply asked_alter.
Qed.

Lemma engine_wf_log l e : engine_wf e → engine_wf (add_log l e).
Proof. intros [H1 H2 H3 H4 H5]. by split. Qed.

Lemma engine_wf_unstop k e :
  engine_wf e → engine_wf (set_stopping (List.filter (λ j, negb (j =? k)%nat) (stopping e)) e).
Proof.
  intros [H1 H2 H3 H4 H5]. split; simpl; auto.
  - intros j Hj. destruct (H3 j Hj) as [? Hn]. split; [done|]. intros Hin. apply Hn.
    apply list_elem_of_In, List.filter_In in Hin as [? _]. by apply list_elem_of_In.
  - rewrite Forall_forall in *. intros j Hin. apply H4.
    apply list_elem_of_In, List.filter_In in Hin as [? _]. by apply list_elem_of_In.
Qed.

Lemma start_wf env e : engine_wf e → dropped e = false → engine_wf (start env e).2.
Proof.
  intros Hw Hd. pose proof Hw as [H1 H2 H3 H4 H5]. unfold start.
  destruct (running_flag e) eqn:Er; [exact Hw|].
  assert (handle e = None) as Hh by (unfold is_running in H2; by destruct (handle e)).
  unfold start_inner. destruct (interface_is_empty _).
  { split; simpl; auto. }
  unfold backend_create. destruct (negb _); [by split; simpl; auto|].
  destruct (se_create env); [by split; simpl; auto|].
  destruct (se_session env); [by split; simpl; auto|].
  destruct (se_device env); [by split; simpl; auto|].
  split; simpl; rewrite ?length_app; simpl.
  - apply Forall_app. split; [done|]. constructor; [|done]. split; [done|]. simpl. set_solver.
  - done.
  - intros k [= <-]. split; [lia|]. intros Hin. rewrite Forall_forall in H4.
    apply H4 in Hin as (s & Hs & _). apply lookup_lt_Some in Hs. lia.
  - eapply Forall_impl; [exact H4|]. intros k (s & Hs & Ha). exists s. split; [|done]. cbn [sessions].
    by apply lookup_app_l_Some.
  - by rewrite Hd.
Qed.

Lemma stop_begin_wf e : engine_wf e → engine_wf (stop_begin e).2.
Proof.
  intros Hw. pose proof Hw as [H1 H2 H3 H4 H5]. unfold stop_begin. destruct (handle e) as [k|] eqn:Eh; [|done].
  destruct (H3 k eq_refl) as [Hk Hn]. split; simpl; rewrite ?length_alter; try done.
  - apply alter_wf; [done|]. intros s _. apply session_wf_shutdown.
  - constructor.
    + destruct (lookup_lt_is_Some_2 _ _ Hk) as [s Hs]. exists (send_shutdown s).
      cbn [set_stopping with_sessions sessions set_running]. by rewrite list_lookup_alter_eq, Hs.
    + eapply Forall_impl; [exact H4|]. intros j Hj. by apply (asked_alter send_shutdown k j e).
Qed.

Lemma stop_end_wf k e e' : engine_wf e → stop_end k e = Some e' → engine_wf e'.
Proof.
  intros Hw. unfold stop_end. destruct (sessions e !! k) as [s|] eqn:Es; [|done]. cbn [mbind option_bind].
  destruct (_ && _); [|done]. intros [= <-]. apply engine_wf_log.
  pose proof (engine_wf_unstop k e Hw) as Hu. destruct (watchdog s); try done;
    apply engine_wf_alter; try done;
    first [by intros s' _ Hs'; apply teardown_wf|by intros s'; rewrite teardown_asked].
Qed.

Lemma drop_wf e : engine_wf e → stopping e = [] → engine_wf (drop_engine e).
Proof.
  intros Hw Hst. pose proof Hw as [H1 H2 H3 H4 H5]. unfold drop_engine.
  destruct (handle e) as [k|] eqn:Eh; [|by split; simpl; auto; rewrite Eh].
  split; simpl; rewrite ?length_alter; try done; [|by rewrite Hst; constructor].
  apply alter_wf; [done|]. intros s _ Hs.
  destruct (teardown_wf (send_shutdown s) Hs) as [Ht Htk].
  destruct (finished _); [done|]. apply session_wf_watchdog; auto.
Qed.

Lemma session_step_wf k enabled f e e' :
  engine_wf e → session_step k enabled f e = Some e' →
  (∀ s, sessions e !! k = Some s → enabled s = true → session_wf s → session_wf (f s)) →
  (∀ s, shutdown_sent s = true → shutdown_sent (f s) = true) → engine_wf e'.
Proof.
  intros Hw. unfold session_step. destruct (sessions e !! k) as [s|] eqn:Es; [|done]. cbn [mbind option_bind].
  destruct (enabled s) eqn:Ee; [|done]. intros [= <-] Hf Ha. apply engine_wf_alter; [done| |done].
  intros s' Hs'. rewrite Es in Hs'. injection Hs' as <-. by apply Hf.
Qed.

Lemma step_wf l e e' : engine_wf e → step l e = Some e' → engine_wf e'.
Proof.
  intros Hw. destruct l as [env| |k|k|k|k|k|k|k|k|]; cbn [step].
  - destruct (dropped e) eqn:Ed; [done|]. intros [= <-]. by apply start_wf.
  - destruct (dropped e); [done|]. intros [= <-]. by apply stop_begin_wf.
  - by apply stop_end_wf.
  - case_match; [|done]. intros [= <-]. by apply engine_wf_unstop.
  - intros Hs. by eapply session_step_wf.
  - intros Hs. by eapply session_step_wf.
  - intros Hs. by eapply session_step_wf.
  - intros Hs. eapply session_step_wf; [done|exact Hs| |].
    + intros s _ _ Hs'. destruct (teardown_wf s Hs'). apply session_wf_watchdog; auto.
    + intros s. cbn [with_watchdog shutdown_sent]. by rewrite teardown_asked.
  - destruct (session_step _ _ _ e) as [e1|] eqn:E1; [|done]. cbn [mbind option_bind]. intros [= <-].
    apply engine_wf_log. eapply session_step_wf; [done|exact E1| |done].
    intros s _ [Eb%bool_decide_eq_true _]%andb_true_iff Hwf. apply session_wf_watchdog; [done|]. left.
    destruct Hwf as [_ Hwd]. apply Hwd. rewrite Eb. set_solver.
  - intros Hs. eapply session_step_wf; [done|exact Hs| |done].
    intros s _ _ Hs'. apply session_wf_watchdog; [done|]. right. set_solver.
  - destruct (dropped e); [done|]. cbn [orb].
    destruct (bool_decide (stopping e ≠ [])) eqn:Eb; [done|]. apply bool_decide_eq_false in Eb.
    intros [= <-]. apply drop_wf; [done|]. destruct (stopping e); [done|]. by destruct Eb.
Qed.

Lemma run_labels_wf ls e e' : engine_wf e → run_labels ls e = Some e' → engine_wf e'.
Proof.
  revert e. induction ls as [|l ls IH]; intros e Hw; simpl; [by intros [= <-]|].
  destruct (step l e) as [e1|] eqn:E; [|done]. simpl. apply IH. by eapply step_wf.
Qed.

Lemma engine_new_wf : engine_wf engine_new.
Proof. split; try done; by constructor. Qed.

Lemma reachable_wf e : reachable e → engine_wf e.
Proof. intros [ls Hls]. eapply run_labels_wf; [apply engine_new_wf|done]. Qed.

Lemma reachable_session e k s : reachable e → sessions e !! k = Some s → session_wf s.
Proof.
  intros [H1 _ _ _ _]%reachable_wf Hs. rewrite Forall_forall in H1.
  by apply H1, (list_elem_of_lookup_2 _ k).
Qed.

(** ** Teardown *)




(** ** Progress *)

(** The moves of the tasks, which no caller controls. *)
Definition task_label (l : label) : bool :=
  match l with
  | LNetstackEnds _ | LAcceptEnds _ | LNetstackPanics _ | LWatchdogTeardown _ | LWatchdogJoin _
  | LWatchdogFails _ => true
  | _ => false
  end.

(** Those of them that need neither an error nor a panic. *)
Definition prompt_label (l : label) : bool :=
  match l with LNetstackEnds _ | LWatchdogTeardown _ | LWatchdogJoin _ => true | _ => false end.

Definition session_work (s : session) : nat :=
  (match netstack s with NsRunning => 1 | _ => 0 end
   + match watchdog s with WdWaiting => 2 | WdJoining => 1 | _ => 0 end)%nat.
Definition work (e : engine) : nat := list_sum (map session_work (sessions e)).

Lemma work_alter f k e s :
  sessions e !! k = Some s → (session_work (f s) < session_work s)%nat →
  (work (with_sessions (alter f k) e) < work e)%nat.
Proof.
  unfold work. cbn [with_sessions sessions]. generalize (sessions e). clear e.
  intros ss. revert k. induction ss as [|s0 ss IH]; intros [|k] Hs Hw; simplify_eq/=; [lia|].
  specialize (IH k Hs Hw). change (list_alter f k ss) with (alter f k ss). lia.
Qed.

Lemma task_step_work l e e' :
  reachable e → task_label l = true → step l e = Some e' → (work e' < work e)%nat.
Proof.
  intros Hr Hl. destruct l as [env| |k|k|k|k|k|k|k|k|]; try done; cbn [step]; unfold session_step;
    (destruct (sessions e !! k) as [s|] eqn:Es; [|done]); cbn [mbind option_bind].
  - case_bool_decide as Hn; [|done]. cbn [andb]. case_match; [|done]. intros [= <-].
    apply (work_alter _ _ _ s Es). unfold session_work. simpl. rewrite Hn. lia.
  - case_bool_decide as Hn; [|done]. intros [= <-]. apply (work_alter _ _ _ s Es).
    unfold session_work. simpl. rewrite Hn. lia.
  - case_bool_decide as Hn; [|done]. intros [= <-]. apply (work_alter _ _ _ s Es).
    unfold session_work. simpl. rewrite Hn. lia.
  - destruct (bool_decide (watchdog s = WdWaiting)) eqn:Ew; [|done].
    apply bool_decide_eq_true in Ew. cbn [andb]. case_match; [|done].
    intros [= <-]. apply (work_alter _ _ _ s Es). unfold session_work. simpl. rewrite Ew.
    unfold teardown. destruct (taken s); simpl; lia.
  - destruct (bool_decide (watchdog s = WdJoining)) eqn:Ew; [|done].
    apply bool_decide_eq_true in Ew. cbn [andb]. case_match; [|done].
    intros [= <-]. apply (work_alter _ _ _ s Es). unfold session_work. simpl. rewrite Ew. lia.
  - destruct (finished (watchdog s)) eqn:Ef; [done|]. intros [= <-].
    apply (work_alter _ _ _ s Es). unfold session_work. simpl. destruct (watchdog s); simpl in *; done || lia.
Qed.

Lemma reachable_step l e e' : reachable e → step l e = Some e' → reachable e'.
Proof.
  intros [ls Hls] Hs. exists (ls ++ [l]). revert Hls. generalize engine_new.
  induction ls as [|l0 ls IH]; intros e0; simpl; [intros [= ->]; by rewrite Hs|].
  destruct (step l0 e0); [|done]. simpl. apply IH.
Qed.

Lemma task_runs_bounded ls e e' :
  reachable e → Forall (λ l, task_label l = true) ls → run_labels ls e = Some e' →
  (length ls + work e' ≤ work e)%nat.
Proof.
  intros Hr Hl. revert e Hr. induction Hl as [|l ls Ht _ IH]; intros e Hr; simpl; [intros [= ->]; lia|].
  destruct (step l e) as [e1|] eqn:E; [|done]. simpl. intros Hrun.
  pose proof (task_step_work _ _ _ Hr Ht E). pose proof (IH e1 (reachable_step _ _ _ Hr E) Hrun). lia.
Qed.

Lemma stop_end_enabled e k s :
  sessions e !! k = Some s → k ∈ stopping e → finished (watchdog s) = true → ∃ e', stop_end k e = Some e'.
Proof.
  intros Hs Hk Hf. unfold stop_end. rewrite Hs. cbn [mbind option_bind].
  rewrite bool_decide_true, Hf by done. by eexists.
Qed.

Lemma step_alter_next k s enabled f e :
  sessions e !! k = Some s → enabled s = true →
  session_step k enabled f e = Some (with_sessions (alter f k) e).
Proof. intros Hs He. unfold session_step. rewrite Hs. cbn. by rewrite He. Qed.

Lemma run_labels_app ls ls' e e1 :
  run_labels ls e = Some e1 → run_labels (ls ++ ls') e = run_labels ls' e1.
Proof.
  revert e. induction ls as [|l ls IH]; intros e; simpl; [by intros [= ->]|].
  destruct (step l e); [apply IH|done].
Qed.

(** A task's move leaves the pending stops. *)
Lemma task_step_stopping l e e' : task_label l = true → step l e = Some e' → stopping e' = stopping e.
Proof.
  intros Hl. destruct l; try done; cbn [step]; unfold session_step;
    (destruct (sessions e !! _) as [s|]; [|done]); cbn [mbind option_bind];
    case_match; try done; by intros [= <-].
Qed.

Lemma task_runs_stopping ls e e' :
  Forall (λ l, task_label l = true) ls → run_labels ls e = Some e' →
  reachable e → reachable e' ∧ stopping e' = stopping e ∧ length (sessions e') = length (sessions e).
Proof.
  intros Hl. revert e. induction Hl as [|l ls Ht _ IH]; intros e; simpl; [by intros [= ->]|].
  destruct (step l e) as [e1|] eqn:E; [|done]. simpl. intros Hrun Hr.
  destruct (IH e1 Hrun (reachable_step _ _ _ Hr E)) as (? & -> & ->). split; [done|].
  split; [by eapply task_step_stopping|]. revert E. destruct l; try done; cbn [step]; unfold session_step;
    (destruct (sessions e !! _) as [s|]; [|done]); cbn [mbind option_bind];
    case_match; try done; intros [= <-]; cbn [with_sessions add_log sessions]; by rewrite length_alter.
Qed.

(** A run of prompt moves after which the stop of session [k] can return. *)
Definition completes (n : nat) (k : nat) (e : engine) : Prop :=
  ∃ ls e1 e2, Forall (λ l, prompt_label l = true) ls ∧ (length ls ≤ n)%nat
    ∧ run_labels ls e = Some e1 ∧ step (LStopEnd k) e1 = Some e2.

Lemma completes_step n k l e e' :
  prompt_label l = true → step l e = Some e' → completes n k e' → completes (S n) k e.
Proof.
  intros Hl Hs (ls & e1 & e2 & H1 & H2 & H3 & H4). exists (l :: ls), e1, e2.
  split_and!; [by constructor|simpl; lia| |done]. simpl. by rewrite Hs.
Qed.

Lemma completes_finished k e s :
  sessions e !! k = Some s → k ∈ stopping e → finished (watchdog s) = true → completes 0 k e.
Proof.
  intros Hs Hk Hf. destruct (stop_end_enabled e k s Hs Hk Hf) as [e2 He2].
  exists [], e, e2. by split_and!.
Qed.

Lemma completes_joining k e s :
  sessions e !! k = Some s → k ∈ stopping e → session_wf s → watchdog s = WdJoining → completes 1 k e.
Proof.
  intros Hs Hk [Hw1 Hw2] Hj. assert (taken s = true) as Ht by (apply Hw2; rewrite Hj; set_solver).
  rewrite Ht in Hw1. destruct Hw1 as (_ & Ho & _).
  eapply (completes_step _ _ (LWatchdogJoin k)); [done| |].
  - cbn [step]. rewrite (step_alter_next _ s) by (done || by rewrite Hj, Ho, bool_decide_true). done.
  - apply (completes_finished _ _ (with_watchdog WdDone s)); [|done|done].
    cbn [add_log with_sessions sessions]. by rewrite list_lookup_alter_eq, Hs.
Qed.

Lemma completes_waiting k e s :
  sessions e !! k = Some s → k ∈ stopping e → session_wf s → watchdog s = WdWaiting →
  netstack s ≠ NsRunning → completes 2 k e.
Proof.
  intros Hs Hk Hw Hwd Hn.
  eapply (completes_step _ _ (LWatchdogTeardown k)); [done| |].
  - cbn [step]. rewrite (step_alter_next _ s) by (done || by rewrite Hwd, !bool_decide_true by done). done.
  - destruct (teardown_wf s Hw) as [Hwt Ht].
    apply (completes_joining _ _ (with_watchdog WdJoining (teardown s))); [|done| |done].
    + cbn [with_sessions sessions]. by rewrite list_lookup_alter_eq, Hs.
    + apply session_wf_watchdog; auto.
Qed.

Lemma completes_weaken n m k e : completes n k e → (n ≤ m)%nat → completes m k e.
Proof. intros (ls & e1 & e2 & ? & ? & ? & ?) Hle. exists ls, e1, e2. split_and!; try done. lia. Qed.

Lemma stop_can_complete e k : reachable e → k ∈ stopping e → completes 3 k e.
Proof.
  intros Hr Hk. pose proof (reachable_wf _ Hr) as [_ _ _ H4 _]. rewrite Forall_forall in H4.
  destruct (H4 k Hk) as (s & Es & Ha). pose proof (reachable_session _ _ _ Hr Es) as Hw.
  destruct (finished (watchdog s)) eqn:Ef.
  { eapply completes_weaken; [by eapply completes_finished|lia]. }
  destruct (watchdog s) eqn:Ewd; try done.
  - destruct (netstack s) eqn:En.
    + eapply (completes_step _ _ (LNetstackEnds k)); [done| |].
      * cbn [step]. rewrite (step_alter_next _ s) by (done || by rewrite En, Ha, bool_decide_true). done.
      * apply (completes_waiting _ _ (with_netstack NsEnded s)); try done.
        cbn [with_sessions sessions]. by rewrite list_lookup_alter_eq, Es.
    + eapply completes_weaken; [eapply completes_waiting; try done; by rewrite En|lia].
    + eapply completes_weaken; [eapply completes_waiting; try done; by rewrite En|lia].
  - eapply completes_weaken; [by eapply completes_joining|lia].
Qed.

(** C30: a pending [stop] completes.  Take any reachable state in which a stop
    of a session is pending, and let its tasks make any moves, errors and panics
    included.  They can make only a bounded number, and at every point the stop
    can return after at most three moves that need no error: the netstack's
    loop leaves because the shutdown signal was sent, the watchdog tears the
    adapter down, and it joins the reader. *)
Theorem stop_completes e k ls e' :
  reachable e → k ∈ stopping e → Forall (λ l, task_label l = true) ls → run_labels ls e = Some e' →
  completes 3 k e' ∧ (length ls ≤ 3 * length (sessions e))%nat.
Proof.
  intros Hr Hk Hl Hrun. destruct (task_runs_stopping _ _ _ Hl Hrun Hr) as (Hr' & Hst & _). split.
  - apply stop_can_complete; [done|by rewrite Hst].
  - pose proof (task_runs_bounded _ _ _ Hr Hl Hrun).
    assert (work e ≤ 3 * length (sessions e))%nat; [|lia]. unfold work. clear.
    induction (sessions e) as [|s ss IH]; simpl; [lia|]. unfold session_work at 1.
    destruct (netstack s), (watchdog s); lia.
Qed.

(** ** The API *)

(** The error of a start on an engine that is not running, in the order in
    which the code meets the obstacles. *)
Definition start_error (env : start_env) : option Error :=
  if interface_is_empty (se_discover env) then Some no_interface
  else if negb (se_privileged env) then Some NotElevated
  else match se_create env, se_session env, se_device env with
  | Some er, _, _ => Some er
  | None, Some er, _ | None, None, Some er => Some (Io er)
  | None, None, None => None
  end.

(** [start] and [stop] as callers see them, in every reachable state.  A
    second start answers [AlreadyRunning] and a stop of an engine that is not
    running answers [NotRunning], both changing nothing; otherwise a start fails
    with the first obstacle met, leaving no session and the engine startable
    again, or succeeds with one new session whose routes are up. *)
Theorem start_stop_api e env :
  reachable e →
  (is_running e = true → start env e = (Err AlreadyRunning, e))
  ∧ (is_running e = false → stop_begin e = (Err NotRunning, e))
  ∧ (is_running e = false →
     let '(r, e') := start env e in
     match start_error env with
     | Some er => r = Err er ∧ sessions e' = sessions e ∧ is_running e' = false
     | None => r = Ok tt ∧ sessions e' = sessions e ++ [new_session]
               ∧ handle e' = Some (length (sessions e))
     end).
Proof.
  intros [_ Hf _ _ _]%reachable_wf. split_and!.
  - intros Hr. unfold start. by rewrite Hf, Hr.
  - unfold is_running, stop_begin. by destruct (handle e).
  - intros Hr. unfold start. rewrite Hf, Hr. unfold start_inner, start_error.
    destruct (interface_is_empty _); [done|]. unfold backend_create.
    destruct (negb _); [done|]. destruct (se_create env); [done|].
    destruct (se_session env); [done|]. by destruct (se_device env).
Qed.

(** dropping the engine tears its session down synchronously, and no later
    call can bring one up. *)
Theorem drop_restores_network e e' :
  reachable e → step LDrop e = Some e' →
  (∀ k s, handle e = Some k → sessions e' !! k = Some s →
     routes s = false ∧ present s = false ∧ removals s = 1%nat)
  ∧ is_running e' = false ∧ (∀ env, step (LStart env) e' = None).
Proof.
  intros Hr. pose proof (reachable_wf _ Hr) as [_ _ Hh _ _]. cbn [step].
  destruct (dropped e); [done|]. cbn [orb]. destruct (bool_decide _); [done|]. intros [= <-].
  unfold drop_engine. destruct (handle e) as [k|] eqn:Eh; [|split_and!; [done|unfold is_running; cbn; by rewrite Eh|done]].
  split_and!; [|done|done]. intros k' s [= <-]. cbn [set_dropped with_sessions sessions set_running].
  destruct (sessions e !! k) as [s0|] eqn:Es; rewrite list_lookup_alter_eq, Es; [|done]. intros [= <-].
  destruct (teardown_wf (send_shutdown s0)) as [[Ht _] Htk]; [exact (reachable_session _ _ _ Hr Es)|].
  rewrite Htk in Ht. destruct Ht as (? & ? & ? & ?). by destruct (finished _).
Qed.

(** ** Concrete runs *)

Definition nic (i : Z) : PhysicalInterface := MkPhysicalInterface (Some i) None.
Definition good_start : start_env := MkStartEnv (nic 3) true None None None.
Definition after_labels (ls : list label) : engine := default engine_new (run_labels ls engine_new).

Lemma reachable_after ls : run_labels ls engine_new ≠ None → reachable (after_labels ls).
Proof. unfold after_labels, reachable. destruct (run_labels ls engine_new) eqn:E; [by exists ls|done]. Qed.




Lemma stop_completes_witness :
  let e := after_labels [LStart good_start; LStopBegin] in
  let e' := after_labels [LStart good_start; LStopBegin; LNetstackPanics 0] in
  completes 3 0 e' ∧ (length [LNetstackPanics 0] ≤ 3 * length (sessions e))%nat.
Proof.
  intros e e'. apply (stop_completes e 0 [LNetstackPanics 0] e').
  - by apply reachable_after.
  - by left.
  - by repeat constructor.
  - reflexivity.
Defined.

Lemma start_stop_api_witness :
  let e := after_labels [LStart good_start] in
  (is_running e = true → start good_start e = (Err AlreadyRunning, e))
  ∧ (is_running e = false → stop_begin e = (Err NotRunning, e))
  ∧ (is_running e = false →
     let '(r, e') := start good_start e in
     match start_error good_start with
     | Some er => r = Err er ∧ sessions e' = sessions e ∧ is_running e' = false
     | None => r = Ok tt ∧ sessions e' = sessions e ++ [new_session]
               ∧ handle e' = Some (length (sessions e))
     end).
Proof. intros e. apply start_stop_api. by apply reachable_after. Defined.

Lemma drop_restores_network_witness :
  let e := after_labels [LStart good_start] in
  ∃ e', step LDrop e = Some e' ∧ (∀ k s, handle e = Some k → sessions e' !! k = Some s →
     routes s = false ∧ present s = false ∧ removals s = 1%nat)
  ∧ is_running e' = false ∧ (∀ env, step (LStart env) e' = None).
Proof.
  intros e. eexists. split; [reflexivity|].
  apply (drop_restores_network e); [by apply reachable_after|reflexivity].
Defined.

(** ** Observations *)

(** Without the signal the same tasks make no move at all: a stop that does not
    send it waits forever. *)
Example unsignalled_netstack_waits :
  let e := after_labels [LStart good_start] in
  step (LNetstackEnds 0) e = None ∧ step (LWatchdogTeardown 0) e = None ∧ step (LWatchdogJoin 0) e = None.
Proof. by split_and!. Qed.

(** A start issued while a stop still waits for its watchdog succeeds: two
    adapters have their routes up at once. *)
Example start_during_stop_overlaps :
  let e := after_labels [LStart good_start; LStopBegin; LStart good_start] in
  map routes (sessions e) = [true; true].
Proof. reflexivity. Qed.

(** After a crash and the teardown that follows, the engine still says it runs
    and refuses to start. *)
Example crashed_engine_still_running :
  let e := after_labels [LStart good_start; LNetstackPanics 0; LWatchdogTeardown 0; LWatchdogJoin 0] in
  map routes (sessions e) = [false] ∧ is_running e = true ∧ (start good_start e).1 = Err AlreadyRunning.
Proof. by split_and!. Qed.

(** The interface is set once: a restart on another network keeps the old one. *)
Example restart_keeps_stale_interface :
  let e := after_labels [LStart good_start; LStopBegin; LNetstackEnds 0; LWatchdogTeardown 0;
                         LWatchdogJoin 0; LStopEnd 0; LStart (MkStartEnv (nic 8) true None None None)] in
  is_running e = true ∧ cell e = Some (nic 3).
Proof. by split. Qed.
