(* ===== verification/Typed.v ===== *)
(** * Machine types across a session

    The model writes machine integers as [Z], text as lists of scalar values and
    maps without bounds; Rust's types say more.  Here is that typing — widths of
    integers, validity of text, well-formed addresses, buffer sizes — for
    [Shared], the builder, the flows and the effects, and the proof that a built
    engine has it and that every schedule of the netstack keeps it, against process
    tables of the class [TypedTable]. *)

From S2P Require Export Tasks Engine.
Local Open Scope Z_scope.

Definition is_u32 (v : Z) : Prop := 0 ≤ v < 2 ^ 32.
Definition is_u64 (v : Z) : Prop := 0 ≤ v < U64.
#[export] Instance is_u32_dec v : base.Decision (is_u32 v).
Proof. unfold is_u32. apply _. Defined.
#[export] Instance is_u64_dec v : base.Decision (is_u64 v).
Proof. unfold is_u64. apply _. Defined.

(** ** Text *)

(** What [from_utf8] accepts is text. *)
Lemma from_utf8_str bs s : Forall is_byte bs → from_utf8 bs = Some s → is_str s.
Proof.
  remember (length bs) as n eqn:Hn. assert (length bs ≤ n)%nat as Hle by lia. clear Hn. revert bs s Hle.
  induction n as [|n IH]; intros bs s Hle Hb; [destruct bs; simpl in *; [|lia]; by intros [= <-]; constructor|].
  destruct Hb as [|b0 r0 H0 Hr0]; [by intros [= <-]; constructor|]. cbn [length from_utf8] in *.
  assert (∀ c r (x : option str), is_scalar c → (length r ≤ n)%nat → Forall is_byte r →
    from_utf8 r = x → cons c <$> x = Some s → is_str s) as Hcons.
  { intros c r x Hc Hr Hbr <-. destruct (from_utf8 r) as [t|] eqn:E; [|done]. intros [= <-].
    constructor; [done|by apply (IH r)]. }
  unfold is_byte in *. destruct (Z.ltb_spec b0 0x80).
  { apply (Hcons b0 r0); [unfold is_scalar; lia|lia|done..]. }
  destruct Hr0 as [|b1 r1 H1 Hr1]; [done|]. cbn [length] in *.
  destruct ((0xC2 <=? b0) && (b0 <=? 0xDF)) eqn:E2.
  { destruct (is_cont b1) eqn:Ec; [|done]. unfold is_cont in Ec.
    apply (Hcons _ r1); [unfold is_scalar; lia|lia|done..]. }
  destruct Hr1 as [|b2 r2 H2 Hr2]; [done|]. cbn [length] in *.
  destruct ((0xE0 <=? b0) && (b0 <=? 0xEF)) eqn:E3.
  { destruct (second_ok b0 b1 && is_cont b2) eqn:Ec; [|done]. unfold second_ok, is_cont in Ec.
    apply (Hcons _ r2); [|lia|done..]. unfold is_scalar.
    destruct (Z.eqb_spec b0 0xE0), (Z.eqb_spec b0 0xED), (Z.eqb_spec b0 0xF0), (Z.eqb_spec b0 0xF4); lia. }
  destruct Hr2 as [|b3 r3 H3 Hr3]; [done|]. cbn [length] in *.
  destruct ((0xF0 <=? b0) && (b0 <=? 0xF4) && second_ok b0 b1 && is_cont b2 && is_cont b3) eqn:Ec; [|done].
  unfold second_ok, is_cont in Ec. apply (Hcons _ r3); [|lia|done..]. unfold is_scalar.
  destruct (Z.eqb_spec b0 0xE0), (Z.eqb_spec b0 0xED), (Z.eqb_spec b0 0xF0), (Z.eqb_spec b0 0xF4); lia.
Qed.

Lemma str_app s t : is_str s → is_str t → is_str (s ++ t).
Proof. intros. by apply Forall_app. Qed.

Lemma str_u s : bool_decide (is_str (u s)) = true → is_str (u s).
Proof. by intros ?%bool_decide_eq_true. Qed.

Lemma str_dec n : 0 ≤ n → is_str (dec n).
Proof. intros Hn. by apply is_ascii_str, dec_ascii. Qed.

Lemma str_lower s : is_str s → is_str (to_ascii_lowercase s).
Proof.
  intros Hs. apply Forall_map. eapply Forall_impl; [exact Hs|].
  unfold is_scalar, ascii_lower. intros c Hc. simpl. case_match; lia.
Qed.

#[export] Hint Resolve str_app str_dec str_lower : ace.

(** ** Names from the network *)

Lemma parse_name_str fuel msg st name off :
  Forall is_byte msg → is_str (out st) →
  parse_name_loop fuel msg st = Some (Done (Some (name, off))) → is_str name.
Proof.
  intros Hb. revert st. induction fuel as [|fuel IH]; intros st Hs; [done|]. cbn [parse_name_loop].
  assert (match parse_name_step msg st with
          | Done (Continue st') => is_str (out st')
          | Done (Return (Some (n, _))) => is_str n
          | _ => True
          end) as Hstep.
  { unfold parse_name_step. destruct (get msg (pos st)) as [b|]; [|done].
    destruct (b =? 0); [done|]. destruct (Z.land b 0xC0 =? 0xC0).
    - destruct (get msg (pos st + 1)); [|done]. by destruct (10 <? jumps st + 1).
    - destruct (zlen msg <? pos st + 1 + b); [done|]. unfold slice.
      destruct (get_range msg _ _) as [bs|] eqn:Er; [|done]. cbn [mbind outcome_bind].
      destruct (from_utf8 bs) as [label|] eqn:Ef; [|done]. cbn [out].
      apply str_app; [|by eapply from_utf8_str; [eapply get_range_bytes|]].
      destruct (is_empty (out st)); [done|]. apply str_app; [done|]. concrete. }
  destruct (parse_name_step msg st) as [[st'|r]|]; [by apply IH|intros [= ->]; exact Hstep|done].
Qed.

Lemma parse_name_at_str msg offset name off :
  Forall is_byte msg → parse_name_at msg offset = Done (Some (name, off)) → is_str name.
Proof.
  unfold parse_name_at, parse_name. intros Hb.
  destruct (parse_name_loop _ _ _) as [r|] eqn:E; [|done]. cbn. intros ->.
  eapply parse_name_str; [done| |exact E]. constructor.
Qed.

(** What a response teaches: well-formed addresses and text. *)
Lemma parse_dns_answers_typed payload l :
  Forall is_byte payload → parse_dns_answers payload = Done l →
  Forall (λ x : IpAddr * str, wf_ip x.1 ∧ is_str x.2) l.
Proof.
  intros Hb. unfold parse_dns_answers.
  destruct (zlen payload <? 12); [by intros [= <-]|].
  destruct (u16_at payload 2) as [flags|]; [|done]. cbn [mbind outcome_bind].
  destruct (_ =? 0); [by intros [= <-]|]. destruct (negb _); [by intros [= <-]|].
  destruct (u16_at payload 4) as [qd|]; [|done]. cbn [mbind outcome_bind].
  destruct (u16_at payload 6) as [an|]; [|done]. cbn [mbind outcome_bind].
  destruct (an =? 0); [by intros [= <-]|].
  destruct (parse_name_at_spec payload 12 Hb ltac:(lia)) as (r & Er & Hr). rewrite Er. cbn [mbind outcome_bind].
  destruct r as [[qname off]|]; [|by intros [= <-]].
  destruct (zlen payload <? off + 4); [by intros [= <-]|].
  destruct (skip_questions_total (Z.to_nat (qd - 1)) payload (off + 4) Hb ltac:(lia)) as (o & Eo & Ho).
  rewrite Eo. cbn [mbind outcome_bind]. destruct o as [off'|]; [|by intros [= <-]].
  destruct (read_answers_total (Z.to_nat an) payload qname off' Hb ltac:(lia)) as (l' & El & _ & Hl).
  rewrite El. intros [= <-]. eapply Forall_impl; [exact Hl|]. intros [ip name] [-> [Hip _]].
  split; [done|by eapply parse_name_at_str].
Qed.

(** ** The types *)

Definition wf_addr (a : SocketAddr) : Prop := wf_ip (sa_ip a) ∧ is_u16 (sa_port a).
Definition wf_text (o : option str) : Prop := match o with Some s => is_str s | None => True end.
(** A host name known for an address. *)
Definition wf_domain (o : option str) : Prop := match o with Some s => is_str s ∧ s ≠ [] | None => True end.

Record wf_proxy (c : ProxyConfig) : Prop := {
  wp_id : is_u32 (config_id c);
  wp_host : is_str (host c);
  wp_port : is_u16 (port c);
  wp_user : wf_text (username c);
  wp_pass : wf_text (password c)
}.

Definition wf_stats (s : Stats) : Prop := ∀ c, is_u64 (read_counter c s).
Definition wf_cache (c : DnsCache) : Prop :=
  map_Forall (λ ip e, wf_ip ip ∧ is_str (domain e) ∧ domain e ≠ []) (entries c).
Definition wf_interface (i : PhysicalInterface) : Prop := ∀ ip x, index_for i ip = Some x → is_u32 x.

Record wf_shared `{RegexEngine} (s : Shared) : Prop := {
  ws_rules : Forall (λ r, is_u32 (c_proxy_config_id r)) (rules (rules_of s));
  ws_proxies : Forall wf_proxy (proxy_configs s);
  ws_cache : wf_cache (dns_cache s);
  ws_quic : is_u16 (quic_port s);
  ws_pid : is_u32 (current_pid s);
  ws_iface : wf_interface (iface s);
  ws_stats : wf_stats (stats s)
}.

Record wf_builder (b : TunRedirectBuilder) : Prop := {
  wb_addr : wf_addr (b_proxy_addr b);
  wb_rules : Forall (λ r : Rule, is_u32 (proxy_config_id r)) (b_rules b);
  wb_proxies : Forall wf_proxy (b_proxy_configs b);
  wb_quic : is_u16 (b_quic_port b)
}.

(** The process table answers with pids and text. *)
Class TypedTable (table : ProcessTable) : Prop := {
  pid_u32 src dest is_udp pid : resolve_pid src dest is_udp = Some pid → is_u32 pid;
  name_str pid n : process_name pid = Some n → is_str n
}.

(** A flow between addresses, attributed by a process table of that kind, over
    which the network delivers bytes. *)
Definition wf_flow (f : flow) : Prop :=
  wf_addr (flow_dest f) ∧ TypedTable (flow_table f)
  ∧ match f with FUdp _ env _ _ => Forall udp_bytes (ue_script env) | FTcp _ _ _ _ => True end.

Definition wf_sched (l : sched) : Prop := match l with SAccept f => wf_flow f | _ => True end.

(** ** The types of the effects *)

Definition wf_target (t : Target) : Prop :=
  match t with
  | Ip ip p => wf_ip ip ∧ is_u16 p
  | Domain d p => is_str d ∧ d ≠ [] ∧ is_u16 p
  end.

Definition wf_sock_op (o : sock_op) : Prop :=
  match o with
  | OpNewTcp _ => True
  | OpBindUdp a | OpConnect a => wf_addr a
  | OpPin i ip _ => is_u32 i ∧ wf_ip ip
  | OpSendBuffer n => 0 ≤ n < 2 ^ 31
  end.

Definition wf_log (m : log_msg) : Prop :=
  match m with
  | LogProxyMissing id dest => is_u32 id ∧ wf_addr dest
  | LogProxyUnavailable dest _ => wf_addr dest
  | _ => True
  end.

Record wf_info (i : ConnectionInfo) : Prop := {
  wi_name : is_str (ci_process_name i);
  wi_pid : is_u32 (ci_pid i);
  wi_ip : wf_ip (ci_dest_ip i);
  wi_port : is_u16 (ci_dest_port i);
  wi_proxy : is_str (ci_proxy_info i)
}.

Definition wf_datagram (bs : list Z) : Prop := Forall is_byte bs ∧ zlen bs ≤ 65535.

Definition wf_event (ev : event) : Prop :=
  match ev with
  | EvLog m => wf_log m
  | EvReport i => wf_info i
  | EvDialTcp ops | EvDialUdp ops => Forall wf_sock_op ops
  | EvProxy cfg t => wf_proxy cfg ∧ wf_target t
  | EvSend bs | EvSendFailed bs => wf_datagram bs ∧ bs ≠ []
  | EvDeliver bs | EvDeliverFailed bs => wf_datagram bs
  | EvCopyDirect | EvCopyProxy | EvShutdown | EvDrop => True
  end.

Definition wf_access (a : access) : Prop :=
  match a with
  | Count _ | Purge _ => True
  | InsertName ip e => wf_ip ip ∧ is_str (domain e) ∧ domain e ≠ []
  | Emit ev => wf_event ev
  end.

(** ** The state *)

Lemma wf_stats_bump c s : wf_stats s → wf_stats (bump c s).
Proof.
  intros Hs c'. rewrite read_bump. case_bool_decide; [|apply Hs].
  unfold is_u64, fetch_add1. by apply Z.mod_pos_bound.
Qed.

Lemma wf_cache_insert c ip e :
  wf_cache c → wf_ip ip → is_str (domain e) → domain e ≠ [] → wf_cache (insert_entry c ip e).
Proof.
  intros Hc Hip Hd Hne. unfold insert_entry. destruct (poisoned c); [done|].
  apply map_Forall_insert_2; [|done]. by split_and!.
Qed.

Lemma wf_cache_purge c now : wf_cache c → wf_cache (purge_expired c now).
Proof.
  intros Hc. unfold purge_expired. destruct (poisoned c); [done|].
  intros ip e [Hl _]%map_lookup_filter_Some. by apply Hc.
Qed.

Lemma wf_cache_lookup c now ip d : wf_cache c → Dns.lookup c now ip = Some d → is_str d ∧ d ≠ [].
Proof.
  intros Hc. unfold Dns.lookup. destruct (poisoned c); [done|].
  destruct (entries c !! ip) as [e|] eqn:E; [|done]. cbn. destruct (live now e); [|done].
  intros [= <-]. by destruct (Hc ip e E).
Qed.

Section Typed.
Context `{RegexEngine} `{Base64}.

Lemma wf_domain_for s now ip : wf_shared s → wf_domain (domain_for s now ip).
Proof.
  intros Hs. unfold domain_for. destruct (needs_domain_resolution _); [|done].
  destruct (Dns.lookup _ _ _) as [d|] eqn:E; [|done]. by eapply wf_cache_lookup; [apply Hs|].
Qed.

Lemma perform_wf a s : wf_shared s → wf_access a → wf_shared (perform a s).
Proof.
  intros [] Ha. destruct a as [c|ip e|now|ev]; split; try done.
  - by apply wf_stats_bump.
  - destruct Ha as (? & ? & ?). by apply wf_cache_insert.
  - by apply wf_cache_purge.
Qed.

Lemma perform_all_wf l s : wf_shared s → Forall wf_access l → wf_shared (perform_all l s).
Proof. intros Hs Hl. revert s Hs. induction Hl; intros s Hs; [done|]. simpl. by apply IHHl, perform_wf. Qed.

(** ** The handlers *)

Lemma wf_emits l : Forall wf_event l → Forall wf_access (map Emit l).
Proof. intros Hl. by apply Forall_map. Qed.

Lemma attribute_typed `{!TypedTable table} src dest is_udp pid name :
  attribute src dest is_udp = (pid, name) → (∀ p, pid = Some p → is_u32 p) ∧ is_str name.
Proof.
  unfold attribute. intros [= <- <-]. split; [apply pid_u32|].
  destruct (resolve_pid src dest is_udp) as [p|]; [|constructor]. simpl.
  destruct (process_name p) as [n|] eqn:E; [|constructor]. by apply str_lower, (name_str p).
Qed.

Lemma find_proxy_wf s id cfg : wf_shared s → find_proxy_config s id = Some cfg → wf_proxy cfg.
Proof.
  intros Hs [Hin _]%find_proxy_config_Some. by eapply Forall_forall; [apply Hs|].
Qed.

Lemma decide_typed s facts id : wf_shared s → decide s facts = Done (DProxy id) → is_u32 id.
Proof.
  intros Hs. unfold decide.
  destruct (bool_decide _); [by destruct (_ && _)|].
  destruct (_ && negb _); [done|]. destruct (is_group_address _); [done|]. destruct (_ && _ && _); [done|].
  destruct (evaluate _ _ _ _ _ _) as [m|] eqn:Em; [|done]. cbn [mbind outcome_bind].
  destruct (rm_action m); intros [= <-].
  revert Em. unfold evaluate. pose proof (ws_rules s Hs) as Hr.
  assert (∀ fb, match fb with Some r => is_u32 (c_proxy_config_id r) | None => True end →
    evaluate_loop (rules (rules_of s)) fb (ff_process_name facts) (sa_ip (ff_dest facts))
      (sa_port (ff_dest facts)) (ff_is_udp facts) (ff_domain facts) = Done m →
    is_u32 (rm_proxy_config_id m)) as Hloop; [|by apply Hloop].
  induction Hr as [|r rs Hr _ IH]; intros fb Hfb; cbn [evaluate_loop].
  { intros [= <-]. destruct fb; [done|]. by vm_compute. }
  destruct (negb (protocol_matches _ _)); [by apply IH|]. destruct (process_wildcard r).
  - destruct (filtered r); [destruct (matches_target _ _ _ _); [by intros [= <-]|by apply IH]|].
    apply IH. by destruct fb.
  - destruct (matches_process r _) as [p|]; [|done]. cbn [mbind outcome_bind].
    destruct (p && _); [by intros [= <-]|by apply IH].
Qed.

Lemma report_typed s facts d :
  wf_shared s → wf_addr (ff_dest facts) → is_str (ff_process_name facts) →
  (∀ p, ff_pid facts = Some p → is_u32 p) → Forall wf_event (report s facts d).
Proof.
  intros Hs [Hip Hport] Hn Hp. unfold report. destruct (negb _); [constructor|].
  apply Forall_cons. split; [|constructor]. unfold report_info.
  assert (is_u32 (default 0 (ff_pid facts))) as Hpid
    by (destruct (ff_pid facts); [by apply Hp|by vm_compute]).
  assert (is_str (report_info s facts d).(ci_proxy_info)) as Hinfo.
  { unfold report_info. destruct d as [|id|]; cbn [ci_proxy_info]; [by apply str_u| |by apply str_u].
    destruct (find_proxy_config s id) as [cfg|] eqn:Ef; [|by apply str_u].
    destruct (find_proxy_wf s id cfg Hs Ef) as [_ Hh Hport' _ _]. unfold is_u16 in Hport'.
    apply str_app; [by apply str_u|]. apply str_app; [destruct (proxy_type cfg); by apply str_u|].
    apply str_app; [by apply str_u|]. apply str_app; [done|].
    apply (str_app [58]); [by apply (str_u ":")|apply str_dec; lia]. }
  unfold report_info in *. destruct d as [|id|]; by split.
Qed.

Lemma log_typed s m : wf_log m → Forall wf_event (log s m).
Proof. intros Hm. unfold log. destruct (has_log_cb s); [by repeat constructor|constructor]. Qed.

Lemma pin_ops_typed s os dest : wf_shared s → wf_addr dest → Forall wf_sock_op (pin_ops os dest (iface s)).
Proof.
  intros Hs [Hip _]. unfold pin_ops. destruct (index_for (iface s) (sa_ip dest)) as [i|] eqn:E; [|constructor].
  apply Forall_cons. split; [|constructor]. split; [by eapply (ws_iface s Hs)|done].
Qed.

Lemma dial_tcp_typed s os dest :
  wf_shared s → wf_addr dest → Forall wf_sock_op (dial_tcp os dest (iface s)).1.
Proof.
  intros Hs Hd. unfold dial_tcp. pose proof (pin_ops_typed s os dest Hs Hd).
  destruct (os_new os); cbn [fst]; apply Forall_cons; (split; [done|]); [constructor|].
  apply Forall_app. split; [done|]. apply Forall_cons. by split.
Qed.

Lemma dial_udp_typed s os dest :
  wf_shared s → wf_addr dest → Forall wf_sock_op (dial_udp os dest (iface s)).1.
Proof.
  intros Hs Hd. unfold dial_udp. pose proof (pin_ops_typed s os dest Hs Hd).
  assert (wf_sock_op (OpBindUdp (wildcard_bind dest))) as Hb.
  { unfold wildcard_bind. by destruct (dest_is_v6 dest); vm_compute. }
  destruct (os_new os); cbn [fst]; apply Forall_cons; (split; [done|]); [constructor|].
  apply Forall_app. split; [done|]. apply Forall_cons. split; [by vm_compute|]. apply Forall_cons. by split.
Qed.

Lemma wf_take bs : Forall is_byte bs → wf_datagram (take (Z.to_nat UDP_BUFFER) bs).
Proof.
  intros Hb. split; [by apply Forall_take|]. unfold zlen. rewrite length_take.
  change (Z.to_nat UDP_BUFFER) with (Z.to_nat 65535). lia.
Qed.

Lemma inserts_typed ttl now l :
  Forall (λ '(ip, d), wf_ip ip ∧ is_str d) l → Forall wf_access (insert_accesses ttl now l).1.
Proof.
  induction 1 as [|[ip d] l [Hip Hd] _ IH]; [constructor|]. cbn [insert_accesses].
  destruct (is_empty d) eqn:Ed; [done|]. destruct (instant_add now ttl); [|constructor].
  destruct (insert_accesses ttl now l). apply Forall_cons. split; [|done]. split_and!; [done..|].
  by destruct d.
Qed.

Lemma relay_step_typed ttl is_dns e : udp_bytes e → Forall wf_access (relay_accesses ttl is_dns e).1.
Proof.
  intros He. destruct e as [w [|b bs] sent|w|w bs now written|w er]; try constructor; cbn [relay_accesses].
  - assert (wf_datagram (take (Z.to_nat UDP_BUFFER) (b :: bs)) ∧ take (Z.to_nat UDP_BUFFER) (b :: bs) ≠ []) as Hd.
    { split; [by apply wf_take|]. change (Z.to_nat UDP_BUFFER) with (S (Z.to_nat 65534)). by simpl. }
    destruct sent; cbn [fst]; repeat (apply Forall_cons; split); try done; constructor.
  - assert (Forall is_byte (take (Z.to_nat UDP_BUFFER) bs)) as Hbs by by apply Forall_take.
    pose proof (wf_take bs He) as Hd. destruct (if is_dns then _ else _) as [a o] eqn:Ea.
    assert (Forall wf_access a) as Ha.
    { destruct is_dns; [|injection Ea as <- _; constructor].
      destruct (parse_dns_answers _) as [l|] eqn:Ep; [|injection Ea as <- _; constructor].
      pose proof (inserts_typed ttl now l) as Hl. rewrite Ea in Hl. apply Hl.
      eapply Forall_impl; [by eapply parse_dns_answers_typed|]. by intros [ip d]. }
    destruct o; [destruct written|]; cbn [fst]; try done; apply Forall_app; (split; [done|]);
      apply Forall_cons; (split; [done|constructor]).
Qed.

Lemma relay_typed ttl is_dns script :
  Forall udp_bytes script → Forall wf_access (relay_loop_accesses ttl is_dns script).1.
Proof.
  intros Hb. induction Hb as [|e script He _ IH]; [constructor|].
  unfold relay_loop_accesses; fold relay_loop_accesses. unfold select. cbn [head mbind option_bind].
  destruct (_ <=? _); [|constructor]. pose proof (relay_step_typed ttl is_dns e He) as Hl.
  destruct (relay_accesses ttl is_dns e) as [l r]. destruct r as [[]| | | |]; try done.
  destruct (relay_loop_accesses ttl is_dns script) as [l' r']. by apply Forall_app.
Qed.

Lemma target_typed cfg d dest : wf_domain d → wf_addr dest → wf_target (target_for cfg d dest).
Proof.
  intros Hd [Hip Hp]. unfold target_for. destruct (send_domain_to_proxy cfg); [|by split].
  destruct d as [d|]; [|by split]. destruct Hd. by split_and!.
Qed.

Lemma tcp_typed `{!TypedTable table} s env src dest d :
  wf_shared s → wf_addr dest → wf_domain d → Forall wf_access (tcp_accesses s env src dest d).1.
Proof.
  intros Hs Hd Hdom. unfold tcp_accesses. destruct (attribute src dest false) as [pid name] eqn:Ea.
  destruct (attribute_typed _ _ _ _ _ Ea) as [Hpid Hname]. set (facts := MkFacts _ _ _ _ _).
  destruct (decide s facts) as [dec|] eqn:Ed; [|constructor].
  pose proof (wf_emits _ (report_typed s facts dec Hs Hd Hname Hpid)) as Hrep.
  pose proof (target_typed) as Ht. pose proof log_typed as Hl.
  destruct dec as [|id|].
  - pose proof (dial_tcp_typed s (te_os env) dest Hs Hd) as Hdial.
    destruct (dial_tcp _ _ _) as [ops r]. destruct r; cbn [fst]; apply Forall_app; by repeat constructor.
  - pose proof (decide_typed s facts id Hs Ed) as Hid.
    destruct (find_proxy_config s id) as [cfg|] eqn:Ef.
    + pose proof (find_proxy_wf s id cfg Hs Ef) as Hcfg. specialize (Ht cfg d dest Hdom Hd).
      destruct (connect_via_proxy _ _ _) as [c|e| | |]; cbn [fst]; apply Forall_app; (split; [done|]);
        repeat (apply Forall_cons; split; [done|]); try constructor.
      apply wf_emits, Forall_app. split; [by apply Hl|by repeat constructor].
    + cbn [fst]. apply Forall_app; (split; [done|]). repeat (apply Forall_cons; split; [done|]).
      apply wf_emits, Forall_app. split; [by apply Hl|by repeat constructor].
  - cbn [fst]. apply Forall_app. by repeat constructor.
Qed.

Lemma udp_typed `{!TypedTable table} s env src dest d :
  wf_shared s → wf_addr dest → Forall udp_bytes (ue_script env) → wf_domain d →
  Forall wf_access (udp_accesses s env src dest d).1.
Proof.
  intros Hs Hd Hb Hdom. unfold udp_accesses. destruct (attribute src dest true) as [pid name] eqn:Ea.
  destruct (attribute_typed _ _ _ _ _ Ea) as [Hpid Hname]. set (facts := MkFacts _ _ _ _ _).
  destruct (decide s facts) as [dec|] eqn:Ed; [|constructor].
  pose proof (wf_emits _ (report_typed s facts dec Hs Hd Hname Hpid)) as Hrep.
  pose proof (dial_udp_typed s (ue_os env) dest Hs Hd) as Hdial.
  pose proof (relay_typed (ttl (dns_cache s)) (sa_port dest =? 53) (ue_script env) Hb) as Hrel.
  destruct dec as [|id|]; [| |cbn [fst]; apply Forall_app; by repeat constructor].
  all: destruct (dial_udp _ _ _) as [ops r]; destruct (relay_loop_accesses _ _ _) as [l r'];
    destruct r; cbn [fst] in *; apply Forall_app; (split; [done|]); by repeat constructor.
Qed.

Lemma task_typed s f d :
  wf_shared s → wf_flow f → wf_domain d → Forall wf_access (task_accesses s f d).1.
Proof.
  intros Hs (Hd & Ht & Hf) Hdom. unfold task_accesses.
  assert (Forall wf_access (match f with
      | FTcp table env src dest => tcp_accesses s env src dest d
      | FUdp table env src dest => udp_accesses s env src dest d
      end).1) as Hl by (destruct f; [by apply tcp_typed|by apply udp_typed]).
  destruct (match f with FTcp _ _ _ _ => _ | FUdp _ _ _ _ => _ end) as [l r].
  destruct r; try done. cbn [fst] in *. apply Forall_app. split; [done|].
  apply wf_emits, log_typed. by destruct f.
Qed.

(** ** The session *)

(** What a task has done is typed, and what its program will do, once it has
    looked its name up. *)
Definition thread_typed (y : system) (th : thread) : Prop :=
  wf_flow (th_flow th) ∧ Forall wf_access (th_done th)
  ∧ (th_prog th = task_prog (th_flow th)
     ∨ settled (th_prog th) ∧ Forall wf_access (exec (th_prog th) (sy_shared y)).1).
Definition sys_typed (y : system) : Prop := wf_shared (sy_shared y) ∧ Forall (thread_typed y) (sy_threads y).

Lemma thread_typed_config y y' th :
  same_config (sy_shared y) (sy_shared y') → thread_typed y th → thread_typed y' th.
Proof.
  intros Hc (Hf & Hd & Hp). split_and!; [done..|]. destruct Hp as [Hp|[Hst Hp]]; [by left|right].
  split; [done|]. by rewrite <-(settled_exec _ _ _ Hst Hc).
Qed.

Lemma threads_typed_record y who l ts :
  Forall (thread_typed y) ts → Forall (thread_typed (record who l y)) ts.
Proof.
  intros Ht. eapply Forall_impl; [exact Ht|]. intros th. apply thread_typed_config.
  symmetry. apply perform_all_config.
Qed.

Lemma loop_end_typed s e : Forall wf_access (map Emit (loop_end_log s e)).
Proof.
  apply wf_emits. unfold loop_end_log. apply Forall_app. split; [|by apply log_typed].
  destruct e; [by apply log_typed|constructor].
Qed.

Lemma sys_step_typed l y y' : wf_sched l → sys_typed y → sys_step l y = Some y' → sys_typed y'.
Proof.
  intros Hl [Hs Ht] Hstep. pose proof (λ who l, threads_typed_record y who l _ Ht) as Hrec.
  destruct l as [f| |e|now|i]; cbn [sys_step] in Hstep.
  - destruct (sy_accepting y); [|done]. injection Hstep as <-. split; cbn [sy_shared sy_threads record].
    + by apply (perform_all_wf [Count (flow_counter f)]); [|repeat constructor].
    + apply Forall_app. split; [apply (Hrec None [Count (flow_counter f)])|].
      apply Forall_cons. split; [|constructor]. split_and!; [done|constructor|by left].
  - destruct (sy_accepting y); by simplify_eq.
  - destruct (sy_accepting y); [|done]. injection Hstep as <-. split; [|by apply (Hrec None)].
    apply perform_all_wf; [done|apply loop_end_typed].
  - injection Hstep as <-. split; [|by apply Hrec]. apply (perform_all_wf [Purge now]); [done|by repeat constructor].
  - destruct (sy_threads y !! i) as [th|] eqn:Hi; [|done]. simpl in Hstep.
    destruct (Forall_lookup_1 _ _ _ _ Ht Hi) as (Hf & Hd & Hp).
    destruct (th_prog th) as [r|k|a p]; [done| |]; injection Hstep as <-.
    + split; [done|]. apply Forall_insert; [exact Ht|]. split_and!; [done..|]. right.
      cbn [th_prog th_flow sy_shared set_thread]. destruct Hp as [Hp|[Hst Hp]].
      * rewrite task_prog_lookup in Hp. injection Hp as ->. split; [apply settled_task|].
        rewrite exec_task. by apply task_typed, wf_domain_for.
      * inversion Hst as [|k' _ Hset|]; subst. by split.
    + destruct Hp as [Hp|[Hst Hp]]; [by rewrite task_prog_lookup in Hp|].
      inversion Hst as [| |a' p' Hset]; subst. cbn [exec] in Hp.
      destruct (exec p _) as [todo r] eqn:Ee. apply Forall_cons in Hp as [Ha Hp].
      split; cbn [sy_shared sy_threads set_thread record].
      * by apply (perform_all_wf [a]); [|repeat constructor].
      * apply Forall_insert; [apply (Hrec (Some i) [a])|]. split_and!; cbn; [done| |].
        { apply Forall_app. by repeat constructor. }
        right. split; [done|]. cbn [sy_shared set_thread record perform_all foldl]. by rewrite Ee.
Qed.

(** Every schedule keeps the typing, and types the effects. *)
Lemma schedule_well_typed ls s y :
  wf_shared s → Forall wf_sched ls → sys_run ls (sys_start s) = Some y →
  wf_shared (sy_shared y) ∧ Forall (λ th, Forall wf_event (trace_of (th_done th))) (sy_threads y).
Proof.
  intros Hs Hls Hrun. assert (sys_typed y) as [Hsy Hty].
  { assert (sys_typed (sys_start s)) as Hy by (by split). revert Hy Hrun. generalize (sys_start s).
    induction Hls as [|l ls Hl _ IH]; intros y0 Hy; cbn [sys_run]; [by intros [= <-]|].
    destruct (sys_step l y0) as [y1|] eqn:Hst; [|done]. apply IH. by eapply sys_step_typed. }
  split; [done|]. eapply Forall_impl; [exact Hty|]. intros th (_ & Hd & _).
  unfold trace_of. apply Forall_concat, Forall_map. eapply Forall_impl; [exact Hd|].
  intros []; by repeat constructor.
Qed.

End Typed.

(** ** The builder *)

Lemma str_show_ipv4 a : is_str (show_ipv4 a).
Proof.
  unfold show_ipv4. pose proof (be_bytes_byte 4 a) as Hb.
  destruct (be_bytes 4 a) as [|a0 [|a1 [|a2 [|a3 []]]]]; try constructor.
  rewrite !Forall_cons in Hb. unfold is_byte in Hb. destruct Hb as (? & ? & ? & ? & _).
  assert (∀ n s, 0 ≤ n → is_str s → is_str (dec n ++ 46 :: s)) as Hdot.
  { intros n s Hn Hs. apply str_app; [by apply str_dec|]. by apply (str_app [46]); [apply (str_u ".")|]. }
  repeat (apply Hdot; [lia|]). apply str_dec. lia.
Qed.

Lemma str_hex n : is_str (hex n).
Proof.
  unfold hex. assert (∀ fuel n acc, is_str acc → is_str (hex_go fuel n acc)) as Hgo; [|by apply Hgo; constructor].
  intros fuel. induction fuel as [|fuel IH]; intros m acc Ha; cbn [hex_go]; [done|].
  assert (is_str (hex_digit (m mod 16) :: acc)) as Hc.
  { apply Forall_cons. split; [|done]. pose proof (Z.mod_pos_bound m 16). unfold hex_digit, is_scalar. case_match; lia. }
  destruct (m <? 16); [done|by apply IH].
Qed.

Lemma str_join_hex ss : is_str (join_hex ss).
Proof.
  induction ss as [|g [|g' ss] IH]; [constructor|apply str_hex|].
  change (is_str (hex g ++ 58 :: join_hex (g' :: ss))). apply str_app; [apply str_hex|].
  by apply (str_app [58]); [apply (str_u ":")|].
Qed.

Lemma str_show_ip ip : is_str (show_ip ip).
Proof.
  destruct ip as [a|a]; [apply str_show_ipv4|]. cbn [show_ip]. unfold show_ipv6.
  destruct (_ =? 0xffff); [apply str_app; [by apply str_u|apply str_show_ipv4]|].
  destruct (longest_zeros _ _ _ _) as [start n]. destruct (1 <? n); [|apply str_join_hex].
  repeat apply str_app; [apply str_join_hex|by apply (str_u "::")|apply str_join_hex].
Qed.

Lemma compile_id `{RegexEngine} r c : compile r = Done c → c_proxy_config_id c = proxy_config_id r.
Proof. unfold compile. destruct (compile_process_list _); [|done]. by intros [= <-]. Qed.

(** A built engine is well-typed. *)
Lemma build_well_typed `{RegexEngine} pid b s :
  is_u32 pid → wf_builder b → build_shared pid b = Done (Ok s) → wf_shared s.
Proof.
  intros Hpid [[_ Haddr] Hrules Hps Hquic]. unfold build_shared.
  set (cs0 := match b_proxy_configs b with [] => _ | cs => cs end).
  assert (Forall wf_proxy cs0) as Hcs0.
  { unfold cs0. destruct (b_proxy_configs b); [|done]. apply Forall_cons. split; [|constructor].
    split; [by vm_compute|apply str_show_ip|done..]. }
  destruct (assign_ids 0 cs0) as [cs|] eqn:Ea; [|done].
  destruct (ruleset_new (b_rules b)) as [rs|] eqn:Er; [|done]. cbn [mbind outcome_bind]. intros [= <-].
  destruct (assign_ids_ok _ _ _ Ea) as [-> _]. split; try done; cbn.
  - unfold ruleset_new in Er. destruct (mapM compile (b_rules b)) as [l|] eqn:Em; [|done]. injection Er as <-.
    cbn. revert l Em. induction Hrules as [|r rs Hr _ IH]; intros l; cbn; [by intros [= <-]|].
    destruct (compile r) as [c|] eqn:Ec; [|done]. cbn. destruct (mapM compile rs) as [l'|]; [|done]. cbn.
    intros [= <-]. constructor; [by rewrite (compile_id r c Ec)|by apply IH].
  - apply Forall_lookup. intros j c. rewrite list_lookup_imap.
    destruct (cs0 !! j) as [c0|] eqn:E; [|done]. intros [= <-].
    destruct (Forall_lookup_1 _ _ _ _ Hcs0 E). split; try done. by apply Z.mod_pos_bound.
  - by intros [] x.
  - by intros [].
Qed.

(** The shared state a session runs over: the built one, once [start] has set the
    interface and the running flag. *)
Definition started `{RegexEngine} (i : PhysicalInterface) (s : Shared) : Shared := with_running true (iface_set i s).

Lemma started_typed `{RegexEngine} i s : wf_interface i → wf_shared s → wf_shared (started i s).
Proof.
  intros Hi [? ? ? ? ? Hif ?]. unfold started, iface_set. by destruct (iface_cell s); split.
Qed.

(** C8: a session never leaves its types.  Whatever the embedding program puts
    into the builder within the types of its methods, and along any schedule of
    flows between real addresses over which the network delivers bytes, each
    attributed by a process table whose pids are 32-bit and whose names are text
    ([TypedTable], the bound of [wf_flow]), every state of [Shared] is well-typed — the counters stay 64-bit words, the cache
    holds non-empty text under IP addresses — and so is every effect: pids,
    configuration ids and interface indices are 32-bit, ports 16-bit, names and
    the hosts a proxy is asked for are valid text, no host is empty, no datagram
    exceeds the relay's buffer, and no empty datagram is sent. *)
Theorem session_well_typed `{RegexEngine} `{Base64} pid b i s ls y :
  is_u32 pid → wf_builder b → wf_interface i → build_shared pid b = Done (Ok s) →
  Forall wf_sched ls → sys_run ls (sys_start (started i s)) = Some y →
  wf_shared (sy_shared y) ∧ Forall (λ th, Forall wf_event (trace_of (th_done th))) (sy_threads y).
Proof.
  intros Hpid Hb Hi Hs. apply schedule_well_typed. apply started_typed; [done|]. by eapply build_well_typed.
Qed.

(** ** Concrete instances *)

#[local] Existing Instance MiniRegex.engine.
#[local] Existing Instance Demo.table.

#[export] Instance demo_table_typed : TypedTable Demo.table.
Proof.
  split.
  - intros src dest is_udp pid. cbn. repeat case_match; intros [= <-]; concrete.
  - intros pid n. cbn. case_match; [|done]. intros [= <-]. concrete.
Qed.

Module TypedDemo.

Definition b : TunRedirectBuilder :=
  on_log (on_connection (add_rule (with_proxy_config Demo.domain_rule 1) (add_rule Demo.proxy_rule
    (add_proxy_config (socks5 (u "p") 1080) (builder_new (SockAddr (V4 (ipv4 127 0 0 1)) 8080)))))).
Definition built : Shared :=
  match build_shared 7 b with Done (Ok s) => s | _ => Demo.shared [] [] end.
Definition nic : PhysicalInterface := MkPhysicalInterface (Some 12) None.
Definition final : system :=
  default (sys_start built) (sys_run TaskDemo.schedule (sys_start (started nic built))).

End TypedDemo.

Lemma session_well_typed_witness :
  wf_shared (sy_shared TypedDemo.final)
  ∧ Forall (λ th, Forall wf_event (trace_of (th_done th))) (sy_threads TypedDemo.final).
Proof.
  apply (session_well_typed 7 TypedDemo.b TypedDemo.nic TypedDemo.built TaskDemo.schedule TypedDemo.final).
  - concrete.
  - split; [split; concrete| | |concrete].
    + repeat (apply Forall_cons; split; [concrete|]). constructor.
    + apply Forall_cons. split; [|constructor]. split; try done; concrete.
  - intros [] x; [|done]. intros [= <-]. concrete.
  - vm_compute. exact eq_refl.
  - repeat (apply Forall_cons; split; [try exact I; try (split; [split; concrete|split; [exact demo_table_typed|try exact I; concrete]])|]).
    constructor.
  - vm_compute. exact eq_refl.
Defined.
