(* ===== verification/LiveCheck.v ===== *)
(** * The live check ([examples/live_check.rs])

    The example that exercises the tunnel end to end: a small CONNECT proxy that
    refuses a list of hosts, and an engine configured to send the browsers' web
    traffic to it.  The proxy is modelled over the connections of [Conn], the
    configuration with the builder of [Engine]; the theorems compose both with the
    engine's own HTTP CONNECT client and rule evaluation.  What it prints is left
    out. *)

From S2P Require Export Netstack Engine.
Local Open Scope Z_scope.

(** ** The stand-in proxy *)

Definition BLOCKED : list str := [u "instagram.com"; u "youtube.com"; u "googlevideo.com"].

(** The answers of the upstream side: [TcpStream::connect(&target)] and the end
    of [copy_bidirectional]. *)
Record serve_env : Type := MkServeEnv {
  upstream_connect : str → io_out unit;
  tunnel_end : io_out unit
}.

(** What a served connection does besides replying to the client. *)
Inductive served : Type :=
  | DialUpstream (target : str)
  | TunnelUpstream.

Definition bad_request : list Z := u "HTTP/1.1 400 Bad Request" ++ CRLF ++ CRLF.
Definition forbidden : list Z := u "HTTP/1.1 403 Forbidden" ++ CRLF ++ CRLF.
Definition bad_gateway : list Z := u "HTTP/1.1 502 Bad Gateway" ++ CRLF ++ CRLF.
Definition established : list Z := u "HTTP/1.1 200 Connection established" ++ CRLF ++ CRLF.

(** [head.lines().next().and_then(|l| l.split_whitespace().nth(1))] *)
Definition request_target (head : str) : option str :=
  l ← first_line head; split_whitespace l !! 1%nat.

(** [target.rsplit_once(':').map(|(h, _)| h).unwrap_or(&target)] *)
Definition target_host (target : str) : str :=
  match rsplit_once target 58 with Some (h, _) => h | None => target end.

Definition is_blocked (host : str) : bool := existsb (contains_str host) BLOCKED.

(** A reply that ends the connection. *)
Definition reply_only (bytes : list Z) (client : conn) (did : list served) : io_out unit * conn * list served :=
  let '(r, client) := write_all bytes client in (r, client, did).

Definition serve_connect (env : serve_env) (client : conn) : io_out unit * conn * list served :=
  match read 4096 client with
  | (Ready bytes, client) =>
    match request_target (from_utf8_lossy bytes) with
    | None => reply_only bad_request client []
    | Some target =>
      if is_blocked (target_host target) then reply_only forbidden client []
      else match upstream_connect env target with
      | Ready _ =>
        match write_all established client with
        | (Ready _, client) => (tunnel_end env, client, [DialUpstream target; TunnelUpstream])
        | (r, client) => (r, client, [DialUpstream target])
        end
      | Failed _ => reply_only bad_gateway client [DialUpstream target]
      | r => (r, client, [DialUpstream target])
      end
    end
  | (Failed e, client) => (Failed e, client, [])
  | (Hang, client) => (Hang, client, [])
  | (Crash, client) => (Crash, client, [])
  | (OutOfFuel, client) => (OutOfFuel, client, [])
  end.

(** [run_block_proxy] over what [accept] yields: the connections it spawns a task
    for.  An accept error is passed over; the loop has no other end. *)
Fixpoint run_block_proxy (script : list (result io_error conn)) : list conn :=
  match script with
  | [] => []
  | Ok stream :: script' => stream :: run_block_proxy script'
  | Err _ :: script' => run_block_proxy script'
  end.

(** ** The engine's configuration *)

Definition BROWSERS : list str :=
  [u "chrome.exe"; u "firefox.exe"; u "msedge.exe"; u "brave.exe"; u "opera.exe"; u "vivaldi.exe"].

Definition OWN_EXECUTABLES : str := u "ace-engine.exe;ace-app.exe;live_check.exe".

Definition example_rules : list Rule :=
  [with_action (rule_new OWN_EXECUTABLES) Direct;
   with_action (with_hosts (rule_new (u "*")) (u "127.0.0.1;::1")) Direct;
   with_action (with_protocol (with_ports (rule_new (Rule.join 59 BROWSERS)) (u "80;443")) Tcp) Config.Proxy;
   with_action (rule_new (u "*")) Direct].

(** The builder chain of [main], with the port the listener got. *)
Definition example_builder (proxy_port : Z) : result Error TunRedirectBuilder :=
  b ← builder (u "127.0.0.1:" ++ dec proxy_port);
  let b := foldl (λ b r, add_rule r b) b example_rules in
  let b := add_proxy_config (http (u "127.0.0.1") proxy_port) b in
  Ok (on_connection b).

(** [main], from the listener to the end: its result, and the engine's state. *)
Record main_env : Type := MkMainEnv {
  me_listener : result io_error Z;
  me_pid : Z;
  me_start : start_env;
  me_ctrl_c : option io_error
}.

(** Up to the interrupt: [None] while it serves, the result when it returned. *)
Definition live_start `{RegexEngine} (env : main_env) : outcome (option (result Error unit) * engine) :=
  match me_listener env with
  | Err e => mret (Some (Err (Io e)), engine_new)
  | Ok proxy_port =>
    match example_builder proxy_port with
    | Err e => mret (Some (Err e), engine_new)
    | Ok b =>
      built ← build_shared (me_pid env) b;
      match built with
      | Err e => mret (Some (Err e), engine_new)
      | Ok _ =>
        let '(r, eng) := start (me_start env) engine_new in
        mret match r with
             | Ok _ => (None, eng)
             | Err NotElevated => (Some (Ok tt), eng)
             | Err e => (Some (Err e), eng)
             end
      end
    end
  end.

(** From the interrupt on: [stop], whose first half is [stop_begin]. *)
Definition live_stop (env : main_env) (eng : engine) : result Error nat * engine :=
  match me_ctrl_c env with
  | Some e => (Err (Io e), eng)
  | None => stop_begin eng
  end.

(** ** The proxy refuses what it must *)

Definition reply_of (bytes : list Z) : Prop :=
  bytes ∈ [bad_request; forbidden; bad_gateway; established].

(** A single write adds to what was sent a part of its bytes, all of them when it
    succeeds. *)
Lemma write_sends bytes c :
  ∃ k, outbox (write_all bytes c).2 = outbox c ++ take k bytes
     ∧ ((write_all bytes c).1 = Ready tt → take k bytes = bytes).
Proof.
  destruct (write_all_cases bytes c) as [(c' & -> & Ho & _)|(r & c' & k & -> & Ho)]; cbn [fst snd].
  - exists (length bytes). by rewrite Ho, firstn_all.
  - exists k. by destruct r.
Qed.

Lemma not_blocked host : is_blocked host = false → ∀ b, b ∈ BLOCKED → ¬ ∃ x y, host = x ++ b ++ y.
Proof.
  intros Eb b Hb Hex%contains_str_spec. apply not_true_iff_false in Eb. destruct Eb.
  apply existsb_exists. exists b. split; [by apply list_elem_of_In|done].
Qed.

(** What a service of [client] may have done: at most one dial, never of a
    blocked host; relaying only over a connection that succeeded and after the
    whole 200 reply; replies of the four kinds only, possibly cut by an error. *)
Record sound_service (env : serve_env) (client : conn) (out : io_out unit * conn * list served) : Prop := {
  ss_dials : out.2 = [] ∨ ∃ t, (out.2 = [DialUpstream t] ∨ out.2 = [DialUpstream t; TunnelUpstream])
               ∧ ∀ b, b ∈ BLOCKED → ¬ ∃ x y, target_host t = x ++ b ++ y;
  ss_tunnel : TunnelUpstream ∈ out.2 → ∃ t, out.2 = [DialUpstream t; TunnelUpstream]
               ∧ upstream_connect env t = Ready tt
               ∧ outbox out.1.2 = outbox client ++ established ∧ out.1.1 = tunnel_end env;
  ss_reply : ∃ bytes k, reply_of bytes ∧ outbox out.1.2 = outbox client ++ take k bytes
}.

Lemma reply_only_sound env client c reply did :
  outbox c = outbox client → reply_of reply →
  (did = [] ∨ ∃ t, did = [DialUpstream t] ∧ ∀ b, b ∈ BLOCKED → ¬ ∃ x y, target_host t = x ++ b ++ y) →
  sound_service env client (reply_only reply c did).
Proof.
  intros Hq Hr Hd. unfold reply_only. destruct (write_sends reply c) as (k & Hk & _).
  destruct (write_all reply c) as [r c2]. cbn [snd] in Hk. split; cbn [fst snd].
  - naive_solver.
  - destruct Hd as [->|(t & -> & _)]; set_solver.
  - exists reply, k. by rewrite Hk, Hq.
Qed.

Lemma silent_sound env client c r did :
  outbox c = outbox client →
  (did = [] ∨ ∃ t, did = [DialUpstream t] ∧ ∀ b, b ∈ BLOCKED → ¬ ∃ x y, target_host t = x ++ b ++ y) →
  sound_service env client (r, c, did).
Proof.
  intros Hq Hd. split; cbn [fst snd].
  - naive_solver.
  - destruct Hd as [->|(t & -> & _)]; set_solver.
  - exists bad_request, 0%nat. rewrite Hq, app_nil_r. unfold reply_of. set_solver.
Qed.

(** the stand-in proxy is sound.  Whatever the client sends and however the
    upstream and the writes answer, it dials nothing but a target whose host
    contains none of the blocked names, and at most one; it relays only over a
    connection that succeeded and after the whole 200 reply; and what it sends
    the client itself is (the beginning of) one of its four replies. *)
Theorem serve_connect_sound env client : sound_service env client (serve_connect env client).
Proof.
  unfold serve_connect. pose proof (quiet_read 4096 client) as Hq.
  destruct (read 4096 client) as [[bytes|e| | |] c1]; cbn [snd] in Hq;
    try (apply silent_sound; [done|by left]).
  destruct (request_target _) as [t|]; [|apply reply_only_sound; [done|unfold reply_of; set_solver|by left]].
  destruct (is_blocked (target_host t)) eqn:Eb;
    [apply reply_only_sound; [done|unfold reply_of; set_solver|by left]|].
  pose proof (not_blocked _ Eb) as Hb.
  destruct (upstream_connect env t) as [[]|e| | |] eqn:Eu; [|apply reply_only_sound|apply silent_sound..];
    try done; try (right; by exists t); try (unfold reply_of; set_solver).
  destruct (write_sends established c1) as (k & Hk & Hall).
  destruct (write_all established c1) as [r c2]. cbn [fst snd] in Hk, Hall. rewrite Hq in Hk.
  assert (reply_of established) as He by (unfold reply_of; set_solver).
  destruct r as [[]|e| | |]; split; cbn [fst snd]; try (right; exists t; split; [|done]; by auto);
    try (by exists established, k); try (intros [? |[]%elem_of_nil]%elem_of_cons; done).
  intros _. exists t. split_and!; try done. by rewrite Hk, Hall.
Qed.

(** ** The engine's client against this proxy *)

(** A handshake whose peer answers with one complete head. *)
Lemma http_connect_reply `{Base64} cfg dest c reply st :
  inbox c = [RData reply] → write_results c = [] → zlen reply ≤ 512 →
  (∃ p, reply = p ++ blank_line) → parse_http_status reply = Some st →
  (http_connect cfg dest c).1 = (if st =? 200 then Ready tt else Failed (other_fmt (u "HTTP CONNECT failed with status " ++ dec st))).
Proof.
  intros Hi Hw Hl Hb Hst. unfold http_connect. set (req := build_http_connect_request _ _ _).
  unfold mbind, io_bind, write_all. rewrite Hw. cbn [List.tl].
  assert (reply ≠ []) as Hne by (destruct Hb as [p ->]; by destruct p).
  rewrite (read_head_chunks head_fuel [] [reply] []); try done.
  - cbn [app concat]. rewrite app_nil_r, Hst. by destruct (st =? 200).
  - by repeat constructor.
  - cbn [app concat]. rewrite app_nil_r. lia.
  - pose proof head_fuel_enough. cbn [length]. lia.
  - cbn [app concat]. by rewrite app_nil_r.
  - intros [|x pre] post; [done|]. intros [= -> Hpp] _ Hpost. by destruct pre, post.
Qed.

(** Text without white space. *)
Definition solid (s : str) : Prop := Forall (λ c, is_whitespace c = false) s.

Lemma visible_solid s : visible s → solid s.
Proof.
  intros Hs. eapply Forall_impl; [exact Hs|]. intros c Hc. simpl in Hc.
  apply not_true_is_false. unfold is_whitespace. rewrite ?orb_true_iff, ?andb_true_iff, ?Z.leb_le, ?Z.eqb_eq. lia.
Qed.

Lemma first_line_app s t : s ≠ [] → 10 ∉ s → first_line (s ++ CRLF ++ t) = Some s.
Proof.
  intros Hne Hs. unfold first_line. destruct s as [|c s0]; [done|]. set (s := c :: s0) in *.
  replace (s ++ CRLF ++ t) with ((s ++ [13]) ++ 10 :: t) by (by rewrite <-app_assoc).
  rewrite split_once_app by (apply not_elem_of_app; split; [done|concrete]).
  by rewrite strip_suffix_app.
Qed.

(** What the proxy reads as the target of the engine's request. *)
Lemma request_target_of `{Base64Laws} host port auth :
  host_ok host → is_port port →
  request_target (from_utf8_lossy (build_http_connect_request host port auth)) = Some (host ++ [58] ++ dec port).
Proof.
  intros Hh Hp. pose proof (visible_authority host port Hh Hp) as Hv.
  set (authority := host ++ [58] ++ dec port) in *.
  assert (is_ascii (request_lines authority (token_of auth))) as Ha.
  { pose proof (visible_ascii _ Hv) as Hva. clearbody authority. pose proof (visible_token auth) as Ht.
    unfold request_lines. destruct (token_of auth) as [tok|]; [pose proof (visible_ascii _ Ht) as Hta|];
      repeat (apply Forall_app; split); first [exact Hva | exact Hta | concrete]. }
  rewrite request_in_lines by done. fold authority.
  rewrite (from_utf8_lossy_valid _ (request_lines authority (token_of auth))).
  2: { rewrite <-(as_bytes_ascii (request_lines _ _)) at 1 by done. by apply from_utf8_as_bytes, is_ascii_str. }
  unfold request_target, request_lines.
  rewrite first_line_app; [|done|].
  2: { apply not_elem_of_app. split; [concrete|]. apply not_elem_of_app. split; [|concrete].
       eapply text_not_in; [exact Hv|]. simpl. lia. }
  cbn [mbind option_bind]. unfold split_whitespace.
  change (u "CONNECT ") with (u "CONNECT" ++ [32]). change (u " HTTP/1.1") with (32 :: u "HTTP/1.1").
  rewrite <-app_assoc. cbn [app]. rewrite split_app by (done || (by apply visible_solid; concrete)).
  rewrite split_app by (done || by apply visible_solid).
  rewrite split_none by (apply visible_solid; concrete). cbn [List.filter is_empty negb].
  change (is_empty (u "CONNECT")) with false. cbn [negb].
  assert (is_empty authority = false) as -> by (unfold authority; by destruct host). done.
Qed.

Lemma target_host_of host port : 0 ≤ port → target_host (host ++ [58] ++ dec port) = host.
Proof.
  intros Hp. unfold target_host. cbn [app]. by rewrite rsplit_once_app by (apply dec_not_in; lia).
Qed.

(** engine and stand-in proxy together.  When the engine's CONNECT request
    for a host reaches the proxy in one read and the proxy's reply reaches the
    engine, a blocked host is never dialled and the engine's handshake fails; any
    other host is dialled by the very name and port the engine asked for, and the
    handshake succeeds exactly when that dial does, the proxy then relaying. *)
Theorem live_check_end_to_end `{Base64Laws} cfg host port env client engine_conn :
  host_ok host → is_port port →
  let dest := Domain host port in
  let req := build_http_connect_request host port (auth_of cfg) in
  zlen req ≤ 4096 → inbox client = [RData req] → write_results client = [] → outbox client = [] →
  let '(r, client', did) := serve_connect env client in
  inbox engine_conn = [RData (outbox client')] → write_results engine_conn = [] →
  let target := host ++ [58] ++ dec port in
  if is_blocked host
  then did = [] ∧ ∃ e, (http_connect cfg dest engine_conn).1 = Failed e
  else match upstream_connect env target with
       | Ready _ => did = [DialUpstream target; TunnelUpstream] ∧ r = tunnel_end env
                    ∧ (http_connect cfg dest engine_conn).1 = Ready tt
       | Failed _ => did = [DialUpstream target] ∧ ∃ e, (http_connect cfg dest engine_conn).1 = Failed e
       | _ => did = [DialUpstream target]
       end.
Proof.
  intros Hh Hp dest req Hlen Hi Hw Ho. unfold serve_connect, read. rewrite Hi.
  assert (∃ b req', req = b :: req') as (b & req' & Hreq).
  { unfold req. rewrite request_in_lines by done. by eexists _, _. }
  rewrite Hreq. cbn [read_from]. rewrite <-Hreq. bool_lit.
  unfold req at 1. rewrite request_target_of by done. rewrite target_host_of by (unfold is_port in Hp; lia).
  assert (∀ reply st did, (∃ p, reply = p ++ blank_line) → zlen reply ≤ 512 → parse_http_status reply = Some st →
    reply_only reply (with_inbox client []) did = (Ready tt, MkConn [] [] reply, did)
    ∧ (inbox engine_conn = [RData reply] → write_results engine_conn = [] →
       (http_connect cfg dest engine_conn).1 = (if st =? 200 then Ready tt else Failed (other_fmt (u "HTTP CONNECT failed with status " ++ dec st))))) as Hreply.
  { intros reply st did Hb Hl Hst. split.
    - unfold reply_only, write_all, with_inbox. cbn [write_results inbox outbox]. by rewrite Hw, Ho.
    - intros Hin Hwr. by apply (http_connect_reply cfg dest engine_conn reply). }
  destruct (is_blocked host).
  { destruct (Hreply forbidden 403 []) as [-> Hc]; [by exists (u "HTTP/1.1 403 Forbidden")|done|done|].
    intros Hin Hwr. split; [done|]. rewrite (Hc Hin Hwr). by eexists. }
  destruct (upstream_connect env _) as [[]|e| | |]; try done.
  - destruct (Hreply established 200 []) as [Hw200 Hc]; [by exists (u "HTTP/1.1 200 Connection established")|done|done|].
    unfold reply_only in Hw200. destruct (write_all established _) as [r c]. injection Hw200 as -> ->.
    intros Hin Hwr. split_and!; [done|done|]. by rewrite (Hc Hin Hwr).
  - destruct (Hreply bad_gateway 502 [DialUpstream (host ++ [58] ++ dec port)]) as [-> Hc];
      [by exists (u "HTTP/1.1 502 Bad Gateway")|done|done|].
    intros Hin Hwr. split; [done|]. rewrite (Hc Hin Hwr). by eexists.
Qed.

(** ** The policy the example configures *)

Lemma read_port_digits_spec s acc count v :
  Forall (λ c, 48 ≤ c ≤ 57) s → parse_digits 65535 acc s = Some v →
  read_port_digits acc count s = Some (v, count + zlen s, []).
Proof.
  intros Hd. revert acc count. induction Hd as [|c s Hc _ IH]; intros acc count; cbn [parse_digits read_port_digits].
  { intros [= ->]. by rewrite Z.add_0_r. }
  rewrite to_digit_dec by done. replace (digit_of c) with (Some (c - 48))
    by (rewrite <-digit_of_digit by lia; f_equal; lia). cbn [mbind option_bind].
  destruct (Z.leb_spec (acc * 10 + (c - 48)) 65535); [|done]. bool_lit. intros Hp.
  rewrite (IH _ (count + 1)) by done. rewrite zlen_cons. do 3 f_equal. lia.
Qed.

(** The address the builder is given parses back. *)
Lemma parse_proxy_addr p :
  is_port p → parse_socket_addr (u "127.0.0.1:" ++ dec p) = Some (SockAddr (V4 (ipv4 127 0 0 1)) p).
Proof.
  intros Hp. unfold is_port in Hp. unfold parse_socket_addr, read_socket_addr_v4.
  assert (read_ipv4_addr (u "127.0.0.1:" ++ dec p) = Some (ipv4 127 0 0 1, 58 :: dec p)) as -> by reflexivity.
  cbn [mbind option_bind]. unfold read_port. cbn [read_char]. rewrite Z.eqb_refl. cbn [mbind option_bind].
  pose proof (dec_go_parse 40 p 65535 ltac:(lia) ltac:(lia)) as Hparse.
  rewrite (read_port_digits_spec (dec p) 0 0 p) by (done || apply dec_digits; lia). cbn [mbind option_bind].
  pose proof (dec_nonempty p). destruct (Z.eqb_spec (0 + zlen (dec p)) 0); [|done].
  destruct (dec p); [done|]. rewrite zlen_cons in *. pose proof (zlen_nonneg s). lia.
Qed.

Definition OWN_NAMES : list str := [u "ace-engine"; u "ace-app"; u "live_check"].
Definition BROWSER_NAMES : list str :=
  [u "chrome"; u "firefox"; u "msedge"; u "brave"; u "opera"; u "vivaldi"].
Definition named (names : list str) (n : str) : bool := existsb (λ g, eq_ignore_ascii_case g n) names.

(** Literal tokens match as names do, up to case. *)
Lemma literal_list `{GlobLaws} gs n :
  Forall (λ g, is_ascii g ∧ (length g ≤ 255)%nat ∧ literal g) gs → plain n →
  existsb (λ m, is_match m n) (omap compile_glob gs) = named gs n.
Proof.
  intros Hgs Hn. apply eq_true_iff_eq. rewrite compile_globs_spec; [|eapply Forall_impl; [exact Hgs|]; by intros g (? & ? & _)|done].
  unfold named. rewrite existsb_exists. rewrite Forall_forall in Hgs. split.
  - intros (g & Hg & Hm). exists g. split; [by apply list_elem_of_In|].
    destruct (Hgs g Hg) as (_ & _ & Hl). rewrite glob_frag_literal, frag_match_literal in Hm by done.
    by apply bool_decide_eq_true.
  - intros (g & Hg%list_elem_of_In & Hm%bool_decide_eq_true). exists g. split; [done|].
    destruct (Hgs g Hg) as (_ & _ & Hl). by rewrite glob_frag_literal, frag_match_literal.
Qed.

Lemma loopback_hosts ip : wf_ip ip → is_loopback ip = false → match_ip_list (u "127.0.0.1;::1") ip = false.
Proof.
  intros Hip Hl. unfold match_ip_list.
  change (is_match_all (u "127.0.0.1;::1")) with false.
  change (split_list (u "127.0.0.1;::1")) with [u "127.0.0.1"; u "::1"]. cbn [existsb].
  destruct ip as [a|a]; unfold match_ip_pattern.
  - change (str_eqb (u "127.0.0.1") (u "*")) with false. change (str_eqb (u "::1") (u "*")) with false.
    change (match_ipv4_pattern (u "::1") a) with false. rewrite !orb_false_r.
    unfold match_ipv4_pattern. change (contains (u "127.0.0.1") 58) with false.
    change (split_once (u "127.0.0.1") 45) with (@None (str * str)).
    change (split (Z.eqb 46) (u "127.0.0.1")) with [u "127"; u "0"; u "0"; u "1"]. cbn [octets].
    destruct (ipv4_octets a Hip) as (o0 & o1 & o2 & o3 & -> & Ha & B0 & B1 & B2 & B3).
    transitivity (if 127 =? o0 then if 0 =? o1 then if 0 =? o2 then if 1 =? o3 then true
      else false else false else false else false); [reflexivity|].
    destruct (Z.eqb_spec 127 o0) as [<-|]; [|done]. exfalso.
    cbn [is_loopback] in Hl. apply Z.eqb_neq in Hl. apply Hl. rewrite <-Ha, Z.shiftr_div_pow2 by lia.
    unfold ipv4. pose proof (be_val_bound [o1; o2; o3]) as Hb.
    assert (be_val [127; o1; o2; o3] = 127 * 2 ^ 24 + be_val [o1; o2; o3]) as Hv.
    { unfold is_byte in *. unfold be_val. cbn [foldl].
      rewrite !(lor_shiftl_add 8) by lia. lia. }
    rewrite Hv. assert (0 ≤ be_val [o1; o2; o3] < 256 ^ 3) by (apply Hb; rewrite !Forall_cons; by split_and!).
    rewrite Z.div_add_l by lia. rewrite Z.div_small by lia. lia.
  - change (str_eqb (u "127.0.0.1") (u "*")) with false. change (str_eqb (u "::1") (u "*")) with false.
    change (match_ipv6_pattern (u "127.0.0.1") a) with false. cbn [orb]. rewrite orb_false_r.
    cbn [is_loopback] in Hl. transitivity (1 =? a); [reflexivity|]. rewrite Z.eqb_sym. exact Hl.
Qed.

Lemma web_ports p : match_port_list (u "80;443") p = (p =? 80) || (p =? 443).
Proof.
  transitivity ((80 =? p) || ((443 =? p) || false)); [reflexivity|].
  by rewrite orb_false_r, (Z.eqb_sym 80), (Z.eqb_sym 443).
Qed.

(** The rules, compiled. *)
Definition compiled_rules `{RegexEngine} : list CompiledRule :=
  [MkCompiledRule (omap compile_glob OWN_NAMES) false (u "*") true (u "*") true [] true None Both Direct 0;
   MkCompiledRule [] true (u "127.0.0.1;::1") false (u "*") true [] true None Both Direct 0;
   MkCompiledRule (omap compile_glob BROWSER_NAMES) false (u "*") true (u "80;443") false [] true None Tcp
     Config.Proxy 0;
   MkCompiledRule [] true (u "*") true (u "*") true [] true None Both Direct 0].

Lemma compile_process_literal `{RegexEngine} lst names :
  is_match_all lst = false → mapM strip_exe_suffix (split_list lst) = Done names →
  compile_process_list lst = Done (omap compile_glob names).
Proof. intros Ha Hm. unfold compile_process_list. by rewrite Ha, Hm. Qed.

Lemma example_compiles `{RegexEngine} : ruleset_new example_rules = Done (MkRuleSet compiled_rules false).
Proof.
  unfold ruleset_new, example_rules. cbn [mapM].
  assert (∀ r names, is_match_all (process_names r) = false →
    mapM strip_exe_suffix (split_list (process_names r)) = Done names →
    compile r = Done (MkCompiledRule (omap compile_glob names) false (hosts r) (is_match_all (hosts r))
      (ports r) (is_match_all (ports r)) (compile_glob_list (domains r)) (is_match_all (domains r))
      (except_hosts r) (protocol r) (action r) (proxy_config_id r))) as Hc.
  { intros r names Ha Hm. unfold compile. rewrite (compile_process_literal _ _ Ha Hm). cbn. by rewrite Ha. }
  rewrite (Hc (with_action (rule_new OWN_EXECUTABLES) Direct) OWN_NAMES) by reflexivity.
  rewrite (Hc (with_action (with_protocol (with_ports (rule_new (Rule.join 59 BROWSERS)) (u "80;443")) Tcp) Config.Proxy)
    BROWSER_NAMES) by reflexivity. reflexivity.
Qed.

(** What the example's rules decide for a connection past the loopback check. *)
Lemma example_evaluates `{GlobLaws} name n dest dest_port is_udp domain :
  strip_exe_suffix name = Done n → plain n → wf_ip dest → is_loopback dest = false →
  evaluate (MkRuleSet compiled_rules false) name dest dest_port is_udp domain
  = Done (MkRuleMatch (if negb (named OWN_NAMES n) && named BROWSER_NAMES n && negb is_udp
                          && ((dest_port =? 80) || (dest_port =? 443)) then Config.Proxy else Direct) 0).
Proof.
  intros Hn Hp Hip Hl. unfold evaluate. rewrite (evaluate_loop_spec _ _ _ _ _ _ _ n) by done. f_equal.
  cbn [rules compiled_rules List.find]. unfold rule_applies, matches_target, excepted.
  cbn [c_protocol process_wildcard process_matchers c_except_hosts hosts_all ports_all domains_all c_hosts c_ports].
  rewrite !literal_list by (done || concrete). rewrite loopback_hosts, web_ports by done.
  cbn [protocol_matches filtered hosts_all ports_all domains_all negb orb andb].
  destruct (named OWN_NAMES n); [reflexivity|]. cbn [negb andb].
  destruct is_udp; cbn [negb andb]; [by rewrite andb_false_r|].
  destruct (named BROWSER_NAMES n); cbn [andb orb]; [|reflexivity].
  destruct ((dest_port =? 80) || (dest_port =? 443)); reflexivity.
Qed.

(** A name the suffix cannot be cut from stops the first rule. *)
Lemma example_panics `{RegexEngine} name dest dest_port is_udp domain :
  strip_exe_suffix name = Panic →
  evaluate (MkRuleSet compiled_rules false) name dest dest_port is_udp domain = Panic.
Proof.
  intros Hn. unfold evaluate. cbn [rules compiled_rules evaluate_loop c_protocol protocol_matches negb process_wildcard].
  unfold matches_process. cbn [process_wildcard]. by rewrite Hn.
Qed.

Definition example_shared `{RegexEngine} (pid p : Z) : Shared :=
  MkShared (MkRuleSet compiled_rules false) [set_config_id (http (u "127.0.0.1") p) 1]
    cache_default false 443 QuicDrop pid None stats_default false true false.

(** [build] with one proxy configuration. *)
Lemma build_shared_one `{RegexEngine} pid b c rl rs :
  b_proxy_configs b = [c] → b_rules b = rl → validate c = Ok tt → ruleset_new rl = Done rs →
  build_shared pid b = Done (Ok (MkShared rs [set_config_id c 1] cache_default (b_localhost_via_proxy b)
    (b_quic_port b) (b_quic_policy b) pid None stats_default (b_log_cb b) (b_conn_cb b) false)).
Proof.
  intros Hc Hr Hv Hrs. unfold build_shared. rewrite Hc. cbn [assign_ids].
  rewrite validate_set_config_id, Hv. cbn [mbind result_bind]. rewrite Hr, Hrs. reflexivity.
Qed.

Lemma example_builds `{RegexEngine} pid p :
  is_port p → p ≠ 0 →
  ∃ b, example_builder p = Ok b ∧ build_shared pid b = Done (Ok (example_shared pid p)).
Proof.
  intros Hp Hp0. unfold example_builder, builder. rewrite parse_proxy_addr by done. cbn [mbind result_bind].
  eexists. split; [reflexivity|].
  rewrite (build_shared_one pid _ (http (u "127.0.0.1") p) example_rules (MkRuleSet compiled_rules false));
    [reflexivity|reflexivity|reflexivity|by apply validate_ok|exact example_compiles].
Qed.

(** C34: the example's engine does what its documentation says.  For every port
    its listener may get, the builder chain builds; a [Proxy] decision means the
    stand-in proxy at 127.0.0.1 on that port; and take a flow of any other process,
    to an address that is neither loopback nor a group.  If the process's name is
    plain (one line of ASCII) once [.exe] is cut off, the flow is dropped when it is
    QUIC, sent to the proxy exactly when a browser opens TCP to port 80 or 443, and
    otherwise left direct.  If cutting [.exe] off the name panics, the flow is
    dropped when it is QUIC, and its decision panics otherwise. *)
Theorem example_policy `{GlobLaws} pid p :
  is_port p → p ≠ 0 →
  ∃ b s, example_builder p = Ok b ∧ build_shared pid b = Done (Ok s)
    ∧ find_proxy_config s 0 = Some (set_config_id (http (u "127.0.0.1") p) 1)
    ∧ ∀ facts, ff_pid facts ≠ Some pid → wf_ip (sa_ip (ff_dest facts)) →
        is_loopback (sa_ip (ff_dest facts)) = false → is_group_address (sa_ip (ff_dest facts)) = false →
        let port := sa_port (ff_dest facts) in
        let quic := ff_is_udp facts && (port =? 443) in
        (∀ n, strip_exe_suffix (ff_process_name facts) = Done n → plain n →
           decide s facts = Done
             (if quic then DBlock
              else if negb (named OWN_NAMES n) && named BROWSER_NAMES n && negb (ff_is_udp facts)
                      && ((port =? 80) || (port =? 443)) then DProxy 0
              else DDirect))
        ∧ (strip_exe_suffix (ff_process_name facts) = Panic →
           decide s facts = if quic then Done DBlock else Panic).
Proof.
  intros Hp Hp0. destruct (example_builds pid p Hp Hp0) as (b & Hb & Hs).
  exists b, (example_shared pid p). split_and!; [done..|].
  intros facts Hpid Hip Hl Hg port quic. unfold decide.
  cbn [example_shared current_pid localhost_via_proxy quic_port quic_policy rules_of].
  rewrite bool_decide_false, Hl, Hg by done. cbn [andb]. rewrite bool_decide_true, andb_true_r by done.
  fold port. fold quic. split.
  - intros n Hn Hpl. destruct quic; [done|].
    rewrite (example_evaluates _ n) by done. cbn [mbind outcome_bind].
    by destruct (negb _ && _ && _ && _).
  - intros Hn. destruct quic; [done|]. by rewrite example_panics.
Qed.

(** ** Starting and stopping *)

(** the example's [main].  When the start fails it returns that error, or
    normally when only the privilege is missing, with no session up; otherwise it
    serves with exactly one session, and the interrupt takes the engine out of
    its running state. *)
Theorem live_main_outcomes `{RegexEngine} env p :
  me_listener env = Ok p → is_port p → p ≠ 0 →
  ∃ r eng, live_start env = Done (r, eng)
    ∧ match start_error (me_start env) with
      | Some NotElevated => r = Some (Ok tt) ∧ sessions eng = []
      | Some e => r = Some (Err e) ∧ sessions eng = []
      | None => r = None ∧ sessions eng = [new_session]
                ∧ (me_ctrl_c env = None → (live_stop env eng).1 = Ok 0%nat
                     ∧ is_running (live_stop env eng).2 = false)
      end.
Proof.
  intros Hlis Hp Hp0. unfold live_start. rewrite Hlis.
  destruct (example_builds (me_pid env) p Hp Hp0) as (b & -> & ->). cbn [mbind outcome_bind].
  unfold start, start_inner, start_error, backend_create, live_stop. cbn [running_flag engine_new set_running handle].
  destruct (interface_is_empty (se_discover (me_start env))); [by eexists _, _|].
  destruct (se_privileged (me_start env)); cbn [negb]; [|by eexists _, _].
  destruct (se_create (me_start env)) as [er|]; [by destruct er; eexists _, _|].
  destruct (se_session (me_start env)); [by eexists _, _|].
  destruct (se_device (me_start env)); [by eexists _, _|].
  eexists _, _. split; [reflexivity|]. split_and!; [done|done|]. intros ->. by split.
Qed.

(** ** Concrete instances *)

#[local] Existing Instance MiniRegex.engine.

Module LiveDemo.

Definition cfg : ProxyConfig := http (u "127.0.0.1") 8080.
Definition request (host : str) : list Z := build_http_connect_request host 443 None.
Definition client (host : str) : conn := MkConn [RData (request host)] [] [].
(** Every upstream answers but one. *)
Definition env : serve_env :=
  MkServeEnv (λ t, if str_eqb t (u "down.example:443") then Failed (IoError Other "refused") else Ready tt) (Ready tt).
Definition replied (host : str) : conn := MkConn [RData (outbox (serve_connect env (client host)).1.2)] [] [].

End LiveDemo.

Lemma live_check_end_to_end_witness :
  (serve_connect LiveDemo.env (LiveDemo.client (u "www.youtube.com"))).2 = []
  ∧ (∃ e, (http_connect LiveDemo.cfg (Domain (u "www.youtube.com") 443) (LiveDemo.replied (u "www.youtube.com"))).1 = Failed e)
  ∧ (http_connect LiveDemo.cfg (Domain (u "github.com") 443) (LiveDemo.replied (u "github.com"))).1 = Ready tt
  ∧ (∃ e, (http_connect LiveDemo.cfg (Domain (u "down.example") 443) (LiveDemo.replied (u "down.example"))).1 = Failed e).
Proof.
  assert (∀ host, host_ok host → zlen (LiveDemo.request host) ≤ 4096 →
    let '(r, client', did) := serve_connect LiveDemo.env (LiveDemo.client host) in
    let target := host ++ [58] ++ dec 443 in
    if is_blocked host
    then did = [] ∧ ∃ e, (http_connect LiveDemo.cfg (Domain host 443) (LiveDemo.replied host)).1 = Failed e
    else match upstream_connect LiveDemo.env target with
         | Ready _ => did = [DialUpstream target; TunnelUpstream] ∧ r = tunnel_end LiveDemo.env
                      ∧ (http_connect LiveDemo.cfg (Domain host 443) (LiveDemo.replied host)).1 = Ready tt
         | Failed _ => did = [DialUpstream target]
                       ∧ ∃ e, (http_connect LiveDemo.cfg (Domain host 443) (LiveDemo.replied host)).1 = Failed e
         | _ => did = [DialUpstream target]
         end) as Hall.
  { intros host Hh Hl. pose proof (live_check_end_to_end LiveDemo.cfg host 443 LiveDemo.env (LiveDemo.client host)
      (LiveDemo.replied host) Hh ltac:(unfold is_port; lia) Hl eq_refl eq_refl eq_refl) as Hx.
    unfold LiveDemo.replied in *. destruct (serve_connect LiveDemo.env (LiveDemo.client host)) as [[r c'] did].
    by apply Hx. }
  pose proof (Hall (u "www.youtube.com") ltac:(concrete) ltac:(vm_compute; congruence)) as H1.
  pose proof (Hall (u "github.com") ltac:(concrete) ltac:(vm_compute; congruence)) as H2.
  pose proof (Hall (u "down.example") ltac:(concrete) ltac:(vm_compute; congruence)) as H3.
  destruct (serve_connect LiveDemo.env (LiveDemo.client (u "www.youtube.com"))) as [[r1 c1] d1].
  destruct (serve_connect LiveDemo.env (LiveDemo.client (u "github.com"))) as [[r2 c2] d2].
  destruct (serve_connect LiveDemo.env (LiveDemo.client (u "down.example"))) as [[r3 c3] d3].
  cbv zeta in H1, H2, H3.
  replace (is_blocked (u "www.youtube.com")) with true in H1 by (vm_compute; exact eq_refl).
  replace (is_blocked (u "github.com")) with false in H2 by (vm_compute; exact eq_refl).
  replace (is_blocked (u "down.example")) with false in H3 by (vm_compute; exact eq_refl).
  replace (upstream_connect LiveDemo.env (u "github.com" ++ [58] ++ dec 443)) with (Ready tt) in H2
    by (vm_compute; exact eq_refl).
  replace (upstream_connect LiveDemo.env (u "down.example" ++ [58] ++ dec 443))
    with (Failed (A:=unit) (IoError Other "refused")) in H3 by (vm_compute; exact eq_refl).
  destruct H1 as [H1 H1'], H2 as (_ & _ & H2), H3 as [_ H3]. split_and!; [exact H1|exact H1'|exact H2|exact H3].
Defined.

Lemma example_policy_witness :
  ∃ b s, example_builder 50000 = Ok b ∧ build_shared 7 b = Done (Ok s)
    ∧ decide s (MkFacts (SockAddr (V4 (ipv4 93 184 216 34)) 443) false (Some 9) (u "Firefox.exe") None) = Done (DProxy 0)
    ∧ decide s (MkFacts (SockAddr (V4 (ipv4 93 184 216 34)) 22) false (Some 9) (u "firefox.exe") None) = Done DDirect
    ∧ decide s (MkFacts (SockAddr (V4 (ipv4 93 184 216 34)) 22) false (Some 9) [8364; 101; 120] None) = Panic.
Proof.
  destruct (example_policy 7 50000) as (b & s & Hb & Hs & _ & Hd); [unfold is_port; lia|done|].
  exists b, s. split_and!; [done|done| | |].
  - destruct (Hd (MkFacts (SockAddr (V4 (ipv4 93 184 216 34)) 443) false (Some 9) (u "Firefox.exe") None)) as [H1 _];
      [concrete..|]. rewrite (H1 (u "Firefox")); [vm_compute; exact eq_refl|concrete..].
  - destruct (Hd (MkFacts (SockAddr (V4 (ipv4 93 184 216 34)) 22) false (Some 9) (u "firefox.exe") None)) as [H1 _];
      [concrete..|]. rewrite (H1 (u "firefox")); [vm_compute; exact eq_refl|concrete..].
  - destruct (Hd (MkFacts (SockAddr (V4 (ipv4 93 184 216 34)) 22) false (Some 9) [8364; 101; 120] None)) as [_ H2];
      [concrete..|]. rewrite H2; [vm_compute; exact eq_refl|concrete].
Defined.

Lemma live_main_outcomes_witness :
  ∃ eng, live_start (MkMainEnv (Ok 50000) 7
      (MkStartEnv (MkPhysicalInterface (Some 2) None) true None None None) None) = Done (None, eng)
    ∧ sessions eng = [new_session].
Proof.
  destruct (live_main_outcomes (MkMainEnv (Ok 50000) 7
    (MkStartEnv (MkPhysicalInterface (Some 2) None) true None None None) None) 50000 eq_refl)
    as (r & eng & Hl & -> & Hs & _); [unfold is_port; lia|done|]. exists eng. split; [exact Hl|exact Hs].
Defined.
