(* ===== verification/Device.v ===== *)
(** * The packet device ([device.rs])

    One IP packet per read and per write, on three operating systems.  The Unix
    devices poll a nonblocking descriptor: the model takes, for each iteration
    of the polling loop, what the reactor and the system call answer.  The
    macOS device frames each packet with a 4-byte address family.  The Windows
    device is fed by a reader thread through a bounded channel, which is a
    transition system here: receiving, handing over and polling interleave. *)

From S2P Require Export Prelude.
Local Open Scope Z_scope.

(** ** [Poll] and its wake-up

    A pending poll says how the task is woken: by the reactor the poll
    registered with, or at once ([wake_by_ref]). *)

Inductive wakeup : Type := Registered | WakeNow.
Inductive poll (A : Type) : Type := PReady (a : A) | PPending (w : wakeup).
Arguments PReady {A} a.
Arguments PPending {A} w.
#[export] Instance wakeup_eq_dec : EqDecision wakeup.
Proof. solve_decision. Defined.
#[export] Instance result_eq_dec {E A} `{EqDecision E, EqDecision A} : EqDecision (result E A).
Proof. solve_decision. Defined.
#[export] Instance poll_eq_dec {A} `{EqDecision A} : EqDecision (poll A).
Proof. solve_decision. Defined.

Definition MAX_PACKET : Z := 65535.
Definition AF_HEADER_LEN : Z := 4.

(** ** The nonblocking descriptor

    One iteration of a polling loop: the descriptor is not ready, its polling
    fails, or the system call is attempted and answers [r].  A [WouldBlock]
    answer is absorbed by [try_io], and the loop goes round. *)

Inductive attempt (R : Type) : Type :=
  | NotReady
  | PollFailed (e : io_error)
  | Syscall (r : result io_error R).
Arguments NotReady {R}.
Arguments PollFailed {R} e.
Arguments Syscall {R} r.

Fixpoint poll_loop {R} (script : list (attempt R)) : poll (result io_error R) * list (attempt R) :=
  match script with
  | [] => (PPending Registered, [])
  | NotReady :: script' => (PPending Registered, script')
  | PollFailed e :: script' => (PReady (Err e), script')
  | Syscall (Ok r) :: script' => (PReady (Ok r), script')
  | Syscall (Err e) :: script' =>
    if decide (ie_kind e = WouldBlock) then poll_loop script' else (PReady (Err e), script')
  end.

(** [libc::read] of one datagram into a buffer: the bytes that fit replace the
    start of the buffer, the rest of the datagram is lost. *)
Definition libc_read (datagram scratch : list Z) : Z * list Z :=
  let received := Z.min (zlen datagram) (zlen scratch) in
  (received, take (Z.to_nat received) datagram ++ drop (Z.to_nat received) scratch).

(** What the kernel answers to a write of one datagram: taken whole, or cut. *)
Inductive taken : Type := Whole | Cut (n : Z).
Definition written (k : taken) (datagram : list Z) : Z :=
  match k with Whole => zlen datagram | Cut n => n end.
Definition on_wire (k : taken) (datagram : list Z) : list Z :=
  take (Z.to_nat (written k datagram)) datagram.

(** [TunDevice] on Unix: the answers to come, the scratch buffer, and what
    the kernel has been handed. *)
Record UnixDevice : Type := MkUnixDevice {
  reads : list (attempt (list Z));
  writes : list (attempt taken);
  packet : list Z;
  wire : list (list Z)
}.

Definition after_read (d : UnixDevice) rs p : UnixDevice := MkUnixDevice rs (writes d) p (wire d).
Definition after_write (d : UnixDevice) ws out : UnixDevice :=
  MkUnixDevice (reads d) ws (packet d) (wire d ++ out).

(** The tail both [poll_read]s end with: [packet] is handed over when it fits
    in the caller's buffer, dropped otherwise. *)
Definition hand_over (room : Z) (bs : list Z) : poll (result io_error (list Z)) :=
  if room <? zlen bs then PPending WakeNow else PReady (Ok bs).

Definition invalid_input : io_error := IoError InvalidInput "packet exceeds 65535 bytes".

Module Linux.

Definition new (rs : list (attempt (list Z))) (ws : list (attempt taken)) : UnixDevice :=
  MkUnixDevice rs ws (replicate (Z.to_nat MAX_PACKET) 0) [].

Definition poll_read (room : Z) (d : UnixDevice)
    : outcome (poll (result io_error (list Z)) * UnixDevice) :=
  match poll_loop (reads d) with
  | (PPending w, rs) => Done (PPending w, after_read d rs (packet d))
  | (PReady (Err e), rs) => Done (PReady (Err e), after_read d rs (packet d))
  | (PReady (Ok datagram), rs) =>
    let '(received, p) := libc_read datagram (packet d) in
    let d' := after_read d rs p in
    if room <? received then Done (PPending WakeNow, d')
    else bs ← slice p 0 received; Done (PReady (Ok bs), d')
  end.

Definition poll_write (buf : list Z) (d : UnixDevice)
    : poll (result io_error Z) * UnixDevice :=
  if zlen buf =? 0 then (PReady (Ok 0), d)
  else if MAX_PACKET <? zlen buf then (PReady (Err invalid_input), d)
  else match poll_loop (writes d) with
  | (PPending w, ws) => (PPending w, after_write d ws [])
  | (PReady (Err e), ws) => (PReady (Err e), after_write d ws [])
  | (PReady (Ok k), ws) => (PReady (Ok (written k buf)), after_write d ws [on_wire k buf])
  end.

End Linux.

Module Macos.

Definition AF_INET : Z := 2.
Definition AF_INET6 : Z := 30.

Definition new (rs : list (attempt (list Z))) (ws : list (attempt taken)) : UnixDevice :=
  MkUnixDevice rs ws (replicate (Z.to_nat (AF_HEADER_LEN + MAX_PACKET)) 0) [].

Definition short_read : io_error := IoError InvalidData "utun read shorter than its AF header".

Definition poll_read (room : Z) (d : UnixDevice)
    : outcome (poll (result io_error (list Z)) * UnixDevice) :=
  match poll_loop (reads d) with
  | (PPending w, rs) => Done (PPending w, after_read d rs (packet d))
  | (PReady (Err e), rs) => Done (PReady (Err e), after_read d rs (packet d))
  | (PReady (Ok datagram), rs) =>
    let '(received, p) := libc_read datagram (packet d) in
    let d' := after_read d rs p in
    if received <? AF_HEADER_LEN then Done (PReady (Err short_read), d')
    else bs ← slice p AF_HEADER_LEN received; Done (hand_over room bs, d')
  end.

Definition too_short : io_error := IoError InvalidData "packet too short to carry an IP version".
Definition no_version : io_error := IoError InvalidData "packet is neither IPv4 nor IPv6".

(** [match buf[0] >> 4] *)
Definition family (buf : list Z) : outcome (option Z) :=
  b ← index buf 0;
  Done (if Z.shiftr b 4 =? 4 then Some AF_INET
        else if Z.shiftr b 4 =? 6 then Some AF_INET6 else None).

Definition poll_write (buf : list Z) (d : UnixDevice)
    : outcome (poll (result io_error Z) * UnixDevice) :=
  if zlen buf =? 0 then Done (PReady (Ok 0), d)
  else if MAX_PACKET <? zlen buf then Done (PReady (Err invalid_input), d)
  else if zlen buf <? AF_HEADER_LEN then Done (PReady (Err too_short), d)
  else
    af ← family buf;
    match af with
    | None => Done (PReady (Err no_version), d)
    | Some af =>
      let iovecs := be_bytes 4 af ++ buf in
      Done match poll_loop (writes d) with
      | (PPending w, ws) => (PPending w, after_write d ws [])
      | (PReady (Err e), ws) => (PReady (Err e), after_write d ws [])
      | (PReady (Ok k), ws) =>
        (PReady (Ok (Z.max 0 (written k iovecs - AF_HEADER_LEN))),
         after_write d ws [on_wire k iovecs])
      end
    end.

End Macos.

Module Windows.

Definition READ_QUEUE_DEPTH : Z := 1024.

(** The reader thread: in [receive_blocking], in [blocking_send] with a packet,
    or gone. *)
Inductive reader : Type := Receiving | Sending (p : list Z) | Exited.

(** The reader thread and the channel; [rx_open] until the device is dropped. *)
Record WinDevice : Type := MkWinDevice { thread : reader; queue : list (list Z); rx_open : bool }.

Definition new : WinDevice := MkWinDevice Receiving [] true.

(** [AsyncRead::poll_read]: [poll_recv] on the channel, then the size check. *)
Definition poll_read (room : Z) (d : WinDevice) : poll (result io_error (list Z)) * WinDevice :=
  match queue d with
  | p :: q => (hand_over room p, MkWinDevice (thread d) q (rx_open d))
  | [] =>
    match thread d with
    | Exited => (PReady (Ok []), d)
    | _ => (PPending Registered, d)
    end
  end.

(** [AsyncWrite::poll_write]; [ring_full] is the answer of
    [allocate_send_packet], [sent] what the ring has been given. *)
Definition poll_write (ring_full : bool) (buf : list Z) (sent : list (list Z))
    : poll (result io_error Z) * list (list Z) :=
  if MAX_PACKET <? zlen buf then (PReady (Err invalid_input), sent)
  else if zlen buf =? 0 then (PReady (Ok 0), sent)
  else (PReady (Ok (zlen buf)), if ring_full then sent else sent ++ [buf]).

(** What can happen next: [receive_blocking] returns a packet or fails,
    [blocking_send] completes, the netstack polls, the device is dropped. *)
Inductive label : Type :=
  | Received (p : list Z)
  | SessionShut
  | Handed
  | Poll
  | DropDevice.

Definition step (room : Z) (l : label) (d : WinDevice)
    : option (option (poll (result io_error (list Z))) * WinDevice) :=
  match l, thread d with
  | Received p, Receiving => Some (None, MkWinDevice (Sending p) (queue d) (rx_open d))
  | SessionShut, Receiving => Some (None, MkWinDevice Exited (queue d) (rx_open d))
  | Handed, Sending p =>
    if rx_open d then
      if zlen (queue d) <? READ_QUEUE_DEPTH
      then Some (None, MkWinDevice Receiving (queue d ++ [p]) true)
      else None
    else Some (None, MkWinDevice Exited (queue d) false)
  | Poll, _ =>
    if rx_open d then let '(r, d') := poll_read room d in Some (Some r, d') else None
  | DropDevice, _ => if rx_open d then Some (None, MkWinDevice (thread d) [] false) else None
  | _, _ => None
  end.

(** A run: the answers of its polls, in order, and the state it ends in. *)
Fixpoint run (room : Z) (ls : list label) (d : WinDevice)
    : option (list (poll (result io_error (list Z))) * WinDevice) :=
  match ls with
  | [] => Some ([], d)
  | l :: ls' =>
    '(out, d') ← step room l d;
    '(outs, d'') ← run room ls' d';
    Some (match out with Some r => r :: outs | None => outs end, d'')
  end.

End Windows.

(** ** Specifications *)

(** A run of attempts that the loop absorbs. *)
Definition absorbed {R} (a : attempt R) : Prop :=
  match a with Syscall (Err e) => ie_kind e = WouldBlock | _ => False end.
#[export] Instance absorbed_dec {R} (a : attempt R) : Decision (absorbed a).
Proof. destruct a as [| |[]]; simpl; apply _. Defined.

Lemma poll_loop_absorbs {R} waits (a : attempt R) rest :
  Forall absorbed waits → poll_loop (waits ++ a :: rest) = poll_loop (a :: rest).
Proof.
  induction 1 as [|[| |[r|e]] waits Hw _ IH]; [done|done|done|done|].
  simpl in *. by rewrite decide_True.
Qed.

Lemma libc_read_fits datagram scratch :
  zlen datagram ≤ zlen scratch →
  libc_read datagram scratch
  = (zlen datagram, datagram ++ drop (length datagram) scratch)
  ∧ zlen (datagram ++ drop (length datagram) scratch) = zlen scratch.
Proof.
  intros Hl. unfold libc_read. rewrite Z.min_l by done.
  assert (Z.to_nat (zlen datagram) = length datagram) as -> by (unfold zlen; lia).
  rewrite take_ge by done. split; [done|].
  unfold zlen in *. rewrite length_app, length_drop. lia.
Qed.

(** A datagram of at most a packet is read whole whatever the scratch buffer
    held before: nothing of an earlier packet shows. *)
Lemma linux_read_whole room d waits g rest :
  zlen (packet d) = MAX_PACKET → zlen g ≤ MAX_PACKET →
  reads d = waits ++ Syscall (Ok g) :: rest → Forall absorbed waits →
  ∃ d', Linux.poll_read room d = Done (hand_over room g, d')
    ∧ reads d' = rest ∧ zlen (packet d') = MAX_PACKET.
Proof.
  intros Hp Hg Hr Hw. unfold Linux.poll_read, hand_over.
  rewrite Hr, poll_loop_absorbs by done. cbn [poll_loop].
  destruct (libc_read_fits g (packet d)) as [-> Hl]; [lia|].
  destruct (Z.ltb_spec room (zlen g)).
  - eexists. split_and!; [done|done|]. simpl. lia.
  - pose proof (slice_mid [] g (drop (length g) (packet d))) as Hs. simpl in Hs.
    change (zlen []) with 0 in Hs. rewrite Z.add_0_l in Hs. rewrite Hs.
    eexists. split_and!; [done|done|]. simpl. lia.
Qed.

Lemma macos_read_strips room d waits header g rest :
  zlen (packet d) = AF_HEADER_LEN + MAX_PACKET →
  zlen header = AF_HEADER_LEN → zlen g ≤ MAX_PACKET →
  reads d = waits ++ Syscall (Ok (header ++ g)) :: rest → Forall absorbed waits →
  ∃ d', Macos.poll_read room d = Done (hand_over room g, d')
    ∧ reads d' = rest ∧ zlen (packet d') = AF_HEADER_LEN + MAX_PACKET.
Proof.
  intros Hp Hh Hg Hr Hw. unfold Macos.poll_read.
  rewrite Hr, poll_loop_absorbs by done. cbn [poll_loop].
  destruct (libc_read_fits (header ++ g) (packet d)) as [-> Hl]; [rewrite zlen_app; lia|].
  destruct (Z.ltb_spec (zlen (header ++ g)) AF_HEADER_LEN);
    [rewrite zlen_app in *; pose proof (zlen_nonneg g); lia|].
  rewrite <-app_assoc, zlen_app, <-Hh, slice_mid.
  eexists. split_and!; [done|done|]. simpl. rewrite app_assoc. lia.
Qed.

(** ** Theorems *)

(** The address family of a packet, from its version nibble. *)
Definition af_of (p : list Z) : option Z :=
  match p with
  | b :: _ =>
    if Z.shiftr b 4 =? 4 then Some Macos.AF_INET
    else if Z.shiftr b 4 =? 6 then Some Macos.AF_INET6 else None
  | [] => None
  end.

Lemma family_af_of b p : Macos.family (b :: p) = Done (af_of (b :: p)).
Proof. done. Qed.

Lemma written_framed af p :
  Z.max 0 (written Whole (be_bytes 4 af ++ p) - AF_HEADER_LEN) = zlen p.
Proof.
  unfold written, AF_HEADER_LEN. rewrite zlen_app, zlen_be_bytes.
  pose proof (zlen_nonneg p). lia.
Qed.

Lemma on_wire_framed datagram : on_wire Whole datagram = datagram.
Proof. apply take_ge. unfold written, zlen. lia. Qed.

(** C28: utun framing.  A packet of 4 to 65535 bytes that starts with an IP
    version is handed to the kernel as one datagram, the big-endian address
    family of that version followed by the packet, and the caller is told the
    packet's own length; and whoever reads that datagram from a utun device
    gets the packet back unchanged, whatever the device read before, with every
    interruption by [WouldBlock] absorbed. *)
Theorem utun_roundtrip p af d waits ws rd waits' rs room :
  AF_HEADER_LEN ≤ zlen p ≤ MAX_PACKET → af_of p = Some af →
  writes d = waits ++ Syscall (Ok Whole) :: ws → Forall absorbed waits →
  zlen (packet rd) = AF_HEADER_LEN + MAX_PACKET → Forall absorbed waits' →
  reads rd = waits' ++ Syscall (Ok (be_bytes 4 af ++ p)) :: rs → zlen p ≤ room →
  ∃ d' rd',
    Macos.poll_write p d = Done (PReady (Ok (zlen p)), d')
    ∧ wire d' = wire d ++ [be_bytes 4 af ++ p]
    ∧ Macos.poll_read room rd = Done (PReady (Ok p), rd')
    ∧ reads rd' = rs.
Proof.
  intros Hl Haf Hw Hwaits Hp Hwaits' Hr Hroom.
  destruct (macos_read_strips room rd waits' (be_bytes 4 af) p rs) as (rd' & Hread & Hrs & _);
    [done|by rewrite zlen_be_bytes|lia|done|done|].
  unfold hand_over in Hread. destruct (Z.ltb_spec room (zlen p)); [lia|].
  destruct p as [|b p]; [done|]. unfold Macos.poll_write, AF_HEADER_LEN, MAX_PACKET in *.
  rewrite (proj2 (Z.eqb_neq _ _)), !(proj2 (Z.ltb_ge _ _)) by lia.
  rewrite family_af_of, Haf, Hw, poll_loop_absorbs by done.
  unfold mbind, outcome_bind. cbn [poll_loop]. rewrite written_framed, on_wire_framed.
  by eexists _, rd'.
Qed.

(** what [poll_write] refuses on macOS.  No buffer makes it panic, and
    whatever the kernel answers, nothing reaches the device unless the buffer is
    a packet of 4 to 65535 bytes with an IP version; then at most one datagram
    does, a prefix of the framed packet.  An oversized packet is
    [InvalidInput], a short or versionless one [InvalidData]. *)
Theorem utun_write_guarded buf d :
  ∃ r d', Macos.poll_write buf d = Done (r, d')
  ∧ ((zlen buf = 0 ∧ r = PReady (Ok 0) ∧ d' = d)
     ∨ (MAX_PACKET < zlen buf ∧ r = PReady (Err invalid_input) ∧ d' = d)
     ∨ (0 < zlen buf < AF_HEADER_LEN ∧ r = PReady (Err Macos.too_short) ∧ d' = d)
     ∨ (AF_HEADER_LEN ≤ zlen buf ≤ MAX_PACKET ∧ af_of buf = None
        ∧ r = PReady (Err Macos.no_version) ∧ d' = d)
     ∨ ∃ af, AF_HEADER_LEN ≤ zlen buf ≤ MAX_PACKET ∧ af_of buf = Some af
       ∧ (wire d' = wire d
          ∨ ∃ n, wire d' = wire d ++ [take n (be_bytes 4 af ++ buf)])).
Proof.
  unfold Macos.poll_write, AF_HEADER_LEN, MAX_PACKET in *.
  destruct (Z.eqb_spec (zlen buf) 0); [eexists _, _; split; [done|]; by left|].
  destruct (Z.ltb_spec 65535 (zlen buf)); [eexists _, _; split; [done|]; right; left; done|].
  pose proof (zlen_nonneg buf).
  destruct (Z.ltb_spec (zlen buf) 4).
  { eexists _, _; split; [done|]. right; right; left. repeat split; lia. }
  destruct buf as [|b p]; [done|]. rewrite family_af_of. unfold mbind, outcome_bind.
  destruct (af_of (b :: p)) as [af|] eqn:Haf.
  - destruct (poll_loop (writes d)) as [[[k|e]|w] ws]; eexists _, _; (split; [reflexivity|]);
      do 4 right; exists af; (split; [lia|split; [done|]]).
    + right. eexists. done.
    + left. apply app_nil_r.
    + left. apply app_nil_r.
  - eexists _, _; split; [done|]. do 3 right. left. repeat split; lia.
Qed.

Section WindowsReader.
Import Windows.
Context (room : Z).

(** Packets the reader holds for the netstack, oldest first. *)
Definition held (t : reader) : list (list Z) := match t with Sending p => [p] | _ => [] end.
Definition in_flight (d : WinDevice) : list (list Z) := queue d ++ held (thread d).

Definition received (ls : list label) : list (list Z) :=
  omap (λ l, match l with Received p => Some p | _ => None end) ls.

(** The packets a run's polls returned. *)
Definition delivered (outs : list (poll (result io_error (list Z)))) : list (list Z) :=
  omap (λ r, match r with PReady (Ok (b :: bs)) => Some (b :: bs) | _ => None end) outs.

Definition fits (p : list Z) : Prop := zlen p ≤ room.
#[global] Instance fits_dec p : Decision (fits p).
Proof. unfold fits. apply _. Defined.

Definition is_drop (l : label) : bool := match l with DropDevice => true | _ => false end.

(** What one step does to the packets on their way. *)
Definition conserves (rec : list (list Z)) (out : option (poll (result io_error (list Z))))
    (d d' : WinDevice) : Prop :=
  delivered (option_list out) ++ filter fits (in_flight d') = filter fits (in_flight d ++ rec).

Record device_wf (d : WinDevice) : Prop := {
  wf_open : rx_open d = true;
  wf_nonempty : Forall (λ p, p ≠ []) (in_flight d);
  wf_depth : zlen (queue d) ≤ READ_QUEUE_DEPTH
}.

Lemma poll_conserves d r d' :
  poll_read room d = (r, d') → device_wf d → conserves [] (Some r) d d' ∧ device_wf d'.
Proof.
  unfold conserves, in_flight, poll_read. intros Hp [Ho Hne Hq]. unfold in_flight in Hne.
  destruct d as [t [|p q] o]; simpl in *.
  { destruct t; simplify_eq/=; done. }
  simplify_eq/=. apply Forall_cons in Hne as [Hp Hne]. rewrite zlen_cons in Hq.
  split; [|split; simpl; [done|done|lia]].
  unfold hand_over. rewrite app_nil_r, filter_cons.
  case_decide as Hf; unfold fits in Hf; destruct (Z.ltb_spec room (zlen p)); try lia;
    by destruct p.
Qed.

Lemma step_conserves l d out d' :
  step room l d = Some (out, d') → is_drop l = false → device_wf d →
  Forall (λ p, p ≠ []) (received [l]) →
  conserves (received [l]) out d d' ∧ device_wf d'.
Proof.
  intros Hs Hl Hd Hrec. destruct l as [p| | | |]; [| | | |done].
  4:{ unfold step in Hs. rewrite (wf_open _ Hd) in Hs.
      destruct (poll_read room d) as [r d1] eqn:E. simplify_eq.
      by apply poll_conserves. }
  all: destruct Hd as [Ho Hne Hq]; unfold conserves, in_flight in *;
    destruct d as [[|p'|] q o]; simplify_eq/=.
  - split; [by rewrite ?app_nil_r, ?app_assoc|]. rewrite app_nil_r in Hne.
    split; [done|by apply Forall_app|done].
  - split; [by rewrite ?app_nil_r, ?app_assoc|done].
  - destruct (Z.ltb_spec (zlen q) READ_QUEUE_DEPTH); simplify_eq/=.
    split; [by rewrite ?app_nil_r, ?app_assoc|]. split; simpl; [done| |].
    + unfold in_flight; simpl. by rewrite ?app_nil_r, ?app_assoc.
    + rewrite zlen_app. change (zlen [p']) with 1. lia.
Qed.

Lemma run_conserves ls d outs d' :
  run room ls d = Some (outs, d') → Forall (λ l, is_drop l = false) ls → device_wf d →
  Forall (λ p, p ≠ []) (received ls) →
  delivered outs ++ filter fits (in_flight d') = filter fits (in_flight d ++ received ls)
  ∧ device_wf d'.
Proof.
  revert d outs. induction ls as [|l ls IH]; intros d outs Hrun Hls Hd Hrec; simpl in Hrun.
  { simplify_eq. by rewrite app_nil_r. }
  destruct (step room l d) as [[out d1]|] eqn:Hs; [|done]. simpl in Hrun.
  destruct (run room ls d1) as [[outs1 d2]|] eqn:Hr; [|done]. cbn in Hrun. simplify_eq Hrun. intros <- <-.
  apply Forall_cons in Hls as [Hl Hls].
  assert (received (l :: ls) = received [l] ++ received ls) as Hsplit by (destruct l; done).
  rewrite Hsplit in Hrec |- *. apply Forall_app in Hrec as [Hrec1 Hrec].
  destruct (step_conserves l d out d1) as [Hc Hd1]; [done..|].
  destruct (IH d1 outs1) as [Hi Hd2]; [done..|]. split; [|done].
  rewrite app_assoc, filter_app, <-Hc, <-app_assoc, <-filter_app, <-Hi.
  destruct out as [[[[]|]|]|]; simpl; rewrite ?app_assoc; done.
Qed.

(** C38: the reader thread and its channel lose and reorder nothing.  In every
    interleaving of the reader thread with the netstack's polls, as long as the
    device is not dropped and the driver delivers no empty packet, the packets the
    polls return are the packets received from the driver that fit in the
    netstack's buffer, each once and in order, except those still queued or in
    the reader's hands; at most 1024 wait in the channel; and a poll reports
    the end of the device only when the reader has gone and none is left. *)
Theorem windows_reader_fifo ls outs d :
  run room ls Windows.new = Some (outs, d) →
  Forall (λ l, is_drop l = false) ls → Forall (λ p, p ≠ []) (received ls) →
  delivered outs ++ filter fits (in_flight d) = filter fits (received ls)
  ∧ zlen (queue d) ≤ READ_QUEUE_DEPTH
  ∧ ((poll_read room d).1 = PReady (Ok []) →
     thread d = Exited ∧ delivered outs = filter fits (received ls)).
Proof.
  intros Hrun Hls Hrec.
  destruct (run_conserves ls Windows.new outs d) as [Hc Hd]; [done|done| |done|].
  { split; [done|by constructor|done]. }
  split_and!; [done|apply Hd|]. intros Heof.
  pose proof (wf_nonempty _ Hd) as Hne. unfold in_flight in *. simpl in Hc.
  destruct d as [t [|p q] o]; simpl in *.
  - destruct t; try done. simpl in Hc. by rewrite app_nil_r in Hc.
  - apply Forall_cons in Hne as [Hp _]. unfold hand_over in Heof. by case_match; simplify_eq.
Qed.

(** Once the device is dropped and the session is shut, the reader thread is
    at most two moves from its end, whatever it was doing: joining it returns. *)
Lemma reader_exits d :
  rx_open d = false →
  ∃ ls d', (length ls ≤ 1)%nat ∧ Forall (λ l, l = Handed ∨ l = SessionShut) ls
    ∧ run room ls d = Some ([], d') ∧ thread d' = Exited.
Proof.
  destruct d as [[|p|] q o]; simpl; intros ->.
  - exists [SessionShut]. eexists. split_and!; [simpl; lia|by auto|done|done].
  - exists [Handed]. eexists. split_and!; [simpl; lia|by auto|done|done].
  - exists []. eexists. split_and!; [simpl; lia|by auto|done|done].
Qed.

End WindowsReader.

(** ** Witnesses *)

Definition v4_packet : list Z := [0x45; 0; 0; 20; 1; 2; 3; 4].
Definition busy : io_error := IoError WouldBlock "would block".

Lemma utun_roundtrip_witness :
  ∃ d' rd',
    Macos.poll_write v4_packet (Macos.new [] [Syscall (Err busy); Syscall (Ok Whole)])
      = Done (PReady (Ok 8), d')
    ∧ wire d' = [[0; 0; 0; 2; 0x45; 0; 0; 20; 1; 2; 3; 4]]
    ∧ Macos.poll_read 1500 (Macos.new [Syscall (Ok (be_bytes 4 2 ++ v4_packet))] [])
      = Done (PReady (Ok v4_packet), rd')
    ∧ reads rd' = [].
Proof.
  apply (utun_roundtrip v4_packet 2 (Macos.new [] [Syscall (Err busy); Syscall (Ok Whole)])
    [Syscall (Err busy)] [] (Macos.new [Syscall (Ok (be_bytes 4 2 ++ v4_packet))] []) [] [] 1500);
    concrete.
Defined.

Lemma windows_reader_fifo_witness :
  delivered [PPending Registered; PPending WakeNow; PReady (Ok [1; 2])]
    ++ filter (fits 2) (in_flight (Windows.MkWinDevice Windows.Exited [] true))
  = filter (fits 2) (received [Windows.Poll; Windows.Received [1; 2; 3]; Windows.Handed;
      Windows.Received [1; 2]; Windows.Poll; Windows.Handed; Windows.Poll; Windows.SessionShut])
  ∧ zlen (Windows.queue (Windows.MkWinDevice Windows.Exited [] true)) ≤ Windows.READ_QUEUE_DEPTH
  ∧ ((Windows.poll_read 2 (Windows.MkWinDevice Windows.Exited [] true)).1 = PReady (Ok []) →
     Windows.thread (Windows.MkWinDevice Windows.Exited [] true) = Windows.Exited
     ∧ delivered [PPending Registered; PPending WakeNow; PReady (Ok [1; 2])]
       = filter (fits 2) (received [Windows.Poll; Windows.Received [1; 2; 3]; Windows.Handed;
      Windows.Received [1; 2]; Windows.Poll; Windows.Handed; Windows.Poll; Windows.SessionShut])).
Proof. apply (windows_reader_fifo 2); [vm_compute; reflexivity|concrete|concrete]. Defined.
