(* ===== verification/Routing.v ===== *)
(** * Routes and the split-default strategy
    ([platform/mod.rs], the route plans of [platform/*/adapter.rs])

    A forwarding table is a set of routes; the kernel sends a packet along the
    longest prefix that holds its destination.  The adapters never touch the
    default route: they add the two halves of each address space on the tunnel,
    and on Unix the multicast prefixes on the physical interface.  The theorems
    say where every address then goes. *)

From S2P Require Export Platform.
Local Open Scope Z_scope.

(** A route: destination prefix and outgoing interface. *)
Record Route : Type := MkRoute { rt_dest : IpAddr; rt_prefix : Z; rt_ifindex : Z }.
#[export] Instance Route_eq_dec : EqDecision Route.
Proof. solve_decision. Defined.
#[export] Program Instance Route_countable : Countable Route :=
  inj_countable' (λ r, (rt_dest r, rt_prefix r, rt_ifindex r)) (λ x, MkRoute x.1.1 x.1.2 x.2) _.
Next Obligation. by intros []. Qed.

Definition MULTICAST_V4 : Z := ipv4 224 0 0 0.
Definition MULTICAST_V4_PREFIX : Z := 4.
Definition MULTICAST_V6 : Z := of_segments [0xff00; 0; 0; 0; 0; 0; 0; 0].
Definition MULTICAST_V6_PREFIX : Z := 8.

(** ** The plans: the routes each adapter installs, in order *)

Definition opt_route (i : option Z) (dest : IpAddr) (prefix : Z) : list Route :=
  match i with Some physical => [MkRoute dest prefix physical] | None => [] end.

Definition split_v4 (ifindex : Z) : list Route :=
  (λ '(net, prefix), MkRoute (V4 net) prefix ifindex) <$> V4_SPLIT_DEFAULT.
Definition split_v6 (ifindex : Z) : list Route :=
  (λ '(net, prefix), MkRoute (V6 net) prefix ifindex) <$> V6_SPLIT_DEFAULT.

(** [TunAdapter::create] on Linux and macOS. *)
Definition unix_plan (ipv6 : bool) (iface : PhysicalInterface) (ifindex : Z) : list Route :=
  opt_route (v4_index iface) (V4 MULTICAST_V4) MULTICAST_V4_PREFIX
  ++ (if ipv6 then opt_route (v6_index iface) (V6 MULTICAST_V6) MULTICAST_V6_PREFIX else [])
  ++ split_v4 ifindex
  ++ (if ipv6 then split_v6 ifindex else []).

(** [TunAdapter::create] on Windows. *)
Definition windows_plan (ipv6 : bool) (ifindex : Z) : list Route :=
  split_v4 ifindex ++ (if ipv6 then split_v6 ifindex else []).

(** A destination of its family, and a prefix no longer than an address. *)
Definition wf_route (r : Route) : Prop :=
  wf_ip (rt_dest r) ∧ 0 ≤ rt_prefix r ≤ addr_bits (rt_dest r).
#[export] Instance wf_route_dec r : Decision (wf_route r).
Proof. unfold wf_route, wf_ip. destruct (rt_dest r); apply _. Defined.

Lemma split_v4_wf i : Forall wf_route (split_v4 i).
Proof. repeat (constructor; [by vm_compute|]). constructor. Qed.
Lemma split_v6_wf i : Forall wf_route (split_v6 i).
Proof. repeat (constructor; [by vm_compute|]). constructor. Qed.

Lemma unix_plan_wf ipv6 iface i : Forall wf_route (unix_plan ipv6 iface i).
Proof.
  pose proof (split_v4_wf i). pose proof (split_v6_wf i).
  assert (∀ o dest n, (∀ j, wf_route (MkRoute dest n j)) → Forall wf_route (opt_route o dest n)) as Hopt.
  { intros [j|] dest n Hd; [by constructor|constructor]. }
  unfold unix_plan. rewrite !Forall_app. destruct ipv6; split_and!; try done; try constructor;
    apply Hopt; intros j; by vm_compute.
Qed.

Lemma windows_plan_wf ipv6 i : Forall wf_route (windows_plan ipv6 i).
Proof.
  unfold windows_plan. rewrite Forall_app. split; [apply split_v4_wf|].
  destruct ipv6; [apply split_v6_wf|constructor].
Qed.

(** ** Longest-prefix match *)

Definition same_family (a b : IpAddr) : bool := eqb (is_ipv6 a) (is_ipv6 b).

Definition route_holds (ip : IpAddr) (r : Route) : bool :=
  same_family (rt_dest r) ip && in_prefix (addr_value (rt_dest r)) (rt_prefix r) ip.

(** [r] is a route the kernel may choose for [ip] in [table]. *)
Definition selected (table : list Route) (ip : IpAddr) (r : Route) : Prop :=
  r ∈ table ∧ route_holds ip r = true
  ∧ ∀ r', r' ∈ table → route_holds ip r' = true → rt_prefix r' ≤ rt_prefix r.

(** ** Lemmas *)

Lemma v4_half a : 0 ≤ a < 2 ^ 32 → Z.shiftr a 31 = 0 ∨ Z.shiftr a 31 = 1.
Proof. intros Ha. rewrite Z.shiftr_div_pow2 by lia. dlia. Qed.

Lemma v6_half a : 0 ≤ a < 2 ^ 128 → Z.shiftr a 127 = 0 ∨ Z.shiftr a 127 = 1.
Proof.
  intros Ha. rewrite Z.shiftr_div_pow2 by lia.
  assert (0 ≤ a / 2 ^ 127 < 2); [|lia].
  split; [apply Z.div_pos; lia|apply Z.div_lt_upper_bound; lia].
Qed.

(** Each half of the split default holds the addresses whose first bit is its
    own, so the two halves partition the space. *)
Lemma split_halves ip :
  (λ '(net, len), in_prefix net len ip) <$> split_default ip
  = [Z.shiftr (addr_value ip) (addr_bits ip - 1) =? 0; Z.shiftr (addr_value ip) (addr_bits ip - 1) =? 1].
Proof. by destruct ip. Qed.

Lemma in_multicast_v4 a :
  0 ≤ a < 2 ^ 32 → in_prefix MULTICAST_V4 MULTICAST_V4_PREFIX (V4 a) = is_multicast (V4 a).
Proof.
  intros Ha. unfold in_prefix, MULTICAST_V4_PREFIX, is_multicast, addr_bits, addr_value.
  change (Z.shiftr MULTICAST_V4 (32 - 4)) with 14. change (32 - 4) with 28.
  rewrite !Z.shiftr_div_pow2 by lia.
  destruct (Z.eqb_spec (a / 2 ^ 28) 14), (Z.leb_spec 224 (a / 2 ^ 24)),
    (Z.leb_spec (a / 2 ^ 24) 239); simpl; try done; dlia.
Qed.

Lemma in_multicast_v6 a :
  0 ≤ a < 2 ^ 128 → in_prefix MULTICAST_V6 MULTICAST_V6_PREFIX (V6 a) = is_multicast (V6 a).
Proof.
  intros Ha. unfold in_prefix, MULTICAST_V6_PREFIX, is_multicast, addr_bits, addr_value.
  change (Z.shiftr MULTICAST_V6 (128 - 8)) with 255. change (128 - 8) with (112 + 8).
  rewrite <-Z.shiftr_shiftr by lia. set (h := Z.shiftr a 112).
  assert (0 ≤ h < 65536) as Hh.
  { unfold h. rewrite Z.shiftr_div_pow2 by lia.
    split; [apply Z.div_pos; lia|apply Z.div_lt_upper_bound; lia]. }
  change 0xff00 with (Z.shiftl 255 8).
  assert (Z.land h (Z.shiftl 255 8) = Z.shiftl (Z.land (Z.shiftr h 8) 255) 8) as ->.
  { apply Z.bits_inj'. intros i Hi. rewrite Z.land_spec, !Z.shiftl_spec by lia.
    destruct (Z.lt_ge_cases i 8).
    - rewrite !(Z.testbit_neg_r _ (i - 8)) by lia. apply andb_false_r.
    - rewrite Z.land_spec, Z.shiftr_spec by lia. f_equal. f_equal. lia. }
  rewrite land_255, Z.shiftr_div_pow2, !Z.shiftl_mul_pow2 by lia. change (2 ^ 8) with 256.
  rewrite Z.mod_small by dlia.
  destruct (Z.eqb_spec (h / 256) 255), (Z.eqb_spec (h / 256 * 256) (255 * 256)); lia || done.
Qed.

Lemma in_multicast ip :
  wf_ip ip →
  match ip with
  | V4 _ => in_prefix MULTICAST_V4 MULTICAST_V4_PREFIX ip
  | V6 _ => in_prefix MULTICAST_V6 MULTICAST_V6_PREFIX ip
  end = is_multicast ip.
Proof. destruct ip; [apply in_multicast_v4|apply in_multicast_v6]. Qed.

(** The tunnel's half that holds [ip]. *)
Definition half_of (tun : Z) (ip : IpAddr) : Route :=
  match ip with
  | V4 a => MkRoute (V4 (if Z.shiftr a 31 =? 0 then ipv4 0 0 0 0 else ipv4 128 0 0 0)) 1 tun
  | V6 a => MkRoute (V6 (if Z.shiftr a 127 =? 0 then of_segments [0; 0; 0; 0; 0; 0; 0; 0]
                         else of_segments [0x8000; 0; 0; 0; 0; 0; 0; 0])) 1 tun
  end.

Definition split_for (tun : Z) (ip : IpAddr) : list Route :=
  match ip with V4 _ => split_v4 tun | V6 _ => split_v6 tun end.

Definition multicast_for (iface : PhysicalInterface) (ip : IpAddr) : list Route :=
  match ip with
  | V4 _ => opt_route (v4_index iface) (V4 MULTICAST_V4) MULTICAST_V4_PREFIX
  | V6 _ => opt_route (v6_index iface) (V6 MULTICAST_V6) MULTICAST_V6_PREFIX
  end.

Lemma half_of_in tun ip : half_of tun ip ∈ split_for tun ip.
Proof.
  destruct ip as [a|a]; unfold half_of, split_for, split_v4, split_v6, V4_SPLIT_DEFAULT,
    V6_SPLIT_DEFAULT; cbn [fmap list_fmap]; destruct (_ =? 0); [left|right; left|left|right; left].
Qed.

Lemma half_of_holds tun ip : wf_ip ip → route_holds ip (half_of tun ip) = true.
Proof.
  intros Hip. destruct ip as [a|a]; unfold half_of, route_holds, in_prefix;
    cbn [rt_dest rt_prefix addr_value addr_bits].
  - change (32 - 1) with 31. destruct (v4_half a Hip) as [-> | ->]; vm_compute; reflexivity.
  - change (128 - 1) with 127. destruct (v6_half a Hip) as [-> | ->]; vm_compute; reflexivity.
Qed.

#[local] Opaque ipv4 of_segments MULTICAST_V4 MULTICAST_V6.

Lemma in_pair {A} (x a b : A) : x ∈ [a; b] → x = a ∨ x = b.
Proof. rewrite !elem_of_cons, elem_of_nil. tauto. Qed.

Lemma split_for_shape tun ip r : r ∈ split_for tun ip → rt_prefix r = 1 ∧ rt_ifindex r = tun.
Proof. destruct ip; intros [->| ->]%in_pair; done. Qed.

Lemma multicast_for_shape iface ip r :
  wf_ip ip → r ∈ multicast_for iface ip →
  1 < rt_prefix r ∧ Some (rt_ifindex r) = index_for iface ip ∧ route_holds ip r = is_multicast ip.
Proof.
  intros Hip Hr. rewrite <-in_multicast by done.
  destruct ip as [a|a]; simpl in *; unfold opt_route in Hr; destruct (_ iface) as [i|]; simpl in Hr;
    apply list_elem_of_singleton in Hr || set_solver; by subst.
Qed.

(** The routes of the plan that can hold an address are those of its family. *)
Lemma unix_plan_family ipv6 iface tun ip r :
  r ∈ unix_plan ipv6 iface tun → route_holds ip r = true →
  r ∈ multicast_for iface ip ∨ r ∈ split_for tun ip.
Proof.
  unfold unix_plan, route_holds. intros Hr [Hf _]%andb_prop.
  assert (same_family (rt_dest r) ip = true → is_ipv6 (rt_dest r) = is_ipv6 ip) as Hs
    by (apply eqb_prop).
  specialize (Hs Hf). rewrite !elem_of_app in Hr.
  assert (∀ i d p, r ∈ opt_route i d p → rt_dest r = d) as Ho.
  { intros [] ??; simpl; intros; set_solver. }
  destruct Hr as [Hr|[Hr|[Hr|Hr]]].
  - pose proof (Ho _ _ _ Hr) as E. rewrite E in Hs. destruct ip; [by left|done].
  - destruct ipv6; [|set_solver]. pose proof (Ho _ _ _ Hr) as E. rewrite E in Hs.
    destruct ip; [done|by left].
  - destruct ip; [by right|]. simpl in Hr. set_solver.
  - destruct ipv6; [|set_solver]. destruct ip; [|by right]. simpl in Hr. set_solver.
Qed.

Lemma unix_plan_has ipv6 iface tun ip :
  (is_ipv6 ip = true → ipv6 = true) →
  multicast_for iface ip ++ split_for tun ip ⊆ unix_plan ipv6 iface tun.
Proof.
  intros H r. unfold unix_plan, multicast_for, split_for.
  destruct ip, ipv6; try (by specialize (H eq_refl)); rewrite !elem_of_app; tauto.
Qed.

Lemma multicast_for_known iface ip i :
  index_for iface ip = Some i → ∃ g, ∀ r, r ∈ multicast_for iface ip ↔ r = g.
Proof.
  intros Hi. destruct ip; unfold multicast_for, opt_route; cbn [index_for] in Hi; rewrite Hi;
    eexists; intros r; apply list_elem_of_singleton.
Qed.

Section Selection.
Context (old : list Route) (ipv6 : bool) (iface : PhysicalInterface) (tun : Z) (ip : IpAddr).
Context (Hip : wf_ip ip) (H6 : is_ipv6 ip = true → ipv6 = true).
Context (Hold : ∀ r, r ∈ old → route_holds ip r = true → rt_prefix r ≤ 0).

Let table := old ++ unix_plan ipv6 iface tun.

(** What can hold the address: little of the old table, the multicast route of
    the family, the halves. *)
Lemma holder_cases r :
  r ∈ table → route_holds ip r = true →
  rt_prefix r ≤ 0 ∨ r ∈ multicast_for iface ip ∨ (rt_prefix r = 1 ∧ rt_ifindex r = tun).
Proof.
  intros [Hr|Hr]%elem_of_app Hh; [left; by apply Hold|right].
  destruct (unix_plan_family _ _ _ _ _ Hr Hh); [by left|right; by eapply split_for_shape].
Qed.

Lemma ours_in_table r : r ∈ multicast_for iface ip ++ split_for tun ip → r ∈ table.
Proof. intros Hr. apply elem_of_app. right. by apply (unix_plan_has ipv6 iface tun ip H6). Qed.

Lemma multicast_selected i :
  is_multicast ip = true → index_for iface ip = Some i →
  (∃ r, selected table ip r) ∧ ∀ r, selected table ip r → rt_ifindex r = i.
Proof.
  intros Hm Hi. destruct (multicast_for_known iface ip i Hi) as [g Hg].
  destruct (multicast_for_shape iface ip g) as (Hlen & Hif & Hh); [done|by apply Hg|].
  rewrite Hm in Hh. assert (g ∈ table) as Hgt.
  { apply ours_in_table, elem_of_app. left. by apply Hg. }
  split.
  - exists g. split_and!; [done..|]. intros r Hr Hrh.
    destruct (holder_cases r Hr Hrh) as [|[->%Hg|]]; lia.
  - intros r (Hr & Hrh & Hmax). specialize (Hmax g Hgt Hh).
    destruct (holder_cases r Hr Hrh) as [|[->%Hg|]]; [lia|congruence|lia].
Qed.

Lemma unicast_selected :
  (∀ r, r ∈ multicast_for iface ip → route_holds ip r = false) →
  (∃ r, selected table ip r) ∧ ∀ r, selected table ip r → rt_ifindex r = tun.
Proof.
  intros Hno. assert (half_of tun ip ∈ table) as Hhalf.
  { apply ours_in_table, elem_of_app. right. apply half_of_in. }
  assert (rt_prefix (half_of tun ip) = 1) as Hp by (by destruct ip).
  pose proof (half_of_holds tun ip Hip) as Hh.
  split.
  - exists (half_of tun ip). split_and!; [done..|]. intros r Hr Hrh.
    destruct (holder_cases r Hr Hrh) as [|[Hg|]]; [lia| |lia].
    by rewrite (Hno r Hg) in Hrh.
  - intros r (Hr & Hrh & Hmax). specialize (Hmax _ Hhalf Hh).
    destruct (holder_cases r Hr Hrh) as [|[Hg|[_ ?]]]; [lia| |done].
    by rewrite (Hno r Hg) in Hrh.
Qed.

End Selection.

(** ** Theorems *)

(** C23: where traffic goes while the tunnel is up, on Linux and macOS.  Let the
    routes that were there before hold the address by no more than a default
    route.  Then every unicast address goes into the tunnel, and every multicast
    address stays on the physical interface whenever that interface is known:
    each has a selected route, and every selected route is of that kind.  (The
    address's family must be one the engine captures.) *)
Theorem split_default_captures old ipv6 iface tun ip :
  wf_ip ip → (is_ipv6 ip = true → ipv6 = true) →
  (∀ r, r ∈ old → route_holds ip r = true → rt_prefix r ≤ 0) →
  let table := old ++ unix_plan ipv6 iface tun in
  let out := if is_multicast ip then default tun (index_for iface ip) else tun in
  (∃ r, selected table ip r) ∧ ∀ r, selected table ip r → rt_ifindex r = out.
Proof.
  intros Hip H6 Hold table out. unfold out. destruct (is_multicast ip) eqn:Hm.
  - destruct (index_for iface ip) as [i|] eqn:Hi; [by apply multicast_selected|].
    apply unicast_selected; [done..|]. intros r Hr.
    destruct (multicast_for_shape iface ip r Hip Hr) as (_ & Hif & _). congruence.
  - apply unicast_selected; [done..|]. intros r Hr.
    destruct (multicast_for_shape iface ip r Hip Hr) as (_ & _ & Hh). congruence.
Qed.

Definition default_v4 : Route := MkRoute (V4 (ipv4 0 0 0 0)) 0 2.

Lemma split_default_captures_witness :
  let table := [default_v4] ++ unix_plan true (MkPhysicalInterface (Some 2) None) 9 in
  (∃ r, selected table (V4 (ipv4 8 8 8 8)) r)
  ∧ ∀ r, selected table (V4 (ipv4 8 8 8 8)) r → rt_ifindex r = 9.
Proof.
  apply (split_default_captures [default_v4] true (MkPhysicalInterface (Some 2) None) 9
    (V4 (ipv4 8 8 8 8))).
  - vm_compute. split; [discriminate|reflexivity].
  - done.
  - intros r ->%list_elem_of_singleton _. by vm_compute.
Defined.
