(* ===== verification/Adapter.v ===== *)
(** * The tunnel adapter ([platform/linux/adapter.rs], [platform/macos/adapter.rs],
    [platform/windows/adapter.rs])

    Creation and teardown over the operating system's network state.  The state
    and the calls on it are an interface, [NetKernel], and what the code relies on
    of them is [NetKernelLaws]; what deleting a route removes differs between
    systems, so it is a parameter of the laws.  The Linux and macOS adapters have
    the same text; the Windows one prepares the device differently, removes its
    routes in order of creation, and until it is complete relies on the closing of
    the device to remove them.

    The code goes on when a deletion fails, so creation and drop also give the
    routes they report: those whose deletion was logged as failed, and the one
    whose addition failed.  The theorems: a creation that fails, and a creation
    followed by the drop, keep every route there was and leave no other one but
    reported multicast routes on the physical interface; on Windows, none. *)

From S2P Require Export Routing.
Local Open Scope Z_scope.

Definition RING_CAPACITY : Z := 0x400000.
Definition TUN_METRIC : Z := 1.

(** Configuring the device, before any route. *)
Inductive prep : Type :=
  | PAddress (addr : IpAddr) (prefix : Z)
  | PLinkUp (mtu : Z)
  | PSetMtu (mtu : Z)
  | PMetric (v6 : bool) (metric : Z)
  | PSession (capacity : Z).
#[export] Instance prep_eq_dec : EqDecision prep.
Proof. solve_decision. Defined.

(** The operating system: its network state and the calls of the adapters.
    [k_open] is the creation of the device, with its interface index; closing it
    destroys the interface. *)
Class NetKernel (K : Type) : Type := {
  k_open : K → result Error Z * K;
  k_prep : prep → Z → K → result io_error unit * K;
  k_add_route : Route → K → result io_error unit * K;
  k_del_route : Route → K → result io_error unit * K;
  k_close : Z → K → K;
  k_table : K → gset Route
}.

(** [covers h r]: deleting [h] removes [r].  Configuring the device may add
    routes through it, as the kernel does for the prefix of an address.  A call
    that reports success has done what it is for; one that reports an error may
    have done it, or not. *)
Class NetKernelLaws (K : Type) `{NetKernel K} (covers : Route → Route → bool) : Prop := {
  covers_self r : covers r r = true;
  open_table k : k_table (k_open k).2 = k_table k;
  open_fresh k i k' r : k_open k = (Ok i, k') → r ∈ k_table k → rt_ifindex r ≠ i;
  prep_table p i k r : r ∈ k_table (k_prep p i k).2 ↔
    r ∈ k_table k ∨ (r ∈ k_table (k_prep p i k).2 ∧ rt_ifindex r = i);
  add_table r k k' : wf_route r → k_add_route r k = (Ok tt, k') → k_table k' = {[r]} ∪ k_table k;
  add_table_err r k e k' : wf_route r → k_add_route r k = (Err e, k') →
    k_table k' = k_table k ∨ k_table k' = {[r]} ∪ k_table k;
  del_table r k k' : wf_route r → k_del_route r k = (Ok tt, k') →
    ∀ r', r' ∈ k_table k' ↔ r' ∈ k_table k ∧ covers r r' = false;
  del_table_err r k e k' : wf_route r → k_del_route r k = (Err e, k') →
    k_table k' ⊆ k_table k ∧ ∀ r', r' ∈ k_table k → covers r r' = false → r' ∈ k_table k';
  close_table i k r : r ∈ k_table (k_close i k) ↔ r ∈ k_table k ∧ rt_ifindex r ≠ i
}.

(** ** Data and operations *)

Record TunAdapter : Type := MkTunAdapter { a_ifindex : Z; a_routes : list Route }.

Definition prep_error (p : prep) (e : io_error) : Error :=
  match p with
  | PAddress (V4 _) _ => netcfg_error (u "add_address(v4)") e
  | PAddress (V6 _) _ => netcfg_error (u "add_address(v6)") e
  | PLinkUp _ => netcfg_error (u "set_link_mtu_and_up") e
  | PSetMtu _ => netcfg_error (u "set_mtu") (IoError Other (ie_msg e))
  | PMetric false _ => netcfg_error (u "set_interface_metric(v4)") e
  | PMetric true _ => netcfg_error (u "set_interface_metric(v6)") e
  | PSession _ => SessionStart (u (ie_msg e))
  end.

(** The configuration steps of [create], in order. *)
Definition unix_preps (ipv6 : bool) : list prep :=
  PAddress (V4 TUN_IPV4) TUN_IPV4_PREFIX
  :: (if ipv6 then [PAddress (V6 TUN_IPV6) TUN_IPV6_PREFIX] else [])
  ++ [PLinkUp TUN_MTU].
Definition windows_preps (ipv6 : bool) : list prep :=
  [PSetMtu TUN_MTU; PAddress (V4 TUN_IPV4) TUN_IPV4_PREFIX; PMetric false TUN_METRIC]
  ++ (if ipv6 then [PAddress (V6 TUN_IPV6) TUN_IPV6_PREFIX; PMetric true TUN_METRIC] else [])
  ++ [PSession RING_CAPACITY].

Section Adapter.
Context {K : Type} `{NetKernel K}.

(** [idempotent_already_exists] / [ok_idempotent]: [AlreadyExists] stands for what
    the system answers when the route is there, [EEXIST] or
    [ERROR_OBJECT_ALREADY_EXISTS]. *)
Definition add_route (r : Route) (k : K) : result io_error unit * K :=
  match k_add_route r k with
  | (Err e, k') => if decide (ie_kind e = AlreadyExists) then (Ok tt, k') else (Err e, k')
  | r => r
  end.

Definition route_error (r : Route) (e : io_error) : Error :=
  netcfg_error (u "add_route(" ++ show_ip (rt_dest r) ++ u "/" ++ dec (rt_prefix r) ++ u ")") e.

Fixpoint prepare (ps : list prep) (i : Z) (k : K) : result Error unit * K :=
  match ps with
  | [] => (Ok tt, k)
  | p :: ps' =>
    match k_prep p i k with
    | (Err e, k') => (Err (prep_error p e), k')
    | (Ok _, k') => prepare ps' i k'
    end
  end.

(** [install_route] for each route: the routes pushed so far stay in the
    adapter when one fails, and the failing one is named by the error. *)
Fixpoint install (rs : list Route) (a : TunAdapter) (k : K)
    : result Error unit * TunAdapter * list Route * K :=
  match rs with
  | [] => (Ok tt, a, [], k)
  | r :: rs' =>
    match add_route r k with
    | (Err e, k') => (Err (route_error r e), a, [r], k')
    | (Ok _, k') => install rs' (MkTunAdapter (a_ifindex a) (a_routes a ++ [r])) k'
    end
  end.

(** The deletions: failures are logged, and the next route is deleted. *)
Fixpoint delete_all (rs : list Route) (k : K) : list Route * K :=
  match rs with
  | [] => ([], k)
  | r :: rs' =>
    match k_del_route r k with
    | (Err _, k) => let '(logged, k) := delete_all rs' k in (r :: logged, k)
    | (Ok _, k) => delete_all rs' k
    end
  end.

(** [remove_routes] and [Drop], Linux and macOS; the routes are drained. *)
Definition unix_remove_routes (a : TunAdapter) (k : K) : TunAdapter * list Route * K :=
  let '(logged, k) := delete_all (reverse (a_routes a)) k in (MkTunAdapter (a_ifindex a) [], logged, k).
Definition unix_drop (a : TunAdapter) (k : K) : list Route * K :=
  let '(a, logged, k) := unix_remove_routes a k in (logged, k_close (a_ifindex a) k).

(** [TunAdapter::create], Linux and macOS: an adapter that is abandoned on the
    way is dropped.  The routes given are those named by an error or a log. *)
Definition unix_create (ipv6 : bool) (iface : PhysicalInterface) (k : K)
    : result Error TunAdapter * list Route * K :=
  match k_open k with
  | (Err e, k) => (Err e, [], k)
  | (Ok ifindex, k) =>
    let adapter := MkTunAdapter ifindex [] in
    match prepare (unix_preps ipv6) ifindex k with
    | (Err e, k) => let '(logged, k) := unix_drop adapter k in (Err e, logged, k)
    | (Ok _, k) =>
      match install (unix_plan ipv6 iface ifindex) adapter k with
      | (Err e, adapter, failed, k) =>
        let '(logged, k) := unix_drop adapter k in (Err e, failed ++ logged, k)
      | (Ok _, adapter, failed, k) => (Ok adapter, failed, k)
      end
    end
  end.

(** The same on Windows: the routes are deleted in order of creation, and an
    unfinished creation only closes the device. *)
Definition windows_remove_routes (a : TunAdapter) (k : K) : TunAdapter * list Route * K :=
  let '(logged, k) := delete_all (a_routes a) k in (MkTunAdapter (a_ifindex a) [], logged, k).
Definition windows_drop (a : TunAdapter) (k : K) : list Route * K :=
  let '(a, logged, k) := windows_remove_routes a k in (logged, k_close (a_ifindex a) k).

Definition windows_create (ipv6 : bool) (k : K) : result Error TunAdapter * list Route * K :=
  match k_open k with
  | (Err e, k) => (Err e, [], k)
  | (Ok ifindex, k) =>
    match prepare (windows_preps ipv6) ifindex k with
    | (Err e, k) => (Err e, [], k_close ifindex k)
    | (Ok _, k) =>
      match install (windows_plan ipv6 ifindex) (MkTunAdapter ifindex []) k with
      | (Err e, _, failed, k) => (Err e, failed, k_close ifindex k)
      | (Ok _, adapter, failed, k) => (Ok adapter, failed, k)
      end
    end
  end.

(** ** Lemmas *)

Context {covers : Route → Route → bool} `{!NetKernelLaws K covers}.

(** The table [S] holds every route of [T], and no other but those of [rep]. *)
Definition accounted (T : gset Route) (rep : list Route) (S : gset Route) : Prop :=
  T ⊆ S ∧ ∀ r, r ∈ S → r ∈ T ∨ r ∈ rep.

Lemma accounted_exact T S : accounted T [] S → S = T.
Proof. intros [Hs Hr]. apply set_eq. intros r. specialize (Hr r). set_solver. Qed.

(** The same while the adapter [a] is up: its routes and routes through its
    device are there too. *)
Definition installed (T : gset Route) (rep : list Route) (a : TunAdapter) (k : K) : Prop :=
  T ⊆ k_table k
  ∧ ∀ r, r ∈ k_table k → r ∈ T ∨ r ∈ rep ∨ r ∈ a_routes a ∨ rt_ifindex r = a_ifindex a.

Lemma installed_nil T rep i k : accounted T rep (k_table k) → installed T rep (MkTunAdapter i []) k.
Proof. intros [Hs Hr]. split; [done|]. intros r Hk. destruct (Hr r Hk); auto. Qed.

Lemma prepare_installed ps i k T rep :
  installed T rep (MkTunAdapter i []) k → installed T rep (MkTunAdapter i []) (prepare ps i k).2.
Proof.
  revert k. induction ps as [|p ps IH]; intros k Hk; simpl; [done|].
  assert (installed T rep (MkTunAdapter i []) (k_prep p i k).2) as Hp.
  { destruct Hk as [Hs Hr]. split.
    - intros r Hin. apply prep_table. left. by apply Hs.
    - intros r Hin. apply prep_table in Hin as [Hin|[_ Hi]]; [by apply Hr|auto]. }
  destruct (k_prep p i k) as [[|e] k']; simpl in *; [by apply IH|done].
Qed.

(** What is left by the deletions: a route that was there, that none of them
    had to remove, and if it was to be deleted itself, one that was logged. *)
Lemma delete_all_table rs k logged k' :
  Forall wf_route rs → delete_all rs k = (logged, k') →
  (∀ r, r ∈ k_table k' → r ∈ k_table k ∧ (r ∈ rs → r ∈ logged))
  ∧ (∀ r, r ∈ k_table k → Forall (λ h, covers h r = false) rs → r ∈ k_table k')
  ∧ logged ⊆ rs.
Proof.
  intros Hrs. revert k logged. induction Hrs as [|h rs Hh _ IH]; intros k logged; simpl.
  { intros [= <- <-]. split_and!; [|done..]. intros r Hr. split; [done|]. by intros ?%not_elem_of_nil. }
  destruct (k_del_route h k) as [[[]|e] k1] eqn:E.
  - intros Hd. destruct (IH _ _ Hd) as (H1 & H2 & H3). pose proof (del_table h k k1 Hh E) as Ht.
    split_and!; [| |set_solver].
    + intros r Hr. destruct (H1 r Hr) as [[Hk Hc]%Ht Hl]. split; [done|].
      intros [->|Hin]%elem_of_cons; [|auto]. by rewrite covers_self in Hc.
    + intros r Hr Hc. inversion_clear Hc as [|?? Hc1 Hc2]. apply H2; [|done]. by apply Ht.
  - destruct (delete_all rs k1) as [l k2] eqn:Ed. intros [= <- <-].
    destruct (IH _ _ Ed) as (H1 & H2 & H3). destruct (del_table_err h k e k1 Hh E) as [Ht1 Ht2].
    split_and!; [| |set_solver].
    + intros r Hr. destruct (H1 r Hr) as [Hk Hl]. split; [by apply Ht1|]. set_solver.
    + intros r Hr Hc. inversion_clear Hc as [|?? Hc1 Hc2]. apply H2; [|done]. by apply Ht2.
Qed.

Lemma add_route_table r k res k' :
  wf_route r → add_route r k = (res, k') → k_table k ⊆ k_table k' ∧ k_table k' ⊆ {[r]} ∪ k_table k.
Proof.
  intros Hwf. unfold add_route. destruct (k_add_route r k) as [[[]|e] k1] eqn:E.
  - intros [= <- <-]. apply add_table in E as ->; set_solver.
  - intros Hr. assert (k1 = k') as <- by (case_decide; by simplify_eq).
    apply add_table_err in E as [-> | ->]; set_solver.
Qed.

Lemma install_table rs a k res a' failed k' T rep :
  Forall wf_route rs → install rs a k = (res, a', failed, k') → installed T rep a k →
  installed T (rep ++ failed) a' k' ∧ a_ifindex a' = a_ifindex a
  ∧ (∃ done, a_routes a' = a_routes a ++ done ∧ done ++ failed `prefix_of` rs
       ∧ (res = Ok tt → done = rs ∧ failed = [])).
Proof.
  intros Hwf. revert a k. induction Hwf as [|r rs Hr _ IH]; intros a k Hi Ha; simpl in Hi.
  { simplify_eq. rewrite app_nil_r. split_and!; [done..|]. exists []. by rewrite app_nil_r. }
  destruct (add_route r k) as [[[]|e] k1] eqn:E; apply add_route_table in E as [E1 E2]; [|done| |done];
    destruct Ha as [Hs Hk].
  - apply IH in Hi.
    + destruct Hi as (H1 & H2 & (d & H3 & H4 & H5)). simpl in *. split_and!; [done..|].
      exists (r :: d). rewrite H3, <-app_assoc. split_and!; [done| |].
      * simpl. by apply prefix_cons.
      * intros Hok. by destruct (H5 Hok) as [-> ->].
    + split; [set_solver|]. intros r' Hr'. simpl. rewrite elem_of_app, list_elem_of_singleton.
      specialize (Hk r'). apply E2 in Hr'. set_solver.
  - simplify_eq. split_and!; [|done|].
    + split; [set_solver|]. intros r' Hr'. specialize (Hk r'). apply E2 in Hr'. set_solver.
    + exists []. rewrite app_nil_r. split_and!; [done| |done]. simpl. by apply prefix_cons, prefix_nil.
Qed.

(** Nothing of [T] is touched by deleting the routes [rs]. *)
Definition apart (rs : list Route) (T : gset Route) : Prop :=
  ∀ h r, h ∈ rs → r ∈ T → covers h r = false.

Lemma apart_prefix rs done T : apart rs T → done `prefix_of` rs → apart done T.
Proof. intros Ha [more ->] h r Hh. apply Ha, elem_of_app. by left. Qed.

Lemma wf_prefix rs done : Forall wf_route rs → done `prefix_of` rs → Forall wf_route done.
Proof. intros Hw [more ->]. by apply Forall_app in Hw as [? _]. Qed.

(** An adapter that is up, with the plan its routes are from. *)
Definition up (plan : Z → list Route) (T : gset Route) (rep : list Route) (a : TunAdapter) (k : K) : Prop :=
  installed T rep a k ∧ a_routes a `prefix_of` plan (a_ifindex a)
  ∧ apart (a_routes a) T ∧ ∀ r, r ∈ T → rt_ifindex r ≠ a_ifindex a.

(** Deleting the adapter's routes, in any order, and closing the device keeps
    what was there before, and adds only what was logged and leaves elsewhere. *)
Lemma teardown_accounted plan T rep a k rs logged k' :
  up plan T rep a k → Forall wf_route (plan (a_ifindex a)) →
  (∀ r, r ∈ rs ↔ r ∈ a_routes a) → delete_all rs k = (logged, k') →
  T ⊆ k_table (k_close (a_ifindex a) k')
  ∧ (∀ r, r ∈ k_table (k_close (a_ifindex a) k') → r ∈ T ∨ ((r ∈ rep ∨ r ∈ logged) ∧ rt_ifindex r ≠ a_ifindex a))
  ∧ logged ⊆ a_routes a.
Proof.
  intros ((Hs & Hk) & Hpre & Ha & Hf) Hwf Hrs Hd.
  apply delete_all_table in Hd as (H1 & H2 & H3).
  2:{ apply Forall_forall. intros r Hr%Hrs. eapply Forall_forall; [by eapply wf_prefix|done]. }
  split_and!.
  - intros r Hr. apply close_table. split; [|by apply Hf]. apply H2; [by apply Hs|].
    apply Forall_forall. intros h Hh%Hrs. by apply Ha.
  - intros r [[Hr Hl]%H1 Hi]%close_table. destruct (Hk r Hr) as [?|[?|[Hin|?]]]; [by left|by auto| |done].
    right. split; [|done]. right. by apply Hl, Hrs.
  - intros r Hr. by apply Hrs, H3.
Qed.

(** The routes of the plan that do not leave through the tunnel. *)
Definition multicast_plan (ipv6 : bool) (iface : PhysicalInterface) : list Route :=
  opt_route (v4_index iface) (V4 MULTICAST_V4) MULTICAST_V4_PREFIX
  ++ (if ipv6 then opt_route (v6_index iface) (V6 MULTICAST_V6) MULTICAST_V6_PREFIX else []).

Lemma windows_plan_ifindex ipv6 i r : r ∈ windows_plan ipv6 i → rt_ifindex r = i.
Proof.
  intros [Hr|Hr]%elem_of_app; [|destruct ipv6; [|by apply not_elem_of_nil in Hr]];
    apply (split_for_shape i (V4 0)) in Hr || apply (split_for_shape i (V6 0)) in Hr; apply Hr.
Qed.

Lemma unix_plan_elsewhere ipv6 iface i r :
  r ∈ unix_plan ipv6 iface i → rt_ifindex r ≠ i → r ∈ multicast_plan ipv6 iface.
Proof.
  unfold unix_plan, multicast_plan. intros Hr Hi.
  apply elem_of_app in Hr as [Hr|Hr]; [apply elem_of_app; by left|].
  apply elem_of_app in Hr as [Hr|Hr]; [apply elem_of_app; by right|].
  destruct Hi. by apply (windows_plan_ifindex ipv6).
Qed.

(** A drop on Linux or macOS, and on Windows. *)
Lemma unix_drop_accounted ipv6 iface T rep a k :
  up (unix_plan ipv6 iface) T rep a k →
  let '(logged, k') := unix_drop a k in
  T ⊆ k_table k' ∧ ∀ r, r ∈ k_table k' →
    r ∈ T ∨ ((r ∈ rep ∨ (r ∈ logged ∧ r ∈ multicast_plan ipv6 iface)) ∧ rt_ifindex r ≠ a_ifindex a).
Proof.
  intros Hup. unfold unix_drop, unix_remove_routes.
  destruct (delete_all (reverse (a_routes a)) k) as [logged k'] eqn:E.
  destruct (teardown_accounted _ _ _ _ _ _ _ _ Hup (unix_plan_wf _ _ _) (λ r, elem_of_reverse r _) E)
    as (H1 & H2 & H3). split; [done|]. intros r Hr. destruct (H2 r Hr) as [?|[[?|Hl] Hi]]; [by auto..|].
  right. split; [|done]. right. split; [done|]. eapply unix_plan_elsewhere; [|done].
  destruct Hup as (_ & [more Hp] & _). rewrite Hp. apply elem_of_app. left. by apply H3.
Qed.

Lemma windows_close_accounted ipv6 T rep failed a k :
  installed T (rep ++ failed) a k → a_routes a ++ failed `prefix_of` windows_plan ipv6 (a_ifindex a) →
  (∀ r, r ∈ T → rt_ifindex r ≠ a_ifindex a) → accounted T rep (k_table (k_close (a_ifindex a) k)).
Proof.
  intros [Hs Hk] [more Hp] Hf. split.
  - intros r Hr. apply close_table. split; [by apply Hs|by apply Hf].
  - intros r [Hr Hi]%close_table.
    assert (∀ r, r ∈ a_routes a ++ failed → rt_ifindex r = a_ifindex a) as Hx.
    { intros r' Hr'. apply (windows_plan_ifindex ipv6). rewrite Hp. apply elem_of_app. by left. }
    destruct (Hk r Hr) as [?|[[?|?]%elem_of_app|[?|?]]]; [by auto..| | |done].
    all: destruct Hi; apply Hx, elem_of_app; auto.
Qed.

Lemma windows_drop_accounted ipv6 T rep a k :
  up (windows_plan ipv6) T rep a k → accounted T rep (k_table (windows_drop a k).2).
Proof.
  intros Hup. unfold windows_drop, windows_remove_routes.
  destruct (delete_all (a_routes a) k) as [logged k'] eqn:E.
  destruct (teardown_accounted _ _ _ _ _ _ _ _ Hup (windows_plan_wf _ _) (λ r, iff_refl _) E)
    as (H1 & H2 & H3). split; [done|]. intros r Hr. destruct (H2 r Hr) as [?|[[?|Hl] Hi]]; [by auto..|].
  destruct Hi. apply (windows_plan_ifindex ipv6). destruct Hup as (_ & [more Hp] & _).
  rewrite Hp. apply elem_of_app. left. by apply H3.
Qed.

(** An installation that starts from an accounted table. *)
Lemma install_up plan T rep i k res a failed k' :
  (∀ i, Forall wf_route (plan i)) → (∀ i, apart (plan i) T) → (∀ r, r ∈ T → rt_ifindex r ≠ i) →
  installed T rep (MkTunAdapter i []) k → install (plan i) (MkTunAdapter i []) k = (res, a, failed, k') →
  up plan T (rep ++ failed) a k' ∧ a_ifindex a = i ∧ a_routes a ++ failed `prefix_of` plan i
  ∧ (res = Ok tt → a_routes a = plan i ∧ failed = []).
Proof.
  intros Hwf Hap Hf Hi E. apply (install_table _ _ _ _ _ _ _ T rep) in E; [|done..].
  destruct E as (H1 & H2 & (d & H3 & H4 & H5)). simpl in *. rewrite H3. split_and!; [|done..].
  assert (d `prefix_of` plan i) as Hd by (etrans; [by eapply prefix_app_r|exact H4]).
  unfold up. rewrite H2, H3. split_and!; [done..| |done]. eapply apart_prefix; [apply Hap|done].
Qed.

Lemma unix_create_accounted ipv6 iface T rep k :
  accounted T rep (k_table k) → (∀ i, apart (unix_plan ipv6 iface i) T) →
  match unix_create ipv6 iface k with
  | (Err _, new, k') =>
      T ⊆ k_table k' ∧ ∀ r, r ∈ k_table k' → r ∈ T ∨ r ∈ rep ∨ (r ∈ new ∧ r ∈ multicast_plan ipv6 iface)
  | (Ok a, new, k') =>
      new = [] ∧ a_routes a = unix_plan ipv6 iface (a_ifindex a) ∧ up (unix_plan ipv6 iface) T rep a k'
  end.
Proof.
  intros Hacc Hap. unfold unix_create. pose proof (open_table k) as Ho.
  destruct (k_open k) as [[i|e] k1] eqn:Eo; simpl in Ho.
  2:{ rewrite Ho. destruct Hacc as [Hs Hr]. split; [done|]. intros r Hin. destruct (Hr r Hin); auto. }
  assert (∀ r, r ∈ T → rt_ifindex r ≠ i) as Hf.
  { intros r Hr. eapply open_fresh; [done|]. by apply Hacc. }
  pose proof (prepare_installed (unix_preps ipv6) i k1 T rep) as Hp.
  destruct (prepare (unix_preps ipv6) i k1) as [[[]|e] k2] eqn:Ep; simpl in Hp;
    assert (installed T rep (MkTunAdapter i []) k2) as Hi by (apply Hp, installed_nil; by rewrite Ho).
  - destruct (install _ _ k2) as [[[[[]|e] a] failed] k3] eqn:Ei;
      apply (install_up (unix_plan ipv6 iface) T rep) in Ei as (Hup & Hx & Hpre & Hok);
      try done; try (intros j; apply unix_plan_wf).
    + destruct (Hok eq_refl) as [Hr ->]. rewrite app_nil_r in Hup. by rewrite Hx.
    + pose proof (unix_drop_accounted _ _ _ _ _ _ Hup) as Hd. destruct (unix_drop a k3) as [logged k4].
      destruct Hd as [H1 H2]. split; [done|]. intros r Hr.
      destruct (H2 r Hr) as [?|[[[?|Hl]%elem_of_app|[??]] Hx']]; [by auto..| |set_solver].
      right. right. split; [set_solver|]. rewrite Hx in Hx'. eapply unix_plan_elsewhere; [|done].
      destruct Hpre as [more ->]. apply elem_of_app. left. apply elem_of_app. by right.
  - assert (up (unix_plan ipv6 iface) T rep (MkTunAdapter i []) k2) as Hup.
    { split_and!; [done|apply prefix_nil| |done]. by intros h r ?%not_elem_of_nil. }
    pose proof (unix_drop_accounted _ _ _ _ _ _ Hup) as Hd. destruct (unix_drop _ k2) as [logged k3].
    destruct Hd as [H1 H2]. split; [done|]. intros r Hr. destruct (H2 r Hr) as [?|[[?|?] ?]]; auto.
Qed.

Lemma windows_create_accounted ipv6 T rep k :
  accounted T rep (k_table k) → (∀ i, apart (windows_plan ipv6 i) T) →
  match windows_create ipv6 k with
  | (Err _, _, k') => accounted T rep (k_table k')
  | (Ok a, new, k') =>
      new = [] ∧ a_routes a = windows_plan ipv6 (a_ifindex a) ∧ up (windows_plan ipv6) T rep a k'
  end.
Proof.
  intros Hacc Hap. unfold windows_create. pose proof (open_table k) as Ho.
  destruct (k_open k) as [[i|e] k1] eqn:Eo; simpl in Ho; [|by rewrite Ho].
  assert (∀ r, r ∈ T → rt_ifindex r ≠ i) as Hf.
  { intros r Hr. eapply open_fresh; [done|]. by apply Hacc. }
  pose proof (prepare_installed (windows_preps ipv6) i k1 T rep) as Hp.
  destruct (prepare (windows_preps ipv6) i k1) as [[[]|e] k2] eqn:Ep; simpl in Hp;
    assert (installed T rep (MkTunAdapter i []) k2) as Hi by (apply Hp, installed_nil; by rewrite Ho).
  - destruct (install _ _ k2) as [[[[[]|e] a] failed] k3] eqn:Ei;
      apply (install_up (windows_plan ipv6) T rep) in Ei as (Hup & Hx & Hpre & Hok);
      try done; try (intros j; apply windows_plan_wf).
    + destruct (Hok eq_refl) as [Hr ->]. rewrite app_nil_r in Hup. by rewrite Hx.
    + rewrite <-Hx. rewrite <-Hx in Hpre. eapply windows_close_accounted; [apply Hup|exact Hpre|apply Hup].
  - apply (windows_close_accounted ipv6 T rep [] (MkTunAdapter i [])); [by rewrite app_nil_r|apply prefix_nil|done].
Qed.

(** ** Theorems *)

(** C10: the network is left as it was found, on Linux and macOS.  Suppose that
    deleting the routes the engine installs would remove none of the routes that
    were there.  Then a creation that fails at any step, and a creation followed
    by the drop of the adapter, keep every old route, whatever the calls answer
    and also when a route was reported to exist already; and a route that is
    new afterwards is one of the multicast routes on the physical interface, and
    was named by the error of its addition or by the log of its failed deletion.
    If nothing was reported, the forwarding table is the old one.  In between, the
    new routes are the planned ones and routes through the device. *)
Theorem unix_adapter_restores ipv6 iface k :
  (∀ i, apart (unix_plan ipv6 iface i) (k_table k)) →
  let T := k_table k in
  let restored reported k' :=
    T ⊆ k_table k'
    ∧ (∀ r, r ∈ k_table k' → r ∈ T ∨ (r ∈ reported ∧ r ∈ multicast_plan ipv6 iface))
    ∧ (reported = [] → k_table k' = T) in
  match unix_create ipv6 iface k with
  | (Err _, reported, k') => restored reported k'
  | (Ok a, reported, k') =>
      reported = [] ∧ a_routes a = unix_plan ipv6 iface (a_ifindex a)
      ∧ T ⊆ k_table k'
      ∧ (∀ r, r ∈ k_table k' → r ∈ T ∨ r ∈ a_routes a ∨ rt_ifindex r = a_ifindex a)
      ∧ let '(logged, k'') := unix_drop a k' in restored logged k''
  end.
Proof.
  intros Hap T restored.
  assert (∀ reported k', T ⊆ k_table k' →
    (∀ r, r ∈ k_table k' → r ∈ T ∨ (r ∈ reported ∧ r ∈ multicast_plan ipv6 iface)) → restored reported k') as Hres.
  { intros reported k' H1 H2. split_and!; [done..|]. intros ->. apply set_eq. intros r.
    specialize (H2 r). set_solver. }
  pose proof (unix_create_accounted ipv6 iface T [] k) as Hc.
  assert (accounted T [] (k_table k)) as Hacc by (split; [done|by left]). specialize (Hc Hacc Hap).
  destruct (unix_create ipv6 iface k) as [[[a|e] new] k'].
  - destruct Hc as (-> & Hr & Hup). split_and!; [done..|apply Hup| |].
    + intros r Hin. destruct Hup as [[_ Hup] _]. destruct (Hup r Hin) as [?|[[]%not_elem_of_nil|?]]; auto.
    + pose proof (unix_drop_accounted _ _ _ _ _ _ Hup) as Hd. destruct (unix_drop a k') as [logged k''].
      destruct Hd as [H1 H2]. apply Hres; [done|]. intros r Hin. destruct (H2 r Hin) as [?|[[[]%not_elem_of_nil|?] _]]; auto.
  - destruct Hc as [H1 H2]. apply Hres; [done|]. intros r Hin.
    destruct (H2 r Hin) as [?|[[]%not_elem_of_nil|?]]; auto.
Qed.

(** the same on Windows, where an unfinished creation deletes no route but
    closes the device.  Every route the engine installs there leaves through the
    device, so closing it restores the table, whatever was reported. *)
Theorem windows_adapter_restores ipv6 k :
  (∀ i, apart (windows_plan ipv6 i) (k_table k)) →
  match windows_create ipv6 k with
  | (Err _, _, k') => k_table k' = k_table k
  | (Ok a, reported, k') =>
      reported = [] ∧ a_routes a = windows_plan ipv6 (a_ifindex a)
      ∧ k_table k ⊆ k_table k'
      ∧ (∀ r, r ∈ k_table k' → r ∈ k_table k ∨ rt_ifindex r = a_ifindex a)
      ∧ k_table (windows_drop a k').2 = k_table k
  end.
Proof.
  intros Hap. pose proof (windows_create_accounted ipv6 (k_table k) [] k) as Hc.
  assert (accounted (k_table k) [] (k_table k)) as Hacc by (split; [done|by left]). specialize (Hc Hacc Hap).
  destruct (windows_create ipv6 k) as [[[a|e] new] k']; [|by apply accounted_exact].
  destruct Hc as (-> & Hr & Hup). split_and!; [done..|apply Hup| |].
  - intros r Hin. pose proof Hup as [[_ Hk] _]. destruct (Hk r Hin) as [?|[[]%not_elem_of_nil|[Ha|?]]]; auto.
    right. apply (windows_plan_ifindex ipv6). by rewrite <-Hr.
  - apply accounted_exact. by apply (windows_drop_accounted ipv6).
Qed.

End Adapter.

(** ** A concrete system

    A forwarding table that holds one route per prefix and refuses a second
    one, as [NLM_F_EXCL] asks; [covers] is what a deletion removes: the very
    route (Linux, Windows) or any route to the prefix (macOS). *)

Definition same_route (h r : Route) : bool := bool_decide (h = r).
Definition same_prefix (h r : Route) : bool :=
  bool_decide (rt_dest h = rt_dest r) && (rt_prefix h =? rt_prefix r).

Module Table.
Section Kernel.
Context (covers : Route → Route → bool).

#[local] Instance covered_dec h r : Decision (covers h r = false).
Proof. apply _. Defined.

Definition exists_error : io_error := IoError AlreadyExists "File exists".

#[local] Instance kernel : NetKernel (gset Route) := {|
  k_open T := (Ok (fresh (set_map (D:=gset Z) rt_ifindex T)), T);
  k_prep p i T :=
    (Ok tt, match p with PAddress a n => {[MkRoute a n i]} ∪ T | _ => T end);
  k_add_route r T :=
    if decide (set_Exists (λ r', same_prefix r r' = true) T)
    then (Err exists_error, T) else (Ok tt, {[r]} ∪ T);
  k_del_route h T := (Ok tt, filter (λ r, covers h r = false) T);
  k_close i T := filter (λ r, rt_ifindex r ≠ i) T;
  k_table T := T
|}.

Lemma kernel_laws : (∀ r, covers r r = true) → NetKernelLaws (gset Route) covers.
Proof.
  intros Hself. split; simpl; try done.
  - intros k i k' r [= <- <-] Hr Heq.
    pose proof (is_fresh (set_map (D:=gset Z) rt_ifindex k)) as Hf. apply Hf.
    rewrite <-Heq. apply elem_of_map. eauto.
  - intros p i k r. destruct p; set_solver.
  - intros r k k' _. case_decide; by intros [= <-].
  - intros r k e k' _. case_decide; [|done]. intros [= <- <-]. by left.
  - intros h k k' _ [= <-] r. rewrite elem_of_filter. tauto.
  - intros i k r. rewrite elem_of_filter. tauto.
Qed.
End Kernel.
End Table.

#[local] Existing Instance Table.kernel.

Definition home : gset Route := {[ MkRoute (V4 (ipv4 0 0 0 0)) 0 2; MkRoute (V4 (ipv4 192 168 1 0)) 24 2 ]}.
Definition nic : PhysicalInterface := MkPhysicalInterface (Some 2) None.

(** Being apart, checked on the interfaces' common part: the prefixes. *)
Lemma apart_by_prefix covers rs T :
  (∀ h r, covers h r = true → same_prefix h r = true) →
  Forall (λ h, set_Forall (λ r, same_prefix h r = false) T) rs → apart (covers:=covers) rs T.
Proof.
  intros Hc Hrs h r Hh Hr. rewrite Forall_forall in Hrs. specialize (Hrs h Hh r Hr).
  destruct (covers h r) eqn:E; [|done]. apply Hc in E. congruence.
Qed.

Lemma same_route_prefix h r : same_route h r = true → same_prefix h r = true.
Proof.
  unfold same_route, same_prefix. rewrite bool_decide_eq_true. intros ->.
  by rewrite bool_decide_true, Z.eqb_refl.
Qed.

Definition linux_kernel : NetKernel (gset Route) := Table.kernel same_route.
Definition macos_kernel : NetKernel (gset Route) := Table.kernel same_prefix.

Lemma linux_kernel_laws : @NetKernelLaws (gset Route) linux_kernel same_route.
Proof. apply Table.kernel_laws. intros r. by apply bool_decide_eq_true. Qed.

Lemma macos_kernel_laws : @NetKernelLaws (gset Route) macos_kernel same_prefix.
Proof.
  apply Table.kernel_laws. intros r. unfold same_prefix. by rewrite bool_decide_true, Z.eqb_refl.
Qed.

Lemma unix_adapter_restores_witness :
  let T := home in
  let restored (reported : list Route) (k' : gset Route) :=
    T ⊆ k' ∧ (∀ r, r ∈ k' → r ∈ T ∨ (r ∈ reported ∧ r ∈ multicast_plan true nic)) ∧ (reported = [] → k' = T) in
  match @unix_create (gset Route) macos_kernel true nic home with
  | (Err _, reported, k') => restored reported k'
  | (Ok a, reported, k') =>
      reported = [] ∧ a_routes a = unix_plan true nic (a_ifindex a)
      ∧ T ⊆ k' ∧ (∀ r, r ∈ k' → r ∈ T ∨ r ∈ a_routes a ∨ rt_ifindex r = a_ifindex a)
      ∧ let '(logged, k'') := @unix_drop (gset Route) macos_kernel a k' in restored logged k''
  end.
Proof.
  apply (@unix_adapter_restores (gset Route) macos_kernel same_prefix macos_kernel_laws true nic home).
  intros i. apply apart_by_prefix; [done|]. concrete.
Defined.

Lemma windows_adapter_restores_witness :
  match @windows_create (gset Route) linux_kernel true home with
  | (Err _, _, k') => k' = home
  | (Ok a, reported, k') =>
      reported = [] ∧ a_routes a = windows_plan true (a_ifindex a)
      ∧ home ⊆ k' ∧ (∀ r, r ∈ k' → r ∈ home ∨ rt_ifindex r = a_ifindex a)
      ∧ (@windows_drop (gset Route) linux_kernel a k').2 = home
  end.
Proof.
  apply (@windows_adapter_restores (gset Route) linux_kernel same_route linux_kernel_laws true home).
  intros i. apply apart_by_prefix; [apply same_route_prefix|]. concrete.
Defined.

(** A system that refuses every deletion: the multicast route stays on the
    physical interface, and the log has named it. *)
Definition stubborn_kernel : NetKernel (gset Route) := {|
  k_open := @k_open _ linux_kernel;
  k_prep := @k_prep _ linux_kernel;
  k_add_route := @k_add_route _ linux_kernel;
  k_del_route _ T := (Err (IoError PermissionDenied "Operation not permitted"), T);
  k_close := @k_close _ linux_kernel;
  k_table T := T
|}.

(** The hypothesis of the restoration is needed: a route that exists already is
    counted as the engine's own, and deleted with them.  Here the machine has
    its own multicast route on the physical interface. *)
Definition own_multicast : Route := MkRoute (V4 MULTICAST_V4) MULTICAST_V4_PREFIX 2.

Example teardown_deletes_foreign_route :
  let k := {[ own_multicast ]} ∪ home in
  match @unix_create (gset Route) linux_kernel true nic k with
  | (Ok a, _, k') => bool_decide (own_multicast ∈ (@unix_drop (gset Route) linux_kernel a k').2)
  | _ => true
  end = false.
Proof. vm_compute. reflexivity. Qed.

Example refused_deletion_stays :
  match @unix_create (gset Route) stubborn_kernel true nic home with
  | (Ok a, _, k') =>
    let '(logged, k'') := @unix_drop (gset Route) stubborn_kernel a k' in
    bool_decide (k'' = {[ own_multicast ]} ∪ home) && bool_decide (own_multicast ∈ logged)
  | _ => false
  end = true.
Proof. vm_compute. reflexivity. Qed.
