(* ===== verification/OpenDevice.v ===== *)
(** * Creating the device ([open_device] of [platform/linux/adapter.rs] and
    [platform/macos/adapter.rs], [load_wintun] and [is_elevated] of
    [platform/windows/adapter.rs])

    Each is the sequence of system calls it makes and its result, over the
    answers the system gives. *)

From S2P Require Export Platform.
Local Open Scope Z_scope.

Inductive dev_call : Type :=
  | CreateDevDir | MakeNode                       (* /dev/net, /dev/net/tun *)
  | OpenTun | TunSetIff | ClearOffload            (* Linux *)
  | ControlSocket | ControlInfo | ControlConnect | InterfaceName  (* macOS *)
  | SetNonblocking
  | NameToIndex.
#[export] Instance dev_call_eq_dec : EqDecision dev_call.
Proof. solve_decision. Defined.

(** [is_privilege_error] *)
Definition is_privilege_error (e : io_error) : bool := bool_decide (ie_kind e = PermissionDenied).

Definition opening_error (op : str) (e : io_error) : Error :=
  if is_privilege_error e then NotElevated else netcfg_error op e.

Module LinuxDevice.

(** [None]: the call succeeds. *)
Record answers : Type := MkAnswers {
  node_exists : bool;
  an_open : option io_error;
  an_setiff : option io_error;
  an_nonblock : option io_error;
  an_index : result io_error Z
}.

Definition open_device (a : answers) : list dev_call * result Error Z :=
  let node := if node_exists a then [] else [CreateDevDir; MakeNode] in
  match an_open a with
  | Some e => (node ++ [OpenTun], Err (opening_error (u "open(/dev/net/tun)") e))
  | None =>
    match an_setiff a with
    | Some e => (node ++ [OpenTun; TunSetIff], Err (opening_error (u "TUNSETIFF") e))
    | None =>
      match an_nonblock a with
      | Some e => (node ++ [OpenTun; TunSetIff; ClearOffload; SetNonblocking],
                   Err (netcfg_error (u "fcntl(O_NONBLOCK)") e))
      | None =>
        (node ++ [OpenTun; TunSetIff; ClearOffload; SetNonblocking; NameToIndex],
         match an_index a with
         | Ok i => Ok i
         | Err e => Err (netcfg_error (u "if_nametoindex") e)
         end)
      end
    end
  end.

End LinuxDevice.

Module MacosDevice.

Record answers : Type := MkAnswers {
  an_socket : option io_error;
  an_info : option io_error;
  an_connect : option io_error;
  an_name : result io_error str;
  an_nonblock : option io_error;
  an_index : result io_error Z
}.

Definition bad_name : io_error := IoError InvalidData "unexpected utun interface name".

Definition open_device (a : answers) : list dev_call * result Error Z :=
  match an_socket a with
  | Some e => ([ControlSocket], Err (opening_error (u "socket(PF_SYSTEM)") e))
  | None =>
    match an_info a with
    | Some e => ([ControlSocket; ControlInfo], Err (netcfg_error (u "CTLIOCGINFO") e))
    | None =>
      match an_connect a with
      | Some e => ([ControlSocket; ControlInfo; ControlConnect],
                   Err (opening_error (u "connect(utun_control)") e))
      | None =>
        let named := [ControlSocket; ControlInfo; ControlConnect; InterfaceName] in
        match an_name a with
        | Err e => (named, Err (netcfg_error (u "getsockopt(UTUN_OPT_IFNAME)") e))
        | Ok assigned =>
          if negb (starts_with assigned (u "utun"))
          then (named, Err (netcfg_error (u "UTUN_OPT_IFNAME") bad_name))
          else match an_nonblock a with
          | Some e => (named ++ [SetNonblocking], Err (netcfg_error (u "fcntl(O_NONBLOCK)") e))
          | None =>
            (named ++ [SetNonblocking; NameToIndex],
             match an_index a with
             | Ok i => Ok i
             | Err e => Err (netcfg_error (u "if_nametoindex") e)
             end)
          end
        end
      end
    end
  end.

End MacosDevice.

Module WindowsDevice.

Definition LOAD_RETRY_ATTEMPTS : nat := 5.
(** Milliseconds. *)
Definition LOAD_RETRY_DELAY : Z := 800.

(** The retry loop over the answers of successive loads of the local copy: its
    success, and the time slept. *)
Fixpoint try_local (attempts : nat) (answer : nat → bool) (n : nat) (slept : Z) : bool * Z :=
  match attempts with
  | O => (false, slept)
  | S attempts' =>
    if answer n then (true, slept)
    else try_local attempts' answer (S n) (slept + LOAD_RETRY_DELAY)
  end.

(** [local]: the answers for the copy beside the executable, [None] when there
    is none; [system]: the search path. *)
Definition load_wintun (local : option (nat → bool)) (system : result str unit)
    : result Error unit * Z :=
  let fall_back := map_err WintunLoad system in
  match local with
  | None => (fall_back, 0)
  | Some answer =>
    let '(loaded, slept) := try_local LOAD_RETRY_ATTEMPTS answer 0 0 in
    if loaded then (Ok tt, slept) else (fall_back, slept)
  end.

(** [token]: [None] when it cannot be opened; [info]: [None] when the query
    fails, else [TokenIsElevated]. *)
Definition is_elevated (token : bool) (info : option Z) : bool :=
  if token then match info with Some v => negb (v =? 0) | None => false end else false.

End WindowsDevice.

(** ** Theorems *)

Lemma opening_error_elevated op e :
  @Err Error Z (opening_error op e) = Err NotElevated ↔ ie_kind e = PermissionDenied.
Proof.
  unfold opening_error, is_privilege_error, netcfg_error.
  case_bool_decide; split; intros; simplify_eq; done.
Qed.

(** opening the device on Linux.  A device that is returned has had its
    offloads cleared since it was attached and is nonblocking, as the polling
    device needs; and the caller is told to elevate exactly when one of the two
    calls that create the device was denied. *)
Theorem linux_device_ready a :
  (∀ i, (LinuxDevice.open_device a).2 = Ok i →
     ∃ pre, (LinuxDevice.open_device a).1
       = pre ++ [OpenTun; TunSetIff; ClearOffload; SetNonblocking; NameToIndex])
  ∧ ((LinuxDevice.open_device a).2 = Err NotElevated ↔
       match LinuxDevice.an_open a, LinuxDevice.an_setiff a with
       | Some e, _ | None, Some e => ie_kind e = PermissionDenied
       | None, None => False
       end).
Proof.
  unfold LinuxDevice.open_device.
  destruct a as [n [e|] [e'|] [?|] [?|?]]; simpl; rewrite ?opening_error_elevated;
    (split; [intros j Hj; try done; by eexists|done]).
Qed.

(** The same on macOS, where a returned device is a utun. *)
Lemma macos_device_ready b :
  (∀ i, (MacosDevice.open_device b).2 = Ok i →
     ∃ name, MacosDevice.an_name b = Ok name ∧ starts_with name (u "utun") = true
       ∧ (MacosDevice.open_device b).1
         = [ControlSocket; ControlInfo; ControlConnect; InterfaceName; SetNonblocking; NameToIndex])
  ∧ ((MacosDevice.open_device b).2 = Err NotElevated ↔
       match MacosDevice.an_socket b, MacosDevice.an_info b, MacosDevice.an_connect b with
       | Some e, _, _ | None, None, Some e => ie_kind e = PermissionDenied
       | _, _, _ => False
       end).
Proof.
  unfold MacosDevice.open_device.
  destruct b as [[?|] [?|] [?|] [name|?] ? ?]; simpl; rewrite ?opening_error_elevated; try done.
  destruct (starts_with name (u "utun")) eqn:Hn; simpl; [|done].
  case_match; simpl; [done|]. case_match; simpl; [|done].
  split; [intros i Hi; by exists name|done].
Qed.

(** Loading the driver ends: at most five attempts at the local copy, with at
    most four seconds of waiting, then the search path; a local copy that loads
    within the attempts is used. *)
Lemma try_local_spec attempts answer n slept :
  let '(loaded, total) := WindowsDevice.try_local attempts answer n slept in
  total ≤ slept + Z.of_nat attempts * WindowsDevice.LOAD_RETRY_DELAY
  ∧ (loaded = true ↔ ∃ k, (k < attempts)%nat ∧ answer (n + k)%nat = true).
Proof.
  revert n slept. induction attempts as [|m IH]; intros n slept; simpl.
  { split; [lia|]. split; [done|]. intros (k & ? & _). lia. }
  destruct (answer n) eqn:E.
  - split; [unfold WindowsDevice.LOAD_RETRY_DELAY; lia|]. split; [|done].
    intros _. exists 0%nat. rewrite Nat.add_0_r. split; [lia|done].
  - specialize (IH (S n) (slept + WindowsDevice.LOAD_RETRY_DELAY)).
    destruct (WindowsDevice.try_local m answer (S n) _) as [l t]. destruct IH as [H1 H2].
    split; [lia|]. rewrite H2. split; intros (k & Hk & Hx).
    + exists (S k). rewrite <-Nat.add_succ_comm. split; [lia|done].
    + destruct k as [|k]; [rewrite Nat.add_0_r in Hx; congruence|].
      exists k. rewrite Nat.add_succ_comm. split; [lia|done].
Qed.
