(* ===== verification/Netlink.v ===== *)
(** * Netlink requests ([platform/linux/netcfg.rs], and the receive loop of
    [platform/linux/process.rs])

    A request is sent and replies are received until the one that answers it.
    The socket's replies and the deserialisation, which is a library's, are
    arguments.  [recv] appends to the receive buffer, and each iteration parses
    its first [received] bytes, as the source has it. *)

From S2P Require Export Platform.
Local Open Scope Z_scope.

(** Errors of the host, by their [errno], as [io::Error::from_raw_os_error]
    classifies them. *)
Definition EPERM : Z := 1.
Definition ENOENT : Z := 2.
Definition ESRCH : Z := 3.
Definition EAGAIN : Z := 11.
Definition EACCES : Z := 13.
Definition EEXIST : Z := 17.
Definition EINVAL : Z := 22.
Definition ENOTCONN : Z := 107.
Definition ETIMEDOUT : Z := 110.

Definition kind_of_errno (errno : Z) : err_kind :=
  if (errno =? EPERM) || (errno =? EACCES) then PermissionDenied
  else if errno =? ENOENT then NotFound
  else if errno =? EAGAIN then WouldBlock
  else if errno =? EEXIST then AlreadyExists
  else if errno =? EINVAL then InvalidInput
  else if errno =? ENOTCONN then NotConnected
  else if errno =? ETIMEDOUT then TimedOut
  else Other.
Definition from_raw_os_error (errno : Z) : io_error := IoError (kind_of_errno errno) "os error".

(** The receive timeout of the socket elapsed. *)
Definition recv_timeout : io_error := from_raw_os_error EAGAIN.

Section Loop.
Context {P R : Type}.
Context (deserialize : list Z → option (Z * P)) (sequence : Z).
Context (failed : io_error → R) (malformed : R) (handle : P → option R).

(** [handle] answers, or goes on waiting. *)
Fixpoint recv_loop (receive : list Z) (replies : list (result io_error (list Z))) : R :=
  match replies with
  | [] => failed recv_timeout
  | Err e :: _ => failed e
  | Ok datagram :: replies' =>
    let receive := receive ++ datagram in
    match deserialize (take (length datagram) receive) with
    | None => malformed
    | Some (seq, payload) =>
      if negb (seq =? sequence) then recv_loop receive replies'
      else match handle payload with
      | Some r => r
      | None => recv_loop receive replies'
      end
    end
  end.

(** The first reply is read as it is. *)
Lemma recv_loop_first datagram seq payload r replies :
  deserialize datagram = Some (seq, payload) → seq = sequence → handle payload = Some r →
  recv_loop [] (Ok datagram :: replies) = r.
Proof.
  intros Hd -> Hh. simpl. by rewrite take_ge, Hd, Z.eqb_refl, Hh by done.
Qed.

(** A first reply that is not the answer stays at the front of the buffer, so
    later replies of its size are received but not read: the loop ends by the
    timeout. *)
Lemma recv_loop_stuck first rest datagrams :
  (∀ seq payload, deserialize first = Some (seq, payload) → seq = sequence → handle payload = None) →
  is_Some (deserialize first) →
  Forall (λ d, length d = length first) datagrams →
  recv_loop (first ++ rest) (Ok <$> datagrams) = failed recv_timeout.
Proof.
  intros Hno [[seq payload] Hd] Hall. revert rest.
  induction Hall as [|d ds Hl _ IH]; intros rest; [done|]. simpl.
  rewrite Hl, <-app_assoc, take_app_length, Hd.
  destruct (Z.eqb_spec seq sequence) as [Heq|]; simpl; [|apply IH].
  rewrite (Hno seq payload Hd Heq). apply IH.
Qed.
End Loop.

(** ** rtnetlink requests *)

Inductive nl_payload : Type :=
  | NlError (code : option Z)   (* NLMSG_ERROR; [None] is the acknowledgement *)
  | NlDone
  | NlRoute (oifs : list Z)     (* a route, with its outgoing interfaces *)
  | NlOther.

Definition invalid_data : io_error := IoError InvalidData "deserialize".

(** [Netlink::wait_for_ack]; [code] is the negated [errno] of the kernel. *)
Definition ack_of (p : nl_payload) : option (result io_error unit) :=
  match p with
  | NlError None => Some (Ok tt)
  | NlError (Some code) => Some (Err (from_raw_os_error (- code)))
  | NlDone => Some (Ok tt)
  | _ => None
  end.

Section Requests.
Context (deserialize : list Z → option (Z * nl_payload)).

Definition wait_for_ack (sequence : Z) (replies : list (result io_error (list Z)))
    : result io_error unit :=
  recv_loop deserialize sequence Err (Err invalid_data) ack_of [] replies.

(** [Netlink::next_sequence] *)
Definition next_sequence (sequence : Z) : Z * Z := (sequence, (sequence + 1) mod 2 ^ 32).

Definition NLM_F_REQUEST : Z := 1.
Definition NLM_F_ACK : Z := 4.
Definition NLM_F_EXCL : Z := 0x200.
Definition NLM_F_CREATE : Z := 0x400.

(** [Netlink::request_ack]: the flags sent, and the answer. *)
Definition request_flags (extra : Z) : Z := Z.lor (Z.lor NLM_F_REQUEST NLM_F_ACK) extra.
Definition request_ack (sent : option io_error) (sequence : Z)
    (replies : list (result io_error (list Z))) : result io_error unit :=
  match sent with
  | Some e => Err e
  | None => wait_for_ack (next_sequence sequence).1 replies
  end.

Definition idempotent_already_exists (e : io_error) : result io_error unit :=
  if decide (ie_kind e = AlreadyExists) then Ok tt else Err e.

(** [add_address] and the request of [add_route]. *)
Definition create_request (sent : option io_error) (replies : list (result io_error (list Z)))
    : result io_error unit :=
  match request_ack sent 0 replies with Ok _ => Ok tt | Err e => idempotent_already_exists e end.

(** [delete_route] *)
Definition delete_request (sent : option io_error) (replies : list (result io_error (list Z)))
    : result io_error unit :=
  match request_ack sent 0 replies with
  | Ok _ => Ok tt
  | Err e =>
    match ie_kind e with NotFound | NotConnected => Ok tt | _ => Err e end
  end.

(** [best_route_index]: a route without an outgoing interface goes on. *)
Definition oif_of (p : nl_payload) : option (option Z) :=
  match p with
  | NlRoute (oif :: _) => Some (Some oif)
  | NlRoute [] => None
  | NlDone | NlError _ => Some None
  | NlOther => None
  end.
Definition best_route_index (sent : option io_error) (replies : list (result io_error (list Z)))
    : option Z :=
  match sent with
  | Some _ => None
  | None => recv_loop deserialize (next_sequence 0).1 (λ _, None) None oif_of [] replies
  end.
End Requests.

(** ** Theorems *)

Lemma already_exists_errno n : kind_of_errno n = AlreadyExists ↔ n = EEXIST.
Proof.
  unfold kind_of_errno, EPERM, ENOENT, EAGAIN, EACCES, EEXIST, EINVAL, ENOTCONN, ETIMEDOUT.
  split; [|by intros ->]. bool_cases; simpl; try done; lia.
Qed.

(** Adding a route or an address, when the kernel answers the request first: it
    succeeds exactly when the answer is an acknowledgement or says the object
    exists, and otherwise reports the kernel's error. *)
Lemma create_request_answer deserialize datagram code replies :
  deserialize datagram = Some (0, NlError code) →
  create_request deserialize None (Ok datagram :: replies)
  = match code with
    | None => Ok tt
    | Some c => if - c =? EEXIST then Ok tt else Err (from_raw_os_error (- c))
    end.
Proof.
  intros Hd. unfold create_request, request_ack, wait_for_ack.
  destruct code as [c|].
  - rewrite (recv_loop_first _ _ _ _ _ _ _ _ (Err (from_raw_os_error (- c))) _ Hd) by done.
    unfold idempotent_already_exists. simpl ie_kind.
    destruct (Z.eqb_spec (- c) EEXIST) as [He|He].
    + by rewrite decide_True by (by apply already_exists_errno).
    + by rewrite decide_False by (by rewrite already_exists_errno).
  - by rewrite (recv_loop_first _ _ _ _ _ _ _ _ (Ok tt) _ Hd).
Qed.

(** a stray reply costs the request.  If the first datagram a request
    receives is well formed but not its answer (another sequence number, or a
    message it waits past), then none of the datagrams of the same size that
    follow is ever looked at, whatever they say: the request fails with the
    receive timeout, and so does a route lookup. *)
Theorem stray_reply_starves deserialize first datagrams :
  is_Some (deserialize first) →
  (∀ seq payload, deserialize first = Some (seq, payload) → seq = 0 →
     ack_of payload = None ∧ oif_of payload = None) →
  Forall (λ d, length d = length first) datagrams →
  wait_for_ack deserialize 0 (Ok <$> first :: datagrams) = Err recv_timeout
  ∧ best_route_index deserialize None (Ok <$> first :: datagrams) = None.
Proof.
  intros Hs Hno Hall. unfold wait_for_ack, best_route_index.
  destruct Hs as [[seq payload] Hd].
  split; simpl; rewrite take_ge, Hd by done; (destruct (Z.eqb_spec seq 0) as [->|Hne]; simpl;
    [destruct (Hno 0 payload Hd eq_refl) as [Ha Ho]; rewrite ?Ha, ?Ho|]);
    rewrite <-(app_nil_r first), recv_loop_stuck; try done; rewrite ?app_nil_r; try done; try by eexists.
  all: intros s p Hp Hq; rewrite Hd in Hp; simplify_eq; try done; by apply Hno in Hd as [??].
Qed.

(** A deleted route that is already gone: the documentation counts [ESRCH] as
    success, but the standard library gives it no kind of its own. *)
Example esrch_is_an_error deserialize datagram replies :
  deserialize datagram = Some (0, NlError (Some (- ESRCH))) →
  delete_request deserialize None (Ok datagram :: replies) = Err (from_raw_os_error ESRCH).
Proof.
  intros Hd. unfold delete_request, request_ack, wait_for_ack.
  by rewrite (recv_loop_first _ _ _ _ _ _ _ _ (Err (from_raw_os_error ESRCH)) _ Hd).
Qed.

(** ** Witnesses *)

(** A toy wire format: sequence number, then an error code. *)
Definition toy (bs : list Z) : option (Z * nl_payload) :=
  match bs with
  | [seq; 0] => Some (seq, NlError None)
  | [seq; c] => Some (seq, NlError (Some c))
  | _ => None
  end.

Lemma stray_reply_starves_witness :
  wait_for_ack toy 0 (Ok <$> [[7; 0]; [0; 0]]) = Err recv_timeout
  ∧ best_route_index toy None (Ok <$> [[7; 0]; [0; 0]]) = None.
Proof.
  apply (stray_reply_starves toy [7; 0] [[0; 0]]).
  - by eexists.
  - intros seq payload [= <- <-] Hs. discriminate Hs.
  - concrete.
Defined.

Example answered_when_first : wait_for_ack toy 0 (Ok <$> [[0; 0]; [7; 0]]) = Ok tt.
Proof. reflexivity. Qed.
