(* ===== verification/Rtnetlink.v ===== *)
(** * Addressing and routing on Linux ([platform/linux/netcfg.rs])

    The messages the engine sends over rtnetlink, the operations that send them,
    and the interface [NetKernel] of the adapter implemented by them.  The message
    types and their encoding belong to libraries: a message is the record of the
    fields the source sets ([None]: left at the library's default), and the
    encoding is inside [rk_exchange], which sends a message and gives the replies.

    The theorem: if the kernel answers a request truthfully, when it answers at
    all, the operations satisfy the laws the adapter relies on, so what [Adapter]
    proves holds of the Linux code.  Sockets that cannot be made, requests that
    are not sent, stray replies and lost answers are part of it. *)

From S2P Require Export Adapter OpenDevice Netlink.
Local Open Scope Z_scope.

Definition V4_PROBE : Z := ipv4 8 8 8 8.
Definition V6_PROBE : Z := of_segments [0x2001; 0x4860; 0x4860; 0; 0; 0; 0; 0x8888].

(** Milliseconds, and the [timeval] of [set_receive_timeout]. *)
Definition NETLINK_TIMEOUT : Z := 2000.
Definition timeval_of (millis : Z) : Z * Z := (millis / 1000, millis mod 1000 * 1000).
Definition set_receive_timeout (rc errno : Z) : result io_error unit :=
  if rc =? 0 then Ok tt else Err (from_raw_os_error errno).

(** ** Messages *)

Inductive AddressFamily : Type := Unspec | Inet | Inet6.
Inductive NlScope : Type := Universe | LinkScope.
Inductive RouteAttribute : Type := Destination (addr : IpAddr) | Oif (ifindex : Z).
Inductive AddressAttribute : Type := Address (addr : IpAddr) | LocalAddress (addr : IpAddr).
#[export] Instance AddressFamily_eq_dec : EqDecision AddressFamily.
Proof. solve_decision. Defined.
#[export] Instance NlScope_eq_dec : EqDecision NlScope.
Proof. solve_decision. Defined.

Definition family (addr : IpAddr) : AddressFamily :=
  match addr with V4 _ => Inet | V6 _ => Inet6 end.

Record AddressMessage : Type := MkAddressMessage {
  am_family : AddressFamily;
  am_prefix_len : Z;
  am_scope : NlScope;
  am_index : Z;
  am_nodad : bool;                       (* header.flags *)
  am_attributes : list AddressAttribute
}.
(** [header.flags] and [header.change_mask] hold the link's [Up] flag. *)
Record LinkMessage : Type := MkLinkMessage {
  lm_family : AddressFamily;
  lm_index : Z;
  lm_up : bool;
  lm_change_up : bool;
  lm_mtu : Z
}.
Record RouteMessage : Type := MkRouteMessage {
  rm_family : AddressFamily;
  rm_prefix_len : option Z;
  rm_table : option Z;
  rm_static : option bool;               (* header.protocol *)
  rm_scope : option NlScope;
  rm_unicast : option bool;              (* header.kind *)
  rm_lookup_table : bool;                (* header.flags *)
  rm_attributes : list RouteAttribute
}.

Inductive request : Type :=
  | NewAddress (m : AddressMessage)
  | NewLink (m : LinkMessage)
  | NewRoute (m : RouteMessage)
  | DelRoute (m : RouteMessage)
  | GetRoute (m : RouteMessage).
Record NlMessage : Type := MkNlMessage { nl_flags : Z; nl_sequence : Z; nl_request : request }.

Definition RT_TABLE_MAIN : Z := 254.

Definition route_message (fam : AddressFamily) (prefix_len ifindex : Z) (dest : IpAddr)
    : RouteMessage :=
  MkRouteMessage fam (Some prefix_len) (Some RT_TABLE_MAIN) (Some true) (Some LinkScope)
    (Some true) false [Destination dest; Oif ifindex].

Definition address_message (ifindex : Z) (addr : IpAddr) (prefix_len : Z) : AddressMessage :=
  MkAddressMessage (family addr) prefix_len Universe ifindex (is_ipv6 addr)
    (Address addr :: if is_ipv6 addr then [] else [LocalAddress addr]).

Definition link_message (ifindex mtu : Z) : LinkMessage := MkLinkMessage Unspec ifindex true true mtu.

Definition lookup_message (dest : IpAddr) : RouteMessage :=
  MkRouteMessage (family dest) None None None None None true [Destination dest].

Record RouteHandle : Type := MkRouteHandle {
  rh_family : AddressFamily;
  rh_dest : IpAddr;
  rh_prefix_len : Z;
  rh_ifindex : Z
}.

(** ** The kernel *)

Class RtKernel (K : Type) : Type := {
  rk_open : K → LinuxDevice.answers * K;
  (** The three calls of [Netlink::new]; [None] is success. *)
  rk_socket : K → option io_error * option io_error * option io_error;
  (** Sending a message: the error of the send, the replies, the new state. *)
  rk_exchange : NlMessage → K → option io_error * list (result io_error (list Z)) * K;
  rk_deserialize : list Z → option (Z * nl_payload);
  rk_close : Z → K → K;
  rk_table : K → gset Route
}.

Section Operations.
Context {K : Type} `{RtKernel K}.

(** [Netlink::new] *)
Definition netlink_new (k : K) : result io_error unit :=
  match rk_socket k with
  | (Some e, _, _) | (None, Some e, _) | (None, None, Some e) => Err e
  | (None, None, None) => Ok tt
  end.

(** A new socket, one request on it, and what the operation makes of the
    answer. *)
Definition round_trip {A} (req : request) (flags : Z) (failed : io_error → A)
    (answer : option io_error → list (result io_error (list Z)) → A) (k : K) : A * K :=
  match netlink_new k with
  | Err e => (failed e, k)
  | Ok _ =>
    let '(sent, replies, k') := rk_exchange (MkNlMessage flags (next_sequence 0).1 req) k in
    (answer sent replies, k')
  end.

Definition CREATE_FLAGS : Z := request_flags (Z.lor NLM_F_CREATE NLM_F_EXCL).

Definition add_address (ifindex : Z) (addr : IpAddr) (prefix_len : Z) : K → result io_error unit * K :=
  round_trip (NewAddress (address_message ifindex addr prefix_len)) CREATE_FLAGS Err
    (create_request rk_deserialize).

Definition set_link_mtu_and_up (ifindex mtu : Z) : K → result io_error unit * K :=
  round_trip (NewLink (link_message ifindex mtu)) (request_flags 0) Err
    (λ sent, request_ack rk_deserialize sent 0).

Definition add_route (ifindex : Z) (dest : IpAddr) (prefix_len : Z) (k : K)
    : result io_error RouteHandle * K :=
  let '(r, k') := round_trip (NewRoute (route_message (family dest) prefix_len ifindex dest))
                    CREATE_FLAGS Err (create_request rk_deserialize) k in
  (match r with
   | Ok _ => Ok (MkRouteHandle (family dest) dest prefix_len ifindex)
   | Err e => Err e
   end, k').

Definition delete_route (h : RouteHandle) : K → result io_error unit * K :=
  round_trip (DelRoute (route_message (rh_family h) (rh_prefix_len h) (rh_ifindex h) (rh_dest h)))
    (request_flags 0) Err (delete_request rk_deserialize).

Definition best_route_index (dest : IpAddr) : K → option Z * K :=
  round_trip (GetRoute (lookup_message dest)) NLM_F_REQUEST (λ _, None)
    (Netlink.best_route_index rk_deserialize).

Definition discover_physical_interface (k : K) : PhysicalInterface * K :=
  let '(v4, k) := best_route_index (V4 V4_PROBE) k in
  let '(v6, k) := best_route_index (V6 V6_PROBE) k in
  (MkPhysicalInterface v4 v6, k).

(** The adapter's interface: the steps of Windows do not occur, and the first
    half of [add_route] is the request whose "already exists" is forgiven. *)
Definition handle_of (r : Route) : RouteHandle :=
  MkRouteHandle (family (rt_dest r)) (rt_dest r) (rt_prefix r) (rt_ifindex r).

#[export] Instance rtnetlink : NetKernel K := {|
  k_open k := let '(a, k') := rk_open k in ((LinuxDevice.open_device a).2, k');
  k_prep p i :=
    match p with
    | PAddress addr prefix => add_address i addr prefix
    | PLinkUp mtu => set_link_mtu_and_up i mtu
    | _ => λ k, (Ok tt, k)
    end;
  k_add_route r :=
    round_trip (NewRoute (route_message (family (rt_dest r)) (rt_prefix r) (rt_ifindex r) (rt_dest r)))
      CREATE_FLAGS Err (λ sent, request_ack rk_deserialize sent 0);
  k_del_route r := delete_route (handle_of r);
  k_close := rk_close;
  k_table := rk_table
|}.

(** [netcfg::add_route] is the adapter's, with the handle that deletes it. *)
Lemma add_route_adapter r k :
  (∀ e, netlink_new k = Err e → ie_kind e ≠ AlreadyExists) →
  add_route (rt_ifindex r) (rt_dest r) (rt_prefix r) k
  = (let '(res, k') := Adapter.add_route r k in
     (match res with Ok _ => Ok (handle_of r) | Err e => Err e end, k')).
Proof.
  intros Hn. unfold add_route, Adapter.add_route, round_trip, create_request.
  cbn [k_add_route rtnetlink]. unfold round_trip, idempotent_already_exists.
  destruct (netlink_new k) as [|e]; [|by rewrite decide_False by by apply Hn].
  destruct (rk_exchange _ k) as [[sent replies] k'].
  destruct (request_ack _ sent 0 replies) as [[]|e]; [done|by case_decide].
Qed.

End Operations.

(** ** What a route request names

    The route the kernel reads from a message: a unicast route of the main
    table, whose family is that of its destination. *)
Definition route_of (m : RouteMessage) : option Route :=
  match rm_attributes m with
  | [Destination dest; Oif i] =>
    if decide (rm_family m = family dest ∧ rm_table m = Some RT_TABLE_MAIN ∧ rm_unicast m = Some true)
    then (λ p, MkRoute dest p i) <$> rm_prefix_len m else None
  | _ => None
  end.

(** What a request does to the forwarding table when it is acknowledged ([None])
    or answered with an error code.  A deletion that fails removes nothing; the
    codes the code forgives say that there is no such route. *)
Definition effect (req : request) (code : option Z) (T T' : gset Route) : Prop :=
  match req, code with
  | NewRoute m, None => match route_of m with Some r => T' = {[r]} ∪ T | None => T' = T end
  | DelRoute m, None => match route_of m with Some r => T' = T ∖ {[r]} | None => T' = T end
  | DelRoute m, Some c =>
    T' = T ∧ (kind_of_errno (- c) ∈ [NotFound; NotConnected] → ∀ r, route_of m = Some r → r ∉ T)
  | NewAddress m, _ => ∀ r, r ∈ T' ↔ r ∈ T ∨ (r ∈ T' ∧ rt_ifindex r = am_index m)
  | NewLink m, _ => ∀ r, r ∈ T' ↔ r ∈ T ∨ (r ∈ T' ∧ rt_ifindex r = lm_index m)
  | _, _ => T' = T
  end.

(** The answer in a message: an acknowledgement, or an error code. *)
Definition answer_of (p : nl_payload) : option (option Z) :=
  match p with NlError code => Some code | NlDone => Some None | _ => None end.

(** The behaviour of the kernel and of the message library the code counts on. *)
Class RtKernelLaws (K : Type) `{RtKernel K} : Prop := {
  (** socket(2), bind(2) and setsockopt(2) do not fail with [EEXIST]; send(2) and
      recv(2) on a netlink socket do not fail with the errors that stand for a
      missing route. *)
  rk_socket_kind k e : netlink_new k = Err e → ie_kind e ≠ AlreadyExists;
  rk_send_kind m k e replies k' : rk_exchange m k = (Some e, replies, k') →
    ie_kind e ∉ [NotFound; NotConnected];
  rk_recv_kind m k sent replies k' e : rk_exchange m k = (sent, replies, k') → Err e ∈ replies →
    ie_kind e ∉ [NotFound; NotConnected];
  (** A request is carried out or it is not, and an answer to it that arrives
      says which. *)
  rk_effect m k sent replies k' : rk_exchange m k = (sent, replies, k') →
    rk_table k' = rk_table k ∨ effect (nl_request m) None (rk_table k) (rk_table k');
  rk_answer m k datagram payload code sent replies k' :
    rk_exchange m k = (sent, replies, k') → Ok datagram ∈ replies →
    rk_deserialize datagram = Some (nl_sequence m, payload) → answer_of payload = Some code →
    effect (nl_request m) code (rk_table k) (rk_table k');
  (** A message carries its length: bytes after it do not change it, and a part
      of it is not a message. *)
  rk_framed datagram x rest n :
    rk_deserialize datagram = Some x →
    rk_deserialize (take n (datagram ++ rest)) = Some x ∨ rk_deserialize (take n (datagram ++ rest)) = None;
  rk_open_table k : rk_table (rk_open k).2 = rk_table k;
  rk_open_fresh k i r :
    LinuxDevice.an_index (rk_open k).1 = Ok i → r ∈ rk_table k → rt_ifindex r ≠ i;
  rk_close_table i k r : r ∈ rk_table (rk_close i k) ↔ r ∈ rk_table k ∧ rt_ifindex r ≠ i
}.

(** ** Theorems *)

Section Laws.
Context {K : Type} `{RtKernelLaws K}.

Lemma open_device_index a i : (LinuxDevice.open_device a).2 = Ok i → LinuxDevice.an_index a = Ok i.
Proof.
  unfold LinuxDevice.open_device. destruct a as [n [?|] [?|] [?|] [j|?]]; simpl; by intros [= <-].
Qed.

(** The loop reads an answer to its request from the first datagram or not at
    all: whatever arrives later is looked at behind the first one's bytes. *)
Lemma wait_for_ack_later first more replies x :
  rk_deserialize first = Some x → (x.1 = 0 → ack_of x.2 = None) →
  (∃ e, recv_loop rk_deserialize 0 Err (Err invalid_data) ack_of (first ++ more) replies = Err e
        ∧ (Err e ∈ replies ∨ e ∈ [recv_timeout; invalid_data])).
Proof.
  intros Hd Hno. revert more. induction replies as [|[d|e] replies IH]; intros more; simpl.
  - exists recv_timeout. split; [done|]. right. by left.
  - rewrite <-app_assoc. destruct (rk_framed first x (more ++ d) (length d) Hd) as [->| ->].
    + destruct x as [seq p]. simpl in *. destruct (Z.eqb_spec seq 0) as [Hs|]; simpl.
      * rewrite Hno by done. destruct (IH (more ++ d)) as (e & He & Hin). exists e.
        split; [done|]. destruct Hin; [left; by right|by right].
      * destruct (IH (more ++ d)) as (e & He & Hin). exists e.
        split; [done|]. destruct Hin; [left; by right|by right].
    + exists invalid_data. split; [done|]. right. right. by left.
  - exists e. split; [done|]. left. by left.
Qed.

(** What [request_ack] makes of an exchange: the kernel's own answer, read from
    the first reply, or an error of the socket, of the wait or of the parse. *)
Lemma request_ack_cases m k sent replies k' :
  rk_exchange m k = (sent, replies, k') → nl_sequence m = 0 →
  (∃ code, effect (nl_request m) code (rk_table k) (rk_table k')
     ∧ request_ack rk_deserialize sent 0 replies
       = match code with None => Ok tt | Some c => Err (from_raw_os_error (- c)) end)
  ∨ (∃ e, request_ack rk_deserialize sent 0 replies = Err e ∧ ie_kind e ∉ [NotFound; NotConnected]).
Proof.
  intros Hx Hq. destruct sent as [e|].
  { right. exists e. split; [done|]. by eapply rk_send_kind. }
  unfold request_ack, wait_for_ack. cbn [fst next_sequence].
  assert (∀ e, Err e ∈ replies ∨ e ∈ [recv_timeout; invalid_data] → ie_kind e ∉ [NotFound; NotConnected]) as Hkind.
  { intros e [Hin|Hin]; [by eapply rk_recv_kind|].
    apply elem_of_cons in Hin as [->|Hin]; [by vm_compute; intros ?; set_solver|].
    apply list_elem_of_singleton in Hin as ->. vm_compute. set_solver. }
  destruct replies as [|[d|e] replies]; simpl.
  - right. exists recv_timeout. split; [done|]. apply Hkind. right. by left.
  - rewrite take_ge by done. destruct (rk_deserialize d) as [[seq p]|] eqn:Hd.
    2:{ right. exists invalid_data. split; [done|]. apply Hkind. right. right. by left. }
    destruct (Z.eqb_spec seq 0) as [->|Hs]; simpl.
    + destruct (answer_of p) as [code|] eqn:Ha.
      * left. exists code. split.
        { eapply rk_answer; [exact Hx|by left| |exact Ha]. by rewrite Hq. }
        destruct p as [[c|]| | |]; by simplify_eq/=.
      * assert (ack_of p = None) as Hp by (by destruct p as [[c|]| | |]). rewrite Hp. right.
        destruct (wait_for_ack_later d [] replies _ Hd (λ _, Hp)) as (e & He & Hin).
        rewrite app_nil_r in He. exists e. split; [done|]. apply Hkind.
        destruct Hin; [left; by right|by right].
    + right. destruct (wait_for_ack_later d [] replies _ Hd) as (e & He & Hin); [done|].
      rewrite app_nil_r in He. exists e. split; [done|]. apply Hkind.
      destruct Hin; [left; by right|by right].
  - right. exists e. split; [done|]. apply Hkind. left. by left.
Qed.

Lemma route_of_message i dest p :
  route_of (route_message (family dest) p i dest) = Some (MkRoute dest p i).
Proof. unfold route_of. simpl. by rewrite decide_True. Qed.

(** What [delete_route] forgives. *)
Lemma forgiven_kind (e : io_error) :
  match ie_kind e with NotFound | NotConnected => Ok tt | _ => Err e end = Ok tt →
  ie_kind e ∈ [NotFound; NotConnected].
Proof. destruct (ie_kind e); try done; intros _; set_solver. Qed.

Lemma prep_effect req flags failed (answer : _ → _ → result io_error unit) i k r :
  (∀ code T T', effect req code T T' → ∀ r, r ∈ T' ↔ r ∈ T ∨ (r ∈ T' ∧ rt_ifindex r = i)) →
  r ∈ rk_table (round_trip req flags failed answer k).2
  ↔ r ∈ rk_table k ∨ (r ∈ rk_table (round_trip req flags failed answer k).2 ∧ rt_ifindex r = i).
Proof.
  intros He. unfold round_trip. destruct (netlink_new k); [|cbn; tauto].
  destruct (rk_exchange _ k) as [[sent replies] k'] eqn:Hx. cbn [snd].
  destruct (rk_effect _ _ _ _ _ Hx) as [->|Hk]; [tauto|]. by eapply He.
Qed.

Lemma rtnetlink_laws : NetKernelLaws K same_route.
Proof.
  split; cbn [k_open k_prep k_add_route k_del_route k_close k_table rtnetlink].
  - intros r. by apply bool_decide_eq_true.
  - intros k. pose proof (rk_open_table k) as Ho. by destruct (rk_open k).
  - intros k i k' r Hi Hr. destruct (rk_open k) as [a k1] eqn:E.
    injection Hi as Hi _. apply open_device_index in Hi. eapply rk_open_fresh; [|done]. by rewrite E.
  - intros p i k r. destruct p as [addr n|mtu|mtu|v6 m|c]; try (simpl; tauto).
    + apply prep_effect. intros code T T' He r'. by destruct code; apply He.
    + apply prep_effect. intros code T T' He r'. by destruct code; apply He.
  - intros [dest p i] k k' _. unfold round_trip. destruct (netlink_new k); [|done].
    destruct (rk_exchange _ k) as [[sent replies] k1] eqn:Hx. intros [= Ha <-].
    destruct (request_ack_cases _ _ _ _ _ Hx eq_refl) as [([c|] & He & Hr)|(e & Hr & _)]; try congruence.
    simpl in He. by rewrite route_of_message in He.
  - intros [dest p i] k e k' _. unfold round_trip. destruct (netlink_new k); [|intros [= _ <-]; by left].
    destruct (rk_exchange _ k) as [[sent replies] k1] eqn:Hx. intros [= _ <-].
    destruct (rk_effect _ _ _ _ _ Hx) as [Ht|He]; [by left|].
    simpl in He. rewrite route_of_message in He. by right.
  - intros [dest p i] k k' _. unfold delete_route, round_trip. destruct (netlink_new k); [|done].
    destruct (rk_exchange _ k) as [[sent replies] k1] eqn:Hx. intros [= Ha <-] r'.
    unfold same_route. rewrite bool_decide_eq_false. unfold delete_request in Ha.
    destruct (request_ack_cases _ _ _ _ _ Hx eq_refl) as [(code & He & Hr)|(e & Hr & Hk)]; rewrite Hr in Ha.
    + simpl in He. destruct code as [c|].
      * destruct He as [-> He]. specialize (He (forgiven_kind _ Ha) _ (route_of_message i dest p)).
        split; [|tauto]. intros Hin. split; [done|]. by intros <-.
      * rewrite route_of_message in He. rewrite He. set_solver.
    + by apply forgiven_kind in Ha.
  - intros [dest p i] k e k' _. unfold delete_route, round_trip.
    destruct (netlink_new k); [|intros [= _ <-]; split; [done|by intros r ? _]].
    destruct (rk_exchange _ k) as [[sent replies] k1] eqn:Hx. intros [= _ <-].
    destruct (rk_effect _ _ _ _ _ Hx) as [Ht|He]; [by rewrite Ht|].
    simpl in He. rewrite route_of_message in He. rewrite He. split; [set_solver|].
    intros r' Hin Hc. apply elem_of_difference. split; [done|]. apply bool_decide_eq_false in Hc. set_solver.
  - apply rk_close_table.
Qed.

(** C12: the Linux network configuration implements what the adapter relies on.
    If the kernel carries out a request or not, and an answer that arrives says
    truthfully which, then every law of the adapter's interface holds, whatever
    fails: a socket that cannot be made, a request that is not sent, a stray reply
    before the answer, an answer lost or cut, an error code.  In particular an
    addition or deletion that is reported as a success has taken place.
    [netcfg::add_route] is the adapter's step, with the handle of the route; and
    the messages that create a route and delete its handle name that very route of
    the main table. *)
Theorem rtnetlink_refines_netkernel :
  NetKernelLaws K same_route
  ∧ (∀ r k, add_route (rt_ifindex r) (rt_dest r) (rt_prefix r) k
       = (let '(res, k') := Adapter.add_route r k in
          (match res with Ok _ => Ok (handle_of r) | Err e => Err e end, k')))
  ∧ (∀ r, let h := handle_of r in
       route_of (route_message (family (rt_dest r)) (rt_prefix r) (rt_ifindex r) (rt_dest r)) = Some r
       ∧ route_of (route_message (rh_family h) (rh_prefix_len h) (rh_ifindex h) (rh_dest h)) = Some r).
Proof.
  split_and!; [apply rtnetlink_laws|intros r k; apply add_route_adapter, rk_socket_kind|].
  intros [dest p i]. split; apply route_of_message.
Qed.

(** A lookup answered by a route gives that route's interface. *)
Lemma best_route_answered dest k datagram rest oif oifs k' :
  rk_exchange (MkNlMessage NLM_F_REQUEST 0 (GetRoute (lookup_message dest))) k
    = (None, Ok datagram :: rest, k') →
  rk_deserialize datagram = Some (0, NlRoute (oif :: oifs)) →
  netlink_new k = Ok tt → best_route_index dest k = (Some oif, k').
Proof.
  intros Hx Hd Hs. unfold best_route_index, round_trip. rewrite Hs. simpl. rewrite Hx.
  f_equal. unfold Netlink.best_route_index. by rewrite (recv_loop_first _ _ _ _ _ _ _ _ (Some oif) _ Hd).
Qed.

End Laws.

(** ** A concrete kernel

    A forwarding table, on the toy wire format of [Netlink]; it refuses a second
    route to a prefix, and a route it does not have to delete. *)

Module Concrete.

Definition opened : LinuxDevice.answers := LinuxDevice.MkAnswers true None None None (Ok 0).

Definition code_of (req : request) (T : gset Route) : option Z * gset Route :=
  match req with
  | NewAddress m =>
    (None, match am_attributes m with
           | Address a :: _ => {[MkRoute a (am_prefix_len m) (am_index m)]} ∪ T
           | _ => T
           end)
  | NewLink _ | GetRoute _ => (None, T)
  | NewRoute m =>
    match route_of m with
    | Some r => if decide (set_Exists (λ r', same_prefix r r' = true) T)
                then (Some (- EEXIST), T) else (None, {[r]} ∪ T)
    | None => (Some (- EINVAL), T)
    end
  | DelRoute m =>
    match route_of m with
    | Some r => if decide (r ∈ T) then (None, T ∖ {[r]}) else (Some (- ESRCH), T)
    | None => (Some (- EINVAL), T)
    end
  end.

Definition linux : RtKernel (gset Route) := {|
  rk_open T :=
    (LinuxDevice.MkAnswers true None None None (Ok (fresh (set_map (D:=gset Z) rt_ifindex T))), T);
  rk_socket _ := (None, None, None);
  rk_exchange m T :=
    let '(code, T') := code_of (nl_request m) T in
    (None, [Ok [nl_sequence m; default 0 code]], T');
  rk_deserialize := toy;
  rk_close i T := filter (λ r, rt_ifindex r ≠ i) T;
  rk_table T := T
|}.

Lemma code_of_effect req T : effect req (code_of req T).1 T (code_of req T).2.
Proof.
  destruct req as [m|m|m|m|m]; simpl; try set_solver.
  - destruct (am_attributes m) as [|[|] ]; set_solver.
  - destruct (route_of m) as [r|] eqn:E; simpl; [case_decide; simpl|]; by rewrite ?E.
  - destruct (route_of m) as [r|] eqn:E; simpl; [case_decide; simpl; rewrite ?E; try done|];
      (split; [done|]); vm_compute; set_solver.
Qed.

Lemma code_of_nonzero req T : (code_of req T).1 ≠ Some 0.
Proof. destruct req as [m|m|m|m|m]; simpl; try done; destruct (route_of m); try done; by case_decide. Qed.

Lemma linux_laws : @RtKernelLaws (gset Route) linux.
Proof.
  split; cbn [rk_open rk_socket rk_exchange rk_deserialize rk_close rk_table linux]; try done.
  - intros m k e replies k'. by destruct (code_of _ _).
  - intros m k sent replies k' e. destruct (code_of _ _). intros [= <- <- <-] [Hin|Hin]%elem_of_cons; [done|].
    by apply not_elem_of_nil in Hin.
  - intros m T sent replies T'. pose proof (code_of_effect (nl_request m) T) as He.
    destruct (code_of (nl_request m) T) as [code T1] eqn:E. intros [= <- <- <-]. simpl in He.
    destruct code as [c|]; [|by right]. left. destruct (nl_request m) as [a|a|a|a|a]; cbn in E; simplify_eq; try done.
    destruct He as [He _]. exact He.
  - intros m T d p code sent replies T'. pose proof (code_of_effect (nl_request m) T) as He.
    pose proof (code_of_nonzero (nl_request m) T) as H0. destruct (code_of (nl_request m) T) as [c T1]. intros [= <- <- <-] Hin%list_elem_of_singleton.
    assert (d = [nl_sequence m; default 0 c]) as -> by (by injection Hin).
    simpl in He. destruct c as [[|c|c]|]; [done|..]; simpl; intros [= <-] [= <-]; done.
  - intros d x rest n Hd.
    assert (∃ a b, d = [a; b]) as (a & b & ->).
    { destruct d as [|a [|b [|c d]]]; try done; [by eexists _, _|by destruct b]. }
    destruct n as [|[|n]]; [by right..|]. destruct rest as [|y rest].
    + left. rewrite app_nil_r. by rewrite take_ge by (simpl; lia).
    + destruct n; [by left|]. right. simpl. by destruct b.
  - intros T i r [= <-] Hr Heq. pose proof (is_fresh (set_map (D:=gset Z) rt_ifindex T)) as Hf.
    apply Hf. rewrite <-Heq. apply elem_of_map. eauto.
  - intros i T r. rewrite elem_of_filter. tauto.
Qed.

End Concrete.

(** The laws, through a lemma the composition shares. *)
Lemma concrete_adapter_laws :
  @NetKernelLaws (gset Route) (@rtnetlink (gset Route) Concrete.linux) same_route.
Proof. apply (@rtnetlink_laws (gset Route) Concrete.linux Concrete.linux_laws). Qed.

Lemma rtnetlink_refines_netkernel_witness :
  let K := @rtnetlink (gset Route) Concrete.linux in
  @NetKernelLaws (gset Route) K same_route
  ∧ (∀ r T, @add_route (gset Route) Concrete.linux (rt_ifindex r) (rt_dest r) (rt_prefix r) T
       = (let '(res, T') := @Adapter.add_route (gset Route) K r T in
          (match res with Ok _ => Ok (handle_of r) | Err e => Err e end, T')))
  ∧ (∀ r, let h := handle_of r in
       route_of (route_message (family (rt_dest r)) (rt_prefix r) (rt_ifindex r) (rt_dest r)) = Some r
       ∧ route_of (route_message (rh_family h) (rh_prefix_len h) (rh_ifindex h) (rh_dest h)) = Some r).
Proof. apply (@rtnetlink_refines_netkernel (gset Route) Concrete.linux Concrete.linux_laws). Defined.

(** Creation over rtnetlink, on a machine with a default route. *)
Example created_over_rtnetlink :
  let K := @rtnetlink (gset Route) Concrete.linux in
  match @unix_create (gset Route) K true nic home with
  | (Ok a, _, T) =>
    bool_decide (a_routes a = unix_plan true nic (a_ifindex a))
    && bool_decide (MkRoute (V4 0) 1 (a_ifindex a) ∈ T)
    && bool_decide (@unix_drop (gset Route) K a T = ([], home))
  | _ => false
  end = true.
Proof. vm_compute. reflexivity. Qed.
