(* ===== verification/MacosNetcfg.v ===== *)
(** * Addressing and routing on macOS ([platform/macos/netcfg.rs])

    The requests the code builds for the interface ioctls, byte for byte where
    their layout matters; the [route] command lines and what is made of their
    output; the netmasks.  The answers of the system calls are arguments. *)

From S2P Require Export Routing.
Local Open Scope Z_scope.

Definition SIOCAIFADDR : Z := 0x4040691a.
Definition SIOCAIFADDR_IN6 : Z := 0x4080691a.
Definition SIOCSIFMTU : Z := 0x40206934.
Definition SIOCGIFFLAGS : Z := 0xc0206911.
Definition SIOCSIFFLAGS : Z := 0x40206910.
Definition IN6_IFF_NODAD : Z := 0x20.
Definition AF_INET : Z := 2.
Definition AF_INET6 : Z := 30.
Definition IFF_UP : Z := 1.
Definition IFNAMSIZ : nat := 16.
Definition U32_MAX : Z := 2 ^ 32 - 1.
Definition U128_MAX : Z := 2 ^ 128 - 1.

(** ** Netmasks

    [u32::MAX << (32 - prefix_len)]: the subtraction of two [u8]s panics when
    it underflows. *)

Definition netmask_v4 (prefix_len : Z) : outcome Z :=
  if prefix_len =? 0 then Done 0
  else if 32 <? prefix_len then Panic
  else Done (Z.land (Z.shiftl U32_MAX (32 - prefix_len)) U32_MAX).

Definition netmask_v6 (prefix_len : Z) : outcome Z :=
  if prefix_len =? 0 then Done 0
  else if 128 <? prefix_len then Panic
  else Done (Z.land (Z.shiftl U128_MAX (128 - prefix_len)) U128_MAX).

(** ** Socket addresses *)

(** [libc::sockaddr]: the fourteen bytes of [sa_data]. *)
Record sockaddr : Type := MkSockaddr { sa_len : Z; sa_family : Z; sa_data : list Z }.

(** The octets zipped over the first four slots of a zeroed [sa_data]. *)
Definition v4_sockaddr (addr : Z) : sockaddr :=
  MkSockaddr 16 AF_INET (octets (V4 addr) ++ replicate 10 0).

Record sockaddr_in6 : Type := MkSockaddrIn6 {
  sin6_len : Z; sin6_family : Z; sin6_port : Z; sin6_flowinfo : Z;
  s6_addr : list Z; sin6_scope_id : Z
}.
Definition v6_sockaddr (addr : Z) : sockaddr_in6 :=
  MkSockaddrIn6 28 AF_INET6 0 0 (octets (V6 addr)) 0.

(** [struct sockaddr_in]: after length and family come the port, of two bytes,
    and the address, of four, both in network order. *)
Definition sin_port_of (s : sockaddr) : Z := be_val (take 2 (sa_data s)).
Definition sin_addr_of (s : sockaddr) : Z := be_val (take 4 (drop 2 (sa_data s))).

(** ** Interface requests *)

(** [fill_if_name] into a zeroed name field: what does not fit is cut. *)
Definition fill_if_name (name : list Z) : list Z :=
  take IFNAMSIZ (name ++ [0]) ++ replicate (IFNAMSIZ - length (name ++ [0])) 0.

Inductive ioctl_arg : Type :=
  | IfAliasRequest (name : list Z) (addr broadaddr mask : sockaddr)
  | In6AliasRequest (name : list Z) (addr prefixmask : sockaddr_in6)
      (flags vltime pltime expire preferred : Z)
  | IfMtu (name : list Z) (mtu : Z)
  | IfFlags (name : list Z) (flags : Z).

Inductive net_call : Type :=
  | ControlSocket (family : Z)
  | Ioctl (request : Z) (arg : ioctl_arg).

(** The name of the interface, [None] when the index has none, and the answers
    of the socket and of the ioctls in turn; [None] is success. *)
Record net_answers : Type := MkNetAnswers {
  na_socket : option io_error;
  na_name : result io_error (list Z);
  na_ioctl1 : option io_error;
  na_flags : result io_error Z;
  na_ioctl3 : option io_error
}.

Definition of_answer (a : option io_error) : result io_error unit :=
  match a with Some e => Err e | None => Ok tt end.

(** The shared beginning: a control socket, then the name. *)
Definition with_control (family : Z) (a : net_answers)
    (k : list Z → outcome (list net_call * result io_error unit))
    : outcome (list net_call * result io_error unit) :=
  match na_socket a, na_name a with
  | Some e, _ | None, Err e => Done ([ControlSocket family], Err e)
  | None, Ok name =>
    r ← k (fill_if_name name); Done (ControlSocket family :: r.1, r.2)
  end.

Definition add_address_v4 (a : net_answers) (addr prefix_len : Z)
    : outcome (list net_call * result io_error unit) :=
  with_control AF_INET a (λ name,
    mask ← netmask_v4 prefix_len;
    Done ([Ioctl SIOCAIFADDR (IfAliasRequest name (v4_sockaddr addr) (v4_sockaddr addr)
                                (v4_sockaddr mask))],
          of_answer (na_ioctl1 a))).

Definition add_address_v6 (a : net_answers) (addr prefix_len : Z)
    : outcome (list net_call * result io_error unit) :=
  with_control AF_INET6 a (λ name,
    mask ← netmask_v6 prefix_len;
    Done ([Ioctl SIOCAIFADDR_IN6 (In6AliasRequest name (v6_sockaddr addr) (v6_sockaddr mask)
                                    IN6_IFF_NODAD U32_MAX U32_MAX 0 0)],
          of_answer (na_ioctl1 a))).

Definition add_address (a : net_answers) (addr : IpAddr) (prefix_len : Z)
    : outcome (list net_call * result io_error unit) :=
  match addr with
  | V4 v4 => add_address_v4 a v4 prefix_len
  | V6 v6 => add_address_v6 a v6 prefix_len
  end.

(** The flags are read, completed and written back. *)
Definition set_link_mtu_and_up (a : net_answers) (mtu : Z)
    : outcome (list net_call * result io_error unit) :=
  with_control AF_INET a (λ name,
    let c1 := Ioctl SIOCSIFMTU (IfMtu name mtu) in
    let c2 := Ioctl SIOCGIFFLAGS (IfFlags name 0) in
    match na_ioctl1 a with
    | Some e => Done ([c1], Err e)
    | None =>
      match na_flags a with
      | Err e => Done ([c1; c2], Err e)
      | Ok flags =>
        Done ([c1; c2; Ioctl SIOCSIFFLAGS (IfFlags name (Z.lor flags IFF_UP))],
              of_answer (na_ioctl3 a))
      end
    end).

(** ** The [route] command *)

(** [str::lines] *)
Definition chomp (line : str) : str := default line (strip_suffix line [13]).
Definition lines (s : str) : list str :=
  let ls := split (Z.eqb 10) s in
  chomp <$> (if str_eqb (default [] (last ls)) [] then take (length ls - 1) ls else ls).

(** What the command answers: it could not run, or its exit code (no code:
    killed) and its output streams. *)
Record output : Type := MkOutput { out_code : option Z; out_stdout : str; out_stderr : str }.
Definition success (o : output) : bool := bool_decide (out_code o = Some 0).

Record RouteHandle : Type := MkRouteHandle { rh_v6 : bool; rh_dest : IpAddr; rh_prefix_len : Z }.

Definition family_flag (v6 : bool) : str := if v6 then u "-inet6" else u "-inet".
Definition destination (dest : IpAddr) (prefix_len : Z) : str :=
  show_ip dest ++ u "/" ++ dec prefix_len.

Definition add_args (name : str) (dest : IpAddr) (prefix_len : Z) : list str :=
  [u "-n"; u "add"; family_flag (is_ipv6 dest); destination dest prefix_len; u "-interface"; name].
Definition delete_args (h : RouteHandle) : list str :=
  [u "-n"; u "delete"; family_flag (rh_v6 h); destination (rh_dest h) (rh_prefix_len h)].

(** [io::Error::other] of a formatted text; a [string] holds its bytes. *)
Definition message_of (s : str) : string :=
  String.string_of_list_ascii ((λ b, Ascii.ascii_of_N (Z.to_N b)) <$> as_bytes s).
Definition route_error (verb stderr : str) : io_error :=
  IoError Other (message_of (u "route " ++ verb ++ u " failed: " ++ trim stderr)).

(** The command line run, if any, and the result. *)
Definition add_route (name : result io_error str) (ran : result io_error output)
    (dest : IpAddr) (prefix_len : Z) : option (list str) * result io_error RouteHandle :=
  match name with
  | Err e => (None, Err e)
  | Ok name =>
    let args := add_args name dest prefix_len in
    let handle := MkRouteHandle (is_ipv6 dest) dest prefix_len in
    (Some args,
     match ran with
     | Err e => Err e
     | Ok o =>
       if success o then Ok handle
       else if bool_decide (out_code o = Some 1)
               && contains_str (to_ascii_lowercase (out_stderr o)) (u "file exists")
       then Ok handle
       else Err (route_error (u "add") (out_stderr o))
     end)
  end.

Definition delete_route (ran : result io_error output) (h : RouteHandle)
    : list str * result io_error unit :=
  (delete_args h,
   match ran with
   | Err e => Err e
   | Ok o =>
     if success o then Ok tt
     else
       let lower := to_ascii_lowercase (out_stderr o) in
       if contains_str lower (u "not in table") || contains_str lower (u "no such process")
       then Ok tt else Err (route_error (u "delete") (out_stderr o))
   end).

Fixpoint find_map {A B} (f : A → option B) (l : list A) : option B :=
  match l with
  | [] => None
  | x :: l' => match f x with Some y => Some y | None => find_map f l' end
  end.

(** [best_route_index]; [index_of] is [if_nametoindex], 0 for no interface. *)
Definition best_route_index (ran : result io_error output) (index_of : str → Z) : option Z :=
  match ran with
  | Err _ => None
  | Ok o =>
    if negb (success o) then None else
    name ← find_map (λ line, trim <$> strip_prefix (trim line) (u "interface:"))
             (lines (out_stdout o));
    if contains name 0 then None
    else if index_of name =? 0 then None else Some (index_of name)
  end.

(** ** Lemmas on masks *)

(** Both masks are the same expression at a width. *)
Definition mask_at (width prefix : Z) : Z :=
  Z.land (Z.shiftl (Z.ones width) (width - prefix)) (Z.ones width).

Lemma mask_at_bit width prefix i :
  0 ≤ prefix ≤ width → 0 ≤ i → Z.testbit (mask_at width prefix) i = (width - prefix <=? i) && (i <? width).
Proof.
  intros Hp Hi. unfold mask_at. rewrite Z.land_spec, Z.shiftl_spec by done.
  destruct (Z.ltb_spec i width).
  - rewrite (Z.ones_spec_low width i) by lia. rewrite andb_true_r.
    destruct (Z.leb_spec (width - prefix) i).
    + rewrite Z.ones_spec_low by lia. done.
    + by rewrite Z.testbit_neg_r by lia.
  - rewrite (Z.ones_spec_high width i) by lia. by rewrite !andb_false_r.
Qed.

Lemma bits_above n a i : 0 ≤ a < 2 ^ n → n ≤ i → Z.testbit a i = false.
Proof.
  intros Ha Hi. destruct (Z.lt_ge_cases n 0); [rewrite Z.pow_neg_r in Ha by done; lia|].
  rewrite <-(Z.mod_small a (2 ^ n)), Z.mod_pow2_bits_high by lia. done.
Qed.

(** Masking compares the leading bits. *)
Lemma land_mask_at width prefix a b :
  0 ≤ prefix ≤ width → 0 ≤ a < 2 ^ width → 0 ≤ b < 2 ^ width →
  Z.land a (mask_at width prefix) = Z.land b (mask_at width prefix)
  ↔ Z.shiftr a (width - prefix) = Z.shiftr b (width - prefix).
Proof.
  intros Hp Ha Hb. split; intros H; apply Z.bits_inj'; intros i Hi.
  - rewrite !Z.shiftr_spec by done.
    destruct (Z.lt_ge_cases (i + (width - prefix)) width) as [Hlt|Hge].
    + apply (f_equal (λ x, Z.testbit x (i + (width - prefix)))) in H.
      rewrite !Z.land_spec, !mask_at_bit in H by lia.
      destruct (Z.leb_spec (width - prefix) (i + (width - prefix))); [|lia].
      destruct (Z.ltb_spec (i + (width - prefix)) width); [|lia].
      by rewrite !andb_true_r in H.
    + by rewrite !(bits_above width) by lia.
  - rewrite !Z.land_spec, !mask_at_bit by lia.
    destruct (Z.leb_spec (width - prefix) i); [|by rewrite !andb_false_r].
    apply (f_equal (λ x, Z.testbit x (i - (width - prefix)))) in H.
    rewrite !Z.shiftr_spec in H by lia.
    replace (i - (width - prefix) + (width - prefix)) with i in H by lia. by rewrite H.
Qed.

(** The mask the code computes for an address of the family. *)
Definition netmask (ip : IpAddr) (prefix_len : Z) : outcome Z :=
  match ip with V4 _ => netmask_v4 prefix_len | V6 _ => netmask_v6 prefix_len end.

Lemma netmask_mask_at ip p : 0 ≤ p ≤ addr_bits ip → netmask ip p = Done (mask_at (addr_bits ip) p).
Proof.
  intros Hp. destruct ip; unfold netmask, netmask_v4, netmask_v6, mask_at, addr_bits in *;
    (destruct (Z.eqb_spec p 0) as [->|]; [vm_compute; reflexivity|]).
  - destruct (Z.ltb_spec 32 p); [lia|done].
  - destruct (Z.ltb_spec 128 p); [lia|done].
Qed.

(** ** Theorems *)

(** a netmask is its prefix.  For every prefix length of the family the mask
    is computed without overflow, and two addresses agree under it exactly when
    they share that many leading bits, which is how routes are matched. *)
Theorem netmask_is_prefix ip net p :
  wf_ip ip → 0 ≤ net < 2 ^ addr_bits ip → 0 ≤ p ≤ addr_bits ip →
  ∃ m, netmask ip p = Done m
  ∧ (Z.land (addr_value ip) m = Z.land net m ↔ in_prefix net p ip = true).
Proof.
  intros Hip Hn Hp. exists (mask_at (addr_bits ip) p). split; [by apply netmask_mask_at|].
  unfold in_prefix. rewrite Z.eqb_eq. apply land_mask_at; [done|by destruct ip|done].
Qed.

Lemma netmask_is_prefix_witness :
  ∃ m, netmask (V4 (ipv4 10 63 7 9)) 24 = Done m
  ∧ (Z.land (ipv4 10 63 7 9) m = Z.land TUN_IPV4 m ↔ in_prefix TUN_IPV4 24 (V4 (ipv4 10 63 7 9)) = true).
Proof.
  apply (netmask_is_prefix (V4 (ipv4 10 63 7 9)) TUN_IPV4 24);
    vm_compute; (split; [discriminate|first [reflexivity|discriminate]]).
Defined.

Lemma sockaddr_halves a :
  0 ≤ a < 2 ^ 32 →
  take 2 (octets (V4 a)) = be_bytes 2 (a / 65536) ∧ drop 2 (octets (V4 a)) = be_bytes 2 (a mod 65536).
Proof.
  intros Ha. unfold octets, be_bytes. cbn [le_bytes]. rewrite !land_255, !Z.shiftr_div_pow2 by lia.
  change (2 ^ 8) with 256. unfold reverse. simpl. split; repeat (f_equal; try dlia).
Qed.

(** the IPv4 address handed to [SIOCAIFADDR] is not the one asked for.  The
    octets are written from the first byte of [sa_data], where [sockaddr_in] has
    the port: read as that structure, the port holds the address's first half and
    the address holds its second half followed by zeros, so it is right for no
    address but 0.0.0.0. *)
Theorem v4_sockaddr_misplaced a :
  0 ≤ a < 2 ^ 32 →
  sin_port_of (v4_sockaddr a) = a / 65536
  ∧ sin_addr_of (v4_sockaddr a) = a mod 65536 * 65536
  ∧ (sin_addr_of (v4_sockaddr a) = a ↔ a = 0).
Proof.
  intros Ha. destruct (sockaddr_halves a Ha) as [Hhi Hlo].
  assert (length (octets (V4 a)) = 4%nat) as Hl by apply length_be_bytes.
  assert (sin_port_of (v4_sockaddr a) = a / 65536) as Hp.
  { unfold sin_port_of, v4_sockaddr, sa_data. rewrite take_app_le, Hhi by lia.
    rewrite be_val_be_bytes. apply Z.mod_small. change (256 ^ Z.of_nat 2) with 65536. dlia. }
  assert (sin_addr_of (v4_sockaddr a) = a mod 65536 * 65536) as Hs.
  { unfold sin_addr_of, v4_sockaddr, sa_data. rewrite drop_app_le, Hlo by lia.
    rewrite take_app_ge by (rewrite length_be_bytes; lia). rewrite length_be_bytes.
    change (take (4 - 2) (replicate 10 0)) with [0; 0].
    change [0; 0] with ([0] ++ [0]). rewrite app_assoc, !be_val_snoc by done.
    rewrite be_val_be_bytes. change (256 ^ Z.of_nat 2) with 65536.
    rewrite Z.mod_mod by lia. lia. }
  split_and!; [done|done|]. rewrite Hs. split; [intros; dlia|by intros ->].
Qed.

Lemma v4_sockaddr_misplaced_witness :
  sin_port_of (v4_sockaddr TUN_IPV4) = TUN_IPV4 / 65536
  ∧ sin_addr_of (v4_sockaddr TUN_IPV4) = TUN_IPV4 mod 65536 * 65536
  ∧ (sin_addr_of (v4_sockaddr TUN_IPV4) = TUN_IPV4 ↔ TUN_IPV4 = 0).
Proof. apply v4_sockaddr_misplaced. vm_compute. split; [discriminate|reflexivity]. Defined.

(** The tunnel asks for 10.63.7.1/24 and gets 7.1.0.0 with the mask 255.0.0.0. *)
Example tunnel_address_requested :
  sin_addr_of (v4_sockaddr TUN_IPV4) = ipv4 7 1 0 0
  ∧ (m ← netmask_v4 TUN_IPV4_PREFIX; Done (sin_addr_of (v4_sockaddr m))) = Done (ipv4 255 0 0 0).
Proof. split; vm_compute; reflexivity. Qed.

(** The numbers' direction bits: the source packs direction 1 for [_IOW], which
    on BSD systems is the copy-out direction of [_IOR]. *)
Definition ioc_dir (request : Z) : Z := Z.shiftr request 30.
Example ioctl_directions :
  ioc_dir SIOCAIFADDR = 1 ∧ ioc_dir SIOCAIFADDR_IN6 = 1 ∧ ioc_dir SIOCSIFMTU = 1
  ∧ ioc_dir SIOCSIFFLAGS = 1 ∧ ioc_dir SIOCGIFFLAGS = 3.
Proof. vm_compute. auto. Qed.

Lemma fill_if_name_length name : length (fill_if_name name) = IFNAMSIZ.
Proof. unfold fill_if_name, IFNAMSIZ. rewrite length_app, length_take, length_replicate. lia. Qed.

(** Raising the link keeps the flags the interface had. *)
Lemma link_up_flags flags i : 0 ≤ i →
  Z.testbit (Z.lor flags IFF_UP) i = Z.testbit flags i || (i =? 0).
Proof.
  intros Hi. rewrite Z.lor_spec. by f_equal.
Qed.

(** Deleting undoes adding: the same family flag and destination. *)
Lemma delete_args_of_add name ran dest prefix args h :
  add_route name ran dest prefix = (Some args, Ok h) →
  delete_args h = u "-n" :: u "delete" :: take 2 (drop 2 args).
Proof.
  unfold add_route. destruct name as [n|]; [|done]. intros [= <- H].
  assert (h = MkRouteHandle (is_ipv6 dest) dest prefix) as -> by (repeat case_match; congruence).
  reflexivity.
Qed.
