(* ===== verification/WindowsNetcfg.v ===== *)
(** * Addressing and routing on Windows ([platform/windows/netcfg.rs])

    The rows handed to the IP Helper calls and what is made of their codes.  The
    codes, and the rows the lookups fill in, are arguments. *)

From S2P Require Export Routing.
Local Open Scope Z_scope.

Definition NO_ERROR : Z := 0.
Definition ERROR_OBJECT_ALREADY_EXISTS : Z := 5010.
Definition AF_INET : Z := 2.
Definition AF_INET6 : Z := 23.
Definition U32_MAX : Z := 2 ^ 32 - 1.

(** [io::Error::from_raw_os_error]: the kind the standard library gives a code;
    kinds the crate never tells apart are [Other]. *)
Definition kind_of_code (code : Z) : err_kind :=
  if (code =? 2) || (code =? 3) then NotFound
  else if code =? 5 then PermissionDenied
  else if (code =? 80) || (code =? 183) then AlreadyExists
  else if code =? 87 then InvalidInput
  else if code =? 258 then TimedOut
  else Other.
Definition code_error (code : Z) : io_error := IoError (kind_of_code code) "os error".

Definition ok (code : Z) : result io_error unit :=
  if code =? NO_ERROR then Ok tt else Err (code_error code).
Definition ok_idempotent (code : Z) : result io_error unit :=
  if code =? ERROR_OBJECT_ALREADY_EXISTS then Ok tt else ok code.

(** [SOCKADDR_INET]: the arm written, with its address field as the word or the
    bytes the union holds. *)
Inductive sockaddr_inet : Type :=
  | SockIpv4 (family port s_addr : Z)
  | SockIpv6 (family port flowinfo : Z) (bytes : list Z).

(** [u32::from_ne_bytes] on the little-endian targets of the platform. *)
Definition sockaddr_inet_of (addr : IpAddr) : sockaddr_inet :=
  match addr with
  | V4 v4 => SockIpv4 AF_INET 0 (le_val (octets (V4 v4)))
  | V6 v6 => SockIpv6 AF_INET6 0 0 (octets (V6 v6))
  end.

(** The address bytes in memory. *)
Definition sockaddr_bytes (s : sockaddr_inet) : list Z :=
  match s with SockIpv4 _ _ a => le_bytes 4 a | SockIpv6 _ _ _ bs => bs end.

(** [GetBestRoute2]: its code and the interface of the row it writes. *)
Definition best_route_index (code interface_index : Z) : option Z :=
  if negb (code =? NO_ERROR) then None else Some interface_index.

Record address_row : Type := MkAddressRow {
  ar_luid : Z; ar_address : sockaddr_inet; ar_prefix : Z; ar_preferred : bool;
  ar_valid_lifetime : Z; ar_preferred_lifetime : Z
}.
Definition add_address (code luid : Z) (addr : IpAddr) (prefix_len : Z)
    : address_row * result io_error unit :=
  (MkAddressRow luid (sockaddr_inet_of addr) prefix_len true U32_MAX U32_MAX, ok_idempotent code).

Record forward_row : Type := MkForwardRow {
  fr_luid : Z; fr_prefix : sockaddr_inet; fr_prefix_len : Z; fr_next_hop : sockaddr_inet;
  fr_metric : Z
}.
Definition unspecified_like (dest : IpAddr) : IpAddr := match dest with V4 _ => V4 0 | V6 _ => V6 0 end.

(** [add_route]: the row created, which is also the handle returned. *)
Definition add_route (code luid : Z) (dest : IpAddr) (prefix_len metric : Z)
    : forward_row * result io_error forward_row :=
  let row := MkForwardRow luid (sockaddr_inet_of dest) prefix_len
               (sockaddr_inet_of (unspecified_like dest)) metric in
  (row, match ok_idempotent code with Ok _ => Ok row | Err e => Err e end).
Definition delete_route (code : Z) (handle : forward_row) : forward_row * result io_error unit :=
  (handle, ok code).

(** [MIB_IPINTERFACE_ROW]: the fields that matter. *)
Record interface_row : Type := MkInterfaceRow {
  ir_family : Z; ir_luid : Z; ir_auto_metric : bool; ir_metric : Z; ir_site_prefix : Z
}.
(** [found] is the row [GetIpInterfaceEntry] fills in. *)
Definition set_interface_metric (get_code set_code : Z) (found : interface_row) (family metric : Z)
    : option interface_row * result io_error unit :=
  match ok get_code with
  | Err e => (None, Err e)
  | Ok _ =>
    let row := MkInterfaceRow (ir_family found) (ir_luid found) false metric
                 (if family =? AF_INET then 0 else ir_site_prefix found) in
    (Some row, ok set_code)
  end.

(** ** Theorems *)

Lemma le_bytes_le_val bs : Forall is_byte bs → le_bytes (length bs) (le_val bs) = bs.
Proof.
  intros Hb. unfold le_val. apply (inj reverse).
  pose proof (be_bytes_be_val (reverse bs)) as H. unfold be_bytes in H.
  rewrite length_reverse in H. apply H. by apply Forall_reverse.
Qed.

(** The address in memory is in network order for both families. *)
Lemma sockaddr_network_order addr : sockaddr_bytes (sockaddr_inet_of addr) = octets addr.
Proof.
  destruct addr as [a|a]; [|done]. simpl.
  apply (le_bytes_le_val (octets (V4 a))). apply be_bytes_byte.
Qed.

(** routes on Windows.  A route that is added carries its destination in
    network order, leaves on-link through the tunnel, and is deleted as the very
    row that was created; adding it succeeds when it is there afterwards, also
    when it was there before, and fails with any other code. *)
Theorem windows_route_row code luid dest prefix metric :
  let '(row, res) := add_route code luid dest prefix metric in
  sockaddr_bytes (fr_prefix row) = octets dest
  ∧ sockaddr_bytes (fr_next_hop row) = octets (unspecified_like dest)
  ∧ fr_luid row = luid ∧ fr_prefix_len row = prefix
  ∧ (res = Ok row ↔ code = NO_ERROR ∨ code = ERROR_OBJECT_ALREADY_EXISTS)
  ∧ (∀ c, (delete_route c row).1 = row).
Proof.
  simpl. rewrite !sockaddr_network_order. split_and!; [done..| |done].
  unfold ok_idempotent, ok. destruct (Z.eqb_spec code ERROR_OBJECT_ALREADY_EXISTS); [by split; auto|].
  destruct (Z.eqb_spec code NO_ERROR); [by split; auto|]. split; [done|]. by intros [].
Qed.
