(* ===== verification/IpHelper.v ===== *)
(** * The Windows network configuration over the IP Helper calls
    ([platform/windows/netcfg.rs] under [platform/windows/adapter.rs])

    [WindowsNetcfg] says which row each operation hands to its call and what it
    makes of the code.  Here the operations run over a system that answers the
    calls, and together they implement the interface [NetKernel] of the adapter:
    what [Adapter] proves then holds of the Windows code.  The interface is
    identified by its LUID, which is what [rt_ifindex] holds. *)

From S2P Require Export Adapter.
From S2P Require Import WindowsNetcfg.
Local Open Scope Z_scope.

(** ** The system *)

Class IpHelper (K : Type) : Type := {
  (** wintun: loading the library and creating the adapter give its LUID; setting
      its MTU, starting its session, closing it. *)
  ih_open : K → result Error Z * K;
  ih_set_mtu : Z → Z → K → result io_error unit * K;
  ih_start_session : Z → Z → K → result io_error unit * K;
  ih_close : Z → K → K;
  (** [CreateUnicastIpAddressEntry], [GetIpInterfaceEntry], [SetIpInterfaceEntry],
      [CreateIpForwardEntry2], [DeleteIpForwardEntry2]: their codes. *)
  ih_create_address : address_row → K → Z * K;
  ih_get_interface : Z → Z → K → Z * interface_row;
  ih_set_interface : interface_row → K → Z * K;
  ih_create_route : forward_row → K → Z * K;
  ih_delete_route : forward_row → K → Z * K;
  (** [GetBestRoute2]: its code, and the interface index of the row it writes. *)
  ih_best_route : sockaddr_inet → K → Z * Z;
  ih_table : K → gset Route
}.

Section Operations.
Context {K : Type} `{IpHelper K}.

Definition add_address (luid : Z) (addr : IpAddr) (prefix_len : Z) (k : K) : result io_error unit * K :=
  let row := (WindowsNetcfg.add_address NO_ERROR luid addr prefix_len).1 in
  let '(code, k') := ih_create_address row k in
  ((WindowsNetcfg.add_address code luid addr prefix_len).2, k').

Definition set_interface_metric (luid family metric : Z) (k : K) : result io_error unit * K :=
  let '(get_code, found) := ih_get_interface family luid k in
  match (WindowsNetcfg.set_interface_metric get_code NO_ERROR found family metric).1 with
  | None => ((WindowsNetcfg.set_interface_metric get_code NO_ERROR found family metric).2, k)
  | Some row =>
    let '(set_code, k') := ih_set_interface row k in
    ((WindowsNetcfg.set_interface_metric get_code set_code found family metric).2, k')
  end.

(** The row of a route, which is also its handle: the metric is 0. *)
Definition row_of (r : Route) : forward_row :=
  (WindowsNetcfg.add_route NO_ERROR (rt_ifindex r) (rt_dest r) (rt_prefix r) 0).1.

Definition add_route (r : Route) (k : K) : result io_error forward_row * K :=
  let '(code, k') := ih_create_route (row_of r) k in
  ((WindowsNetcfg.add_route code (rt_ifindex r) (rt_dest r) (rt_prefix r) 0).2, k').

Definition delete_route (handle : forward_row) (k : K) : result io_error unit * K :=
  let '(code, k') := ih_delete_route handle k in ((WindowsNetcfg.delete_route code handle).2, k').

Definition best_route_index (dest : IpAddr) (k : K) : option Z :=
  let '(code, i) := ih_best_route (sockaddr_inet_of dest) k in WindowsNetcfg.best_route_index code i.

Definition V4_PROBE : Z := ipv4 8 8 8 8.
Definition V6_PROBE : Z := of_segments [0x2001; 0x4860; 0x4860; 0; 0; 0; 0; 0x8888].
Definition discover_physical_interface (k : K) : PhysicalInterface :=
  MkPhysicalInterface (best_route_index (V4 V4_PROBE) k) (best_route_index (V6 V6_PROBE) k).

(** The answer to [CreateIpForwardEntry2] before [ok_idempotent] forgives it. *)
Definition create_answer (code : Z) : result io_error unit :=
  if code =? ERROR_OBJECT_ALREADY_EXISTS then Err (IoError AlreadyExists "os error") else ok code.

#[export] Instance windows_netcfg : NetKernel K := {|
  k_open := ih_open;
  k_prep p luid :=
    match p with
    | PAddress addr prefix => add_address luid addr prefix
    | PMetric v6 metric => set_interface_metric luid (if v6 : bool then AF_INET6 else AF_INET) metric
    | PSetMtu mtu => ih_set_mtu luid mtu
    | PSession capacity => ih_start_session luid capacity
    | PLinkUp _ => λ k, (Ok tt, k)
    end;
  k_add_route r k := let '(code, k') := ih_create_route (row_of r) k in (create_answer code, k');
  k_del_route r := delete_route (row_of r);
  k_close := ih_close;
  k_table := ih_table
|}.

(** [netcfg::add_route] is the adapter's step, with the row that deletes it, for a
    code that is not another of those the standard library calls [AlreadyExists]. *)
Lemma ip_add_route_adapter r k :
  kind_of_code (ih_create_route (row_of r) k).1 ≠ AlreadyExists →
  add_route r k
  = (let '(res, k') := Adapter.add_route r k in
     (match res with Ok _ => Ok (row_of r) | Err e => Err e end, k')).
Proof.
  unfold add_route, Adapter.add_route. cbn [k_add_route windows_netcfg].
  destruct (ih_create_route (row_of r) k) as [code k']. cbn [fst]. intros Hk.
  unfold create_answer, WindowsNetcfg.add_route, ok_idempotent, ok.
  destruct (code =? ERROR_OBJECT_ALREADY_EXISTS); [done|]. destruct (code =? NO_ERROR); [done|].
  cbn [ie_kind code_error snd]. by rewrite decide_False.
Qed.

End Operations.

(** ** What a row names *)

Definition addr_of (s : sockaddr_inet) : option IpAddr :=
  match s with
  | SockIpv4 fam _ a => if fam =? AF_INET then Some (V4 (be_val (le_bytes 4 a))) else None
  | SockIpv6 fam _ _ bs => if fam =? AF_INET6 then Some (V6 (be_val bs)) else None
  end.

(** An on-link route: the next hop is the unspecified address of the family. *)
Definition route_of_row (row : forward_row) : option Route :=
  dest ← addr_of (fr_prefix row);
  hop ← addr_of (fr_next_hop row);
  if is_unspecified hop && same_family dest hop
  then Some (MkRoute dest (fr_prefix_len row) (fr_luid row)) else None.

Lemma addr_of_sockaddr a :
  ∃ a', addr_of (sockaddr_inet_of a) = Some a' ∧ same_family a a' = true ∧ (wf_ip a → a' = a).
Proof.
  pose proof (sockaddr_network_order a) as Hn. destruct a as [v|v].
  - exists (V4 (be_val (octets (V4 v)))). cbn [sockaddr_bytes sockaddr_inet_of] in Hn.
    cbn [addr_of sockaddr_inet_of]. rewrite Hn. split_and!; [done..|].
    intros Hv. by rewrite (be_val_octets (V4 v)).
  - exists (V6 (be_val (octets (V6 v)))). split_and!; [done..|]. intros Hv. by rewrite (be_val_octets (V6 v)).
Qed.

(** Every row the code makes is on-link, and a route's row names that route. *)
Lemma route_of_row_of r : ∃ r', route_of_row (row_of r) = Some r' ∧ (wf_route r → r' = r).
Proof.
  destruct r as [dest p luid]. unfold route_of_row, row_of, WindowsNetcfg.add_route. cbn [fst fr_prefix fr_next_hop fr_prefix_len fr_luid rt_dest rt_prefix rt_ifindex].
  destruct (addr_of_sockaddr dest) as (d & -> & Hf & Hd). cbn [mbind option_bind].
  destruct (addr_of_sockaddr (unspecified_like dest)) as (h & -> & _ & Hh). cbn [mbind option_bind].
  rewrite Hh by (destruct dest; by vm_compute).
  exists (MkRoute d p luid). split; [|intros [Hw _]; by rewrite Hd].
  by destruct dest, d.
Qed.

Lemma row_names r : wf_route r → route_of_row (row_of r) = Some r.
Proof. intros Hw. destruct (route_of_row_of r) as (r' & -> & Heq). by rewrite Heq. Qed.

(** ** The behaviour the code counts on *)

Class IpHelperLaws (K : Type) `{IpHelper K} : Prop := {
  (** A route that exists is answered with [ERROR_OBJECT_ALREADY_EXISTS], never
      with the file codes of that meaning. *)
  ih_route_code row k : kind_of_code (ih_create_route row k).1 ≠ AlreadyExists;
  (** A call that answers [NO_ERROR] has created or deleted the row's route; with
      any other code it may have, or not. *)
  ih_create_effect row r k k' :
    route_of_row row = Some r → ih_create_route row k = (NO_ERROR, k') →
    ih_table k' = {[r]} ∪ ih_table k;
  ih_create_failed row r k code k' :
    route_of_row row = Some r → ih_create_route row k = (code, k') →
    ih_table k' = ih_table k ∨ ih_table k' = {[r]} ∪ ih_table k;
  ih_delete_effect row r k k' :
    route_of_row row = Some r → ih_delete_route row k = (NO_ERROR, k') →
    ih_table k' = ih_table k ∖ {[r]};
  ih_delete_failed row r k code k' :
    route_of_row row = Some r → ih_delete_route row k = (code, k') →
    ih_table k' = ih_table k ∨ ih_table k' = ih_table k ∖ {[r]};
  ih_address_effect row k r :
    r ∈ ih_table (ih_create_address row k).2 ↔
      r ∈ ih_table k ∨ (r ∈ ih_table (ih_create_address row k).2 ∧ rt_ifindex r = ar_luid row);
  ih_interface_table row k : ih_table (ih_set_interface row k).2 = ih_table k;
  ih_mtu_table luid mtu k : ih_table (ih_set_mtu luid mtu k).2 = ih_table k;
  ih_session_table luid c k : ih_table (ih_start_session luid c k).2 = ih_table k;
  ih_open_table k : ih_table (ih_open k).2 = ih_table k;
  ih_open_fresh k luid k' r : ih_open k = (Ok luid, k') → r ∈ ih_table k → rt_ifindex r ≠ luid;
  ih_close_table luid k r : r ∈ ih_table (ih_close luid k) ↔ r ∈ ih_table k ∧ rt_ifindex r ≠ luid
}.

Section Laws.
Context {K : Type} `{IpHelperLaws K}.

Lemma ok_code code : ok code = Ok tt → code = NO_ERROR.
Proof. unfold ok. destruct (Z.eqb_spec code NO_ERROR); done. Qed.
Lemma create_answer_ok code : create_answer code = Ok tt → code = NO_ERROR.
Proof. unfold create_answer. case_match; [done|]. apply ok_code. Qed.

Lemma prep_table_kept p luid k r :
  r ∈ ih_table (k_prep p luid k).2 ↔ r ∈ ih_table k ∨ (r ∈ ih_table (k_prep p luid k).2 ∧ rt_ifindex r = luid).
Proof.
  destruct p as [addr n|mtu|mtu|v6 m|c]; cbn [k_prep windows_netcfg].
  - unfold add_address. set (row := (WindowsNetcfg.add_address NO_ERROR luid addr n).1).
    pose proof (ih_address_effect row k r) as He. by destruct (ih_create_address row k) as [code k'].
  - cbn. tauto.
  - rewrite ih_mtu_table. tauto.
  - unfold set_interface_metric. destruct (ih_get_interface _ luid k) as [gc found].
    destruct (WindowsNetcfg.set_interface_metric gc NO_ERROR found _ m).1 as [row|]; [|cbn; tauto].
    pose proof (ih_interface_table row k) as Hi. destruct (ih_set_interface row k) as [sc k']. cbn in *.
    rewrite Hi. tauto.
  - rewrite ih_session_table. tauto.
Qed.

Lemma ip_helper_laws : NetKernelLaws K same_route.
Proof.
  split; cbn [k_open k_close k_table windows_netcfg].
  - intros r. by apply bool_decide_eq_true.
  - apply ih_open_table.
  - apply ih_open_fresh.
  - intros p luid k r. apply prep_table_kept.
  - intros r k k' Hw. cbn [k_add_route windows_netcfg]. pose proof (row_names r Hw) as Hr.
    destruct (ih_create_route (row_of r) k) as [code k1] eqn:E.
    intros [= ->%create_answer_ok <-]. by eapply ih_create_effect.
  - intros r k e k' Hw. cbn [k_add_route windows_netcfg]. pose proof (row_names r Hw) as Hr.
    destruct (ih_create_route (row_of r) k) as [code k1] eqn:E. intros [= _ <-]. by eapply ih_create_failed.
  - intros r k k' Hw. cbn [k_del_route windows_netcfg]. unfold delete_route.
    pose proof (row_names r Hw) as Hr. destruct (ih_delete_route (row_of r) k) as [code k1] eqn:E.
    intros [= ->%ok_code <-] x. rewrite (ih_delete_effect _ _ _ _ Hr E).
    unfold same_route. rewrite bool_decide_eq_false. set_solver.
  - intros r k e k' Hw. cbn [k_del_route windows_netcfg]. unfold delete_route.
    pose proof (row_names r Hw) as Hr. destruct (ih_delete_route (row_of r) k) as [code k1] eqn:E.
    intros [= _ <-]. destruct (ih_delete_failed _ _ _ _ _ Hr E) as [-> | ->]; [done|].
    split; [set_solver|]. intros x Hx Hc. apply bool_decide_eq_false in Hc. set_solver.
  - apply ih_close_table.
Qed.


End Laws.

(** ** A concrete system *)

Module ConcreteHelper.

Definition ERROR_NOT_FOUND : Z := 1168.

Definition windows : IpHelper (gset Route) := {|
  ih_open T := (Ok (fresh (set_map (D:=gset Z) rt_ifindex T)), T);
  ih_set_mtu _ _ T := (Ok tt, T);
  ih_start_session _ _ T := (Ok tt, T);
  ih_close luid T := filter (λ r, rt_ifindex r ≠ luid) T;
  ih_create_address row T :=
    (NO_ERROR, match addr_of (ar_address row) with
               | Some a => {[MkRoute a (ar_prefix row) (ar_luid row)]} ∪ T
               | None => T
               end);
  ih_get_interface family luid _ := (NO_ERROR, MkInterfaceRow family luid true 25 64);
  ih_set_interface _ T := (NO_ERROR, T);
  ih_create_route row T :=
    match route_of_row row with
    | Some r => if decide (set_Exists (λ r', same_prefix r r' = true) T)
                then (ERROR_OBJECT_ALREADY_EXISTS, T) else (NO_ERROR, {[r]} ∪ T)
    | None => (87, T)
    end;
  ih_delete_route row T :=
    match route_of_row row with
    | Some r => if decide (r ∈ T) then (NO_ERROR, T ∖ {[r]}) else (ERROR_NOT_FOUND, T)
    | None => (87, T)
    end;
  ih_best_route dest T :=
    match dest with
    | SockIpv4 _ _ _ => (NO_ERROR, 2)
    | SockIpv6 _ _ _ _ => (1232, 0)
    end;
  ih_table T := T
|}.

Lemma windows_laws : @IpHelperLaws (gset Route) windows.
Proof.
  split; cbn; try done.
  - intros row T. destruct (route_of_row row); [case_decide|]; by vm_compute.
  - intros row r T T' ->. case_decide; by intros [= <-].
  - intros row r T code T' ->. case_decide; intros [= <- <-]; auto.
  - intros row r T T' ->. case_decide; by intros [= <-].
  - intros row r T code T' ->. case_decide; intros [= <- <-]; auto.
  - intros row T r. destruct (addr_of _); set_solver.
  - intros T luid T' r [= <- <-] Hr Heq. pose proof (is_fresh (set_map (D:=gset Z) rt_ifindex T)) as Hf.
    apply Hf. rewrite <-Heq. apply elem_of_map. eauto.
  - intros luid T r. rewrite elem_of_filter. tauto.
Qed.

End ConcreteHelper.


(** Creation over the IP Helper, on a machine with a default route, and its drop. *)
Example created_over_ip_helper :
  let K := @windows_netcfg (gset Route) ConcreteHelper.windows in
  match @windows_create (gset Route) K true home with
  | (Ok a, _, T) =>
    bool_decide (a_routes a = windows_plan true (a_ifindex a))
    && bool_decide (MkRoute (V4 0) 1 (a_ifindex a) ∈ T)
    && bool_decide (@windows_drop (gset Route) K a T = ([], home))
  | _ => false
  end = true.
Proof. vm_compute. reflexivity. Qed.

(** A family with no route to its probe has no interface. *)
Example discovered_v4_only :
  @discover_physical_interface (gset Route) ConcreteHelper.windows home = MkPhysicalInterface (Some 2) None.
Proof. vm_compute. reflexivity. Qed.
