(* ===== verification/MacosRoute.v ===== *)
(** * The macOS network configuration over the [route] command
    ([platform/macos/netcfg.rs] under [platform/macos/adapter.rs])

    [MacosNetcfg] says which command line and which interface requests each
    operation makes, and what it makes of the answers.  Here the operations run
    over a system that answers them, and together they implement the interface
    [NetKernel] of the adapter.  A route is named by text: that the text names
    that route, and no other, is [NetText]'s round trip. *)

From S2P Require Export Adapter OpenDevice NetText.
From S2P Require Import MacosNetcfg.
Local Open Scope Z_scope.

(** ** The system *)

Class BsdKernel (K : Type) : Type := {
  bk_open : K → MacosDevice.answers * K;
  (** [if_indextoname] *)
  bk_name : Z → K → result io_error str;
  (** The answers to the control socket, the name and the ioctls of one operation
      on an interface, and the state after the calls it made. *)
  bk_net : Z → K → net_answers;
  bk_after : Z → list net_call → K → K;
  (** [/sbin/route] with these arguments. *)
  bk_route : list str → K → result io_error output * K;
  (** [if_nametoindex], 0 for no interface. *)
  bk_index : str → K → Z;
  bk_close : Z → K → K;
  bk_table : K → gset Route
}.

Section Operations.
Context {K : Type} `{BsdKernel K}.

(** An operation of [netcfg] made of a control socket and ioctls; [Panic] is the
    overflow of a netmask. *)
Definition with_ioctls (i : Z) (op : net_answers → outcome (list net_call * result io_error unit)) (k : K)
    : outcome (result io_error unit * K) :=
  '(calls, res) ← op (bk_net i k); Done (res, bk_after i calls k).

Definition add_address (i : Z) (addr : IpAddr) (prefix_len : Z) : K → outcome (result io_error unit * K) :=
  with_ioctls i (λ a, MacosNetcfg.add_address a addr prefix_len).
Definition set_link_mtu_and_up (i mtu : Z) : K → outcome (result io_error unit * K) :=
  with_ioctls i (λ a, MacosNetcfg.set_link_mtu_and_up a mtu).

Definition add_route (r : Route) (k : K) : result io_error RouteHandle * K :=
  match bk_name (rt_ifindex r) k with
  | Err e => (Err e, k)
  | Ok name =>
    let '(ran, k') := bk_route (add_args name (rt_dest r) (rt_prefix r)) k in
    ((MacosNetcfg.add_route (Ok name) ran (rt_dest r) (rt_prefix r)).2, k')
  end.

Definition delete_route (h : RouteHandle) (k : K) : result io_error unit * K :=
  let '(ran, k') := bk_route (delete_args h) k in ((MacosNetcfg.delete_route ran h).2, k').

Definition handle_of (r : Route) : RouteHandle := MkRouteHandle (is_ipv6 (rt_dest r)) (rt_dest r) (rt_prefix r).

Definition get_args (dest : IpAddr) : list str := [u "-n"; u "get"; show_ip dest].
Definition best_route_index (dest : IpAddr) (k : K) : option Z * K :=
  let '(ran, k') := bk_route (get_args dest) k in
  (MacosNetcfg.best_route_index ran (λ name, bk_index name k'), k').

Definition V4_PROBE : Z := ipv4 8 8 8 8.
Definition V6_PROBE : Z := of_segments [0x2001; 0x4860; 0x4860; 0; 0; 0; 0; 0x8888].
Definition discover_physical_interface (k : K) : PhysicalInterface * K :=
  let '(v4, k) := best_route_index (V4 V4_PROBE) k in
  let '(v6, k) := best_route_index (V6 V6_PROBE) k in
  (MkPhysicalInterface v4 v6, k).

(** What the add command answered, before "file exists" is forgiven. *)
Definition add_answer (ran : result io_error output) : result io_error unit :=
  match ran with
  | Err e => Err e
  | Ok o =>
    if success o then Ok tt
    else if bool_decide (out_code o = Some 1)
            && contains_str (to_ascii_lowercase (out_stderr o)) (u "file exists")
    then Err (IoError AlreadyExists "file exists")
    else Err (route_error (u "add") (out_stderr o))
  end.

(** A panic unwinds through [create] and drops the adapter as an error does. *)
Definition caught (r : outcome (result io_error unit * K)) (k : K) : result io_error unit * K :=
  match r with Done x => x | Panic => (Err (IoError Other "attempt to subtract with overflow"), k) end.

#[export] Instance bsd : NetKernel K := {|
  k_open k := let '(a, k') := bk_open k in ((MacosDevice.open_device a).2, k');
  k_prep p i k :=
    match p with
    | PAddress addr prefix => caught (add_address i addr prefix k) k
    | PLinkUp mtu => caught (set_link_mtu_and_up i mtu k) k
    | _ => (Ok tt, k)
    end;
  k_add_route r k :=
    match bk_name (rt_ifindex r) k with
    | Err e => (Err e, k)
    | Ok name => let '(ran, k') := bk_route (add_args name (rt_dest r) (rt_prefix r)) k in (add_answer ran, k')
    end;
  k_del_route r := delete_route (handle_of r);
  k_close := bk_close;
  k_table := bk_table
|}.

(** The adapter's own preparation never panics. *)
Lemma macos_preps_done ipv6 i k p :
  p ∈ unix_preps ipv6 →
  match p with
  | PAddress addr prefix => is_Some (match add_address i addr prefix k with Done x => Some x | Panic => None end)
  | PLinkUp mtu => is_Some (match set_link_mtu_and_up i mtu k with Done x => Some x | Panic => None end)
  | _ => False
  end.
Proof.
  intros Hp. unfold add_address, set_link_mtu_and_up, with_ioctls.
  assert (p = PAddress (V4 TUN_IPV4) TUN_IPV4_PREFIX ∨ p = PAddress (V6 TUN_IPV6) TUN_IPV6_PREFIX
    ∨ p = PLinkUp TUN_MTU) as [->|[->| ->]] by (destruct ipv6; set_solver).
  all: destruct (bk_net i k) as [[?|] [n|?] [?|] [?|?] ?]; by eexists.
Qed.

(** [netcfg::add_route] is the adapter's step, with the handle that deletes the
    route, when no call fails with the kind of a route that is there. *)
Lemma bsd_add_route_adapter r k :
  (∀ e, bk_name (rt_ifindex r) k = Err e → ie_kind e ≠ AlreadyExists) →
  (∀ args e, (bk_route args k).1 = Err e → ie_kind e ≠ AlreadyExists) →
  add_route r k
  = (let '(res, k') := Adapter.add_route r k in
     (match res with Ok _ => Ok (handle_of r) | Err e => Err e end, k')).
Proof.
  intros Hn Hr. unfold add_route, Adapter.add_route. cbn [k_add_route bsd].
  destruct (bk_name (rt_ifindex r) k) as [name|e]; cycle 1.
  { by rewrite decide_False by by apply Hn. }
  specialize (Hr (add_args name (rt_dest r) (rt_prefix r))).
  destruct (bk_route _ k) as [[o|e] k']; unfold MacosNetcfg.add_route, add_answer; cbn [fst snd] in *.
  - destruct (success o); [done|]. by destruct (_ && _).
  - by rewrite decide_False by by apply Hr.
Qed.

End Operations.

(** ** What a command line names *)

Inductive route_command : Type :=
  | RouteAdd (dest : IpAddr) (prefix : Z) (name : str)
  | RouteDelete (dest : IpAddr) (prefix : Z).

Definition parse_flag (flag : str) : option bool :=
  if str_eqb flag (u "-inet") then Some false
  else if str_eqb flag (u "-inet6") then Some true else None.

(** [destination/prefix], of the flag's family. *)
Definition parse_destination (v6 : bool) (s : str) : option (IpAddr * Z) :=
  '(addr, prefix) ← split_once s 47;
  dest ← parse_as v6 addr;
  p ← parse_uint (if v6 then 128 else 32) prefix;
  Some (dest, p).

(** How route(8) reads its arguments: the options, the verb, the family, the
    destination, and where the route leaves. *)
Definition command_of (args : list str) : option route_command :=
  match args with
  | [n; verb; flag; dst; i; name] =>
    if str_eqb n (u "-n") && str_eqb verb (u "add") && str_eqb i (u "-interface") then
      v6 ← parse_flag flag; '(dest, p) ← parse_destination v6 dst; Some (RouteAdd dest p name)
    else None
  | [n; verb; flag; dst] =>
    if str_eqb n (u "-n") && str_eqb verb (u "delete") then
      v6 ← parse_flag flag; '(dest, p) ← parse_destination v6 dst; Some (RouteDelete dest p)
    else None
  | _ => None
  end.

Lemma parse_destination_text dest p :
  wf_ip dest → 0 ≤ p ≤ addr_bits dest → parse_destination (is_ipv6 dest) (destination dest p) = Some (dest, p).
Proof.
  intros Hd Hp. unfold parse_destination, destination. change (u "/" ++ dec p) with (47 :: dec p).
  rewrite split_once_app by apply show_ip_no_slash. cbn [mbind option_bind].
  rewrite parse_show_ip by done. cbn [mbind option_bind].
  by rewrite parse_dec_small by (destruct dest; cbn in *; lia).
Qed.

(** The lines the code runs name the route they are run for. *)
Lemma command_of_add r name : wf_route r →
  command_of (add_args name (rt_dest r) (rt_prefix r)) = Some (RouteAdd (rt_dest r) (rt_prefix r) name).
Proof.
  intros [Hd Hp]. unfold command_of, add_args.
  pose proof (parse_destination_text _ _ Hd Hp) as Ht.
  destruct (rt_dest r); cbn [is_ipv6 family_flag] in *;
    (change (parse_flag (u "-inet")) with (Some false) || change (parse_flag (u "-inet6")) with (Some true));
    cbn [mbind option_bind]; by rewrite Ht.
Qed.

Lemma command_of_delete r : wf_route r →
  command_of (delete_args (handle_of r)) = Some (RouteDelete (rt_dest r) (rt_prefix r)).
Proof.
  intros [Hd Hp]. unfold command_of, delete_args, handle_of. cbn [rh_v6 rh_dest rh_prefix_len].
  pose proof (parse_destination_text _ _ Hd Hp) as Ht.
  destruct (rt_dest r); cbn [is_ipv6 family_flag] in *;
    (change (parse_flag (u "-inet")) with (Some false) || change (parse_flag (u "-inet6")) with (Some true));
    cbn [mbind option_bind]; by rewrite Ht.
Qed.

(** ** The behaviour the code counts on *)

Definition ran_ok (ran : result io_error output) : bool :=
  match ran with Ok o => success o | Err _ => false end.
(** What [delete_route] takes for a route that is already gone. *)
Definition said_absent (ran : result io_error output) : bool :=
  match ran with
  | Ok o => contains_str (to_ascii_lowercase (out_stderr o)) (u "not in table")
            || contains_str (to_ascii_lowercase (out_stderr o)) (u "no such process")
  | Err _ => false
  end.
(** The routes a delete command is about: those to its destination. *)
Definition names_route (dest : IpAddr) (p : Z) (r : Route) : Prop := (rt_dest r, rt_prefix r) = (dest, p).

Class BsdKernelLaws (K : Type) `{BsdKernel K} : Prop := {
  bk_name_kind i k e : bk_name i k = Err e → ie_kind e ≠ AlreadyExists;
  bk_route_kind args k e : (bk_route args k).1 = Err e → ie_kind e ≠ AlreadyExists;
  (** An add that succeeds adds the route it names, out of the interface it names;
      one that fails, or cannot be run, may have added it or not. *)
  bk_add args dest p name i k :
    command_of args = Some (RouteAdd dest p name) → bk_name i k = Ok name →
    ran_ok (bk_route args k).1 = true →
    bk_table (bk_route args k).2 = {[MkRoute dest p i]} ∪ bk_table k;
  bk_add_failed args dest p name i k :
    command_of args = Some (RouteAdd dest p name) → bk_name i k = Ok name →
    bk_table (bk_route args k).2 = bk_table k ∨ bk_table (bk_route args k).2 = {[MkRoute dest p i]} ∪ bk_table k;
  (** A delete touches only the routes to its destination.  One that succeeds has
      removed them all; one that says there is none leaves none; one that fails
      otherwise, or cannot be run, may have removed any of them. *)
  bk_delete_only args dest p k r :
    command_of args = Some (RouteDelete dest p) →
    (r ∈ bk_table (bk_route args k).2 → r ∈ bk_table k)
    ∧ (r ∈ bk_table k → ¬ names_route dest p r → r ∈ bk_table (bk_route args k).2);
  bk_delete args dest p k r :
    command_of args = Some (RouteDelete dest p) →
    ran_ok (bk_route args k).1 = true ∨ said_absent (bk_route args k).1 = true →
    r ∈ bk_table (bk_route args k).2 → ¬ names_route dest p r;
  bk_after_table i calls k r :
    r ∈ bk_table (bk_after i calls k) ↔ r ∈ bk_table k ∨ (r ∈ bk_table (bk_after i calls k) ∧ rt_ifindex r = i);
  bk_open_table k : bk_table (bk_open k).2 = bk_table k;
  bk_open_fresh k i r : MacosDevice.an_index (bk_open k).1 = Ok i → r ∈ bk_table k → rt_ifindex r ≠ i;
  bk_close_table i k r : r ∈ bk_table (bk_close i k) ↔ r ∈ bk_table k ∧ rt_ifindex r ≠ i
}.

Section Laws.
Context {K : Type} `{BsdKernelLaws K}.

Lemma bsd_open_index a i : (MacosDevice.open_device a).2 = Ok i → MacosDevice.an_index a = Ok i.
Proof. unfold MacosDevice.open_device. repeat case_match; cbn [snd]; congruence. Qed.

Lemma add_answer_ok ran : add_answer ran = Ok tt → ran_ok ran = true.
Proof. destruct ran as [o|]; [|done]. cbn. destruct (success o); [done|]. by destruct (_ && _). Qed.
Lemma delete_answer_ok ran h : (MacosNetcfg.delete_route ran h).2 = Ok tt → ran_ok ran = true ∨ said_absent ran = true.
Proof. destruct ran as [o|]; [|done]. cbn. destruct (success o); [by left|]. case_match; [by right|done]. Qed.

Lemma same_prefix_names h r : same_prefix h r = false ↔ ¬ names_route (rt_dest h) (rt_prefix h) r.
Proof.
  unfold same_prefix, names_route. rewrite andb_false_iff, bool_decide_eq_false, Z.eqb_neq.
  destruct (decide (rt_dest h = rt_dest r)), (decide (rt_prefix h = rt_prefix r)); naive_solver congruence.
Qed.

Lemma caught_table i op k r :
  r ∈ bk_table (caught (with_ioctls i op k) k).2 ↔
    r ∈ bk_table k ∨ (r ∈ bk_table (caught (with_ioctls i op k) k).2 ∧ rt_ifindex r = i).
Proof.
  unfold with_ioctls. destruct (op (bk_net i k)) as [[calls res]|]; cbn; [apply bk_after_table|tauto].
Qed.

Lemma bsd_laws : NetKernelLaws K same_prefix.
Proof.
  split; cbn [k_open k_close k_table bsd].
  - intros r. unfold same_prefix. by rewrite bool_decide_true, Z.eqb_refl.
  - intros k. pose proof (bk_open_table k) as Ho. by destruct (bk_open k).
  - intros k i k' r Hi Hr. destruct (bk_open k) as [a k1] eqn:E. injection Hi as Hi _.
    apply bsd_open_index in Hi. eapply bk_open_fresh; [|done]. by rewrite E.
  - intros p i k r. destruct p; cbn [k_prep bsd]; try (cbn; tauto); apply caught_table.
  - intros r k k' Hw. cbn [k_add_route bsd]. destruct (bk_name (rt_ifindex r) k) as [name|] eqn:En; [|done].
    pose proof (bk_add _ _ _ _ (rt_ifindex r) k (command_of_add r name Hw) En) as Ha.
    destruct (bk_route _ k) as [ran k1]. cbn [fst snd] in Ha. intros [= Ho%add_answer_ok <-]. rewrite Ha by done.
    by destruct r.
  - intros r k e k' Hw. cbn [k_add_route bsd].
    destruct (bk_name (rt_ifindex r) k) as [name|] eqn:En; [|intros [= _ <-]; by left].
    pose proof (bk_add_failed _ _ _ _ (rt_ifindex r) k (command_of_add r name Hw) En) as Ha.
    destruct (bk_route _ k) as [ran k1]. intros [= _ <-]. by destruct r.
  - intros h k k' Hw. cbn [k_del_route bsd]. unfold delete_route.
    pose proof (λ r, bk_delete_only _ _ _ k r (command_of_delete h Hw)) as Ho.
    pose proof (λ r, bk_delete _ _ _ k r (command_of_delete h Hw)) as Hd.
    destruct (bk_route (delete_args (handle_of h)) k) as [ran k1]. cbn [fst snd] in *.
    intros [= Ha <-] r. apply (delete_answer_ok _ (handle_of h)) in Ha. rewrite same_prefix_names. split.
    + intros Hr. split; [by apply Ho|by apply Hd].
    + intros [Hr Hn]. by apply Ho.
  - intros h k e k' Hw. cbn [k_del_route bsd]. unfold delete_route.
    pose proof (λ r, bk_delete_only _ _ _ k r (command_of_delete h Hw)) as Ho.
    destruct (bk_route (delete_args (handle_of h)) k) as [ran k1]. cbn [fst snd] in *.
    intros [= _ <-]. split; [intros r; by apply Ho|]. intros r Hr Hn%same_prefix_names. by apply Ho.
  - apply bk_close_table.
Qed.

(** C14: the macOS network configuration implements what the adapter relies on.
    If a [route] command that succeeds has done what its line names, one that says
    a route is missing is right, and one that fails or cannot be run has done it
    or not, then every law of the adapter's interface holds, a deletion taken for a
    success having removed every route to its destination; [netcfg::add_route] is the adapter's
    step, with the handle of the route; and the lines that add a route and delete
    its handle read back as that destination and prefix, whatever the address of
    either family. *)
Theorem route_command_refines_netkernel :
  NetKernelLaws K same_prefix
  ∧ (∀ r k, add_route r k
       = (let '(res, k') := Adapter.add_route r k in
          (match res with Ok _ => Ok (handle_of r) | Err e => Err e end, k')))
  ∧ (∀ r name, wf_route r →
       command_of (add_args name (rt_dest r) (rt_prefix r)) = Some (RouteAdd (rt_dest r) (rt_prefix r) name)
       ∧ command_of (delete_args (handle_of r)) = Some (RouteDelete (rt_dest r) (rt_prefix r))).
Proof.
  split_and!; [apply bsd_laws|intros r k; apply bsd_add_route_adapter; [apply bk_name_kind|intros args; apply bk_route_kind]|].
  intros r name Hw. split; [by apply command_of_add|by apply command_of_delete].
Qed.

End Laws.

(** ** A concrete system *)

Module ConcreteBsd.

Definition name_of (i : Z) : str := u "utun" ++ dec i.
Definition index_of (name : str) : option Z := digits ← strip_prefix name (u "utun"); parse_uint (2 ^ 32 - 1) digits.

Definition opened (i : Z) : MacosDevice.answers := MacosDevice.MkAnswers None None None (Ok (u "utun3")) None (Ok i).
Definition said (code : Z) (text : str) : result io_error output := Ok (MkOutput (Some code) [] text).

(** The addresses of an alias request become routes of the interface. *)
Definition alias_routes (i : Z) (calls : list net_call) : gset Route :=
  list_to_set (omap (λ c, match c with
    | Ioctl _ (IfAliasRequest _ a _ m) => Some (MkRoute (V4 (sin_addr_of a)) (sin_addr_of m) i)
    | _ => None
    end) calls).

Definition macos : BsdKernel (gset Route) := {|
  bk_open T := (opened (fresh (set_map (D:=gset Z) rt_ifindex T)), T);
  bk_name i _ := if decide (0 ≤ i < 2 ^ 32) then Ok (name_of i) else Err (IoError NotFound "ENXIO");
  bk_net i T := MkNetAnswers None (Ok []) None (Ok 0) None;
  bk_after i calls T := alias_routes i calls ∪ T;
  bk_route args T :=
    match command_of args with
    | Some (RouteAdd dest p name) =>
      match index_of name with
      | Some i =>
        if decide (set_Exists (λ r, same_prefix (MkRoute dest p i) r = true) T)
        then (said 1 (u "route: writing to routing socket: File exists"), T)
        else (said 0 [], {[MkRoute dest p i]} ∪ T)
      | None => (said 68 (u "bad interface name"), T)
      end
    | Some (RouteDelete dest p) =>
      (if decide (set_Exists (λ r, (rt_dest r, rt_prefix r) = (dest, p)) T) then said 0 []
       else said 1 (u "route: writing to routing socket: not in table"),
       filter (λ r, (rt_dest r, rt_prefix r) ≠ (dest, p)) T)
    | None =>
      if str_eqb (default [] (args !! 1%nat)) (u "get") then
        (Ok (MkOutput (Some 0) (u "   route to: 8.8.8.8" ++ [10] ++ u "  interface: utun5 " ++ [10] ++ u "      flags: <UP,DONE>" ++ [10]) []), T)
      else (said 64 (u "usage"), T)
    end;
  bk_index name _ := default 0 (index_of name);
  bk_close i T := filter (λ r, rt_ifindex r ≠ i) T;
  bk_table T := T
|}.

Lemma index_of_name i : 0 ≤ i < 2 ^ 32 → index_of (name_of i) = Some i.
Proof.
  intros Hi. unfold index_of, name_of. rewrite strip_prefix_app. cbn [mbind option_bind].
  apply parse_dec_small; lia.
Qed.

Lemma macos_laws : @BsdKernelLaws (gset Route) macos.
Proof.
  split; cbn [bk_open bk_name bk_net bk_after bk_route bk_index bk_close bk_table macos].
  - intros i T e. case_decide; [done|]. by intros [= <-].
  - intros args T e. destruct (command_of args) as [[d p n|d p]|]; [destruct (index_of n); [case_decide|]|case_decide|case_match]; done.
  - intros args d p n i T -> Hn. case_decide as Hi; [|done]. injection Hn as <-. rewrite index_of_name by done.
    by case_decide.
  - intros args d p n i T -> Hn. case_decide as Hi; [|done]. injection Hn as <-. rewrite index_of_name by done.
    case_decide; auto.
  - intros args d p T r ->. cbn. rewrite elem_of_filter. unfold names_route. tauto.
  - intros args d p T r -> _. cbn. rewrite elem_of_filter. unfold names_route. tauto.
  - intros i calls T r. rewrite !elem_of_union. unfold alias_routes.
    rewrite elem_of_list_to_set. split; [|tauto]. intros [Hin|]; [right|by left]. split; [by left|].
    apply list_elem_of_omap in Hin as (c & _ & Hc). destruct c as [|? []]; by simplify_eq/=.
  - done.
  - intros T i r [= <-] Hr Heq. pose proof (is_fresh (set_map (D:=gset Z) rt_ifindex T)) as Hf.
    apply Hf. rewrite <-Heq. apply elem_of_map. eauto.
  - intros i T r. rewrite elem_of_filter. tauto.
Qed.

End ConcreteBsd.

Lemma route_command_refines_netkernel_witness :
  let K := @bsd (gset Route) ConcreteBsd.macos in
  @NetKernelLaws (gset Route) K same_prefix
  ∧ (∀ r T, @add_route (gset Route) ConcreteBsd.macos r T
       = (let '(res, T') := @Adapter.add_route (gset Route) K r T in
          (match res with Ok _ => Ok (handle_of r) | Err e => Err e end, T')))
  ∧ (∀ r name, wf_route r →
       command_of (add_args name (rt_dest r) (rt_prefix r)) = Some (RouteAdd (rt_dest r) (rt_prefix r) name)
       ∧ command_of (delete_args (handle_of r)) = Some (RouteDelete (rt_dest r) (rt_prefix r))).
Proof. apply (@route_command_refines_netkernel (gset Route) ConcreteBsd.macos ConcreteBsd.macos_laws). Defined.

(** Creation over the route command, on a machine with a default route, and its
    drop. *)
Example created_over_route_command :
  let K := @bsd (gset Route) ConcreteBsd.macos in
  match @unix_create (gset Route) K true nic home with
  | (Ok a, _, T) =>
    bool_decide (a_routes a = unix_plan true nic (a_ifindex a))
    && bool_decide (MkRoute (V6 0) 1 (a_ifindex a) ∈ T)
    && bool_decide (@unix_drop (gset Route) K a T = ([], home))
  | _ => false
  end = true.
Proof. vm_compute. reflexivity. Qed.

(** Discovery reads the interface's name from the command's report, with the
    blanks around it, and turns it into an index. *)
Example discovered_from_report :
  (@discover_physical_interface (gset Route) ConcreteBsd.macos home).1 = MkPhysicalInterface (Some 5) (Some 5).
Proof. vm_compute. reflexivity. Qed.
