(* ===== verification/Pin.v ===== *)
(** * Pinning a socket to an interface ([platform/*/dial.rs])

    The socket option each system sets, with the bytes it is given, and the
    send-buffer option.  The answers of the calls are arguments; the hosts are
    little-endian. *)

From S2P Require Export Platform.
Local Open Scope Z_scope.

Inductive sockopt : Type :=
  | SoBindToDevice        (* Linux *)
  | IpUnicastIf | Ipv6UnicastIf   (* Windows *)
  | IpBoundIf | Ipv6BoundIf       (* macOS *)
  | SoSndBuf.
#[export] Instance sockopt_eq_dec : EqDecision sockopt.
Proof. solve_decision. Defined.

(** A [setsockopt] call: the option and its value in memory. *)
Definition opt_call : Type := (sockopt * list Z)%type.

Definition answered (a : option io_error) : result io_error unit :=
  match a with Some e => Err e | None => Ok tt end.

(** [to_ne_bytes] *)
Definition ne_bytes (v : Z) : list Z := le_bytes 4 v.

Module LinuxPin.
(** [name] is what [if_indextoname] gives for the index. *)
Definition pin_socket (name : Z → result io_error (list Z)) (rc : option io_error)
    (index : Z) (dest : IpAddr) : list opt_call * result io_error unit :=
  if is_loopback dest then ([], Ok tt)
  else match name index with
  | Err e => ([], Err e)
  | Ok n => ([(SoBindToDevice, n ++ [0])], answered rc)
  end.
End LinuxPin.

Module MacosPin.
Definition pin_socket (rc : option io_error) (index : Z) (dest : IpAddr)
    : list opt_call * result io_error unit :=
  if is_loopback dest then ([], Ok tt)
  else ([(match dest with V4 _ => IpBoundIf | V6 _ => Ipv6BoundIf end, ne_bytes index)],
        answered rc).
End MacosPin.

Module WindowsPin.
(** [u32::to_be]: the bytes in the other order. *)
Definition to_be (v : Z) : Z := le_val (be_bytes 4 v).
Definition unicast_if_value (index : Z) (v6 : bool) : Z := if v6 then index else to_be index.

Definition pin_socket (rc : option io_error) (index : Z) (dest : IpAddr)
    : list opt_call * result io_error unit :=
  let v6 := is_ipv6 dest in
  ([(if v6 then Ipv6UnicastIf else IpUnicastIf, ne_bytes (unicast_if_value index v6))], answered rc).
End WindowsPin.

(** The same on the three systems. *)
Definition set_send_buffer (rc : option io_error) (bytes : Z) : list opt_call * result io_error unit :=
  ([(SoSndBuf, ne_bytes bytes)], answered rc).

(** ** Theorems *)

Lemma ne_bytes_to_be v : ne_bytes (WindowsPin.to_be v) = be_bytes 4 v.
Proof.
  unfold ne_bytes, WindowsPin.to_be, le_val. apply (inj reverse).
  pose proof (be_bytes_be_val (reverse (be_bytes 4 v))) as H.
  rewrite length_reverse, length_be_bytes in H. unfold be_bytes at 1 in H.
  apply H, Forall_reverse, be_bytes_byte.
Qed.

(** the byte order of the pin.  Windows takes the interface index in network
    order for IPv4 and in host order for IPv6; macOS in host order for both;
    Linux takes the interface's name, ended by a NUL.  Loopback destinations are
    left unpinned on Unix and pinned on Windows; and a pin is one call, whose
    result is the call's. *)
Theorem pin_encoding name rc index dest n :
  name index = Ok n →
  (WindowsPin.pin_socket rc index dest).1
  = [match dest with
     | V4 _ => (IpUnicastIf, be_bytes 4 index)
     | V6 _ => (Ipv6UnicastIf, le_bytes 4 index)
     end]
  ∧ (MacosPin.pin_socket rc index dest).1
  = (if is_loopback dest then []
     else [(match dest with V4 _ => IpBoundIf | V6 _ => Ipv6BoundIf end, le_bytes 4 index)])
  ∧ (LinuxPin.pin_socket name rc index dest).1
  = (if is_loopback dest then [] else [(SoBindToDevice, n ++ [0])])
  ∧ (WindowsPin.pin_socket rc index dest).2 = answered rc
  ∧ (is_loopback dest = false →
     (MacosPin.pin_socket rc index dest).2 = answered rc
     ∧ (LinuxPin.pin_socket name rc index dest).2 = answered rc).
Proof.
  intros Hn. unfold MacosPin.pin_socket, LinuxPin.pin_socket. rewrite Hn.
  destruct (is_loopback dest); (split_and!; [|done..]);
    (destruct dest; [|done]); unfold WindowsPin.pin_socket; cbn [is_ipv6 fst];
    by rewrite <-ne_bytes_to_be.
Qed.

Lemma pin_encoding_witness :
  (WindowsPin.pin_socket None 7 (V4 (ipv4 8 8 8 8))).1 = [(IpUnicastIf, be_bytes 4 7)]
  ∧ (MacosPin.pin_socket None 7 (V4 (ipv4 8 8 8 8))).1 = [(IpBoundIf, le_bytes 4 7)]
  ∧ (LinuxPin.pin_socket (λ _, Ok [101; 116; 104; 48]) None 7 (V4 (ipv4 8 8 8 8))).1
    = [(SoBindToDevice, [101; 116; 104; 48; 0])]
  ∧ (WindowsPin.pin_socket None 7 (V4 (ipv4 8 8 8 8))).2 = answered None
  ∧ (is_loopback (V4 (ipv4 8 8 8 8)) = false →
     (MacosPin.pin_socket None 7 (V4 (ipv4 8 8 8 8))).2 = answered None
     ∧ (LinuxPin.pin_socket (λ _, Ok [101; 116; 104; 48]) None 7 (V4 (ipv4 8 8 8 8))).2 = answered None).
Proof.
  apply (pin_encoding (λ _, Ok [101; 116; 104; 48]) None 7 (V4 (ipv4 8 8 8 8)) [101; 116; 104; 48]).
  reflexivity.
Defined.
