(* ===== verification/Attribution.v ===== *)
(** * The endpoint cache of the Unix process tables
    ([platform/linux/process.rs], [platform/macos/process.rs])

    Both tables answer a lookup from a cache of recent answers, keyed by the
    flow's local endpoint, and otherwise ask the kernel.  The kernel query is a
    parameter here, a function on the table's remaining state; the two files
    that follow instantiate it.  Each lookup is one step here; [Lookups] interleaves
    the critical sections of several. *)

From S2P Require Export Platform.
Local Open Scope Z_scope.

(** Nanoseconds, as everywhere. *)
Definition CACHE_TTL : Z := 250 * 10 ^ 6.

Record EndpointKey : Type := MkEndpointKey { ek_ip : IpAddr; ek_port : Z; ek_is_udp : bool }.
#[export] Instance EndpointKey_eq_dec : EqDecision EndpointKey.
Proof. solve_decision. Defined.
#[export] Program Instance EndpointKey_countable : Countable EndpointKey :=
  inj_countable' (λ k, (ek_ip k, ek_port k, ek_is_udp k))
                 (λ x, MkEndpointKey x.1.1 x.1.2 x.2) _.
Next Obligation. by intros []. Qed.

Definition endpoint_key (local : SocketAddr) (is_udp : bool) : EndpointKey :=
  MkEndpointKey (sa_ip local) (sa_port local) is_udp.

(** [now.duration_since(then)], which saturates at zero. *)
Definition duration_since (now then_ : Z) : Z := Z.max 0 (now - then_).

Notation endpoints_map := (gmap EndpointKey (Z * Z)).

(** The first half of [resolve_pid]: a cached answer that is still trusted. *)
Definition cache_hit (endpoints : endpoints_map) (key : EndpointKey) (now : Z) : option Z :=
  match endpoints !! key with
  | Some (pid, cached_at) =>
    if duration_since now cached_at <? CACHE_TTL then Some pid else None
  | None => None
  end.

Section Resolve.
Context {S : Type}.

(** [resolve_pid] over the kernel query it makes on a miss. *)
Definition resolve_with (query : S → option Z * S) (key : EndpointKey) (now : Z)
    (c : endpoints_map * S) : option Z * (endpoints_map * S) :=
  match cache_hit c.1 key now with
  | Some pid => (Some pid, c)
  | None =>
    let '(answer, s) := query c.2 in
    match answer with
    | Some pid => (Some pid, (<[key := (pid, now)]> c.1, s))
    | None => (None, (c.1, s))
    end
  end.

(** A history of lookups, each with the query it makes if it has to, and what
    it shows: the answers, and the answers of the queries that were made. *)
Record lookup_call : Type := MkCall { lc_key : EndpointKey; lc_now : Z; lc_query : S → option Z * S }.
Record lookup_log : Type := MkLog { ll_answer : option Z; ll_asked : option (option Z) }.

Fixpoint resolve_all (calls : list lookup_call) (c : endpoints_map * S) : list lookup_log :=
  match calls with
  | [] => []
  | k :: calls' =>
    let '(answer, c') := resolve_with (lc_query k) (lc_key k) (lc_now k) c in
    let asked := match cache_hit c.1 (lc_key k) (lc_now k) with
                 | Some _ => None
                 | None => Some (lc_query k c.2).1
                 end in
    MkLog answer asked :: resolve_all calls' c'
  end.

(** Every cached entry is an answer the kernel gave, when it is dated. *)
Definition vouched (past : list (lookup_call * lookup_log)) (e : endpoints_map) : Prop :=
  ∀ key pid t, e !! key = Some (pid, t) →
    ∃ j k l, past !! j = Some (k, l) ∧ lc_key k = key ∧ lc_now k = t ∧ ll_asked l = Some (Some pid).

Lemma vouched_snoc past x e : vouched past e → vouched (past ++ [x]) e.
Proof.
  intros Hv key pid t He. destruct (Hv key pid t He) as (j & k & l & Hj & ?).
  exists j, k, l. split; [|done]. by apply lookup_app_l_Some.
Qed.

(** The log of one lookup. *)
Definition log_of (k : lookup_call) (c : endpoints_map * S) : lookup_log :=
  MkLog (resolve_with (lc_query k) (lc_key k) (lc_now k) c).1
        (match cache_hit c.1 (lc_key k) (lc_now k) with
         | Some _ => None
         | None => Some (lc_query k c.2).1
         end).

Definition supports (past : list (lookup_call * lookup_log)) (bound : nat) (k : lookup_call) (pid : Z)
    : Prop :=
  ∃ j k' l', past !! j = Some (k', l') ∧ (j ≤ bound)%nat ∧ lc_key k' = lc_key k
    ∧ duration_since (lc_now k) (lc_now k') < CACHE_TTL ∧ ll_asked l' = Some (Some pid).

Lemma step_supported past c k pid :
  vouched past c.1 → ll_answer (log_of k c) = Some pid →
  supports (past ++ [(k, log_of k c)]) (length past) k pid.
Proof.
  intros Hv Ha. unfold log_of, resolve_with, cache_hit in *.
  destruct (c.1 !! lc_key k) as [[p t]|] eqn:He;
    [destruct (Z.ltb_spec (duration_since (lc_now k) t) CACHE_TTL)|].
  { simplify_eq/=. destruct (Hv _ _ _ He) as (j & k' & l' & Hj & ? & <- & ?).
    exists j, k', l'. split; [by apply lookup_app_l_Some|].
    apply lookup_lt_Some in Hj. split; [lia|done]. }
  all: eexists (length past), k, _; rewrite lookup_app_r, Nat.sub_diag by done;
    (split; [done|]); destruct (lc_query k c.2) as [[]]; simplify_eq/=;
    split_and!; try done; unfold duration_since, CACHE_TTL; lia.
Qed.

Lemma step_vouched past c k :
  vouched past c.1 →
  vouched (past ++ [(k, log_of k c)]) (resolve_with (lc_query k) (lc_key k) (lc_now k) c).2.1.
Proof.
  intros Hv key p t He. pose proof (vouched_snoc past (k, log_of k c) c.1 Hv key p t) as Hold.
  unfold resolve_with in He. destruct (cache_hit _ _ _) eqn:Hh; [auto|].
  destruct (lc_query k c.2) as [[p'|] s] eqn:Hq; simpl in He; [|auto].
  apply lookup_insert_Some in He as [[<- [= <- <-]]|[_ He]]; [|auto].
  exists (length past), k, (log_of k c). rewrite lookup_app_r, Nat.sub_diag by done.
  unfold log_of. by rewrite Hh, Hq.
Qed.

Lemma resolve_all_cons k calls c :
  resolve_all (k :: calls) c
  = log_of k c :: resolve_all calls (resolve_with (lc_query k) (lc_key k) (lc_now k) c).2.
Proof. unfold log_of. simpl. by destruct (resolve_with _ _ _ c). Qed.

Lemma resolve_all_supported calls past c i k l pid :
  vouched past c.1 →
  calls !! i = Some k → resolve_all calls c !! i = Some l → ll_answer l = Some pid →
  supports (past ++ zip calls (resolve_all calls c)) (length past + i) k pid.
Proof.
  revert past c i. induction calls as [|k0 calls IH]; intros past c i Hv Hk Hl Hp; [done|].
  rewrite resolve_all_cons in *. simpl zip. rewrite cons_middle, app_assoc.
  destruct i as [|i]; simpl in Hk, Hl.
  - simplify_eq. destruct (step_supported past c k pid Hv Hp) as (j & k' & l' & Hj & ? & ?).
    exists j, k', l'. split; [by apply lookup_app_l_Some|]. split; [lia|done].
  - destruct (IH _ _ i (step_vouched past c k0 Hv) Hk Hl Hp) as (j & k' & l' & Hj & Hji & ?).
    rewrite length_app in Hji. exists j, k', l'. split; [done|]. split; [simpl in Hji; lia|done].
Qed.

(** how stale an attribution can be.  In every history of lookups from an
    empty cache, an answer is one the kernel gave for the same local endpoint,
    in this lookup or in an earlier one less than 250 milliseconds before: the
    cache never answers for another endpoint, protocol or a longer-gone owner. *)
Theorem attribution_fresh calls s i k l pid :
  calls !! i = Some k → resolve_all calls (∅, s) !! i = Some l → ll_answer l = Some pid →
  ∃ j k' l', calls !! j = Some k' ∧ resolve_all calls (∅, s) !! j = Some l'
    ∧ (j ≤ i)%nat ∧ lc_key k' = lc_key k
    ∧ duration_since (lc_now k) (lc_now k') < CACHE_TTL ∧ ll_asked l' = Some (Some pid).
Proof.
  intros Hk Hl Hp.
  destruct (resolve_all_supported calls [] (∅, s) i k l pid) as (j & k' & l' & Hj & ? & ?);
    [intros ??? He; simpl in He; by rewrite lookup_empty in He|done..|].
  simpl in Hj. apply lookup_zip_Some in Hj as [Hj1 Hj2]. by exists j, k', l'.
Qed.

End Resolve.
Arguments lookup_call : clear implicits.
Arguments MkCall {S}.

(** Two lookups of one endpoint 100 ms apart: the second is answered by the
    first one's query, though the kernel would now say something else. *)
Definition web_key : EndpointKey := MkEndpointKey (V4 (ipv4 10 63 7 1)) 50000 false.
Definition two_lookups : list (lookup_call unit) :=
  [MkCall web_key 0 (λ s, (Some 42, s)); MkCall web_key (100 * 10 ^ 6) (λ s, (Some 43, s))].

Lemma attribution_fresh_witness :
  ∃ j k' l', two_lookups !! j = Some k' ∧ resolve_all two_lookups (∅, tt) !! j = Some l'
    ∧ (j ≤ 1)%nat ∧ lc_key k' = web_key
    ∧ duration_since (100 * 10 ^ 6) (lc_now k') < CACHE_TTL ∧ ll_asked l' = Some (Some 42).
Proof.
  apply (attribution_fresh two_lookups tt 1 (MkCall web_key (100 * 10 ^ 6) (λ s, (Some 43, s)))
    (MkLog (Some 42) None) 42); reflexivity.
Defined.
