(* ===== verification/MacosProcess.v ===== *)
(** * Process attribution on macOS ([platform/macos/process.rs])

    The walk over a [pcblist_n] dump, at byte level: bounds of each record pair,
    the fields read at their offsets, the scoring of a record against a flow,
    and the choice of the most specific one.  The dump itself and
    [proc_pidinfo] are the kernel's and are arguments.  The main theorem reads
    the walk back from a table laid out as the kernel headers prescribe. *)

From S2P Require Export Attribution.
Local Open Scope Z_scope.

Definition INP_IPV6 : Z := 0x2.
Definition XINPCB_OFFSET_LEN : Z := 0.
Definition XINPCB_OFFSET_FPORT : Z := 16.
Definition XINPCB_OFFSET_LPORT : Z := 18.
Definition XINPCB_OFFSET_VFLAG : Z := 44.
Definition XINPCB_OFFSET_FADDR : Z := 48.
Definition XINPCB_OFFSET_LADDR : Z := 64.
Definition XSOCKET_OFFSET_LAST_PID : Z := 68.
Definition XINGPEN_LEN : Z := 24.

(** ** The mirror structs and their layout

    [#[repr(C, packed(4))]]: a field is placed at the next multiple of its
    alignment, which is its natural one capped at 4; the size is rounded to the
    largest alignment. *)

Record field : Type := Field { f_name : string; f_size : Z; f_align : Z }.
Definition u8f (n : string) := Field n 1 1.
Definition u16f (n : string) := Field n 2 2.
Definition u32f (n : string) := Field n 4 4.
Definition u64f (n : string) := Field n 8 4.
Definition align_up (off a : Z) : Z := (off + a - 1) / a * a.

Fixpoint layout (fs : list field) (off : Z) : list (string * Z) * Z :=
  match fs with
  | [] => ([], align_up off 4)
  | f :: fs' =>
    let o := align_up off (f_align f) in
    let '(l, size) := layout fs' (o + f_size f) in ((f_name f, o) :: l, size)
  end.
Fixpoint offset_in (l : list (string * Z)) (n : string) : option Z :=
  match l with
  | [] => None
  | (m, o) :: l' => if decide (m = n) then Some o else offset_in l' n
  end.
Definition offset_of (fs : list field) (n : string) : option Z := offset_in (layout fs 0).1 n.
Definition size_of (fs : list field) : Z := (layout fs 0).2.

Definition XinpcbN : list field :=
  [u32f "xi_len"; u32f "xi_kind"; u64f "xi_inpp"; u16f "inp_fport"; u16f "inp_lport";
   u64f "inp_ppcb"; u64f "inp_gencnt"; u32f "inp_flags"; u32f "inp_flow"; u8f "inp_vflag";
   u8f "inp_ip_ttl"; u8f "inp_ip_p"; Field "inp_dependfaddr" 16 4; Field "inp_dependladdr" 16 4;
   u8f "inp4_ip_tos"; u8f "inp6_hlim"; u32f "inp6_cksum"; u16f "inp6_ifindex"; u16f "inp6_hops";
   u32f "inp_flowhash"; u32f "inp_flags2"].

Definition XsocketN : list field :=
  [u32f "xso_len"; u32f "xso_kind"; u64f "xso_so"; u16f "so_type"; u32f "so_options";
   u16f "so_linger"; u16f "so_state"; u64f "so_pcb"; u32f "xso_protocol"; u32f "xso_family";
   u16f "so_qlen"; u16f "so_incqlen"; u16f "so_qlimit"; u16f "so_timeo"; u16f "so_error";
   u32f "so_pgid"; u32f "so_oobmark"; u32f "so_uid"; u32f "so_last_pid"; u32f "so_e_pid";
   u64f "so_gencnt"; u32f "so_flags"; u32f "so_flags1"; u32f "so_usecount"; u32f "so_retaincnt";
   u32f "xso_filter_flags"].

(** ** Reading fields *)

(** [usize::checked_add] on a 64-bit target. *)
Definition checked_add (a b : Z) : option Z := if a + b <? 2 ^ 64 then Some (a + b) else None.

Definition read_u32_le (record : list Z) (offset : Z) : option Z :=
  bytes ← get_range record offset (offset + 4); Some (le_val bytes).

Definition read_u16_be (record : list Z) (offset : Z) : option Z :=
  bytes ← get_range record offset (offset + 2); Some (be_val bytes).

Definition as_i32 (v : Z) : Z := if v <? 2 ^ 31 then v else v - 2 ^ 32.

Definition read_i32_le (record : list Z) (offset : Z) : option Z :=
  bytes ← get_range record offset (offset + 4); Some (as_i32 (le_val bytes)).

Definition read_address (record : list Z) (offset : Z) (is_v6 : bool) : option IpAddr :=
  if is_v6 then octets ← get_range record offset (offset + 16); Some (V6 (be_val octets))
  else octets ← get_range record (offset + 12) (offset + 16); Some (V4 (be_val octets)).

(** ** The walk *)

Record Candidate : Type := MkCandidate { c_pid : Z; specificity : Z }.

Definition next_record_pair (table : list Z) (offset : Z) : option (Z * Z) :=
  inpcb_len ← read_u32_le table offset;
  if inpcb_len <? XINPCB_OFFSET_LADDR + 16 then None else
  inpcb_end ← checked_add offset inpcb_len;
  if zlen table <? inpcb_end then None else
  socket_len ← read_u32_le table inpcb_end;
  if socket_len <? XSOCKET_OFFSET_LAST_PID + 4 then None else
  socket_end ← checked_add inpcb_end socket_len;
  if zlen table <? socket_end then None else
  Some (inpcb_end, socket_end).

Definition score_record (inpcb socket : list Z) (local remote : SocketAddr) : option Candidate :=
  vflag ← get inpcb XINPCB_OFFSET_VFLAG;
  let is_v6 := negb (Z.land vflag INP_IPV6 =? 0) in
  if negb (eqb is_v6 (is_ipv6 (sa_ip local))) then None else
  local_port ← read_u16_be inpcb XINPCB_OFFSET_LPORT;
  foreign_port ← read_u16_be inpcb XINPCB_OFFSET_FPORT;
  if negb (local_port =? sa_port local) then None else
  local_addr ← read_address inpcb XINPCB_OFFSET_LADDR is_v6;
  foreign_addr ← read_address inpcb XINPCB_OFFSET_FADDR is_v6;
  let connected := negb (foreign_port =? 0) && negb (is_unspecified foreign_addr) in
  specificity ←
    (if connected && bool_decide (local_addr = sa_ip local)
        && bool_decide (foreign_addr = sa_ip remote) && (foreign_port =? sa_port remote)
     then Some 3
     else if negb (is_unspecified local_addr) && bool_decide (local_addr = sa_ip local)
     then Some 2
     else if is_unspecified local_addr then Some 1
     else None);
  pid ← read_i32_le socket XSOCKET_OFFSET_LAST_PID;
  if pid <=? 0 then None else Some (MkCandidate pid specificity).

(** [best.as_ref().is_none_or(|best| candidate.specificity > best.specificity)] *)
Definition improves (best : option Candidate) (c : Candidate) : bool :=
  match best with None => true | Some b => specificity b <? specificity c end.
Definition update_best (best : option Candidate) (o : option Candidate) : option Candidate :=
  match o with Some c => if improves best c then Some c else best | None => best end.

(** The [while let] loop; [None] when the fuel runs out. *)
Fixpoint scan_loop (fuel : nat) (table : list Z) (local remote : SocketAddr)
    (offset : Z) (best : option Candidate) : option (outcome (option Candidate)) :=
  match fuel with
  | O => None
  | S fuel' =>
    match next_record_pair table offset with
    | None => Some (Done best)
    | Some (inpcb_end, socket_end) =>
      match slice table offset inpcb_end, slice table inpcb_end socket_end with
      | Done inpcb, Done socket =>
        scan_loop fuel' table local remote socket_end
          (update_best best (score_record inpcb socket local remote))
      | _, _ => Some Panic
      end
    end
  end.

(** Every iteration advances by at least a PCB record and a socket record. *)
Definition scan_fuel (table : list Z) : nat := S (length table).

Definition scan_pcblist (table : list Z) (local remote : SocketAddr)
    : option (outcome (option Z)) :=
  match read_u32_le table XINPCB_OFFSET_LEN with
  | None => Some (Done None)
  | Some offset =>
    if offset <? XINGPEN_LEN then Some (Done None)
    else match scan_loop (scan_fuel table) table local remote offset None with
    | Some (Done best) => Some (Done (option_map c_pid best))
    | Some Panic => Some Panic
    | None => None
    end
  end.

(** ** [pcblist_table], [resolve_pid], [process_name], [is_privileged]

    [sysctl_size] and [sysctl_fetch] are what the two [sysctlbyname] calls
    give for the table of the protocol: [None] for a nonzero return; the fetch
    reports the bytes it copied into the buffer. *)

Definition pcblist_table (sysctl_size : option Z) (sysctl_fetch : option (list Z))
    : option (list Z) :=
  length ← sysctl_size;
  if length =? 0 then None else
  copied ← sysctl_fetch;
  Some (take (Z.to_nat length) copied).

Definition pid_query (kernel : bool → option Z * option (list Z)) (local remote : SocketAddr)
    (is_udp : bool) (_ : unit) : option Z * unit :=
  (table ← pcblist_table (kernel is_udp).1 (kernel is_udp).2;
   match scan_pcblist table local remote with Some (Done pid) => pid | _ => None end, tt).

Definition resolve_pid (kernel : bool → option Z * option (list Z)) (now : Z)
    (local remote : SocketAddr) (is_udp : bool) (c : endpoints_map * unit)
    : option Z * (endpoints_map * unit) :=
  resolve_with (pid_query kernel local remote is_udp) (endpoint_key local is_udp) now c.

(** [pbsi_comm] is what [proc_pidinfo] fills in for the pid, [None] when it
    does not return the size of its buffer. *)
Fixpoint until_nul (bytes : list Z) : list Z :=
  match bytes with
  | [] => []
  | b :: bytes' => if b =? 0 then [] else b :: until_nul bytes'
  end.

Definition process_name (pbsi_comm : option (list Z)) : option str :=
  bytes ← pbsi_comm;
  name ← from_utf8 (until_nul bytes);
  let name := trim name in
  if is_empty name then None else Some name.

Definition is_privileged (euid : Z) : bool := euid =? 0.

(** ** Specification: the table as the kernel lays it out *)

(** What a record pair says of a socket. *)
Record pcb : Type := MkPcb {
  pcb_laddr : IpAddr; pcb_lport : Z;
  pcb_faddr : IpAddr; pcb_fport : Z;
  pcb_pid : Z
}.

(** The bytes of the pair that are not read, and the flags. *)
Record pcb_rest : Type := MkPcbRest {
  r_head : list Z; r_mid : list Z; r_vflag : Z; r_ttl : list Z;
  r_fpad : list Z; r_lpad : list Z; r_tail : list Z;
  r_shead : list Z; r_stail : list Z
}.

Definition slot (pad : list Z) (ip : IpAddr) : list Z :=
  match ip with V4 a => pad ++ be_bytes 4 a | V6 a => be_bytes 16 a end.

Definition counted (body : list Z) : list Z := le_bytes 4 (4 + zlen body) ++ body.

Definition encode_inpcb (p : pcb) (r : pcb_rest) : list Z :=
  counted (r_head r ++ be_bytes 2 (pcb_fport p) ++ be_bytes 2 (pcb_lport p) ++ r_mid r
           ++ [r_vflag r] ++ r_ttl r ++ slot (r_fpad r) (pcb_faddr p)
           ++ slot (r_lpad r) (pcb_laddr p) ++ r_tail r).
Definition encode_socket (p : pcb) (r : pcb_rest) : list Z :=
  counted (r_shead r ++ le_bytes 4 (pcb_pid p mod 2 ^ 32) ++ r_stail r).
Definition encode_pair (x : pcb * pcb_rest) : list Z * list Z :=
  (encode_inpcb x.1 x.2, encode_socket x.1 x.2).

Definition is_port (p : Z) : Prop := 0 ≤ p < 65536.

Record pcb_ok (p : pcb) (r : pcb_rest) : Prop := {
  ok_head : zlen (r_head r) = 12;
  ok_mid : zlen (r_mid r) = 24;
  ok_ttl : zlen (r_ttl r) = 3;
  ok_fpad : zlen (r_fpad r) = 12;
  ok_lpad : zlen (r_lpad r) = 12;
  ok_shead : zlen (r_shead r) = 64;
  ok_tail : zlen (r_tail r) < 2 ^ 31;
  ok_stail : zlen (r_stail r) < 2 ^ 31;
  ok_vflag : negb (Z.land (r_vflag r) INP_IPV6 =? 0) = is_ipv6 (pcb_laddr p);
  ok_family : is_ipv6 (pcb_faddr p) = is_ipv6 (pcb_laddr p);
  ok_laddr : wf_ip (pcb_laddr p);
  ok_faddr : wf_ip (pcb_faddr p);
  ok_lport : is_port (pcb_lport p);
  ok_fport : is_port (pcb_fport p);
  ok_pid : - 2 ^ 31 ≤ pcb_pid p < 2 ^ 31
}.

Definition encode_table (header : list Z) (socks : list (pcb * pcb_rest)) (tail : list Z) : list Z :=
  counted header ++ concat ((λ x, (encode_pair x).1 ++ (encode_pair x).2) <$> socks) ++ tail.

(** How specifically a socket matches a flow: 3 when it is connected along the
    flow, 2 when it is bound to the flow's local address, 1 when it is bound to
    the port on every address. *)
Definition level (local remote : SocketAddr) (p : pcb) : option Z :=
  if negb (eqb (is_ipv6 (pcb_laddr p)) (is_ipv6 (sa_ip local))) then None
  else if negb (pcb_lport p =? sa_port local) then None
  else if pcb_pid p <=? 0 then None
  else if negb (pcb_fport p =? 0) && negb (is_unspecified (pcb_faddr p))
          && bool_decide (pcb_laddr p = sa_ip local)
          && bool_decide (pcb_faddr p = sa_ip remote) && (pcb_fport p =? sa_port remote)
  then Some 3
  else if is_unspecified (pcb_laddr p) then Some 1
  else if bool_decide (pcb_laddr p = sa_ip local) then Some 2
  else None.

(** ** Lemmas *)

Lemma get_range_at {A} (pre bs post : list A) a b :
  zlen pre = a → a + zlen bs = b → get_range (pre ++ bs ++ post) a b = Some bs.
Proof. intros <- <-. apply get_range_mid. Qed.

Lemma get_at {A} (pre : list A) x post i : zlen pre = i → get (pre ++ x :: post) i = Some x.
Proof. intros <-. apply get_mid. Qed.

Lemma get_range_shift {A} (pre l : list A) a b :
  0 ≤ a → get_range (pre ++ l) (zlen pre + a) (zlen pre + b) = get_range l a b.
Proof.
  intros Ha. unfold get_range. rewrite zlen_app. pose proof (zlen_nonneg pre).
  destruct (decide (0 ≤ a ∧ a ≤ b ∧ b ≤ zlen l)) as [Hr|Hr].
  - rewrite decide_True by lia. f_equal. rewrite Z2Nat.inj_add by lia.
    assert (Z.to_nat (zlen pre) = length pre) as -> by (unfold zlen; lia).
    rewrite drop_app_add. f_equal. lia.
  - rewrite decide_False by lia. done.
Qed.

Lemma le_val_le_bytes n v : le_val (le_bytes n v) = v mod 256 ^ Z.of_nat n.
Proof. unfold le_val. apply be_val_be_bytes. Qed.

Lemma zlen_le_bytes n v : zlen (le_bytes n v) = Z.of_nat n.
Proof. unfold zlen. by rewrite length_le_bytes. Qed.
#[export] Hint Rewrite zlen_le_bytes : zlen.

Lemma read_u32_shift pre l a : 0 ≤ a → read_u32_le (pre ++ l) (zlen pre + a) = read_u32_le l a.
Proof. intros Ha. unfold read_u32_le. by rewrite <-Z.add_assoc, get_range_shift. Qed.

Lemma read_u32_bound l a n : Forall is_byte l → read_u32_le l a = Some n → 0 ≤ n < 2 ^ 32.
Proof.
  intros Hl. unfold read_u32_le. destruct (get_range l a (a + 4)) as [bs|] eqn:E; [|done].
  intros [= <-]. destruct (get_range_length _ _ _ _ E) as (_ & _ & Hlen).
  assert (Forall is_byte (reverse bs)) as Hbs.
  { apply Forall_reverse, Forall_forall. intros x Hx. rewrite Forall_forall in Hl.
    apply Hl. by apply (get_range_incl _ _ _ _ E). }
  apply be_val_bound in Hbs. unfold le_val, zlen in *. rewrite length_reverse in Hbs.
  replace (Z.of_nat (length bs)) with 4 in Hbs by lia. done.
Qed.

(** *** Bounds of a record pair *)

(** What [next_record_pair] guarantees. *)
Lemma next_record_pair_bounds table offset a b :
  next_record_pair table offset = Some (a, b) →
  offset + 80 ≤ a ∧ a + 72 ≤ b ∧ b ≤ zlen table.
Proof.
  unfold next_record_pair, checked_add, XINPCB_OFFSET_LADDR, XSOCKET_OFFSET_LAST_PID.
  intros H. destruct (read_u32_le table offset) as [n|]; [|done]. simpl in H.
  destruct (Z.ltb_spec n (64 + 16)); [done|].
  destruct (offset + n <? 2 ^ 64); [|done]. simpl in H.
  destruct (Z.ltb_spec (zlen table) (offset + n)); [done|].
  destruct (read_u32_le table (offset + n)) as [m|]; [|done]. simpl in H.
  destruct (Z.ltb_spec m (68 + 4)); [done|].
  destruct (offset + n + m <? 2 ^ 64); [|done]. simpl in H.
  destruct (Z.ltb_spec (zlen table) (offset + n + m)); simplify_eq. lia.
Qed.

(** A record that carries its own length. *)
Definition self_counted (r : list Z) : Prop := read_u32_le r 0 = Some (zlen r).

Lemma counted_self body : 4 + zlen body < 2 ^ 32 → self_counted (counted body).
Proof.
  intros Hb. unfold self_counted, read_u32_le, counted. pose proof (zlen_nonneg body).
  pose proof (get_range_at [] (le_bytes 4 (4 + zlen body)) body 0 4 eq_refl) as Hr.
  rewrite zlen_le_bytes in Hr. specialize (Hr eq_refl). rewrite app_nil_l in Hr.
  change (0 + 4) with 4. rewrite Hr. unfold mbind, option_bind. f_equal.
  rewrite le_val_le_bytes, zlen_app, zlen_le_bytes.
  change (256 ^ Z.of_nat 4) with (2 ^ 32). by rewrite Z.mod_small by lia.
Qed.

Lemma read_u32_prefix r post n : read_u32_le r 0 = Some n → read_u32_le (r ++ post) 0 = Some n.
Proof.
  unfold read_u32_le. destruct (get_range r 0 (0 + 4)) as [bs|] eqn:E; [|done].
  by rewrite (get_range_app _ _ _ _ _ E).
Qed.

(** The pair that starts where [pre] ends. *)
Lemma next_record_pair_here pre inpcb socket post :
  self_counted inpcb → self_counted socket → 80 ≤ zlen inpcb → 72 ≤ zlen socket →
  zlen (pre ++ (inpcb ++ socket) ++ post) < 2 ^ 64 →
  next_record_pair (pre ++ (inpcb ++ socket) ++ post) (zlen pre)
  = Some (zlen pre + zlen inpcb, zlen pre + zlen inpcb + zlen socket).
Proof.
  intros Hi Hs Hil Hsl Ht. unfold next_record_pair, checked_add.
  pose proof (zlen_nonneg pre). pose proof (zlen_nonneg post).
  rewrite <-(Z.add_0_r (zlen pre)) at 1. rewrite read_u32_shift by lia.
  rewrite <-!app_assoc in *. rewrite (read_u32_prefix _ _ _ Hi). simpl mbind.
  rewrite !zlen_app in *. unfold XINPCB_OFFSET_LADDR, XSOCKET_OFFSET_LAST_PID.
  destruct (Z.ltb_spec (zlen inpcb) (64 + 16)); [lia|].
  destruct (Z.ltb_spec (zlen pre + zlen inpcb) (2 ^ 64)); [|lia]. simpl mbind.
  destruct (Z.ltb_spec (zlen pre + (zlen inpcb + (zlen socket + zlen post)))
    (zlen pre + zlen inpcb)); [lia|].
  rewrite (app_assoc pre inpcb), <-(zlen_app pre inpcb).
  rewrite <-(Z.add_0_r (zlen (pre ++ inpcb))) at 1. rewrite read_u32_shift by lia.
  rewrite (read_u32_prefix _ _ _ Hs), zlen_app. simpl mbind.
  destruct (Z.ltb_spec (zlen socket) (68 + 4)); [lia|].
  destruct (Z.ltb_spec (zlen pre + zlen inpcb + zlen socket) (2 ^ 64)); [|lia]. simpl mbind.
  destruct (Z.ltb_spec (zlen pre + (zlen inpcb + (zlen socket + zlen post)))
    (zlen pre + zlen inpcb + zlen socket)); [lia|]. done.
Qed.

(** *** The choice *)

(** The running maximum keeps the first of the most specific candidates. *)
Lemma best_spec cs :
  match foldl update_best None cs with
  | Some c => ∃ i, cs !! i = Some (Some c)
      ∧ ∀ j c', cs !! j = Some (Some c') →
          specificity c' ≤ specificity c ∧ ((j < i)%nat → specificity c' < specificity c)
  | None => ∀ j c', cs !! j ≠ Some (Some c')
  end.
Proof.
  induction cs as [|o cs IH] using rev_ind; [by intros []|].
  rewrite foldl_app. simpl. destruct o as [c|]; simpl.
  - destruct (foldl update_best None cs) as [b|]; simpl.
    + destruct IH as (i & Hi & Hmax). pose proof (lookup_lt_Some _ _ _ Hi) as Hlt.
      destruct (Z.ltb_spec (specificity b) (specificity c)).
      * exists (length cs). rewrite lookup_app_r, Nat.sub_diag by done. split; [done|].
        intros j c' [Hj|[Hge Hj]]%lookup_app_Some.
        { specialize (Hmax j c' Hj). lia. }
        destruct (j - length cs)%nat eqn:Ej; simplify_eq/=. lia.
      * exists i. split; [by apply lookup_app_l_Some|].
        intros j c' [Hj|[Hge Hj]]%lookup_app_Some; [by apply Hmax|].
        destruct (j - length cs)%nat eqn:Ej; simplify_eq/=. lia.
    + exists (length cs). rewrite lookup_app_r, Nat.sub_diag by done. split; [done|].
      intros j c' [Hj|[Hge Hj]]%lookup_app_Some; [by destruct (IH j c')|].
      destruct (j - length cs)%nat eqn:Ej; simplify_eq/=. lia.
  - destruct (foldl update_best None cs) as [b|]; simpl.
    + destruct IH as (i & Hi & Hmax). exists i. split; [by apply lookup_app_l_Some|].
      intros j c' [Hj|[Hge Hj]]%lookup_app_Some; [by apply Hmax|].
      destruct (j - length cs)%nat eqn:Ej; simplify_eq/=.
    + intros j c' [Hj|[Hge Hj]]%lookup_app_Some; [by destruct (IH j c')|].
      destruct (j - length cs)%nat eqn:Ej; simplify_eq/=.
Qed.

(** *** The walk *)

(** A pair of records as the walk needs them. *)
Record pair_ok (x : list Z * list Z) : Prop := {
  pk_inpcb : self_counted x.1;
  pk_socket : self_counted x.2;
  pk_inpcb_len : 80 ≤ zlen x.1;
  pk_socket_len : 72 ≤ zlen x.2
}.

Definition joined (xs : list (list Z * list Z)) : list Z := concat ((λ x, x.1 ++ x.2) <$> xs).

Lemma scan_loop_walks xs pre tail local remote fuel best :
  Forall pair_ok xs → zlen (pre ++ joined xs ++ tail) < 2 ^ 64 →
  next_record_pair (pre ++ joined xs ++ tail) (zlen (pre ++ joined xs)) = None →
  (length xs < fuel)%nat →
  scan_loop fuel (pre ++ joined xs ++ tail) local remote (zlen pre) best
  = Some (Done (foldl update_best best ((λ x, score_record x.1 x.2 local remote) <$> xs))).
Proof.
  revert pre fuel best. induction xs as [|[i s] xs IH]; intros pre [|fuel] best Hxs Ht Hend Hf;
    simpl in Hf; try lia.
  - unfold joined in *. simpl in *. rewrite app_nil_r in Hend. by rewrite Hend.
  - apply Forall_cons in Hxs as [[Hi Hs Hil Hsl] Hxs].
    cbn [fst snd] in Hi, Hs, Hil, Hsl.
    assert (∀ post, joined ((i, s) :: xs) ++ post = (i ++ s) ++ joined xs ++ post) as Hj
      by (intros; apply (eq_sym (app_assoc _ _ _))).
    rewrite Hj in Ht, Hend |- *. rewrite <-(app_nil_r (joined ((i, s) :: xs))), Hj, app_nil_r in Hend.
    cbn [scan_loop]. rewrite next_record_pair_here by done.
    rewrite <-(app_assoc i s), slice_mid.
    rewrite (app_assoc pre i), <-(zlen_app pre i), slice_mid.
    rewrite <-(zlen_app (pre ++ i) s), (app_assoc (pre ++ i) s).
    rewrite !(app_assoc pre (i ++ s)), (app_assoc pre i s) in Ht, Hend.
    rewrite (app_assoc pre (i ++ s) (joined xs)), (app_assoc pre i s) in Hend.
    rewrite IH; [done|done|done|done|lia].
Qed.

(** *** One record *)

Lemma slot_length pad ip : zlen pad = 12 → zlen (slot pad ip) = 16.
Proof. intros Hp. destruct ip; simpl; by rewrite ?zlen_app, zlen_be_bytes, ?Hp. Qed.

Lemma read_slot pre pad ip post off :
  wf_ip ip → zlen pad = 12 → zlen pre = off →
  read_address (pre ++ slot pad ip ++ post) off (is_ipv6 ip) = Some ip.
Proof.
  intros Hip Hpad Hpre. unfold read_address. destruct ip as [a|a]; simpl slot; simpl is_ipv6.
  - rewrite <-app_assoc, (app_assoc pre pad).
    rewrite get_range_at; [|rewrite zlen_app; lia|rewrite zlen_be_bytes; lia].
    simpl mbind. rewrite be_val_be_bytes. change (256 ^ Z.of_nat 4) with (2 ^ 32).
    by rewrite Z.mod_small.
  - rewrite get_range_at; [|done|rewrite zlen_be_bytes; lia].
    simpl mbind. rewrite be_val_be_bytes. change (256 ^ Z.of_nat 16) with (2 ^ 128).
    by rewrite Z.mod_small.
Qed.

Lemma read_port pre p post off :
  is_port p → zlen pre = off → read_u16_be (pre ++ be_bytes 2 p ++ post) off = Some p.
Proof.
  intros Hp Hpre. unfold read_u16_be. rewrite get_range_at by (rewrite ?zlen_be_bytes; lia).
  simpl mbind. rewrite be_val_be_bytes. change (256 ^ Z.of_nat 2) with 65536.
  by rewrite Z.mod_small.
Qed.

Lemma read_pid pre v post off :
  - 2 ^ 31 ≤ v < 2 ^ 31 → zlen pre = off →
  read_i32_le (pre ++ le_bytes 4 (v mod 2 ^ 32) ++ post) off = Some v.
Proof.
  intros Hv Hpre. unfold read_i32_le. rewrite get_range_at by (rewrite ?zlen_le_bytes; lia).
  cbn [mbind option_bind]. rewrite le_val_le_bytes. change (256 ^ Z.of_nat 4) with (2 ^ 32).
  rewrite Z.mod_mod by lia. f_equal. unfold as_i32.
  destruct (Z.lt_ge_cases v 0).
  - rewrite <-(Z.mod_add v 1 (2 ^ 32)), Z.mod_small by lia.
    destruct (Z.ltb_spec (v + 1 * 2 ^ 32) (2 ^ 31)); lia.
  - rewrite Z.mod_small by lia. destruct (Z.ltb_spec v (2 ^ 31)); lia.
Qed.

Section OneRecord.
Context (p : pcb) (r : pcb_rest) (Hok : pcb_ok p r).

(** The position of a field in the record. *)
Ltac field_offset :=
  destruct Hok; repeat first [rewrite zlen_app | rewrite zlen_le_bytes | rewrite zlen_be_bytes
    | rewrite slot_length by done]; change (zlen [r_vflag r]) with 1; lia.

Lemma read_fport : read_u16_be (encode_inpcb p r) XINPCB_OFFSET_FPORT = Some (pcb_fport p).
Proof.
  unfold encode_inpcb, counted. rewrite (app_assoc _ (r_head r)).
  apply read_port; [apply Hok|unfold XINPCB_OFFSET_FPORT; field_offset].
Qed.

Lemma read_lport : read_u16_be (encode_inpcb p r) XINPCB_OFFSET_LPORT = Some (pcb_lport p).
Proof.
  unfold encode_inpcb, counted. rewrite 2!app_assoc.
  apply read_port; [apply Hok|unfold XINPCB_OFFSET_LPORT; field_offset].
Qed.

Lemma read_vflag : get (encode_inpcb p r) XINPCB_OFFSET_VFLAG = Some (r_vflag r).
Proof.
  unfold encode_inpcb, counted. rewrite 4!app_assoc.
  apply get_at. unfold XINPCB_OFFSET_VFLAG. field_offset.
Qed.

Lemma read_faddr :
  read_address (encode_inpcb p r) XINPCB_OFFSET_FADDR (is_ipv6 (pcb_laddr p)) = Some (pcb_faddr p).
Proof.
  rewrite <-(ok_family _ _ Hok). unfold encode_inpcb, counted. rewrite 6!app_assoc.
  apply read_slot; [apply Hok|apply Hok|unfold XINPCB_OFFSET_FADDR; field_offset].
Qed.

Lemma read_laddr :
  read_address (encode_inpcb p r) XINPCB_OFFSET_LADDR (is_ipv6 (pcb_laddr p)) = Some (pcb_laddr p).
Proof.
  unfold encode_inpcb, counted. rewrite 7!app_assoc.
  apply read_slot; [apply Hok|apply Hok|unfold XINPCB_OFFSET_LADDR; field_offset].
Qed.

Lemma read_last_pid : read_i32_le (encode_socket p r) XSOCKET_OFFSET_LAST_PID = Some (pcb_pid p).
Proof.
  unfold encode_socket, counted. rewrite app_assoc.
  apply read_pid; [apply Hok|unfold XSOCKET_OFFSET_LAST_PID; field_offset].
Qed.

Lemma encode_pair_ok : pair_ok (encode_pair (p, r)).
Proof.
  pose proof (zlen_nonneg (r_tail r)). pose proof (zlen_nonneg (r_stail r)).
  split; simpl; unfold encode_inpcb, encode_socket;
    try (apply counted_self); unfold counted; field_offset.
Qed.

Lemma score_encoded local remote :
  score_record (encode_inpcb p r) (encode_socket p r) local remote
  = MkCandidate (pcb_pid p) <$> level local remote p.
Proof.
  unfold score_record, level. rewrite read_vflag. cbn [mbind option_bind].
  rewrite (ok_vflag _ _ Hok).
  destruct (eqb _ _); [|done]. cbn [negb].
  rewrite read_lport, read_fport. cbn [mbind option_bind].
  destruct (pcb_lport p =? sa_port local); [|done]. cbn [negb].
  rewrite read_laddr, read_faddr. cbn [mbind option_bind].
  destruct (_ && _ && _ && _ && (pcb_fport p =? sa_port remote));
    [|destruct (is_unspecified (pcb_laddr p)); cbn [negb andb];
      [|destruct (bool_decide (pcb_laddr p = sa_ip local)); [|by case_match]]];
    cbn [mbind option_bind]; rewrite read_last_pid; cbn [mbind option_bind];
    by destruct (pcb_pid p <=? 0).
Qed.

End OneRecord.

(** ** Theorems *)

(** The offsets the parser reads are those of the kernel's structures, as the
    build's assertions state. *)
Example pcb_layout_pinned :
  offset_of XinpcbN "xi_len" = Some XINPCB_OFFSET_LEN
  ∧ offset_of XinpcbN "inp_fport" = Some XINPCB_OFFSET_FPORT
  ∧ offset_of XinpcbN "inp_lport" = Some XINPCB_OFFSET_LPORT
  ∧ offset_of XinpcbN "inp_vflag" = Some XINPCB_OFFSET_VFLAG
  ∧ offset_of XinpcbN "inp_dependfaddr" = Some XINPCB_OFFSET_FADDR
  ∧ offset_of XinpcbN "inp_dependladdr" = Some XINPCB_OFFSET_LADDR
  ∧ size_of XinpcbN = 100
  ∧ offset_of XsocketN "xso_len" = Some 0
  ∧ offset_of XsocketN "so_last_pid" = Some XSOCKET_OFFSET_LAST_PID
  ∧ size_of XsocketN = 104.
Proof. vm_compute. split_and!; reflexivity. Qed.

Lemma scan_loop_total table local remote fuel offset best :
  0 ≤ offset → zlen table - offset < Z.of_nat fuel →
  ∃ r, scan_loop (S fuel) table local remote offset best = Some (Done r).
Proof.
  revert offset best. induction fuel as [|fuel IH]; intros offset best Ho Hf; cbn [scan_loop];
    (destruct (next_record_pair table offset) as [[a b]|] eqn:E; [|by eexists]);
    apply next_record_pair_bounds in E as (? & ? & ?); [lia|].
  destruct (slice_in_range table offset a) as (i & -> & _); [lia..|].
  destruct (slice_in_range table a b) as (s & -> & _); [lia..|].
  apply IH; lia.
Qed.

(** the walk is safe on every dump.  Whatever bytes the kernel returns,
    [scan_pcblist] ends within its fuel and never indexes outside the table. *)
Theorem scan_pcblist_total table local remote :
  Forall is_byte table → ∃ r, scan_pcblist table local remote = Some (Done r).
Proof.
  intros Hb. unfold scan_pcblist. destruct (read_u32_le _ _) as [off|] eqn:E; [|by eexists].
  apply read_u32_bound in E; [|done].
  destruct (Z.ltb_spec off XINGPEN_LEN); [by eexists|]. unfold scan_fuel, XINGPEN_LEN in *.
  destruct (Z.lt_ge_cases off (zlen table)).
  - destruct (scan_loop_total table local remote (length table) off None) as [r ->];
      [lia|unfold zlen in *; lia|by eexists].
  - cbn [scan_loop]. destruct (next_record_pair table off) as [[a b]|] eqn:En; [|by eexists].
    apply next_record_pair_bounds in En. lia.
Qed.

Lemma scan_pcblist_total_witness :
  ∃ r, scan_pcblist [24; 0; 0; 0; 255; 255] (SockAddr (V4 1) 2) (SockAddr (V4 3) 4) = Some (Done r).
Proof. apply scan_pcblist_total. concrete. Defined.

Lemma encode_table_joined header socks tail :
  encode_table header socks tail = counted header ++ joined (encode_pair <$> socks) ++ tail.
Proof. unfold encode_table, joined. by rewrite <-list_fmap_compose. Qed.

Lemma joined_length xs : Forall pair_ok xs → (length xs ≤ length (joined xs))%nat.
Proof.
  induction 1 as [|[i s] xs [_ _ Hi _] _ IH]; [done|].
  change (joined ((i, s) :: xs)) with ((i ++ s) ++ joined xs).
  unfold zlen in Hi. cbn [fst length] in *. rewrite !length_app. lia.
Qed.

(** The candidates of an encoded table, as the walk sees them. *)
Lemma scan_encoded header socks tail local remote :
  20 ≤ zlen header → 4 + zlen header < 2 ^ 32 →
  Forall (λ x, pcb_ok x.1 x.2) socks →
  zlen (encode_table header socks tail) < 2 ^ 64 →
  next_record_pair (encode_table header socks tail) (zlen (encode_table header socks [])) = None →
  scan_pcblist (encode_table header socks tail) local remote
  = Some (Done (c_pid <$> foldl update_best None
      ((λ x, MkCandidate (pcb_pid x.1) <$> level local remote x.1) <$> socks))).
Proof.
  intros Hh Hh' Hs Ht Hend. rewrite !encode_table_joined in *. rewrite app_nil_r in Hend.
  assert (Forall pair_ok (encode_pair <$> socks)) as Hp.
  { apply Forall_fmap. eapply Forall_impl; [exact Hs|]. intros [] ?. by apply encode_pair_ok. }
  unfold scan_pcblist, XINPCB_OFFSET_LEN.
  rewrite (read_u32_prefix _ _ _ (counted_self header Hh')).
  unfold XINGPEN_LEN. destruct (Z.ltb_spec (zlen (counted header)) 24) as [Hlt|_].
  { unfold counted in Hlt. rewrite zlen_app, zlen_le_bytes in Hlt. lia. }
  rewrite scan_loop_walks; [|done..|].
  - do 3 f_equal. rewrite <-list_fmap_compose. f_equal.
    apply list_fmap_ext. intros i [q r] Hi. apply score_encoded.
    rewrite Forall_lookup in Hs. by apply (Hs i).
  - apply joined_length in Hp. unfold scan_fuel. rewrite !length_app. lia.
Qed.

Lemma candidate_at (socks : list (pcb * pcb_rest)) local remote (j : nat) c :
  ((λ x : pcb * pcb_rest, MkCandidate (pcb_pid x.1) <$> level local remote x.1) <$> socks) !! j
    = Some (Some c)
  ↔ ∃ x k, socks !! j = Some x ∧ level local remote x.1 = Some k ∧ c = MkCandidate (pcb_pid x.1) k.
Proof.
  rewrite list_lookup_fmap. split.
  - destruct (socks !! j) as [x|]; [|done]. simpl. intros [= H].
    destruct (level local remote x.1) as [k|] eqn:E; [|done]. simplify_eq/=. eauto.
  - intros (x & k & -> & Hk & ->). simpl. by rewrite Hk.
Qed.

(** C24: the owner of a flow.  On a table laid out as the kernel headers say —
    any header, any number of record pairs with any contents in the fields that
    are not read and any lengths, then a trailer or a truncated record — the walk
    returns the pid of the first socket among those that match the flow most
    specifically (connected along it, else bound to its local address, else bound
    to its port on every address), and nothing exactly when none matches. *)
Theorem scan_finds_owner header socks tail local remote :
  20 ≤ zlen header → 4 + zlen header < 2 ^ 32 →
  Forall (λ x, pcb_ok x.1 x.2) socks →
  zlen (encode_table header socks tail) < 2 ^ 64 →
  next_record_pair (encode_table header socks tail) (zlen (encode_table header socks [])) = None →
  ∃ answer, scan_pcblist (encode_table header socks tail) local remote = Some (Done answer)
  ∧ match answer with
    | Some pid => ∃ i x k, socks !! i = Some x ∧ pid = pcb_pid x.1
        ∧ level local remote x.1 = Some k
        ∧ ∀ j x' k', socks !! j = Some x' → level local remote x'.1 = Some k' →
            k' ≤ k ∧ ((j < i)%nat → k' < k)
    | None => ∀ j x, socks !! j = Some x → level local remote x.1 = None
    end.
Proof.
  intros. rewrite scan_encoded by done. eexists. split; [done|].
  set (cs := _ <$> socks). pose proof (best_spec cs) as Hb.
  destruct (foldl update_best None cs) as [c|]; simpl.
  - destruct Hb as (i & (x & k & Hx & Hk & ->)%candidate_at & Hmax).
    exists i, x, k. split_and!; [done..|]. intros j x' k' Hj Hk'.
    apply (Hmax j (MkCandidate (pcb_pid x'.1) k')), candidate_at. eauto.
  - intros j x Hj. destruct (level local remote x.1) as [k|] eqn:E; [|done].
    destruct (Hb j (MkCandidate (pcb_pid x.1) k)). apply candidate_at. eauto.
Qed.

(** A listener on the port of every address, and the connection of the flow. *)
Definition demo_rest : pcb_rest :=
  MkPcbRest (replicate 12 7) (replicate 24 7) 1 [7; 7; 7] (replicate 12 0) (replicate 12 0)
            (replicate 4 7) (replicate 64 7) (replicate 32 7).
Definition demo_local : SocketAddr := SockAddr (V4 (ipv4 10 63 7 1)) 50000.
Definition demo_remote : SocketAddr := SockAddr (V4 (ipv4 93 184 216 34)) 443.
Definition demo_socks : list (pcb * pcb_rest) :=
  [(MkPcb (V4 0) 50000 (V4 0) 0 10, demo_rest);
   (MkPcb (sa_ip demo_local) 50000 (sa_ip demo_remote) 443 20, demo_rest)].
Definition demo_trailer : list Z := counted (replicate 20 0).

Definition pcb_okb (p : pcb) (r : pcb_rest) : bool :=
  (zlen (r_head r) =? 12) && (zlen (r_mid r) =? 24) && (zlen (r_ttl r) =? 3)
  && (zlen (r_fpad r) =? 12) && (zlen (r_lpad r) =? 12) && (zlen (r_shead r) =? 64)
  && (zlen (r_tail r) <? 2 ^ 31) && (zlen (r_stail r) <? 2 ^ 31)
  && eqb (negb (Z.land (r_vflag r) INP_IPV6 =? 0)) (is_ipv6 (pcb_laddr p))
  && eqb (is_ipv6 (pcb_faddr p)) (is_ipv6 (pcb_laddr p))
  && (0 <=? addr_value (pcb_laddr p)) && (addr_value (pcb_laddr p) <? 2 ^ addr_bits (pcb_laddr p))
  && (0 <=? addr_value (pcb_faddr p)) && (addr_value (pcb_faddr p) <? 2 ^ addr_bits (pcb_faddr p))
  && (0 <=? pcb_lport p) && (pcb_lport p <? 65536) && (0 <=? pcb_fport p) && (pcb_fport p <? 65536)
  && (- 2 ^ 31 <=? pcb_pid p) && (pcb_pid p <? 2 ^ 31).

Lemma wf_ip_value ip : 0 ≤ addr_value ip → addr_value ip < 2 ^ addr_bits ip → wf_ip ip.
Proof. destruct ip; unfold wf_ip; simpl; lia. Qed.

Lemma pcb_okb_sound p r : pcb_okb p r = true → pcb_ok p r.
Proof.
  unfold pcb_okb. rewrite !andb_true_iff, !Z.eqb_eq, !Z.ltb_lt, !Z.leb_le.
  intros H. destruct_and! H.
  split; try done; try by apply eqb_prop. all: by apply wf_ip_value.
Qed.

Lemma scan_finds_owner_witness :
  scan_pcblist (encode_table (replicate 20 0) demo_socks demo_trailer) demo_local demo_remote
    = Some (Done (Some 20))
  ∧ ∃ answer,
    scan_pcblist (encode_table (replicate 20 0) demo_socks demo_trailer) demo_local demo_remote
      = Some (Done answer)
    ∧ match answer with
      | Some pid => ∃ i x k, demo_socks !! i = Some x ∧ pid = pcb_pid x.1
          ∧ level demo_local demo_remote x.1 = Some k
          ∧ ∀ j x' k', demo_socks !! j = Some x' → level demo_local demo_remote x'.1 = Some k' →
              k' ≤ k ∧ ((j < i)%nat → k' < k)
      | None => ∀ j x, demo_socks !! j = Some x → level demo_local demo_remote x.1 = None
      end.
Proof.
  split; [vm_compute; reflexivity|].
  apply (scan_finds_owner (replicate 20 0) demo_socks demo_trailer demo_local demo_remote);
    [concrete|concrete| |concrete|concrete].
  constructor; [|constructor; [|constructor]]; apply pcb_okb_sound; vm_compute; reflexivity.
Defined.

(** A v4 flow is never attributed to a v6 socket, nor the reverse. *)
Lemma level_family local remote p k :
  level local remote p = Some k → is_ipv6 (pcb_laddr p) = is_ipv6 (sa_ip local).
Proof.
  unfold level. destruct (eqb _ _) eqn:E; [|done]. intros _. by apply eqb_prop.
Qed.

(** *** The remote endpoint *)

(** It grades a record, and never rules one out. *)
Lemma score_record_remote inpcb socket local r1 r2 :
  c_pid <$> score_record inpcb socket local r1 = c_pid <$> score_record inpcb socket local r2.
Proof.
  unfold score_record. destruct (get _ _); [|done]. cbn [mbind option_bind].
  destruct (negb (eqb _ _)); [done|].
  destruct (read_u16_be inpcb XINPCB_OFFSET_LPORT); [|done]. cbn [mbind option_bind].
  destruct (read_u16_be inpcb XINPCB_OFFSET_FPORT); [|done]. cbn [mbind option_bind].
  destruct (negb (_ =? _)); [done|].
  destruct (read_address inpcb XINPCB_OFFSET_LADDR _) as [la|]; [|done]. cbn [mbind option_bind].
  destruct (read_address inpcb XINPCB_OFFSET_FADDR _) as [fa|]; [|done]. cbn [mbind option_bind].
  destruct (_ && bool_decide (fa = sa_ip r1) && (_ =? sa_port r1)) eqn:E1;
  destruct (_ && bool_decide (fa = sa_ip r2) && (_ =? sa_port r2)) eqn:E2;
    rewrite ?andb_true_iff in E1; rewrite ?andb_true_iff in E2; destruct_and?;
    destruct (is_unspecified la), (bool_decide (la = sa_ip local)); cbn [andb negb mbind option_bind]; try done;
    destruct (read_i32_le _ _); cbn [mbind option_bind]; try done; by case_match.
Qed.

Lemma update_best_remote b1 b2 o1 o2 :
  (b1 = None ↔ b2 = None) → c_pid <$> o1 = c_pid <$> o2 →
  update_best b1 o1 = None ↔ update_best b2 o2 = None.
Proof. destruct b1, b2, o1, o2; simpl; intros [] ?; repeat case_match; split; (done || tauto). Qed.

Lemma scan_loop_remote table local r1 r2 fuel offset b1 b2 :
  (b1 = None ↔ b2 = None) →
  scan_loop fuel table local r1 offset b1 = Some (Done None)
  → scan_loop fuel table local r2 offset b2 = Some (Done None).
Proof.
  revert offset b1 b2. induction fuel as [|fuel IH]; intros offset b1 b2 Hb; cbn [scan_loop]; [done|].
  destruct (next_record_pair table offset) as [[a b]|];
    [|intros [= ->]; by rewrite (proj1 Hb eq_refl)].
  destruct (slice table offset a); [|done]. destruct (slice table a b); [|done].
  apply IH, update_best_remote; [done|]. apply score_record_remote.
Qed.

(** C25: where a flow goes never decides whether it has an owner.  On every dump,
    whatever its bytes, a flow is left unattributed for one remote endpoint exactly
    when it is for every other: a socket connected to one peer is taken for the
    owner of its local endpoint's flows to any peer. *)
Theorem remote_never_excludes table local r1 r2 :
  scan_pcblist table local r1 = Some (Done None) ↔ scan_pcblist table local r2 = Some (Done None).
Proof.
  assert (∀ r r', scan_pcblist table local r = Some (Done None) →
                  scan_pcblist table local r' = Some (Done None)) as H.
  { intros r r'. unfold scan_pcblist. destruct (read_u32_le _ _) as [off|]; [|done].
    destruct (off <? XINGPEN_LEN); [done|].
    destruct (scan_loop _ table local r off None) as [[[c|]|]|] eqn:E; try done. intros _.
    by rewrite (scan_loop_remote table local r r' _ _ None None (iff_refl _) E). }
  split; apply H.
Qed.
