(* ===== verification/WindowsProcess.v ===== *)
(** * Process attribution on Windows ([platform/windows/process.rs])

    The search of the IP-Helper owner tables and the executable's file name.
    What [GetExtendedTcpTable], [GetExtendedUdpTable] and
    [QueryFullProcessImageNameW] return is an argument: a table is its return
    codes and its rows, with the fields as the API stores them (addresses in
    memory order, ports in network order in the low half of a word). *)

From S2P Require Export Platform.
Local Open Scope Z_scope.

Definition ERROR_INSUFFICIENT_BUFFER : Z := 122.
Definition NO_ERROR : Z := 0.

(** [u16::swap_bytes] *)
Definition swap_bytes (p : Z) : Z := Z.lor (Z.shiftl (Z.land p 255) 8) (Z.shiftr p 8).

Definition table_port_to_host (dw_local_port : Z) : Z := swap_bytes (Z.land dw_local_port 0xFFFF).

(** [u32::from_le_bytes(ip.octets())] *)
Definition ipv4_table_key (a : Z) : Z := le_val (octets (V4 a)).

(** [MIB_TCPROW_OWNER_PID] and the like: the fields that are read. *)
Record row4 : Type := MkRow4 { dwLocalAddr : Z; dwLocalPort4 : Z; dwOwningPid4 : Z }.
Record row6 : Type := MkRow6 { ucLocalAddr : list Z; dwLocalPort6 : Z; dwOwningPid6 : Z }.

(** The answers to the two calls that fetch a table: the code of the sizing
    call, the code of the filling call, the rows then in the buffer. *)
Record fetched (R : Type) : Type := MkFetched { size_rc : Z; fill_rc : Z; rows : list R }.
Arguments MkFetched {R}.
Arguments size_rc {R}.
Arguments fill_rc {R}.
Arguments rows {R}.

Definition fetch_table {R} (f : fetched R) : option (list R) :=
  if negb (size_rc f =? ERROR_INSUFFICIENT_BUFFER) then None
  else if negb (fill_rc f =? NO_ERROR) then None
  else Some (rows f).

(** [for row in rows { if c { return Some(..) } }] *)
Fixpoint first_row {R} (c : R → bool) (pid : R → Z) (rs : list R) : option Z :=
  match rs with
  | [] => None
  | r :: rs' => if c r then Some (pid r) else first_row c pid rs'
  end.

Definition or_else {A} (o : option A) (k : option A) : option A :=
  match o with Some _ => o | None => k end.

Record ip_helper : Type := MkIpHelper {
  tcp4 : fetched row4; udp4 : fetched row4; tcp6 : fetched row6; udp6 : fetched row6
}.

Section Tables.
Context (os : ip_helper).

Definition resolve_pid_tcp_v4 (ip port : Z) : option Z :=
  rs ← fetch_table (tcp4 os);
  let key := ipv4_table_key ip in
  first_row (λ r, (dwLocalAddr r =? key) && (table_port_to_host (dwLocalPort4 r) =? port))
    dwOwningPid4 rs.

Definition resolve_pid_udp_v4 (ip port : Z) : option Z :=
  rs ← fetch_table (udp4 os);
  let key := ipv4_table_key ip in
  or_else
    (first_row (λ r, (dwLocalAddr r =? key) && (table_port_to_host (dwLocalPort4 r) =? port))
      dwOwningPid4 rs)
    (first_row (λ r, (dwLocalAddr r =? 0) && (table_port_to_host (dwLocalPort4 r) =? port))
      dwOwningPid4 rs).

Definition resolve_pid_tcp_v6 (ip port : Z) : option Z :=
  rs ← fetch_table (tcp6 os);
  let os6 := octets (V6 ip) in
  first_row (λ r, bool_decide (ucLocalAddr r = os6) && (table_port_to_host (dwLocalPort6 r) =? port))
    dwOwningPid6 rs.

Definition resolve_pid_udp_v6 (ip port : Z) : option Z :=
  rs ← fetch_table (udp6 os);
  let os6 := octets (V6 ip) in
  let any := replicate 16 0 in
  first_row (λ r, (bool_decide (ucLocalAddr r = os6) || bool_decide (ucLocalAddr r = any))
                  && (table_port_to_host (dwLocalPort6 r) =? port))
    dwOwningPid6 rs.

Definition resolve_pid (local_ip : IpAddr) (local_port : Z) (is_udp : bool) : option Z :=
  match local_ip with
  | V4 v4 =>
    if is_udp then or_else (resolve_pid_udp_v4 v4 local_port) (resolve_pid_tcp_v4 v4 local_port)
    else resolve_pid_tcp_v4 v4 local_port
  | V6 v6 =>
    if is_udp then or_else (resolve_pid_udp_v6 v6 local_port) (resolve_pid_tcp_v6 v6 local_port)
    else resolve_pid_tcp_v6 v6 local_port
  end.

End Tables.

(** [String::from_utf16_lossy] *)
Definition is_high (x : Z) : bool := (0xD800 <=? x) && (x <=? 0xDBFF).
Definition is_low (x : Z) : bool := (0xDC00 <=? x) && (x <=? 0xDFFF).
Fixpoint from_utf16_lossy (us : list Z) : str :=
  match us with
  | [] => []
  | x :: us' =>
    if is_high x then
      match us' with
      | y :: us'' =>
        if is_low y
        then (0x10000 + (x - 0xD800) * 1024 + (y - 0xDC00)) :: from_utf16_lossy us''
        else 0xFFFD :: from_utf16_lossy us'
      | [] => [0xFFFD]
      end
    else if is_low x then 0xFFFD :: from_utf16_lossy us'
    else x :: from_utf16_lossy us'
  end.

(** [opened] says whether [OpenProcess] succeeds for the pid; [image] is what
    [QueryFullProcessImageNameW] writes, [None] for its failure. *)
Definition process_path (opened : Z → bool) (image : Z → option (list Z)) (pid : Z) : option str :=
  if pid =? 0 then None
  else if negb (opened pid) then None
  else units ← image pid;
       if zlen units =? 0 then None else Some (from_utf16_lossy units).

Definition is_separator (c : Z) : bool := (c =? 92) || (c =? 47).

(** [&path[last..]] from after the last separator. *)
Fixpoint file_name (path : str) : str :=
  match path with
  | [] => []
  | c :: path' =>
    if existsb is_separator path' then file_name path'
    else if is_separator c then path' else path
  end.

Definition process_name (opened : Z → bool) (image : Z → option (list Z)) (pid : Z) : option str :=
  file_name <$> process_path opened image pid.

(** ** Specifications *)

(** A socket as the kernel knows it, and its row: the high half of the port
    word is unspecified. *)
Record owned : Type := MkOwned { o_addr : Z; o_port : Z; o_pid : Z; o_junk : Z }.

Definition port_word (port junk : Z) : Z := junk * 65536 + swap_bytes port.
Definition row4_of (s : owned) : row4 :=
  MkRow4 (ipv4_table_key (o_addr s)) (port_word (o_port s) (o_junk s)) (o_pid s).
Definition row6_of (s : owned) : row6 :=
  MkRow6 (octets (V6 (o_addr s))) (port_word (o_port s) (o_junk s)) (o_pid s).

Definition owned_ok (bits : Z) (s : owned) : Prop :=
  0 ≤ o_addr s < 2 ^ bits ∧ 0 ≤ o_port s < 65536.
#[export] Instance owned_ok_dec bits s : Decision (owned_ok bits s).
Proof. unfold owned_ok. apply _. Defined.

Definition table_of {R} (f : owned → R) (socks : list owned) : fetched R :=
  MkFetched ERROR_INSUFFICIENT_BUFFER NO_ERROR (f <$> socks).

(** The sockets of a machine, per protocol and family. *)
Record sockets : Type := MkSockets {
  s_tcp4 : list owned; s_udp4 : list owned; s_tcp6 : list owned; s_udp6 : list owned
}.
Definition kernel_tables (s : sockets) : ip_helper :=
  MkIpHelper (table_of row4_of (s_tcp4 s)) (table_of row4_of (s_udp4 s))
             (table_of row6_of (s_tcp6 s)) (table_of row6_of (s_udp6 s)).

Definition sockets_ok (s : sockets) : Prop :=
  Forall (owned_ok 32) (s_tcp4 s) ∧ Forall (owned_ok 32) (s_udp4 s)
  ∧ Forall (owned_ok 128) (s_tcp6 s) ∧ Forall (owned_ok 128) (s_udp6 s).
#[export] Instance sockets_ok_dec s : Decision (sockets_ok s).
Proof. unfold sockets_ok. apply _. Defined.

(** The owner of an endpoint in a list of sockets: the first bound to it. *)
Definition bound_to (addr port : Z) (socks : list owned) : option Z :=
  o_pid <$> find (λ s, (o_addr s =? addr) && (o_port s =? port)) socks.
Definition bound_to_either (a b port : Z) (socks : list owned) : option Z :=
  o_pid <$> find (λ s, ((o_addr s =? a) || (o_addr s =? b)) && (o_port s =? port)) socks.

(** ** Lemmas *)

Lemma swap_swap p : 0 ≤ p < 65536 → swap_bytes (swap_bytes p) = p.
Proof.
  intros Hp. unfold swap_bytes.
  assert (∀ q, 0 ≤ q < 65536 → Z.lor (Z.shiftl (Z.land q 255) 8) (Z.shiftr q 8)
    = q mod 256 * 256 + q / 256) as Hs.
  { intros q Hq. rewrite land_255, (lor_shiftl_add 8), Z.shiftr_div_pow2 by
      (rewrite ?Z.shiftr_div_pow2 by lia; change (2 ^ 8) with 256; dlia). done. }
  rewrite (Hs p) by done. rewrite Hs by dlia. dlia.
Qed.

Lemma swap_range p : 0 ≤ p < 65536 → 0 ≤ swap_bytes p < 65536.
Proof.
  intros Hp. unfold swap_bytes. rewrite land_255, (lor_shiftl_add 8), Z.shiftr_div_pow2 by
    (rewrite ?Z.shiftr_div_pow2 by lia; change (2 ^ 8) with 256; dlia).
  change (2 ^ 8) with 256. dlia.
Qed.

Lemma table_port_word port junk :
  0 ≤ port < 65536 → table_port_to_host (port_word port junk) = port.
Proof.
  intros Hp. unfold table_port_to_host, port_word.
  change 0xFFFF with (Z.ones 16). rewrite Z.land_ones by lia. change (2 ^ 16) with 65536.
  rewrite Z.add_comm, Z.mod_add by lia. rewrite Z.mod_small by (by apply swap_range).
  by apply swap_swap.
Qed.

Lemma octets_inj_v6 a b : 0 ≤ a < 2 ^ 128 → 0 ≤ b < 2 ^ 128 → octets (V6 a) = octets (V6 b) → a = b.
Proof.
  intros Ha Hb H. apply (f_equal be_val) in H. unfold octets in H.
  rewrite !be_val_be_bytes in H. change (256 ^ Z.of_nat 16) with (2 ^ 128) in H.
  by rewrite !Z.mod_small in H.
Qed.

Lemma ipv4_table_key_inj a b :
  0 ≤ a < 2 ^ 32 → 0 ≤ b < 2 ^ 32 → ipv4_table_key a = ipv4_table_key b → a = b.
Proof.
  intros Ha Hb H. unfold ipv4_table_key, octets, le_val in H.
  assert (∀ x, 0 ≤ x < 2 ^ 32 → be_val (be_bytes 4 x) = x) as Hround.
  { intros x Hx. rewrite be_val_be_bytes. by rewrite Z.mod_small. }
  rewrite <-(Hround a), <-(Hround b) by done. f_equal.
  apply (f_equal (be_bytes 4)) in H.
  assert (∀ x, be_bytes 4 (be_val (reverse (be_bytes 4 x))) = reverse (be_bytes 4 x)) as Hr.
  { intros x. rewrite <-(length_be_bytes 4 x) at 1. rewrite <-length_reverse.
    apply be_bytes_be_val, Forall_reverse, be_bytes_byte. }
  rewrite !Hr in H. by apply (inj reverse) in H.
Qed.

Lemma first_row_find {R} (f : owned → R) c c' pid socks (P : owned → Prop) :
  Forall P socks → (∀ s, P s → c (f s) = c' s) → (∀ s, pid (f s) = o_pid s) →
  first_row c pid (f <$> socks) = o_pid <$> find c' socks.
Proof.
  intros Hs Hc Hp. induction Hs as [|s socks Hsk _ IH]; [done|].
  simpl. rewrite (Hc s Hsk). destruct (c' s); [by rewrite Hp|done].
Qed.

Lemma row4_matches a port s :
  0 ≤ a < 2 ^ 32 → owned_ok 32 s →
  (dwLocalAddr (row4_of s) =? ipv4_table_key a)
    && (table_port_to_host (dwLocalPort4 (row4_of s)) =? port)
  = (o_addr s =? a) && (o_port s =? port).
Proof.
  intros Ha [Hs Hp]. simpl. rewrite table_port_word by done. f_equal.
  destruct (Z.eqb_spec (o_addr s) a) as [->|Hne]; [by rewrite Z.eqb_refl|].
  apply Z.eqb_neq. intros H. by apply ipv4_table_key_inj in H.
Qed.

Lemma row6_addr a s :
  0 ≤ a < 2 ^ 128 → owned_ok 128 s →
  bool_decide (ucLocalAddr (row6_of s) = octets (V6 a)) = (o_addr s =? a).
Proof.
  intros Ha [Hs _]. simpl ucLocalAddr.
  destruct (Z.eqb_spec (o_addr s) a) as [->|Hne]; [by apply bool_decide_eq_true|].
  apply bool_decide_eq_false. intros H. by apply octets_inj_v6 in H.
Qed.

(** ** Theorems *)

(** C27: the owner of an endpoint, from tables as the API fills them.  Addresses
    and ports are compared as the sockets have them (byte orders and the
    unspecified half of the port word cancel out).  A TCP flow belongs to the
    first TCP socket bound to its endpoint; a UDP flow over IPv4 to the first
    UDP socket bound to it, else to the first bound to the port on every address,
    over IPv6 to the first of either kind, and when there is none to the TCP
    owner of the endpoint. *)
Theorem windows_finds_owner s ip port is_udp :
  sockets_ok s → wf_ip ip →
  resolve_pid (kernel_tables s) ip port is_udp
  = match ip with
    | V4 a =>
      if is_udp
      then or_else (or_else (bound_to a port (s_udp4 s)) (bound_to 0 port (s_udp4 s)))
                   (bound_to a port (s_tcp4 s))
      else bound_to a port (s_tcp4 s)
    | V6 a =>
      if is_udp
      then or_else (bound_to_either a 0 port (s_udp6 s)) (bound_to a port (s_tcp6 s))
      else bound_to a port (s_tcp6 s)
    end.
Proof.
  intros (Ht4 & Hu4 & Ht6 & Hu6) Hip.
  unfold resolve_pid, resolve_pid_tcp_v4, resolve_pid_udp_v4, resolve_pid_tcp_v6, resolve_pid_udp_v6.
  destruct ip as [a|a]; unfold wf_ip in Hip.
  - change 0 with (ipv4_table_key 0) at 1.
    assert (∀ b socks, 0 ≤ b < 2 ^ 32 → Forall (owned_ok 32) socks →
      first_row (λ r, (dwLocalAddr r =? ipv4_table_key b)
        && (table_port_to_host (dwLocalPort4 r) =? port)) dwOwningPid4 (row4_of <$> socks)
      = bound_to b port socks) as Hrow.
    { intros b socks Hb Hs. apply (first_row_find _ _ _ _ _ (owned_ok 32)); [done| |done].
      intros o Ho. by apply row4_matches. }
    destruct is_udp; simpl; rewrite !Hrow by (done || lia); done.
  - assert (∀ socks, Forall (owned_ok 128) socks →
      first_row (λ r, bool_decide (ucLocalAddr r = octets (V6 a))
        && (table_port_to_host (dwLocalPort6 r) =? port)) dwOwningPid6 (row6_of <$> socks)
      = bound_to a port socks) as Hrow.
    { intros socks Hs. apply (first_row_find _ _ _ _ _ (owned_ok 128)); [done| |done].
      intros o Ho. rewrite row6_addr by done. simpl. by rewrite table_port_word by apply Ho. }
    destruct is_udp; [|simpl; by rewrite Hrow].
    cbn [mbind option_bind fetch_table kernel_tables table_of tcp6 udp6 size_rc fill_rc rows].
    f_equal; [|by apply Hrow].
    apply (first_row_find _ _ _ _ _ (owned_ok 128)); [done| |done].
    intros o Ho. change (replicate 16 0) with (octets (V6 0)).
    rewrite !row6_addr by (done || lia). simpl. by rewrite table_port_word by apply Ho.
Qed.

(** The file name holds no separator, and the path is a directory part, empty
    or ended by a separator, followed by it. *)
Lemma file_name_spec path :
  existsb is_separator (file_name path) = false
  ∧ ∃ dir, path = dir ++ file_name path
    ∧ (dir = [] ∨ ∃ d c, dir = d ++ [c] ∧ is_separator c = true).
Proof.
  induction path as [|c path [IH1 (dir & IH2 & IH3)]]; simpl.
  { split; [done|]. exists []. auto. }
  destruct (existsb is_separator path) eqn:E.
  - split; [done|]. exists (c :: dir). split; [simpl; congruence|].
    right. destruct IH3 as [->|(d & x & -> & Hx)].
    + simpl in IH2. congruence.
    + by exists (c :: d), x.
  - destruct (is_separator c) eqn:Ec.
    + split; [done|]. exists [c]. split; [done|]. right. by exists [], c.
    + split; [simpl; by rewrite Ec|]. exists []. auto.
Qed.

(** what a rule sees of a process on Windows.  Whatever image path the
    system reports, the process name is its last component: without separators,
    and preceded in the path by nothing or by a directory that ends in one.  The
    idle process, and a process that cannot be opened or queried, has no name. *)
Theorem windows_process_name opened image pid :
  match process_name opened image pid with
  | Some name => pid ≠ 0 ∧ opened pid = true
      ∧ existsb is_separator name = false
      ∧ ∃ units dir, image pid = Some units ∧ from_utf16_lossy units = dir ++ name
        ∧ (dir = [] ∨ ∃ d c, dir = d ++ [c] ∧ is_separator c = true)
  | None => pid = 0 ∨ opened pid = false ∨ image pid = None ∨ image pid = Some []
  end.
Proof.
  unfold process_name, process_path.
  destruct (Z.eqb_spec pid 0); [by left|].
  destruct (opened pid); simpl; [|by right; left].
  destruct (image pid) as [us|]; simpl; [|auto].
  destruct (Z.eqb_spec (zlen us) 0) as [Hz|].
  { destruct us; [by do 3 right|done]. }
  simpl. destruct (file_name_spec (from_utf16_lossy us)) as (H1 & dir & H2 & H3).
  split_and!; [done..|]. by exists us, dir.
Qed.

(** ** Witnesses and concrete behaviours *)

Definition demo_sockets : sockets :=
  MkSockets [MkOwned (ipv4 10 63 7 1) 50000 7 3] [MkOwned 0 50000 8 9; MkOwned (ipv4 10 63 7 1) 50000 9 1]
            [] [MkOwned 0 50000 8 9; MkOwned TUN_IPV6 50000 9 1].

Lemma windows_finds_owner_witness :
  resolve_pid (kernel_tables demo_sockets) (V4 (ipv4 10 63 7 1)) 50000 true
  = or_else (or_else (bound_to (ipv4 10 63 7 1) 50000 (s_udp4 demo_sockets))
                     (bound_to 0 50000 (s_udp4 demo_sockets)))
            (bound_to (ipv4 10 63 7 1) 50000 (s_tcp4 demo_sockets)).
Proof.
  apply (windows_finds_owner demo_sockets (V4 (ipv4 10 63 7 1)) 50000 true); [concrete|].
  vm_compute. split; [discriminate|reflexivity].
Defined.

(** Over IPv4 the exact binding wins; over IPv6 a wildcard binding earlier in
    the table shadows it. *)
Example wildcard_shadows_exact_v6 :
  resolve_pid (kernel_tables demo_sockets) (V4 (ipv4 10 63 7 1)) 50000 true = Some 9
  ∧ resolve_pid (kernel_tables demo_sockets) (V6 TUN_IPV6) 50000 true = Some 8.
Proof. vm_compute. auto. Qed.

Example file_names :
  file_name (u "C:\Program Files\chrome.exe") = u "chrome.exe"
  ∧ file_name (u "/usr/bin/curl") = u "curl" ∧ file_name (u "chrome.exe") = u "chrome.exe".
Proof. vm_compute. auto. Qed.
