(* ===== verification/LinuxProcess.v ===== *)
(** * Process attribution on Linux ([platform/linux/process.rs])

    From a flow's endpoints to a socket inode, by a short sequence of sock_diag
    queries, and from the inode to a process, by the walk over [/proc].  The
    netlink replies, their deserialisation (a library's) and the contents of
    [/proc] are arguments; the caches are state, as in the source. *)

From S2P Require Export Attribution Netlink.
Local Open Scope Z_scope.

Definition AF_INET : Z := 2.
Definition AF_INET6 : Z := 10.
Definition IPPROTO_TCP : Z := 6.
Definition IPPROTO_UDP : Z := 17.

(** ** Privileges *)

Definition CAP_NET_ADMIN : Z := 12.
Definition CAP_NET_RAW : Z := 13.

(** [data[word].effective & bit != 0] over the two words [capget] fills. *)
Definition has_capability (data : list Z) (cap : Z) : outcome bool :=
  effective ← index data (cap / 32);
  Done (negb (Z.land effective (Z.shiftl 1 (cap mod 32)) =? 0)).

(** [capget]: [None] when the call fails, else the effective words. *)
Definition is_privileged (capget : option (list Z)) (euid : Z) : outcome bool :=
  match capget with
  | Some data =>
    a ← has_capability data CAP_NET_ADMIN;
    if a : bool then has_capability data CAP_NET_RAW else Done false
  | None => Done (euid =? 0)
  end.

(** ** sock_diag *)

Record SocketId : Type := MkSocketId {
  source_port : Z; destination_port : Z;
  source_address : IpAddr; destination_address : IpAddr
}.

Definition wildcard (ip : IpAddr) : IpAddr := match ip with V4 _ => V4 0 | V6 _ => V6 0 end.

Definition or_else {A} (o : option A) (k : option A) : option A :=
  match o with Some _ => o | None => k end.

Definition query_socket_inode (query_one : Z → Z → SocketId → option Z)
    (local remote : SocketAddr) (is_udp : bool) : option Z :=
  let family := if is_ipv4 (sa_ip local) then AF_INET else AF_INET6 in
  let protocol := if is_udp then IPPROTO_UDP else IPPROTO_TCP in
  let local_address := sa_ip local in
  let local_port := sa_port local in
  let remote_address := sa_ip remote in
  let remote_port := sa_port remote in
  if is_udp then
    or_else
      (or_else
        (query_one family protocol (MkSocketId remote_port local_port local_address remote_address))
        (query_one family protocol (MkSocketId 0 local_port local_address local_address)))
      (query_one family protocol
        (MkSocketId 0 local_port (wildcard local_address) (wildcard local_address)))
  else
    or_else
      (or_else
        (query_one family protocol (MkSocketId local_port remote_port local_address remote_address))
        (query_one family protocol (MkSocketId local_port 0 local_address (wildcard local_address))))
      (query_one family protocol
        (MkSocketId local_port 0 (wildcard local_address) (wildcard local_address))).

(** A reply, once deserialised. *)
Inductive diag_payload : Type :=
  | InetResponse (inode : Z)
  | NetlinkError
  | OtherPayload.

Definition inode_of (inode : Z) : option Z := if inode =? 0 then None else Some inode.

Definition REQUEST_SEQUENCE : Z := 1.

Section Netlink.
Context (deserialize : list Z → option (Z * diag_payload)).

(** What a reply to the request says: an answer, or wait for the next. *)
Definition diag_answer (p : diag_payload) : option (option Z) :=
  match p with
  | InetResponse inode => Some (inode_of inode)
  | NetlinkError => Some None
  | OtherPayload => None
  end.

(** [query_one]: [setup] says whether opening, binding, configuring and sending
    succeeded; the replies are those to this request. *)
Definition query_one (setup : bool) (replies : list (result io_error (list Z))) : option Z :=
  if setup then recv_loop deserialize REQUEST_SEQUENCE (λ _, None) None diag_answer [] replies
  else None.

End Netlink.

(** ** [/proc] *)

(** One entry: its name, and its [fd] directory when it can be listed, as the
    targets of its links ([None]: unreadable). *)
Record proc_entry : Type := MkProcEntry { pe_name : str; pe_fds : option (list (option str)) }.

Definition socket_inode_of (link_target : str) : option Z :=
  rest ← strip_prefix link_target (u "socket:[");
  digits ← strip_suffix rest (u "]");
  parse_uint (2 ^ 64 - 1) digits.

(** [map.entry(inode).or_insert(pid)] *)
Definition or_insert (m : gmap Z Z) (inode pid : Z) : gmap Z Z :=
  match m !! inode with Some _ => m | None => <[inode := pid]> m end.

Fixpoint scan_fds (pid : Z) (fds : list (option str)) (m : gmap Z Z) : gmap Z Z :=
  match fds with
  | [] => m
  | target :: fds' =>
    scan_fds pid fds'
      match target ≫= socket_inode_of with Some inode => or_insert m inode pid | None => m end
  end.

Fixpoint scan_entries (entries : list proc_entry) (m : gmap Z Z) : gmap Z Z :=
  match entries with
  | [] => m
  | e :: entries' =>
    scan_entries entries'
      match parse_u32 (pe_name e), pe_fds e with
      | Some pid, Some fds => scan_fds pid fds m
      | _, _ => m
      end
  end.

(** [None]: [/proc] itself cannot be listed. *)
Definition scan_socket_inodes (proc : option (list proc_entry)) : gmap Z Z :=
  match proc with None => ∅ | Some entries => scan_entries entries ∅ end.

(** The inode half of [ProcessCache]. *)
Definition inode_to_pid (proc : option (list proc_entry)) (now inode : Z)
    (inodes : option (gmap Z Z * Z)) : option Z * option (gmap Z Z * Z) :=
  match inodes ≫= (λ '(m, _), m !! inode) with
  | Some pid => (Some pid, inodes)
  | None =>
    let m := scan_socket_inodes proc in (m !! inode, Some (m, now))
  end.

(** What a lookup finds in the kernel: the sock_diag answers and [/proc]. *)
Definition pid_query (query_one : Z → Z → SocketId → option Z) (proc : option (list proc_entry))
    (now : Z) (local remote : SocketAddr) (is_udp : bool)
    (inodes : option (gmap Z Z * Z)) : option Z * option (gmap Z Z * Z) :=
  match query_socket_inode query_one local remote is_udp with
  | None => (None, inodes)
  | Some inode => inode_to_pid proc now inode inodes
  end.

Definition resolve_pid (query_one : Z → Z → SocketId → option Z) (proc : option (list proc_entry))
    (now : Z) (local remote : SocketAddr) (is_udp : bool)
    (c : endpoints_map * option (gmap Z Z * Z))
    : option Z * (endpoints_map * option (gmap Z Z * Z)) :=
  resolve_with (pid_query query_one proc now local remote is_udp)
    (endpoint_key local is_udp) now c.

(** [Path::file_name]: the last component that is not [.]; none for [..]. *)
Definition path_file_name (path : str) : option str :=
  let components := List.filter (λ c, negb (is_empty c) && negb (str_eqb c (u ".")))
                      (split (Z.eqb 47) path) in
  name ← last components;
  if str_eqb name (u "..") then None else Some name.

(** [comm] and [exe]: the file and the link of the process, [None] when they
    cannot be read. *)
Definition process_name (comm exe : option str) : option str :=
  comm ← comm;
  let name := trim comm in
  if negb (is_empty name) then Some name
  else exe ← exe; path_file_name exe.

(** ** Lemmas *)

Lemma land_bit e n : 0 ≤ n → negb (Z.land e (Z.shiftl 1 n) =? 0) = Z.testbit e n.
Proof.
  intros Hn. rewrite Z.shiftl_1_l. destruct (Z.testbit e n) eqn:E.
  - apply negb_true_iff, Z.eqb_neq. intros H.
    assert (Z.testbit (Z.land e (2 ^ n)) n = true) as Ht.
    { by rewrite Z.land_spec, E, Z.pow2_bits_true by lia. }
    by rewrite H, Z.bits_0 in Ht.
  - apply negb_false_iff, Z.eqb_eq, Z.bits_inj'. intros i Hi.
    rewrite Z.land_spec, Z.bits_0, Z.pow2_bits_eqb by lia.
    destruct (Z.eqb_spec n i) as [->|]; [by rewrite E|apply andb_false_r].
Qed.

(** Both capabilities, in the first word. *)
Lemma is_privileged_caps lo hi euid :
  is_privileged (Some [lo; hi]) euid = Done (Z.testbit lo 12 && Z.testbit lo 13).
Proof.
  unfold is_privileged, has_capability.
  change (index [lo; hi] (CAP_NET_ADMIN / 32)) with (Done lo).
  change (index [lo; hi] (CAP_NET_RAW / 32)) with (Done lo).
  change (CAP_NET_ADMIN mod 32) with 12. change (CAP_NET_RAW mod 32) with 13.
  cbn [mbind outcome_bind]. rewrite !land_bit by lia. by destruct (Z.testbit lo 12).
Qed.

(** ** Specifications *)

(** The entries of [/proc] by what they are.  A process lists its descriptors,
    or hides them; anything else is not named by a pid. *)
Inductive fd_link : Type := FdSocket (inode : Z) | FdOther (target : str) | FdUnreadable.
Inductive proc_item : Type :=
  | Process (pid : Z) (fds : list fd_link)
  | Hidden (pid : Z)
  | NotProcess (name : str) (fds : option (list (option str))).

Definition link_text (f : fd_link) : option str :=
  match f with
  | FdSocket n => Some (u "socket:[" ++ dec n ++ u "]")
  | FdOther t => Some t
  | FdUnreadable => None
  end.
Definition entry_of (i : proc_item) : proc_entry :=
  match i with
  | Process pid fds => MkProcEntry (dec pid) (Some (link_text <$> fds))
  | Hidden pid => MkProcEntry (dec pid) None
  | NotProcess name fds => MkProcEntry name fds
  end.

Definition fd_ok (f : fd_link) : Prop :=
  match f with
  | FdSocket n => 0 ≤ n < 2 ^ 64
  | FdOther t => socket_inode_of t = None
  | FdUnreadable => True
  end.
#[export] Instance fd_ok_dec f : Decision (fd_ok f).
Proof. destruct f; simpl; apply _. Defined.
Definition item_ok (i : proc_item) : Prop :=
  match i with
  | Process pid fds => 0 ≤ pid < 2 ^ 32 ∧ Forall fd_ok fds
  | Hidden pid => True
  | NotProcess name _ => parse_u32 name = None
  end.
#[export] Instance item_ok_dec i : Decision (item_ok i).
Proof. destruct i; simpl; apply _. Defined.

Definition is_socket (inode : Z) (f : fd_link) : bool :=
  match f with FdSocket n => n =? inode | _ => false end.

(** The first process, in the order of the listing, that has the socket. *)
Fixpoint owner (inode : Z) (items : list proc_item) : option Z :=
  match items with
  | [] => None
  | Process pid fds :: items' =>
    if existsb (is_socket inode) fds then Some pid else owner inode items'
  | _ :: items' => owner inode items'
  end.

(** The socket ids asked for, most specific first. *)
Definition socket_ids (local remote : SocketAddr) (is_udp : bool) : list SocketId :=
  let any := wildcard (sa_ip local) in
  if is_udp then
    [MkSocketId (sa_port remote) (sa_port local) (sa_ip local) (sa_ip remote);
     MkSocketId 0 (sa_port local) (sa_ip local) (sa_ip local);
     MkSocketId 0 (sa_port local) any any]
  else
    [MkSocketId (sa_port local) (sa_port remote) (sa_ip local) (sa_ip remote);
     MkSocketId (sa_port local) 0 (sa_ip local) any;
     MkSocketId (sa_port local) 0 any any].

Definition diag_family (local : SocketAddr) : Z := if is_ipv6 (sa_ip local) then AF_INET6 else AF_INET.
Definition diag_protocol (is_udp : bool) : Z := if is_udp then IPPROTO_UDP else IPPROTO_TCP.

(** ** Lemmas on the walk *)

Lemma socket_inode_of_link n :
  0 ≤ n < 2 ^ 64 → socket_inode_of (u "socket:[" ++ dec n ++ u "]") = Some n.
Proof.
  intros Hn. unfold socket_inode_of. rewrite strip_prefix_app. cbn [mbind option_bind].
  rewrite strip_suffix_app. cbn [mbind option_bind]. apply parse_dec; lia.
Qed.

Lemma or_insert_lookup m n pid inode :
  or_insert m n pid !! inode
  = match m !! inode with
    | Some p => Some p
    | None => if n =? inode then Some pid else None
    end.
Proof.
  unfold or_insert. destruct (m !! n) as [p|] eqn:E.
  - destruct (m !! inode) eqn:Ei; [done|]. destruct (Z.eqb_spec n inode); [congruence|done].
  - destruct (Z.eqb_spec n inode) as [->|Hne].
    + by rewrite lookup_insert_eq, E.
    + rewrite lookup_insert_ne by done. by destruct (m !! inode).
Qed.

Lemma scan_fds_lookup pid fds m inode :
  Forall fd_ok fds →
  scan_fds pid (link_text <$> fds) m !! inode
  = match m !! inode with
    | Some p => Some p
    | None => if existsb (is_socket inode) fds then Some pid else None
    end.
Proof.
  intros Hf. revert m. induction Hf as [|f fds Hf _ IH]; intros m; simpl; [by destruct (m !! inode)|].
  rewrite IH. destruct f as [n|t|]; cbn [link_text mbind option_bind is_socket orb].
  - rewrite socket_inode_of_link by done. rewrite or_insert_lookup.
    destruct (m !! inode); [done|]. by destruct (n =? inode).
  - simpl in Hf. by rewrite Hf.
  - done.
Qed.

Lemma scan_entries_lookup items m inode :
  Forall item_ok items →
  scan_entries (entry_of <$> items) m !! inode
  = match m !! inode with Some p => Some p | None => owner inode items end.
Proof.
  intros Hi. revert m. induction Hi as [|i items Hi _ IH]; intros m; simpl; [by destruct (m !! inode)|].
  rewrite IH. destruct i as [pid fds|pid|name fds]; simpl in *.
  - destruct Hi as [Hp Hf]. unfold parse_u32.
    rewrite parse_dec by lia. rewrite scan_fds_lookup by done.
    destruct (m !! inode); [done|]. by destruct (existsb _ fds).
  - by destruct (parse_u32 (dec pid)).
  - by rewrite Hi.
Qed.

Lemma query_socket_inode_ids query local remote is_udp :
  query_socket_inode query local remote is_udp
  = head (omap (query (diag_family local) (diag_protocol is_udp)) (socket_ids local remote is_udp)).
Proof.
  unfold query_socket_inode, diag_family, diag_protocol, socket_ids, is_ipv4, or_else.
  destruct is_udp, (is_ipv6 (sa_ip local)); simpl; repeat case_match; done.
Qed.

(** The pid the walks so far remember for an inode. *)
Definition remembered (inodes : option (gmap Z Z * Z)) (inode : Z) : option Z :=
  '(m, _) ← inodes; m !! inode.

(** A lookup with nothing cached for the endpoint. *)
Lemma resolve_pid_uncached query items now local remote is_udp endpoints inodes :
  Forall item_ok items → cache_hit endpoints (endpoint_key local is_udp) now = None →
  let inode := head (omap (query (diag_family local) (diag_protocol is_udp))
                          (socket_ids local remote is_udp)) in
  let answer := n ← inode; match remembered inodes n with Some pid => Some pid | None => owner n items end in
  let r := resolve_pid query (Some (entry_of <$> items)) now local remote is_udp (endpoints, inodes) in
  r.1 = answer
  ∧ r.2.1 = match answer with
            | Some pid => <[endpoint_key local is_udp := (pid, now)]> endpoints
            | None => endpoints
            end
  ∧ match inode with
    | Some n =>
      match remembered inodes n with
      | Some _ => r.2.2 = inodes
      | None => ∃ m, r.2.2 = Some (m, now) ∧ ∀ n', m !! n' = owner n' items
      end
    | None => r.2.2 = inodes
    end.
Proof.
  intros Hi Hmiss. cbv zeta. unfold resolve_pid, resolve_with, pid_query. cbn [fst snd].
  rewrite Hmiss, query_socket_inode_ids.
  destruct (head _) as [n|]; cbn [mbind option_bind]; [|done]. unfold inode_to_pid, remembered.
  destruct (inodes ≫= λ '(m, _), m !! n) as [pid|]; [done|].
  assert (∀ n', scan_socket_inodes (Some (entry_of <$> items)) !! n' = owner n' items) as Hscan.
  { intros n'. cbn [scan_socket_inodes]. by rewrite scan_entries_lookup, lookup_empty by done. }
  rewrite Hscan. destruct (owner n items); split_and!; try done; eexists; by split.
Qed.

(** ** Theorems *)

(** C26: the owner of a flow on Linux, whatever walks were made before.  When no
    recent answer is cached for the flow's endpoint, the lookup asks sock_diag about
    the connected socket, then the one bound to the local address, then the one
    bound to every address, and keeps the first inode it is given.  Its answer is
    the process the last walk of [/proc] found for that inode, if it found one;
    otherwise [/proc] is walked again, and the answer is the first process of the
    listing that has a descriptor on the socket; unreadable entries and other files
    are passed over.  The answer is cached for the flow's endpoint, and the inode
    map is left as it was, or replaced by exactly what the new listing says. *)
Theorem linux_finds_owner query items now local remote is_udp endpoints inodes :
  Forall item_ok items → cache_hit endpoints (endpoint_key local is_udp) now = None →
  let inode := head (omap (query (diag_family local) (diag_protocol is_udp))
                          (socket_ids local remote is_udp)) in
  let answer := n ← inode; match remembered inodes n with Some pid => Some pid | None => owner n items end in
  let r := resolve_pid query (Some (entry_of <$> items)) now local remote is_udp (endpoints, inodes) in
  r.1 = answer
  ∧ (∀ pid, answer = Some pid → cache_hit r.2.1 (endpoint_key local is_udp) now = Some pid)
  ∧ match inode with
    | Some n =>
      match remembered inodes n with
      | Some _ => r.2.2 = inodes
      | None => ∃ m, r.2.2 = Some (m, now) ∧ ∀ n', m !! n' = owner n' items
      end
    | None => r.2.2 = inodes
    end.
Proof.
  intros Hi Hmiss inode answer r.
  destruct (resolve_pid_uncached query items now local remote is_udp endpoints inodes Hi Hmiss)
    as (Ha & He & Hm).
  split_and!; [exact Ha| |exact Hm]. intros pid Hp. unfold r. rewrite He. fold inode. fold answer. rewrite Hp.
  unfold cache_hit, duration_since. by rewrite lookup_insert_eq, Z.sub_diag.
Qed.

(** ** Witnesses and concrete behaviours *)

Definition demo_local : SocketAddr := SockAddr (V4 (ipv4 10 63 7 1)) 50000.
Definition demo_remote : SocketAddr := SockAddr (V4 (ipv4 93 184 216 34)) 443.
(** A kernel that knows the flow's connection, with inode 777. *)
Definition demo_query (family protocol : Z) (id : SocketId) : option Z :=
  if (source_port id =? 50000) && (destination_port id =? 443) then Some 777 else None.
Definition demo_items : list proc_item :=
  [NotProcess (u "self") None; Hidden 1; Process 7 [FdOther (u "/dev/null"); FdUnreadable];
   Process 42 [FdSocket 5; FdSocket 777]; Process 43 [FdSocket 777]].

(** After a walk that saw other sockets only. *)
Lemma linux_finds_owner_witness :
  let r := resolve_pid demo_query (Some (entry_of <$> demo_items)) 9 demo_local demo_remote false
             (∅, Some (<[5 := 42]> ∅, 3)) in
  r.1 = Some 42
  ∧ (∀ pid, Some 42 = Some pid → cache_hit r.2.1 (endpoint_key demo_local false) 9 = Some pid)
  ∧ ∃ m, r.2.2 = Some (m, 9) ∧ ∀ n, m !! n = owner n demo_items.
Proof.
  destruct (linux_finds_owner demo_query demo_items 9 demo_local demo_remote false ∅ (Some (<[5 := 42]> ∅, 3)))
    as (K1 & K2 & K3); [concrete..|].
  split; [exact K1|split; [exact K2|exact K3]].
Defined.

(** The walk is never repeated for an inode it has seen: when the kernel gives
    the inode to another process's socket, the old owner is named. *)
Example stale_inode_names_old_owner :
  let c := (resolve_pid demo_query (Some (entry_of <$> demo_items)) 0 demo_local demo_remote false
             (∅, None)).2 in
  (resolve_pid demo_query (Some [MkProcEntry (dec 99) (Some [Some (u "socket:[777]")])])
     (3600 * 10 ^ 9) demo_local demo_remote false c).1 = Some 42.
Proof. vm_compute. reflexivity. Qed.

(** A reply of another sequence number leaves its bytes in the buffer: the reply
    that follows is received but never read. *)
Definition toy_deserialize (bs : list Z) : option (Z * diag_payload) :=
  match bs with [seq; inode] => Some (seq, InetResponse inode) | _ => None end.
Example stray_reply_hides_the_answer :
  query_one toy_deserialize true [Ok [1; 77]] = Some 77
  ∧ query_one toy_deserialize true [Ok [9; 5]; Ok [1; 77]] = None.
Proof. vm_compute. auto. Qed.
