(* ===== verification/Attributed.v ===== *)
(** * Attribution composed with policy
    ([ProcessTable] of [platform/*/mod.rs] under [netstack.rs])

    The three process tables as instances of the interface the netstack is proved
    against, and what the netstack's guarantees become over them: the loop guard
    as the kernel's own tables imply it, and the effect of the endpoint cache on
    it. *)

From S2P Require Export Netstack Engine.
From S2P Require MacosProcess WindowsProcess LinuxProcess Attribution.
Local Open Scope Z_scope.

(** ** The instances *)

Definition windows_table (os : WindowsProcess.ip_helper) (opened : Z → bool)
    (image : Z → option (list Z)) : ProcessTable := {|
  resolve_pid local _ is_udp := WindowsProcess.resolve_pid os (sa_ip local) (sa_port local) is_udp;
  process_name := WindowsProcess.process_name opened image
|}.

(** The Unix tables at one moment, with the caches they have then. *)
Definition linux_table (query : Z → Z → LinuxProcess.SocketId → option Z)
    (proc : option (list LinuxProcess.proc_entry)) (comm exe : Z → option str) (now : Z)
    (c : gmap Attribution.EndpointKey (Z * Z) * option (gmap Z Z * Z)) : ProcessTable := {|
  resolve_pid local remote is_udp :=
    (LinuxProcess.resolve_pid query proc now local remote is_udp c).1;
  process_name pid := LinuxProcess.process_name (comm pid) (exe pid)
|}.

Definition macos_table (kernel : bool → option Z * option (list Z)) (comm : Z → option (list Z))
    (now : Z) (c : gmap Attribution.EndpointKey (Z * Z) * unit) : ProcessTable := {|
  resolve_pid local remote is_udp := (MacosProcess.resolve_pid kernel now local remote is_udp c).1;
  process_name pid := MacosProcess.process_name (comm pid)
|}.

(** ** Theorems *)

Section Guard.
Context `{RegexEngine} `{Base64}.

(** the loop guard over the Linux process table.  When nothing is cached
    for the engine's own endpoint, the socket the kernel reports for the flow is
    one the engine holds, and no earlier process of the listing holds it, the flow
    is treated as the engine's: over TCP or UDP it is never handed to a proxy,
    and every socket opened for it is pinned before it connects, unless the system
    refuses that pin. *)
Theorem linux_loop_guard query items comm exe now endpoints src dest shared is_udp inode tenv uenv :
  Forall LinuxProcess.item_ok items →
  Attribution.cache_hit endpoints (Attribution.endpoint_key src is_udp) now = None →
  head (omap (query (LinuxProcess.diag_family src) (LinuxProcess.diag_protocol is_udp))
             (LinuxProcess.socket_ids src dest is_udp)) = Some inode →
  LinuxProcess.owner inode items = Some (current_pid shared) →
  is_loopback (sa_ip dest) = false →
  let table := linux_table query (Some (LinuxProcess.entry_of <$> items)) comm exe now
                 (endpoints, None) in
  Forall (guarded shared dest)
    (if is_udp then (@handle_udp _ table uenv src dest shared).2
     else (@handle_tcp _ table _ tenv src dest shared).2).
Proof.
  intros Hi Hmiss Hid Hown Hl table.
  destruct (LinuxProcess.resolve_pid_uncached query items now src dest is_udp endpoints None Hi Hmiss)
    as [Hr _]. rewrite Hid in Hr. simpl in Hr. rewrite Hown in Hr.
  destruct is_udp; [by apply own_udp_guarded|by apply own_tcp_guarded].
Qed.

(** The same over the Windows tables. *)
Lemma windows_loop_guard s opened image src dest shared tenv a :
  WindowsProcess.sockets_ok s → sa_ip src = V4 a → 0 ≤ a < 2 ^ 32 →
  WindowsProcess.resolve_pid (WindowsProcess.kernel_tables s) (V4 a) (sa_port src) false
    = Some (current_pid shared) →
  is_loopback (sa_ip dest) = false →
  let table := windows_table (WindowsProcess.kernel_tables s) opened image in
  Forall (guarded shared dest) (@handle_tcp _ table _ tenv src dest shared).2.
Proof. intros Hs Hsrc Ha Hr Hl table. apply own_tcp_guarded; [done|]. simpl. by rewrite Hsrc. Qed.

End Guard.

(** ** Witnesses and concrete behaviours *)

#[local] Existing Instance MiniRegex.engine.
#[local] Existing Instance LinuxProcess.item_ok_dec.

(** The engine is process 7 and holds the socket of inode 777. *)
Definition engine_items : list LinuxProcess.proc_item :=
  [LinuxProcess.Hidden 1; LinuxProcess.Process 7 [LinuxProcess.FdSocket 777]].
Definition no_text (_ : Z) : option str := None.
Definition proxy_all : Shared :=
  Demo.shared [with_action (rule_new (u "*")) Config.Proxy] [socks5 (u "p") 1080].

Lemma linux_loop_guard_witness :
  let table := linux_table LinuxProcess.demo_query (Some (LinuxProcess.entry_of <$> engine_items))
                 no_text no_text 0 (∅, None) in
  Forall (guarded proxy_all LinuxProcess.demo_remote)
    (@handle_tcp _ table _ Demo.tcp0 LinuxProcess.demo_local LinuxProcess.demo_remote proxy_all).2.
Proof.
  apply (linux_loop_guard LinuxProcess.demo_query engine_items no_text no_text 0 ∅
    LinuxProcess.demo_local LinuxProcess.demo_remote proxy_all false 777 Demo.tcp0
    (MkUdpEnv 0 Demo.os [])); concrete.
Defined.

(** The guard reads the same cache as everything else: for a quarter of a second
    after another process used the endpoint, the engine's own flow from that
    endpoint is that process's, and the rules may send it to the proxy again. *)
Example cached_owner_defeats_guard :
  let key := Attribution.endpoint_key LinuxProcess.demo_local false in
  let table := linux_table LinuxProcess.demo_query (Some (LinuxProcess.entry_of <$> engine_items))
                 no_text no_text (100 * 10 ^ 6) (<[key := (42, 0)]> ∅, None) in
  @decide _ proxy_all
    (@flow_facts _ table proxy_all 0 LinuxProcess.demo_local LinuxProcess.demo_remote false)
  = Done (DProxy 0).
Proof. vm_compute. reflexivity. Qed.
