(* ===== verification/Lookups.v ===== *)
(** * Lookups of the Unix process tables, interleaved
    ([resolve_pid] in [platform/linux/process.rs] and [platform/macos/process.rs])

    A lookup holds the table's lock three times: to look for a cached answer, to
    use what else the table keeps (the Linux map of socket inodes), and to store
    its answer.  Between them other tasks' lookups run.  Here the lookups of any
    number of tasks interleave, one critical section at a time; [Attribution]'s
    [resolve_with] is the lookup that nobody interrupts.  The last part composes
    the lookups with the tasks of [Tasks] that made them. *)

From S2P Require Export Tasks Attributed.
From S2P Require Import Attribution.
Local Open Scope Z_scope.

(** ** The system of lookups *)

(** Where a lookup is: about to look for a cached answer, about to ask, about to
    store the answer it was given, finished. *)
Inductive stage : Type :=
  | LStart
  | LAsking
  | LStoring (pid : Z)
  | LAnswered (answer : option Z).

Section Lookups.
(** The calls, each with its endpoint, its [Instant::now()] and the query it makes
    on a miss, over the rest [S] of what the lock guards. *)
Context {C S : Type} (key : C → EndpointKey) (now : C → Z) (query : C → S → option Z * S).

(** [lk_told] is what its query answered, once it has made it. *)
Record task_lookup : Type := MkLookup { lk_call : C; lk_stage : stage; lk_told : option (option Z) }.

Definition lookup_new (k : C) : task_lookup := MkLookup k LStart None.

(** One critical section. *)
Definition lookup_step (lk : task_lookup) (c : endpoints_map * S) : option (task_lookup * (endpoints_map * S)) :=
  let k := lk_call lk in
  match lk_stage lk with
  | LStart =>
    match cache_hit c.1 (key k) (now k) with
    | Some pid => Some (MkLookup k (LAnswered (Some pid)) (lk_told lk), c)
    | None => Some (MkLookup k LAsking (lk_told lk), c)
    end
  | LAsking =>
    let '(answer, s) := query k c.2 in
    match answer with
    | Some pid => Some (MkLookup k (LStoring pid) (Some answer), (c.1, s))
    | None => Some (MkLookup k (LAnswered None) (Some answer), (c.1, s))
    end
  | LStoring pid =>
    Some (MkLookup k (LAnswered (Some pid)) (lk_told lk), (<[key k := (pid, now k)]> c.1, c.2))
  | LAnswered _ => None
  end.

Record table_state : Type := MkTable { tb_cache : endpoints_map * S; tb_lookups : list task_lookup }.
Definition table_start (s : S) : table_state := MkTable (∅, s) [].

Inductive table_label : Type := TCall (k : C) | TRun (i : nat).

Definition table_step (l : table_label) (t : table_state) : option table_state :=
  match l with
  | TCall k => Some (MkTable (tb_cache t) (tb_lookups t ++ [lookup_new k]))
  | TRun i =>
    lk ← tb_lookups t !! i;
    '(lk', c) ← lookup_step lk (tb_cache t);
    Some (MkTable c (<[i := lk']> (tb_lookups t)))
  end.

Fixpoint table_run (ls : list table_label) (t : table_state) : option table_state :=
  match ls with [] => Some t | l :: ls' => t' ← table_step l t; table_run ls' t' end.

(** ** A lookup that nobody interrupts *)

Fixpoint lookup_run (n : nat) (lk : task_lookup) (c : endpoints_map * S) : task_lookup * (endpoints_map * S) :=
  match n with
  | O => (lk, c)
  | Datatypes.S n' =>
    match lookup_step lk c with Some (lk', c') => lookup_run n' lk' c' | None => (lk, c) end
  end.

(** Three critical sections finish it, and are [resolve_with]. *)
Lemma lookup_alone k c :
  ∃ told, lookup_run 3 (lookup_new k) c
    = (MkLookup k (LAnswered (resolve_with (query k) (key k) (now k) c).1) told,
       (resolve_with (query k) (key k) (now k) c).2).
Proof.
  unfold lookup_new, resolve_with. cbn [lookup_run lookup_step lk_call lk_stage lk_told].
  destruct (cache_hit c.1 (key k) (now k)) as [pid|]; [by eexists|].
  cbn [lookup_run lookup_step lk_call lk_stage lk_told].
  destruct (query k c.2) as [[pid|] s]; by eexists.
Qed.

(** ** What the lock's data means *)

(** Some call that has made its query satisfies [P]. *)
Definition asked (t : table_state) (P : C → Prop) : Prop :=
  ∃ j lk, tb_lookups t !! j = Some lk ∧ is_Some (lk_told lk) ∧ P (lk_call lk).

(** Some call of the endpoint, made at [at_], was told [pid]. *)
Definition told (t : table_state) (ek : EndpointKey) (pid at_ : Z) : Prop :=
  ∃ j lk, tb_lookups t !! j = Some lk ∧ lk_told lk = Some (Some pid)
    ∧ key (lk_call lk) = ek ∧ now (lk_call lk) = at_.

Definition lookup_inv (t : table_state) (lk : task_lookup) : Prop :=
  match lk_stage lk with
  | LStart | LAsking => lk_told lk = None
  | LStoring pid => lk_told lk = Some (Some pid)
  | LAnswered None => True
  | LAnswered (Some pid) =>
    ∃ at_, told t (key (lk_call lk)) pid at_ ∧ duration_since (now (lk_call lk)) at_ < CACHE_TTL
  end.

Record table_inv (t : table_state) : Prop := {
  ti_cache : ∀ ek pid at_, (tb_cache t).1 !! ek = Some (pid, at_) → told t ek pid at_;
  ti_lookups : Forall (lookup_inv t) (tb_lookups t)
}.

(** A step of a lookup keeps its call and what it was told. *)
Lemma lookup_step_keeps lk c lk' c' t :
  lookup_inv t lk → lookup_step lk c = Some (lk', c') →
  lk_call lk' = lk_call lk ∧ (∀ a, lk_told lk = Some a → lk_told lk' = Some a).
Proof.
  unfold lookup_inv, lookup_step. intros Hi Hs.
  destruct (lk_stage lk) as [| |pid|]; [destruct (cache_hit _ _ _)|destruct (query _ _) as [[pid|] s]| |done];
    simplify_eq/=; (split; [done|]); congruence.
Qed.

(** [t'] has the lookups of [t], further on. *)
Definition follows (t t' : table_state) : Prop :=
  ∀ j lk, tb_lookups t !! j = Some lk → ∃ lk', tb_lookups t' !! j = Some lk'
    ∧ lk_call lk' = lk_call lk ∧ (∀ a, lk_told lk = Some a → lk_told lk' = Some a).

#[export] Instance follows_refl : Reflexive follows.
Proof. intros t j lk Hj. by exists lk. Qed.
#[export] Instance follows_trans : Transitive follows.
Proof.
  intros t1 t2 t3 H1 H2 j lk Hj. destruct (H1 j lk Hj) as (lk2 & Hj2 & Hc2 & Ht2).
  destruct (H2 j lk2 Hj2) as (lk3 & Hj3 & Hc3 & Ht3). exists lk3. split_and!; [done|congruence|auto].
Qed.

Lemma asked_mono t t' P : follows t t' → asked t P → asked t' P.
Proof.
  intros Hf (j & lk & Hj & [a Ha] & Hp). destruct (Hf j lk Hj) as (lk' & Hj' & Hc & Ht).
  exists j, lk'. rewrite Hc. split_and!; [done|by exists a; apply Ht|done].
Qed.

Lemma told_mono t t' ek pid at_ : follows t t' → told t ek pid at_ → told t' ek pid at_.
Proof.
  intros Hf (j & lk & Hj & Ht & Hk & Hn). destruct (Hf j lk Hj) as (lk' & Hj' & Hc & Ht').
  exists j, lk'. rewrite Hc. by split_and!; [|apply Ht'|..].
Qed.

Lemma lookup_inv_mono t t' lk : follows t t' → lookup_inv t lk → lookup_inv t' lk.
Proof.
  intros Hf. unfold lookup_inv. destruct (lk_stage lk) as [| | |[pid|]]; try done.
  intros (at_ & Ht & ?). exists at_. split; [by eapply told_mono|done].
Qed.

Lemma table_step_follows l t t' : table_inv t → table_step l t = Some t' → follows t t'.
Proof.
  intros [_ Hl] Hs. destruct l as [k|i]; cbn [table_step] in Hs.
  - injection Hs as <-. intros j lk Hj. exists lk. split; [by apply lookup_app_l_Some|done].
  - destruct (tb_lookups t !! i) as [lk0|] eqn:Hi; [|done]. cbn in Hs.
    destruct (lookup_step lk0 (tb_cache t)) as [[lk1 c]|] eqn:Hst; [|done]. injection Hs as <-.
    intros j lk Hj. cbn [tb_lookups]. destruct (decide (i = j)) as [<-|Hne].
    + simplify_eq. exists lk1. split; [apply list_lookup_insert_eq; by eapply lookup_lt_Some|].
      by eapply lookup_step_keeps; [eapply Forall_lookup_1|].
    + exists lk. by rewrite list_lookup_insert_ne.
Qed.

Lemma table_step_inv l t t' : table_inv t → table_step l t = Some t' → table_inv t'.
Proof.
  intros Hinv Hs. pose proof (table_step_follows l t t' Hinv Hs) as Hf. destruct Hinv as [Hc Hl].
  destruct l as [k|i]; cbn [table_step] in Hs.
  - injection Hs as <-. split; cbn [tb_cache tb_lookups] in *.
    + intros ek pid at_ He. by eapply told_mono, Hc.
    + apply Forall_app. split; [|by repeat constructor].
      eapply Forall_impl; [exact Hl|]. intros lk. by apply lookup_inv_mono.
  - destruct (tb_lookups t !! i) as [lk|] eqn:Hi; [|done]. cbn in Hs.
    destruct (lookup_step lk (tb_cache t)) as [[lk' c]|] eqn:Hst; [|done]. injection Hs as <-.
    set (t' := MkTable c (<[i := lk']> (tb_lookups t))) in *.
    assert (tb_lookups t' !! i = Some lk') as Hi' by (apply list_lookup_insert_eq; by eapply lookup_lt_Some).
    pose proof (Forall_lookup_1 _ _ _ _ Hl Hi) as Hlk.
    assert (∀ ek pid at_, (tb_cache t).1 !! ek = Some (pid, at_) → told t' ek pid at_) as Hold.
    { intros ek pid at_ He. by eapply told_mono, Hc. }
    cut (lookup_inv t' lk' ∧ ∀ ek pid at_, c.1 !! ek = Some (pid, at_) → told t' ek pid at_).
    { intros [Hlk' Hc']. split; [done|]. apply Forall_insert; [|done].
      eapply Forall_impl; [exact Hl|]. intros x. by apply lookup_inv_mono. }
    unfold lookup_inv, lookup_step in Hlk, Hst |- *.
    destruct (lk_stage lk) as [| |pid|] eqn:Est; [| | |done].
    + unfold cache_hit in Hst. destruct ((tb_cache t).1 !! key (lk_call lk)) as [[pid at_]|] eqn:He; cycle 1.
      { by simplify_eq/=. }
      destruct (Z.ltb_spec (duration_since (now (lk_call lk)) at_) CACHE_TTL); simplify_eq/=; [|done].
      split; [|done]. exists at_. split; [by apply Hold|done].
    + destruct (query _ _) as [[pid|] s]; by simplify_eq/=.
    + simplify_eq/=.
      assert (told t' (key (lk_call lk)) pid (now (lk_call lk))) as Ht by (by exists i, (MkLookup (lk_call lk) (LAnswered (Some pid)) (lk_told lk))).
      split.
      * exists (now (lk_call lk)). split; [done|]. unfold duration_since, CACHE_TTL. lia.
      * intros ek p a [[<- [= <- <-]]|[_ He]]%lookup_insert_Some; [done|by apply Hold].
Qed.

(** Induction over runs. *)
Lemma table_run_ind (P : table_state → Prop) ls t t' :
  (∀ l t t', table_inv t → P t → table_step l t = Some t' → P t') →
  table_inv t → P t → table_run ls t = Some t' → table_inv t' ∧ P t'.
Proof.
  intros Hstep. revert t. induction ls as [|l ls IH]; intros t Hi Hp; cbn [table_run]; [by intros [= <-]|].
  destruct (table_step l t) as [t1|] eqn:Hs; [|done]. cbn. apply IH; [by eapply table_step_inv|by eapply Hstep].
Qed.

Lemma table_start_inv s : table_inv (table_start s).
Proof. split; [|constructor]. intros ek pid at_. cbn. by rewrite lookup_empty. Qed.

Lemma table_run_inv ls s t : table_run ls (table_start s) = Some t → table_inv t.
Proof.
  intros Hr. by destruct (table_run_ind (λ _, True) ls (table_start s) t ltac:(done) (table_start_inv s) I Hr).
Qed.

(** No lookup waits for another: wherever it is, at most three steps of its own,
    whatever the others have done, answer it. *)
Lemma lookups_finish t i lk :
  tb_lookups t !! i = Some lk →
  ∃ n t' lk' answer, (n ≤ 3)%nat ∧ table_run (replicate n (TRun i)) t = Some t'
    ∧ tb_lookups t' !! i = Some lk' ∧ lk_stage lk' = LAnswered answer.
Proof.
  assert (∀ t lk n, tb_lookups t !! i = Some lk → (match lk_stage lk with
      | LStart => 3 | LAsking => 2 | LStoring _ => 1 | LAnswered _ => 0 end ≤ n)%nat →
    ∃ m t' lk' answer, (m ≤ n)%nat ∧ table_run (replicate m (TRun i)) t = Some t'
      ∧ tb_lookups t' !! i = Some lk' ∧ lk_stage lk' = LAnswered answer) as Hgo.
  2: { intros Hi. apply (Hgo t lk 3%nat Hi). destruct (lk_stage lk); lia. }
  clear t lk. intros t lk n. revert t lk. induction n as [|n IH]; intros t lk Hi Hn.
  { destruct (lk_stage lk) as [| | |o] eqn:E; try lia. by exists 0%nat, t, lk, o. }
  destruct (lookup_step lk (tb_cache t)) as [[lk1 c1]|] eqn:Hst; cycle 1.
  { unfold lookup_step in Hst. destruct (lk_stage lk) as [| | |o] eqn:E;
      [destruct (cache_hit _ _ _)|destruct (query _ _) as [[] ?]| |]; try done. by exists 0%nat, t, lk, o; split; [lia|]. }
  destruct (IH (MkTable c1 (<[i := lk1]> (tb_lookups t))) lk1) as (m & t' & lk' & o & Hm & Hr & ? & ?).
  - apply list_lookup_insert_eq. by eapply lookup_lt_Some.
  - unfold lookup_step in Hst. destruct (lk_stage lk); [destruct (cache_hit _ _ _)|destruct (query _ _) as [[] ?]| |];
      simplify_eq/=; lia.
  - exists (Datatypes.S m), t', lk', o. split; [lia|]. split_and!; [|done..].
    cbn [replicate table_run table_step]. by rewrite Hi; cbn; rewrite Hst.
Qed.

(** What a lookup was told is its query's answer, from what the lock guarded then. *)
Lemma told_answer ls s t :
  table_run ls (table_start s) = Some t →
  Forall (λ lk, ∀ a, lk_told lk = Some a → ∃ s', a = (query (lk_call lk) s').1) (tb_lookups t).
Proof.
  intros Hrun. eapply (table_run_ind (λ t, Forall _ (tb_lookups t))) in Hrun as [_ Hp];
    [exact Hp| |apply table_start_inv|constructor].
  clear. intros l t t' [_ Hl] Hp Hs. destruct l as [k|i]; cbn [table_step] in Hs.
  { injection Hs as <-. apply Forall_app. split; [done|]. by repeat constructor. }
  destruct (tb_lookups t !! i) as [lk|] eqn:Hi; [|done]. cbn in Hs.
  destruct (lookup_step lk (tb_cache t)) as [[lk' c]|] eqn:Hst; [|done]. injection Hs as <-.
  apply Forall_insert; [done|]. pose proof (Forall_lookup_1 _ _ _ _ Hp Hi) as Hold. cbv beta in Hold.
  unfold lookup_step in Hst. destruct (lk_stage lk) as [| |pid|]; [destruct (cache_hit _ _ _)| | |done].
  3: destruct (query (lk_call lk) (tb_cache t).2) as [[pid|] s'] eqn:Eq.
  all: simplify_eq/=; try done; intros a [= <-]; exists (tb_cache t).2; by rewrite Eq.
Qed.

(** how stale an attribution can be, whatever the interleaving.  Lookups of
    any number of tasks run at the same time from an empty cache, each giving up
    the table's lock between looking for a cached answer, asking and storing what
    it was told.  An answer is one that a query was given for the same local
    endpoint and protocol, by a lookup that began less than 250 milliseconds
    before: racing lookups overwrite each other's entries, also with older ones,
    but never make an answer last longer or cross to another endpoint. *)
Theorem lookups_fresh ls s t i lk pid :
  table_run ls (table_start s) = Some t →
  tb_lookups t !! i = Some lk → lk_stage lk = LAnswered (Some pid) →
  ∃ j lk', tb_lookups t !! j = Some lk' ∧ lk_told lk' = Some (Some pid)
    ∧ key (lk_call lk') = key (lk_call lk)
    ∧ duration_since (now (lk_call lk)) (now (lk_call lk')) < CACHE_TTL.
Proof.
  intros Hrun Hi Hst. destruct (table_run_inv ls s t Hrun) as [_ Hl].
  pose proof (Forall_lookup_1 _ _ _ _ Hl Hi) as Hlk. unfold lookup_inv in Hlk. rewrite Hst in Hlk.
  destruct Hlk as (at_ & (j & lk' & Hj & Ht & Hk & <-) & ?). by exists j, lk'.
Qed.

End Lookups.
Arguments task_lookup : clear implicits.
Arguments table_state : clear implicits.
Arguments table_label : clear implicits.

(** ** Linux *)

(** One call on Linux, with what sock_diag and [/proc] tell it. *)
Record linux_call : Type := MkLinuxCall {
  li_local : SocketAddr; li_remote : SocketAddr; li_udp : bool;
  li_now : Z;
  li_sock_diag : Z → Z → LinuxProcess.SocketId → option Z;
  li_proc : option (list LinuxProcess.proc_entry)
}.

Notation inode_map := (option (gmap Z Z * Z)).
Definition linux_key (k : linux_call) : EndpointKey := endpoint_key (li_local k) (li_udp k).
Definition linux_query (k : linux_call) : inode_map → option Z * inode_map :=
  LinuxProcess.pid_query (li_sock_diag k) (li_proc k) (li_now k) (li_local k) (li_remote k) (li_udp k).

Definition linux_run := table_run linux_key li_now linux_query.
Definition linux_start : table_state linux_call inode_map := table_start None.

(** A call that nobody interrupts is [resolve_pid]. *)
Lemma linux_alone k c :
  resolve_with (linux_query k) (linux_key k) (li_now k) c
  = LinuxProcess.resolve_pid (li_sock_diag k) (li_proc k) (li_now k) (li_local k) (li_remote k) (li_udp k) c.
Proof. done. Qed.

(** The socket the kernel reported, and the process a listing names for it. *)
Definition reported (k : linux_call) : option Z :=
  LinuxProcess.query_socket_inode (li_sock_diag k) (li_local k) (li_remote k) (li_udp k).
Definition listed (inode pid : Z) (k : linux_call) : Prop :=
  LinuxProcess.scan_socket_inodes (li_proc k) !! inode = Some pid.

(** The shared inode map is one call's walk; what a call was told is the owner of
    the socket it was reported, by some call's walk. *)
Record linux_inv (t : table_state linux_call inode_map) : Prop := {
  lv_map : ∀ m at_, (tb_cache t).2 = Some (m, at_) →
    asked t (λ k, LinuxProcess.scan_socket_inodes (li_proc k) = m);
  lv_told : Forall (λ lk, ∀ pid, lk_told lk = Some (Some pid) →
    ∃ inode, reported (lk_call lk) = Some inode ∧ asked t (listed inode pid)) (tb_lookups t)
}.

Lemma linux_step_inv l t t' :
  table_inv linux_key li_now t → linux_inv t →
  table_step linux_key li_now linux_query l t = Some t' → linux_inv t'.
Proof.
  intros Hinv [Hm Ht] Hs. pose proof (table_step_follows _ _ _ l t t' Hinv Hs) as Hf.
  assert (Forall (λ lk, ∀ pid, lk_told lk = Some (Some pid) →
    ∃ inode, reported (lk_call lk) = Some inode ∧ asked t' (listed inode pid)) (tb_lookups t)) as Ht'.
  { eapply Forall_impl; [exact Ht|]. intros lk Hlk pid Hp. destruct (Hlk pid Hp) as (inode & ? & ?).
    exists inode. split; [done|by eapply asked_mono]. }
  assert (∀ m at_, (tb_cache t).2 = Some (m, at_) →
    asked t' (λ k, LinuxProcess.scan_socket_inodes (li_proc k) = m)) as Hm'.
  { intros m at_ E. by eapply asked_mono, Hm. }
  destruct l as [k|i]; cbn [table_step] in Hs.
  { injection Hs as <-. split; cbn [tb_cache tb_lookups]; [done|]. apply Forall_app. split; [done|].
    by repeat constructor. }
  destruct (tb_lookups t !! i) as [lk|] eqn:Hi; [|done]. cbn in Hs.
  destruct (lookup_step _ _ _ lk (tb_cache t)) as [[lk' c]|] eqn:Hst; [|done]. injection Hs as <-.
  set (t' := MkTable c (<[i := lk']> (tb_lookups t))) in *.
  assert (tb_lookups t' !! i = Some lk') as Hi' by (apply list_lookup_insert_eq; by eapply lookup_lt_Some).
  pose proof (Forall_lookup_1 _ _ _ _ Ht' Hi) as Hlk. cbv beta in Hlk.
  cut ((∀ pid, lk_told lk' = Some (Some pid) →
          ∃ inode, reported (lk_call lk') = Some inode ∧ asked t' (listed inode pid))
       ∧ ∀ m at_, c.2 = Some (m, at_) → asked t' (λ k, LinuxProcess.scan_socket_inodes (li_proc k) = m)).
  { intros [Hlk' Hc]. split; [exact Hc|]. by apply Forall_insert. }
  unfold lookup_step in Hst. destruct (lk_stage lk) as [| |pid|];
    [destruct (cache_hit _ _ _); by simplify_eq/=| |by simplify_eq/=|done].
  unfold linux_query, LinuxProcess.pid_query in Hst. fold (reported (lk_call lk)) in Hst.
  destruct (reported (lk_call lk)) as [inode|] eqn:Er; [|by simplify_eq/=].
  unfold LinuxProcess.inode_to_pid in Hst.
  destruct ((tb_cache t).2 ≫= _) as [pid|] eqn:Eh.
  - simplify_eq/=. split; [|done]. intros ? [= <-]. exists inode. split; [done|].
    destruct (tb_cache t).2 as [[m at_]|]; [|done]. cbn in Eh.
    destruct (Hm' m at_ eq_refl) as (j & lk' & Hj & Ha & <-). by exists j, lk'.
  - assert (lk_call lk' = lk_call lk ∧ is_Some (lk_told lk')
      ∧ c.2 = Some (LinuxProcess.scan_socket_inodes (li_proc (lk_call lk)), li_now (lk_call lk))
      ∧ ∀ pid, lk_told lk' = Some (Some pid) →
          LinuxProcess.scan_socket_inodes (li_proc (lk_call lk)) !! inode = Some pid) as (Hc & Ha & -> & Hp).
    { destruct (_ !! inode) as [pid|] eqn:E; simplify_eq/=; (split_and!; [done|by eexists|done|]); congruence. }
    rewrite <-Hc in *. split.
    + intros pid E. exists inode. split; [done|]. exists i, lk'. by split_and!; [..|apply Hp].
    + intros m at_ [= <- <-]. by exists i, lk'.
Qed.

Lemma linux_run_inv ls t :
  linux_run ls linux_start = Some t → table_inv linux_key li_now t ∧ linux_inv t.
Proof.
  intros Hrun. eapply table_run_ind; [|apply table_start_inv| |exact Hrun].
  - intros. by eapply linux_step_inv.
  - by split; [|constructor].
Qed.

(** where a Linux attribution comes from, whatever the interleaving.  An
    answer names the process that a walk of [/proc] lists first for a socket which
    the kernel reported for the same local endpoint and protocol, to a lookup that
    began less than 250 milliseconds before; the walk is one a lookup of this table
    made, though not necessarily a recent one, for the inode map has no age. *)
Theorem linux_answers_sound ls t i lk pid :
  linux_run ls linux_start = Some t →
  tb_lookups t !! i = Some lk → lk_stage lk = LAnswered (Some pid) →
  ∃ j lk' inode, tb_lookups t !! j = Some lk'
    ∧ linux_key (lk_call lk') = linux_key (lk_call lk)
    ∧ duration_since (li_now (lk_call lk)) (li_now (lk_call lk')) < CACHE_TTL
    ∧ reported (lk_call lk') = Some inode
    ∧ ∃ n lk'', tb_lookups t !! n = Some lk'' ∧ listed inode pid (lk_call lk'').
Proof.
  intros Hrun Hi Hst.
  destruct (linux_run_inv ls t Hrun) as [Hinv Hl].
  pose proof (Forall_lookup_1 _ _ _ _ (ti_lookups _ _ _ Hinv) Hi) as Hlk.
  unfold lookup_inv in Hlk. rewrite Hst in Hlk. destruct Hlk as (at_ & (j & lk' & Hj & Ht & Hk & <-) & ?).
  destruct (Forall_lookup_1 _ _ _ _ (lv_told t Hl) Hj pid Ht) as (inode & Hr & n & lk'' & Hn & _ & Hp).
  exists j, lk', inode. split_and!; [done..|]. by exists n, lk''.
Qed.

(** ** macOS *)

Record macos_call : Type := MkMacosCall {
  mi_local : SocketAddr; mi_remote : SocketAddr; mi_udp : bool;
  mi_now : Z;
  mi_kernel : bool → option Z * option (list Z)
}.
Definition macos_key (k : macos_call) : EndpointKey := endpoint_key (mi_local k) (mi_udp k).
Definition macos_query (k : macos_call) : unit → option Z * unit :=
  MacosProcess.pid_query (mi_kernel k) (mi_local k) (mi_remote k) (mi_udp k).

Definition macos_run := table_run macos_key mi_now macos_query.
Definition macos_start : table_state macos_call unit := table_start tt.

Lemma macos_alone k c :
  resolve_with (macos_query k) (macos_key k) (mi_now k) c
  = MacosProcess.resolve_pid (mi_kernel k) (mi_now k) (mi_local k) (mi_remote k) (mi_udp k) c.
Proof. done. Qed.

(** Where a macOS attribution comes from, whatever the interleaving: an answer is
    what the walk of the kernel's table found for the same local endpoint and
    protocol, in a lookup that began less than 250 milliseconds before. *)
Theorem macos_answers_sound ls t i lk pid :
  macos_run ls macos_start = Some t →
  tb_lookups t !! i = Some lk → lk_stage lk = LAnswered (Some pid) →
  ∃ j lk' table, tb_lookups t !! j = Some lk'
    ∧ macos_key (lk_call lk') = macos_key (lk_call lk)
    ∧ duration_since (mi_now (lk_call lk)) (mi_now (lk_call lk')) < CACHE_TTL
    ∧ MacosProcess.pcblist_table (mi_kernel (lk_call lk') (mi_udp (lk_call lk'))).1
        (mi_kernel (lk_call lk') (mi_udp (lk_call lk'))).2 = Some table
    ∧ MacosProcess.scan_pcblist table (mi_local (lk_call lk')) (mi_remote (lk_call lk')) = Some (Done (Some pid)).
Proof.
  intros Hrun Hi Hst.
  pose proof (table_run_inv macos_key mi_now macos_query ls tt t Hrun) as Hinv.
  pose proof (Forall_lookup_1 _ _ _ _ (ti_lookups _ _ _ Hinv) Hi) as Hlk.
  unfold lookup_inv in Hlk. rewrite Hst in Hlk. destruct Hlk as (at_ & (j & lk' & Hj & Ht & Hk & <-) & ?).
  destruct (Forall_lookup_1 _ _ _ _ (told_answer _ _ _ ls tt t Hrun) Hj _ Ht) as [[] Ha].
  unfold macos_query, MacosProcess.pid_query in Ha. cbn [fst] in Ha.
  destruct (MacosProcess.pcblist_table _ _) as [table|] eqn:Et; [|done]. cbn [mbind option_bind] in Ha.
  exists j, lk', table. split_and!; [done..|]. by destruct (MacosProcess.scan_pcblist _ _ _) as [[o|]|]; subst.
Qed.

(** ** The tasks and their lookups

    The tasks of the netstack and the lookups they make share nothing but the
    answers, so a session is a run of each system in which every task's process
    table gives the answer its lookup ended with. *)

Definition attributed_by (f : flow) (lk : task_lookup linux_call) : Prop :=
  linux_key (lk_call lk) = endpoint_key (flow_src f) (flow_is_udp f)
  ∧ lk_stage lk = LAnswered (flow_owner f).

(** For the lookup [lk]: every socket the kernel has reported for its endpoint
    within the lifetime of a cached answer is one that no walk, however old, lists
    for a process other than [pid]. *)
Definition endpoint_of (t : table_state linux_call inode_map) (lk : task_lookup linux_call) (pid : Z) : Prop :=
  ∀ j lk' inode, tb_lookups t !! j = Some lk' → linux_key (lk_call lk') = linux_key (lk_call lk) →
    duration_since (li_now (lk_call lk)) (li_now (lk_call lk')) < CACHE_TTL →
    reported (lk_call lk') = Some inode →
    ∀ n lk'' p, tb_lookups t !! n = Some lk'' → listed inode p (lk_call lk'') → p = pid.


(** ** Concrete runs *)

#[local] Existing Instance MiniRegex.engine.

Module LookupDemo.

Definition listing : option (list LinuxProcess.proc_entry) := Some (LinuxProcess.entry_of <$> engine_items).
Definition at_time (now port : Z) : linux_call :=
  MkLinuxCall (SockAddr (V4 (ipv4 10 63 7 1)) port) LinuxProcess.demo_remote false now
    LinuxProcess.demo_query listing.

(** Two lookups for the engine's endpoint race, both having missed the cache, with
    one for an endpoint the kernel does not know; the older one stores last.  A
    fourth is answered from the cache. *)
Definition race : list (table_label linux_call) :=
  [TCall (at_time 0 50000); TRun 0; TCall (at_time (100 * 10 ^ 6) 50000); TRun 1;
   TCall (at_time (110 * 10 ^ 6) 50001); TRun 0; TRun 1; TRun 2; TRun 1; TRun 0; TRun 2;
   TCall (at_time (200 * 10 ^ 6) 50000); TRun 3].
Definition final : table_state linux_call inode_map := default linux_start (linux_run race linux_start).
Definition nth_lookup (i : nat) : task_lookup linux_call :=
  default (lookup_new (at_time 0 0)) (tb_lookups final !! i).

Lemma race_runs : linux_run race linux_start = Some final.
Proof. vm_compute. reflexivity. Qed.

(** The engine's flow, with the answer of the fourth lookup. *)
Definition own_flow : flow :=
  FTcp (linux_table LinuxProcess.demo_query listing no_text no_text 0 (∅, None)) Demo.tcp0
    LinuxProcess.demo_local LinuxProcess.demo_remote.
Definition net : system :=
  default (sys_start proxy_all)
    (sys_run (SAccept own_flow :: TaskDemo.moves 6 0) (sys_start proxy_all)).
Definition task0 : thread := default (MkThread own_flow [] (PEnd Hang)) (sy_threads net !! 0%nat).

End LookupDemo.

Lemma lookups_fresh_witness :
  ∃ j lk', tb_lookups LookupDemo.final !! j = Some lk' ∧ lk_told lk' = Some (Some 7)
    ∧ linux_key (lk_call lk') = linux_key (lk_call (LookupDemo.nth_lookup 3))
    ∧ duration_since (li_now (lk_call (LookupDemo.nth_lookup 3))) (li_now (lk_call lk')) < CACHE_TTL.
Proof.
  apply (lookups_fresh linux_key li_now linux_query LookupDemo.race None LookupDemo.final 3
    (LookupDemo.nth_lookup 3) 7); [exact LookupDemo.race_runs|vm_compute; reflexivity..].
Defined.

Lemma linux_answers_sound_witness :
  ∃ j lk' inode, tb_lookups LookupDemo.final !! j = Some lk'
    ∧ linux_key (lk_call lk') = linux_key (lk_call (LookupDemo.nth_lookup 3))
    ∧ duration_since (li_now (lk_call (LookupDemo.nth_lookup 3))) (li_now (lk_call lk')) < CACHE_TTL
    ∧ reported (lk_call lk') = Some inode
    ∧ ∃ n lk'', tb_lookups LookupDemo.final !! n = Some lk'' ∧ listed inode 7 (lk_call lk'').
Proof.
  apply (linux_answers_sound LookupDemo.race LookupDemo.final 3 (LookupDemo.nth_lookup 3) 7);
    [exact LookupDemo.race_runs|vm_compute; reflexivity..].
Defined.

(** Every call of the race sees one listing, in which the socket is process 7's. *)
Lemma race_endpoint : endpoint_of LookupDemo.final (LookupDemo.nth_lookup 3) 7.
Proof.
  intros j lk' inode Hj _ _ Hr n lk'' p Hn Hp.
  assert (Forall (λ lk, li_proc (lk_call lk) = LookupDemo.listing) (tb_lookups LookupDemo.final)) as Hall
    by (vm_compute; repeat constructor).
  unfold listed in Hp. rewrite (Forall_lookup_1 _ _ _ _ Hall Hn) in Hp.
  unfold LookupDemo.listing, LinuxProcess.scan_socket_inodes in Hp.
  rewrite LinuxProcess.scan_entries_lookup, lookup_empty in Hp by (repeat constructor; concrete).
  unfold engine_items in Hp. cbn [LinuxProcess.owner] in Hp. by case_match; simplify_eq.
Qed.


(** Both lookups of the race asked, and the older one's entry is the one that
    stays: the cached answer is dated before the newer lookup began. *)
Example older_answer_stored_last :
  lk_told (LookupDemo.nth_lookup 0) = Some (Some 7) ∧ lk_told (LookupDemo.nth_lookup 1) = Some (Some 7)
  ∧ (tb_cache LookupDemo.final).1 !! linux_key (LookupDemo.at_time 0 50000) = Some (7, 0)
  ∧ lk_told (LookupDemo.nth_lookup 3) = None ∧ lk_stage (LookupDemo.nth_lookup 2) = LAnswered None.
Proof. vm_compute. auto 6. Qed.
