(* ===== verification/MacosGuard.v ===== *)
(** * The loop guard on macOS

    As [Lookups] ends with the guard of Linux: the tasks of the netstack, the
    lookups they make over one cache, and what the kernel's dumps hold for the
    flow's local endpoint. *)

From S2P Require Export Lookups.
From S2P Require Import Attribution.
Local Open Scope Z_scope.

(** A socket that receives at the endpoint: bound to its port, on its address or on
    every address of its family. *)
Definition holds (local : SocketAddr) (p : MacosProcess.pcb) : Prop :=
  is_ipv6 (MacosProcess.pcb_laddr p) = is_ipv6 (sa_ip local)
  ∧ MacosProcess.pcb_lport p = sa_port local
  ∧ (MacosProcess.pcb_laddr p = sa_ip local ∨ is_unspecified (MacosProcess.pcb_laddr p) = true).

(** The dump is laid out as the kernel headers say, and every socket of it that
    holds the endpoint and has an owner is the process's. *)
Definition dump_of (local : SocketAddr) (pid : Z) (table : list Z) : Prop :=
  ∃ header socks tail, table = MacosProcess.encode_table header socks tail
    ∧ 20 ≤ zlen header ∧ 4 + zlen header < 2 ^ 32
    ∧ Forall (λ x, MacosProcess.pcb_ok x.1 x.2) socks ∧ zlen table < 2 ^ 64
    ∧ MacosProcess.next_record_pair table (zlen (MacosProcess.encode_table header socks [])) = None
    ∧ Forall (λ x, holds local x.1 → 0 < MacosProcess.pcb_pid x.1 → MacosProcess.pcb_pid x.1 = pid) socks.

Lemma level_holds local remote p k :
  MacosProcess.level local remote p = Some k → holds local p ∧ 0 < MacosProcess.pcb_pid p.
Proof.
  unfold MacosProcess.level, holds.
  destruct (eqb _ _) eqn:Ef; [|done]. destruct (Z.eqb_spec (MacosProcess.pcb_lport p) (sa_port local)); [|done].
  destruct (Z.leb_spec (MacosProcess.pcb_pid p) 0); [done|]. cbn [negb]. intros Hk.
  split; [|lia]. split; [by apply eqb_prop|]. split; [done|].
  destruct (is_unspecified (MacosProcess.pcb_laddr p)); [by right|left].
  destruct (decide (MacosProcess.pcb_laddr p = sa_ip local)) as [|Hne]; [done|].
  rewrite (bool_decide_eq_false_2 _ Hne), andb_false_r in Hk. done.
Qed.

(** The walk of such a dump names the process or nobody, wherever the flow goes. *)
Lemma dump_names_owner local remote pid table p :
  dump_of local pid table →
  MacosProcess.scan_pcblist table local remote = Some (Done (Some p)) → p = pid.
Proof.
  intros (header & socks & tail & -> & Hh & Hh' & Hok & Ht & Hend & Hown).
  rewrite MacosProcess.scan_encoded by done. intros [= Hp].
  match type of Hp with context [foldl _ None ?cs] => pose proof (MacosProcess.best_spec cs) as Hb end.
  destruct (foldl _ None _) as [c|]; [|done]. simplify_eq/=.
  destruct Hb as (i & (x & k & Hx & Hk & ->)%MacosProcess.candidate_at & _).
  destruct (level_holds _ _ _ _ Hk). by apply (Forall_lookup_1 _ _ _ _ Hown Hx).
Qed.

Definition macos_attributed_by (f : flow) (lk : task_lookup macos_call) : Prop :=
  macos_key (lk_call lk) = endpoint_key (flow_src f) (flow_is_udp f)
  ∧ lk_stage lk = LAnswered (flow_owner f).

(** For the lookup [lk]: in every dump the kernel gave for its endpoint within the
    lifetime of a cached answer, the endpoint is [pid]'s. *)
Definition macos_endpoint_of (t : table_state macos_call unit) (lk : task_lookup macos_call) (pid : Z) : Prop :=
  ∀ j lk' table, tb_lookups t !! j = Some lk' → macos_key (lk_call lk') = macos_key (lk_call lk) →
    duration_since (mi_now (lk_call lk)) (mi_now (lk_call lk')) < CACHE_TTL →
    MacosProcess.pcblist_table (mi_kernel (lk_call lk') (mi_udp (lk_call lk'))).1
      (mi_kernel (lk_call lk') (mi_udp (lk_call lk'))).2 = Some table →
    dump_of (mi_local (lk_call lk')) pid table.


(** ** A concrete run *)

#[local] Existing Instance MiniRegex.engine.

Module MacosGuardDemo.

(** The engine (7) holds the endpoint with a connected socket and another on every
    address; somebody else's socket has another port. *)
Definition socks : list (MacosProcess.pcb * MacosProcess.pcb_rest) :=
  [(MacosProcess.MkPcb (V4 0) 50000 (V4 0) 0 7, MacosProcess.demo_rest);
   (MacosProcess.MkPcb (sa_ip MacosProcess.demo_local) 50000 (sa_ip MacosProcess.demo_remote) 443 7,
    MacosProcess.demo_rest);
   (MacosProcess.MkPcb (V4 0) 5353 (V4 0) 0 9, MacosProcess.demo_rest)].
Definition dump : list Z := MacosProcess.encode_table (replicate 20 0) socks MacosProcess.demo_trailer.
Definition kernel (_ : bool) : option Z * option (list Z) := (Some (zlen dump), Some dump).
Definition at_time (now : Z) : macos_call :=
  MkMacosCall MacosProcess.demo_local MacosProcess.demo_remote false now kernel.

(** Two lookups race to the kernel; a third is answered from the cache. *)
Definition race : list (table_label macos_call) :=
  [TCall (at_time 0); TRun 0; TCall (at_time (100 * 10 ^ 6)); TRun 1; TRun 1; TRun 0; TRun 1; TRun 0;
   TCall (at_time (200 * 10 ^ 6)); TRun 2].
Definition final : table_state macos_call unit := default macos_start (macos_run race macos_start).
Definition third : task_lookup macos_call := default (lookup_new (at_time 0)) (tb_lookups final !! 2%nat).

Definition own_flow : flow :=
  FTcp (macos_table kernel (λ _, None) 0 (∅, tt)) Demo.tcp0 MacosProcess.demo_local MacosProcess.demo_remote.
Definition schedule : list sched := SAccept own_flow :: TaskDemo.moves 6 0.
Definition net : system := default (sys_start proxy_all) (sys_run schedule (sys_start proxy_all)).
Definition task0 : thread := default (MkThread own_flow [] (PEnd Hang)) (sy_threads net !! 0%nat).

End MacosGuardDemo.

Lemma dump_is_the_engines : dump_of MacosProcess.demo_local 7 MacosGuardDemo.dump.
Proof.
  exists (replicate 20 0), MacosGuardDemo.socks, MacosProcess.demo_trailer.
  split; [done|]. split_and!; try (by apply (bool_decide_unpack _); vm_compute).
  unfold MacosGuardDemo.socks. repeat (apply Forall_cons_2; [|]); [..|by apply Forall_nil_2];
    apply MacosProcess.pcb_okb_sound; vm_compute; reflexivity.
Qed.

