(* ===== verification/TypedTables.v ===== *)
(** * The process tables are well-typed

    [Typed] proves sessions well-typed against the interface [TypedTable]: a table
    answers with 32-bit pids and with text.  Here the tables of the three systems
    discharge it, from what their kernels hand over: bytes on macOS, the parsed
    names of [/proc] entries on Linux, 32-bit rows and 16-bit units on Windows.
    On Linux and macOS that includes the caches as any interleaving of lookups
    leaves them. *)

From S2P Require Export Typed Lookups.
From S2P Require Import Attribution.
Local Open Scope Z_scope.

(** ** Text *)

Lemma str_trim_start s : is_str s → is_str (trim_start s).
Proof. induction 1 as [|c s Hc Hs IH]; cbn; [constructor|]. destruct (is_whitespace c); [done|by constructor]. Qed.

Lemma str_trim s : is_str s → is_str (trim s).
Proof.
  intros Hs. unfold trim, trim_end. by apply Forall_reverse, str_trim_start, Forall_reverse, str_trim_start.
Qed.

Lemma str_split p s : is_str s → Forall is_str (split p s).
Proof.
  assert (is_str []) as Hnil by constructor.
  induction 1 as [|c s Hc Hs IH]; cbn; [by constructor|].
  destruct (p c); [by constructor|].
  destruct IH as [|w ws Hw Hws]; (constructor; [by constructor|done]).
Qed.

Lemma str_file_name s : is_str s → is_str (WindowsProcess.file_name s).
Proof.
  destruct (WindowsProcess.file_name_spec s) as (_ & dir & Hd & _). rewrite Hd at 1.
  by intros [_ ?]%Forall_app.
Qed.

(** [from_utf16_lossy] gives text, whatever the units. *)
Lemma str_from_utf16_lossy us : Forall is_u16 us → is_str (WindowsProcess.from_utf16_lossy us).
Proof.
  remember (length us) as n eqn:Hn. assert (length us ≤ n)%nat as Hle by lia. clear Hn. revert us Hle.
  induction n as [|n IH]; intros us Hle Hu; [destruct us; [constructor|cbn in Hle; lia]|].
  destruct Hu as [|x us Hx Hu]; [constructor|]. cbn [length] in Hle. cbn [WindowsProcess.from_utf16_lossy].
  pose proof (IH us ltac:(lia) Hu) as Hrest. unfold is_u16 in Hx.
  assert (is_scalar 0xFFFD) as Hrep by (unfold is_scalar; lia).
  unfold WindowsProcess.is_high, WindowsProcess.is_low.
  destruct ((0xD800 <=? x) && (x <=? 0xDBFF)) eqn:Eh.
  - destruct Hu as [|y us Hy Hu]; [by constructor|]. cbn [length] in Hle. unfold is_u16 in Hy.
    destruct ((0xDC00 <=? y) && (y <=? 0xDFFF)) eqn:El; [|by constructor].
    constructor; [unfold is_scalar; lia|]. apply IH; [lia|done].
  - destruct ((0xDC00 <=? x) && (x <=? 0xDFFF)) eqn:El; constructor; try done. unfold is_scalar. lia.
Qed.

(** ** Numbers *)

Lemma parse_digits_range max acc s n : 0 ≤ acc ≤ max → parse_digits max acc s = Some n → 0 ≤ n ≤ max.
Proof.
  revert acc. induction s as [|c s IH]; intros acc Ha; cbn [parse_digits]; [by intros [= <-]|].
  destruct (digit_of c) as [d|] eqn:Ed; [|done]. cbn [mbind option_bind].
  unfold digit_of in Ed. case_match; [|done]. simplify_eq.
  case_match; [|done]. apply IH. lia.
Qed.

Lemma parse_u32_range s n : parse_u32 s = Some n → is_u32 n.
Proof.
  unfold parse_u32, parse_uint, is_u32. intros Hp.
  assert (∀ t, parse_digits 4294967295 0 t = Some n → 0 ≤ n < 2 ^ 32) as Hd.
  { intros t Ht%parse_digits_range; lia. }
  repeat case_match; try done; by eapply Hd.
Qed.

(** ** The endpoint cache *)

Definition cache_typed (e : endpoints_map) : Prop := map_Forall (λ _ x, is_u32 x.1) e.

Lemma cache_hit_typed e key now pid : cache_typed e → cache_hit e key now = Some pid → is_u32 pid.
Proof.
  intros He. unfold cache_hit. destruct (e !! key) as [[p t]|] eqn:E; [|done].
  destruct (_ <? _); [|done]. intros [= <-]. exact (He _ _ E).
Qed.

Lemma resolve_with_typed {S} (query : S → option Z * S) key now c pid :
  cache_typed c.1 → (∀ p, (query c.2).1 = Some p → is_u32 p) →
  (resolve_with query key now c).1 = Some pid → is_u32 pid.
Proof.
  intros Hc Hq. unfold resolve_with. destruct (cache_hit c.1 key now) as [p|] eqn:Eh.
  - intros [= <-]. by eapply cache_hit_typed.
  - destruct (query c.2) as [[p|] s]; [|done]. intros [= <-]. by apply Hq.
Qed.

(** A cache holds only what queries were told. *)
Lemma run_cache_typed {C S} (key : C → EndpointKey) now (query : C → S → option Z * S) ls s t :
  table_run key now query ls (table_start s) = Some t →
  Forall (λ lk, ∀ p, lk_told lk = Some (Some p) → is_u32 p) (tb_lookups t) →
  cache_typed (tb_cache t).1.
Proof.
  intros Hrun%table_run_inv Ht ek [pid at_] He.
  destruct (ti_cache _ _ _ Hrun _ _ _ He) as (j & lk & Hj & Htold & _).
  exact (Forall_lookup_1 _ _ _ _ Ht Hj pid Htold).
Qed.

(** ** Linux *)

Definition inodes_typed (m : gmap Z Z) : Prop := map_Forall (λ _ pid, is_u32 pid) m.

Lemma or_insert_typed m inode pid : inodes_typed m → is_u32 pid → inodes_typed (LinuxProcess.or_insert m inode pid).
Proof.
  intros Hm Hp. unfold LinuxProcess.or_insert. destruct (m !! inode); [done|]. by apply map_Forall_insert_2.
Qed.

Lemma scan_fds_typed pid fds m : is_u32 pid → inodes_typed m → inodes_typed (LinuxProcess.scan_fds pid fds m).
Proof.
  intros Hp. revert m. induction fds as [|t fds IH]; intros m Hm; cbn; [done|]. apply IH.
  destruct (t ≫= _); [by apply or_insert_typed|done].
Qed.

(** A walk lists 32-bit pids, whatever [/proc] contains. *)
Lemma scan_typed proc : inodes_typed (LinuxProcess.scan_socket_inodes proc).
Proof.
  destruct proc as [es|]; [|apply map_Forall_empty]. unfold LinuxProcess.scan_socket_inodes.
  assert (inodes_typed ∅) as Hm by apply map_Forall_empty. revert Hm. generalize (∅ : gmap Z Z).
  induction es as [|e es IH]; intros m Hm; cbn; [done|]. apply IH.
  destruct (parse_u32 _) as [pid|] eqn:Ep; [|done]. destruct (LinuxProcess.pe_fds e); [|done].
  by apply scan_fds_typed; [eapply parse_u32_range|].
Qed.

Definition inode_map_typed (o : inode_map) : Prop := ∀ m at_, o = Some (m, at_) → inodes_typed m.

Lemma linux_query_typed k o pid : inode_map_typed o → (linux_query k o).1 = Some pid → is_u32 pid.
Proof.
  intros Ho. unfold linux_query, LinuxProcess.pid_query. destruct (LinuxProcess.query_socket_inode _ _ _ _) as [inode|]; [|done].
  unfold LinuxProcess.inode_to_pid. destruct (o ≫= _) as [p|] eqn:E; [|intros Hp; by eapply scan_typed].
  intros [= <-]. destruct o as [[m at_]|]; [|done]. by eapply (Ho m at_).
Qed.

(** The caches after any interleaving of lookups. *)
Lemma linux_run_typed ls t :
  linux_run ls linux_start = Some t → cache_typed (tb_cache t).1 ∧ inode_map_typed (tb_cache t).2.
Proof.
  intros Hrun. destruct (linux_run_inv ls t Hrun) as [_ [Hm Ht]]. split.
  - eapply run_cache_typed; [exact Hrun|]. eapply Forall_impl; [exact Ht|]. intros lk Hlk pid Hp.
    destruct (Hlk pid Hp) as (inode & _ & j & lk' & _ & _ & Hl). by eapply scan_typed.
  - intros m at_ E. destruct (Hm m at_ E) as (j & lk & _ & _ & <-). apply scan_typed.
Qed.

Lemma linux_name_typed comm exe n :
  wf_text comm → wf_text exe → LinuxProcess.process_name comm exe = Some n → is_str n.
Proof.
  intros Hc He. unfold LinuxProcess.process_name. destruct comm as [c|]; [|done]. cbn.
  destruct (negb _); [intros [= <-]; by apply str_trim|]. destruct exe as [e|]; [|done]. cbn.
  unfold LinuxProcess.path_file_name. destruct (last _) as [x|] eqn:El; [|done]. cbn.
  destruct (str_eqb _ _); [done|]. intros [= <-].
  apply last_Some_elem_of, list_elem_of_In, filter_In in El as [Hx%list_elem_of_In _].
  pose proof (str_split (Z.eqb 47) e He) as Hs. rewrite Forall_forall in Hs. by apply Hs.
Qed.

(** ** macOS *)

Lemma score_record_typed inpcb socket local remote c :
  Forall is_byte socket → MacosProcess.score_record inpcb socket local remote = Some c → is_u32 (MacosProcess.c_pid c).
Proof.
  intros Hb. unfold MacosProcess.score_record.
  destruct (get _ _); [|done]. cbn [mbind option_bind]. destruct (negb _); [done|].
  destruct (MacosProcess.read_u16_be _ MacosProcess.XINPCB_OFFSET_LPORT); cbn [mbind option_bind]; [|done].
  destruct (MacosProcess.read_u16_be _ MacosProcess.XINPCB_OFFSET_FPORT); cbn [mbind option_bind]; [|done]. destruct (negb _); [done|].
  destruct (MacosProcess.read_address _ MacosProcess.XINPCB_OFFSET_LADDR _); cbn [mbind option_bind]; [|done].
  destruct (MacosProcess.read_address _ MacosProcess.XINPCB_OFFSET_FADDR _); cbn [mbind option_bind]; [|done].
  match goal with |- (?x ≫= _) = Some c → _ => destruct x as [k|]; cbn [mbind option_bind]; [|done] end.
  unfold MacosProcess.read_i32_le. destruct (get_range socket _ _) as [bs|] eqn:E; [|done]. cbn.
  assert (MacosProcess.read_u32_le socket MacosProcess.XSOCKET_OFFSET_LAST_PID = Some (le_val bs)) as Hr
    by (unfold MacosProcess.read_u32_le; by rewrite E).
  apply MacosProcess.read_u32_bound in Hr; [|done].
  destruct (_ <=? 0) eqn:Ep; [done|]. intros [= <-]. cbn. unfold MacosProcess.as_i32, is_u32 in *. case_match; lia.
Qed.

Lemma slice_bytes l a b x : Forall is_byte l → slice l a b = Done x → Forall is_byte x.
Proof.
  unfold slice. intros Hl. destruct (get_range l a b) eqn:E; [|done]. intros [= <-]. by eapply get_range_bytes.
Qed.

Lemma scan_pcblist_typed table local remote pid :
  Forall is_byte table → MacosProcess.scan_pcblist table local remote = Some (Done (Some pid)) → is_u32 pid.
Proof.
  intros Hb. unfold MacosProcess.scan_pcblist. destruct (MacosProcess.read_u32_le _ _) as [off|]; [|done].
  destruct (off <? _); [done|].
  assert (∀ fuel off best r, (∀ c, best = Some c → is_u32 (MacosProcess.c_pid c)) →
    MacosProcess.scan_loop fuel table local remote off best = Some (Done r) →
    ∀ c, r = Some c → is_u32 (MacosProcess.c_pid c)) as Hgo.
  { intros fuel. induction fuel as [|fuel IH]; intros o best r Hbest; [done|]. cbn [MacosProcess.scan_loop].
    destruct (MacosProcess.next_record_pair table o) as [[a b]|]; [|by intros [= <-]].
    destruct (slice table o a) as [inpcb|] eqn:E1; [|done].
    destruct (slice table a b) as [socket|] eqn:E2; [|done]. apply IH. intros c.
    unfold MacosProcess.update_best. destruct (MacosProcess.score_record _ _ _ _) as [c'|] eqn:Es; [|by apply Hbest].
    destruct (MacosProcess.improves best c'); [|by apply Hbest]. intros [= <-].
    eapply score_record_typed; [|exact Es]. by eapply slice_bytes. }
  destruct (MacosProcess.scan_loop _ _ _ _ _ _) as [[[c|]|]|] eqn:El; try done.
  cbn. intros [= <-]. by eapply Hgo; [|exact El|].
Qed.

(** What the kernel copies out. *)
Definition kernel_bytes (kernel : bool → option Z * option (list Z)) : Prop :=
  ∀ b bs, (kernel b).2 = Some bs → Forall is_byte bs.

Lemma macos_query_typed k s pid : kernel_bytes (mi_kernel k) → (macos_query k s).1 = Some pid → is_u32 pid.
Proof.
  intros Hk. unfold macos_query, MacosProcess.pid_query, MacosProcess.pcblist_table. cbn [fst].
  destruct (mi_kernel k (mi_udp k)) as [sz fetch] eqn:E. cbn [fst snd].
  destruct sz as [n|]; [|done]. cbn. destruct (n =? 0); [done|]. destruct fetch as [bs|]; [|done]. cbn.
  assert (Forall is_byte (take (Z.to_nat n) bs)) as Hb by (apply Forall_take, (Hk (mi_udp k)); by rewrite E).
  destruct (MacosProcess.scan_pcblist _ _ _) as [[[p|]|]|] eqn:Es; try done. intros [= <-].
  by eapply scan_pcblist_typed.
Qed.

Lemma macos_run_typed ls t :
  macos_run ls macos_start = Some t →
  Forall (λ lk, kernel_bytes (mi_kernel (lk_call lk))) (tb_lookups t) → cache_typed (tb_cache t).1.
Proof.
  intros Hrun Hk. eapply run_cache_typed; [exact Hrun|].
  pose proof (told_answer _ _ _ ls tt t Hrun) as Ht.
  apply Forall_lookup. intros j lk Hj p Hp.
  destruct (Forall_lookup_1 _ _ _ _ Ht Hj _ Hp) as [s Ha]. eapply macos_query_typed; [|by rewrite <-Ha].
  exact (Forall_lookup_1 _ _ _ _ Hk Hj).
Qed.

Lemma macos_name_typed comm n :
  (∀ bs, comm = Some bs → Forall is_byte bs) → MacosProcess.process_name comm = Some n → is_str n.
Proof.
  intros Hb. unfold MacosProcess.process_name. destruct comm as [bs|]; [|done]. cbn.
  assert (Forall is_byte (MacosProcess.until_nul bs)) as Hu.
  { specialize (Hb bs eq_refl). induction Hb as [|b bs Hb0 _ IH]; cbn; [constructor|].
    destruct (b =? 0); by constructor. }
  destruct (from_utf8 _) as [s|] eqn:E; [|done]. cbn. destruct (is_empty _); [done|]. intros [= <-].
  apply str_trim. by eapply from_utf8_str.
Qed.

(** ** Windows *)

Record rows_typed (os : WindowsProcess.ip_helper) : Prop := {
  rt_tcp4 : Forall (λ r, is_u32 (WindowsProcess.dwOwningPid4 r)) (WindowsProcess.rows (WindowsProcess.tcp4 os));
  rt_udp4 : Forall (λ r, is_u32 (WindowsProcess.dwOwningPid4 r)) (WindowsProcess.rows (WindowsProcess.udp4 os));
  rt_tcp6 : Forall (λ r, is_u32 (WindowsProcess.dwOwningPid6 r)) (WindowsProcess.rows (WindowsProcess.tcp6 os));
  rt_udp6 : Forall (λ r, is_u32 (WindowsProcess.dwOwningPid6 r)) (WindowsProcess.rows (WindowsProcess.udp6 os))
}.

Lemma first_row_typed {R} (c : R → bool) pid rs p :
  Forall (λ r, is_u32 (pid r)) rs → WindowsProcess.first_row c pid rs = Some p → is_u32 p.
Proof. induction 1; cbn; [done|]. destruct (c x); [by intros [= <-]|done]. Qed.

Lemma fetch_table_rows {R} (f : WindowsProcess.fetched R) rs :
  WindowsProcess.fetch_table f = Some rs → rs = WindowsProcess.rows f.
Proof. unfold WindowsProcess.fetch_table. repeat case_match; by intros [= <-]. Qed.

Lemma or_else_typed o k p :
  (∀ p, o = Some p → is_u32 p) → (∀ p, k = Some p → is_u32 p) → WindowsProcess.or_else o k = Some p → is_u32 p.
Proof. destruct o; cbn; eauto. Qed.

Lemma windows_pid_typed os ip port is_udp pid :
  rows_typed os → WindowsProcess.resolve_pid os ip port is_udp = Some pid → is_u32 pid.
Proof.
  intros [H1 H2 H3 H4].
  assert (∀ a p, WindowsProcess.resolve_pid_tcp_v4 os a port = Some p → is_u32 p) as T4.
  { intros a p. unfold WindowsProcess.resolve_pid_tcp_v4. destruct (WindowsProcess.fetch_table _) as [rs|] eqn:E; [|done].
    apply fetch_table_rows in E as ->. by apply first_row_typed. }
  assert (∀ a p, WindowsProcess.resolve_pid_tcp_v6 os a port = Some p → is_u32 p) as T6.
  { intros a p. unfold WindowsProcess.resolve_pid_tcp_v6. destruct (WindowsProcess.fetch_table _) as [rs|] eqn:E; [|done].
    apply fetch_table_rows in E as ->. by apply first_row_typed. }
  assert (∀ a p, WindowsProcess.resolve_pid_udp_v4 os a port = Some p → is_u32 p) as U4.
  { intros a p. unfold WindowsProcess.resolve_pid_udp_v4. destruct (WindowsProcess.fetch_table _) as [rs|] eqn:E; [|done].
    apply fetch_table_rows in E as ->. cbn. apply or_else_typed; intros q; by apply first_row_typed. }
  assert (∀ a p, WindowsProcess.resolve_pid_udp_v6 os a port = Some p → is_u32 p) as U6.
  { intros a p. unfold WindowsProcess.resolve_pid_udp_v6. destruct (WindowsProcess.fetch_table _) as [rs|] eqn:E; [|done].
    apply fetch_table_rows in E as ->. by apply first_row_typed. }
  unfold WindowsProcess.resolve_pid. destruct ip, is_udp; eauto using or_else_typed.
Qed.

Lemma windows_name_typed opened image pid n :
  (∀ us, image pid = Some us → Forall is_u16 us) → WindowsProcess.process_name opened image pid = Some n → is_str n.
Proof.
  intros Hi. unfold WindowsProcess.process_name, WindowsProcess.process_path.
  destruct (pid =? 0); [done|]. destruct (negb _); [done|]. destruct (image pid) as [us|]; [|done]. cbn.
  destruct (zlen us =? 0); [done|]. cbn. intros [= <-]. by apply str_file_name, str_from_utf16_lossy, Hi.
Qed.

(** ** The three systems *)

(** A process table as a task may find it: with the caches some interleaving of
    lookups left, over kernels that hand over what their interfaces say. *)
Inductive system_table : ProcessTable → Prop :=
  | OnLinux ls t query proc comm exe now :
      linux_run ls linux_start = Some t →
      (∀ pid, wf_text (comm pid)) → (∀ pid, wf_text (exe pid)) →
      system_table (linux_table query proc comm exe now (tb_cache t))
  | OnMacos ls t kernel comm now :
      macos_run ls macos_start = Some t →
      Forall (λ lk, kernel_bytes (mi_kernel (lk_call lk))) (tb_lookups t) → kernel_bytes kernel →
      (∀ pid bs, comm pid = Some bs → Forall is_byte bs) →
      system_table (macos_table kernel comm now (tb_cache t))
  | OnWindows os opened image :
      rows_typed os → (∀ pid us, image pid = Some us → Forall is_u16 us) →
      system_table (windows_table os opened image).

(** the process tables of the three systems keep the promise the netstack's
    typing relies on.  With the caches as any interleaving of lookups leaves them,
    whatever [/proc] lists, whatever bytes the macOS kernel copies out and
    whatever 16-bit units a Windows path is made of — unpaired surrogates, text
    that is not UTF-8, signed and negative pids included — a lookup answers with a
    32-bit pid and a name is valid text. *)
Theorem tables_typed table : system_table table → TypedTable table.
Proof.
  intros [ls t query proc comm exe now Hrun Hc He|ls t kernel comm now Hrun Hlk Hk Hc|os opened image Hr Hi].
  - destruct (linux_run_typed ls t Hrun) as [Ht Hm]. split.
    + intros src dest is_udp pid. cbn. apply resolve_with_typed; [done|]. intros p.
      by apply (linux_query_typed (MkLinuxCall src dest is_udp now query proc)).
    + intros pid n. by apply linux_name_typed.
  - split.
    + intros src dest is_udp pid. cbn. apply resolve_with_typed; [by eapply macos_run_typed|]. intros p.
      by apply (macos_query_typed (MkMacosCall src dest is_udp now kernel) (tb_cache t).2).
    + intros pid n. by apply macos_name_typed, Hc.
  - split.
    + intros src dest is_udp pid. by apply windows_pid_typed.
    + intros pid n. by apply windows_name_typed, Hi.
Qed.

Lemma tables_typed_witness :
  TypedTable (linux_table LinuxProcess.demo_query LookupDemo.listing no_text no_text 0 (tb_cache LookupDemo.final))
  ∧ TypedTable (windows_table (WindowsProcess.MkIpHelper (WindowsProcess.MkFetched 122 0 [])
      (WindowsProcess.MkFetched 122 0 [WindowsProcess.MkRow4 0 0 7]) (WindowsProcess.MkFetched 122 0 [])
      (WindowsProcess.MkFetched 122 0 [])) (λ _, true) (λ _, Some [0xD800; 92; 65])).
Proof.
  split.
  - apply tables_typed, (OnLinux LookupDemo.race); [exact LookupDemo.race_runs|intros pid; exact I..].
  - apply tables_typed, OnWindows; [split; concrete|]. intros pid us [= <-]. concrete.
Defined.

(** A pid in the kernel's macOS records is signed: a negative one is refused
    rather than read as a large unsigned number. *)
Definition record_for (local : Z) : list Z :=
  replicate 16 0 ++ [1; 187; 195; 80] ++ replicate 24 0 ++ [1] ++ replicate 31 0 ++ be_bytes 4 local ++ replicate 24 0.
Example negative_pid_refused :
  let score socket := MacosProcess.score_record (record_for (ipv4 10 63 7 1)) socket
    LinuxProcess.demo_local LinuxProcess.demo_remote in
  score (replicate 68 0 ++ [7; 0; 0; 0]) = Some (MacosProcess.MkCandidate 7 2)
  ∧ score (replicate 68 0 ++ [7; 0; 0; 255]) = None.
Proof. vm_compute. auto. Qed.
