(* ===== verification/Host.v ===== *)
(** * The engine on its host (the composition of [lib.rs] with the adapters)

    [Engine] keeps what the engine asks for: the flags of a session say that the
    removal of its routes and device has been requested.  [Adapter] creates and
    drops an adapter against the system's forwarding table, which may refuse.
    Here a host runs both: every start that reaches [Backend::create] runs it, and
    the adapter it made is dropped by whichever step empties the session's slot;
    the routes reported on the way, by an error or by the log of a failed
    deletion, are collected.  A backend is an interface ([Backend] and
    [BackendLaws]), implemented by the adapters of [Adapter].

    The theorems: a host's run is a run of the engine, and as long as no start
    overlaps a pending teardown, the forwarding table always holds the original
    routes, and whenever no session holds an adapter no other ones, but those
    reported multicast routes the system would not delete. *)

From S2P Require Export Engine Rtnetlink.
Local Open Scope Z_scope.

(** [Backend::create_privileged], the drop of the adapter, and the table. *)
Class Backend (K : Type) : Type := {
  be_create : bool → PhysicalInterface → K → result Error TunAdapter * list Route * K;
  be_drop : TunAdapter → K → list Route * K;
  be_table : K → gset Route
}.

(** Over the original table [T0], when the routes [rep] have been reported so far:
    [up rep a k] says [a] is the adapter installed in [k].  Of the reported
    routes, the [lasting] ones may be in the table still. *)
Class BackendLaws (K : Type) `{Backend K} (T0 : gset Route) (lasting : Route → bool)
    (up : list Route → TunAdapter → K → Prop) : Prop := {
  create_up ipv6 iface rep k : accounted T0 (List.filter lasting rep) (be_table k) →
    match be_create ipv6 iface k with
    | (Err _, new, k') => accounted T0 (List.filter lasting (rep ++ new)) (be_table k')
    | (Ok a, new, k') => up (rep ++ new) a k'
    end;
  drop_accounted rep a k : up rep a k →
    let '(new, k') := be_drop a k in accounted T0 (List.filter lasting (rep ++ new)) (be_table k');
  up_routes rep a k : up rep a k →
    T0 ⊆ be_table k
    ∧ ∀ r, r ∈ be_table k →
        r ∈ T0 ∨ r ∈ List.filter lasting rep ∨ r ∈ a_routes a ∨ rt_ifindex r = a_ifindex a
}.

Definition unix_backend `{NetKernel K} : Backend K :=
  {| be_create := unix_create; be_drop := unix_drop; be_table := k_table |}.
Definition windows_backend `{NetKernel K} : Backend K :=
  {| be_create ipv6 _ := windows_create ipv6; be_drop := windows_drop; be_table := k_table |}.

(** A route to one of the multicast prefixes. *)
Definition group_route (r : Route) : bool :=
  bool_decide ((rt_dest r, rt_prefix r) = (V4 MULTICAST_V4, MULTICAST_V4_PREFIX))
  || bool_decide ((rt_dest r, rt_prefix r) = (V6 MULTICAST_V6, MULTICAST_V6_PREFIX)).

Lemma multicast_plan_group ipv6 iface r : r ∈ multicast_plan ipv6 iface → group_route r = true.
Proof.
  unfold multicast_plan, opt_route, group_route. intros [Hr|Hr]%elem_of_app.
  - destruct (v4_index iface); [|by apply not_elem_of_nil in Hr].
    apply list_elem_of_singleton in Hr as ->. apply orb_true_iff. left. by apply bool_decide_eq_true.
  - destruct ipv6; [|by apply not_elem_of_nil in Hr].
    destruct (v6_index iface); [|by apply not_elem_of_nil in Hr].
    apply list_elem_of_singleton in Hr as ->. apply orb_true_iff. right. by apply bool_decide_eq_true.
Qed.

Lemma elem_of_lasting (lasting : Route → bool) l r : r ∈ List.filter lasting l ↔ r ∈ l ∧ lasting r = true.
Proof. by rewrite !list_elem_of_In, List.filter_In. Qed.

Section Instances.
Context {K : Type} `{NetKernelLaws K covers} (T0 : gset Route).

Definition unix_up (rep : list Route) (a : TunAdapter) (k : K) : Prop :=
  ∃ ipv6 iface, up (covers:=covers) (unix_plan ipv6 iface) T0 (List.filter group_route rep) a k.

Lemma unix_backend_laws :
  (∀ ipv6 iface i, apart (covers:=covers) (unix_plan ipv6 iface i) T0) →
  @BackendLaws K unix_backend T0 group_route unix_up.
Proof.
  intros Hap. split; cbn [be_create be_drop be_table unix_backend].
  - intros ipv6 iface rep k Hk. pose proof (unix_create_accounted ipv6 iface _ _ k Hk (Hap ipv6 iface)) as Hc.
    destruct (unix_create ipv6 iface k) as [[[a|e] new] k'].
    + destruct Hc as (-> & _ & Hup). rewrite app_nil_r. by exists ipv6, iface.
    + destruct Hc as [H1 H2]. split; [done|]. intros r Hr. rewrite elem_of_lasting, elem_of_app.
      destruct (H2 r Hr) as [?|[[? ?]%elem_of_lasting|[? ?%multicast_plan_group]]]; auto.
  - intros rep a k (ipv6 & iface & Hup). pose proof (unix_drop_accounted _ _ _ _ _ _ Hup) as Hd.
    destruct (unix_drop a k) as [new k']. destruct Hd as [H1 H2]. split; [done|].
    intros r Hr. rewrite elem_of_lasting, elem_of_app.
    destruct (H2 r Hr) as [?|[[[? ?]%elem_of_lasting|[? ?%multicast_plan_group]] _]]; auto.
  - intros rep a k (ipv6 & iface & Hup). apply Hup.
Qed.

Definition windows_up (rep : list Route) (a : TunAdapter) (k : K) : Prop :=
  ∃ ipv6, up (covers:=covers) (windows_plan ipv6) T0 [] a k.

Lemma filter_none (l : list Route) : List.filter (λ _, false) l = [].
Proof. by induction l. Qed.

Lemma windows_backend_laws :
  (∀ ipv6 i, apart (covers:=covers) (windows_plan ipv6 i) T0) →
  @BackendLaws K windows_backend T0 (λ _, false) windows_up.
Proof.
  intros Hap. split; cbn [be_create be_drop be_table windows_backend].
  - intros ipv6 iface rep k. rewrite filter_none. intros Hk.
    pose proof (windows_create_accounted ipv6 _ _ k Hk (Hap ipv6)) as Hc.
    destruct (windows_create ipv6 k) as [[[a|e] new] k']; [|by rewrite filter_none].
    destruct Hc as (_ & _ & Hup). by exists ipv6.
  - intros rep a k [ipv6 Hup]. pose proof (windows_drop_accounted _ _ _ _ _ Hup) as Hd.
    destruct (windows_drop a k). by rewrite filter_none.
  - intros rep a k [ipv6 Hup]. rewrite filter_none. apply Hup.
Qed.
End Instances.

(** ** The host *)

Section Host.
Context {K : Type} `{Backend K} (ipv6 : bool).

(** The engine, the system, the adapters that are up by their sessions, and the
    routes reported so far. *)
Record host : Type := MkHost {
  h_engine : engine;
  h_kernel : K;
  h_adapters : gmap nat TunAdapter;
  h_reported : list Route
}.

Definition host_new (k : K) : host := MkHost engine_new k ∅ [].

Definition with_create (c : option Error) (env : start_env) : start_env :=
  MkStartEnv (se_discover env) (se_privileged env) c (se_session env) (se_device env).

(** Whether [start] gets as far as [create_privileged]. *)
Definition reaches_create (env : start_env) (e : engine) : bool :=
  negb (dropped e) && negb (running_flag e) && negb (interface_is_empty (se_discover env))
  && se_privileged env.

(** [start], with the adapter created by the backend; the adapter is dropped
    when the device over it cannot be made. *)
Definition host_start (env : start_env) (h : host) : option host :=
  let e := h_engine h in
  if reaches_create env e then
    match be_create ipv6 (se_discover env) (h_kernel h) with
    | (Err er, new, k) =>
      e' ← step (LStart (with_create (Some er) env)) e;
      Some (MkHost e' k (h_adapters h) (h_reported h ++ new))
    | (Ok a, new, k) =>
      let env := with_create None env in
      e' ← step (LStart env) e;
      Some (match (start env e).1 with
            | Ok _ => MkHost e' k (<[length (sessions e) := a]> (h_adapters h)) (h_reported h ++ new)
            | Err _ => let '(logged, k) := be_drop a k in
                       MkHost e' k (h_adapters h) ((h_reported h ++ new) ++ logged)
            end)
    end
  else e' ← step (LStart env) e; Some (MkHost e' (h_kernel h) (h_adapters h) (h_reported h)).

(** The session whose slot a step may empty. *)
Definition tears (l : label) (e : engine) : option nat :=
  match l with
  | LWatchdogTeardown k | LStopEnd k => Some k
  | LDrop => handle e
  | _ => None
  end.

Definition holds (e : engine) (k : nat) : bool :=
  match sessions e !! k with Some s => negb (taken s) | None => false end.

(** The adapter leaves with the step that takes it. *)
Definition move (l : label) (e' : engine) (h : host) : host :=
  let stays := MkHost e' (h_kernel h) (h_adapters h) (h_reported h) in
  match tears l (h_engine h) with
  | Some k =>
    match h_adapters h !! k with
    | Some a =>
      if holds e' k then stays
      else let '(logged, kern) := be_drop a (h_kernel h) in
           MkHost e' kern (delete k (h_adapters h)) (h_reported h ++ logged)
    | None => stays
    end
  | None => stays
  end.

Definition host_step (l : label) (h : host) : option host :=
  match l with
  | LStart env => host_start env h
  | _ => e' ← step l (h_engine h); Some (move l e' h)
  end.

(** A run in which no start that creates an adapter overlaps another adapter. *)
Inductive calm (k0 : K) : host → Prop :=
  | calm_new : calm k0 (host_new k0)
  | calm_step l h h' :
      calm k0 h →
      (∀ env, l = LStart env → reaches_create env (h_engine h) = true → h_adapters h = ∅) →
      host_step l h = Some h' → calm k0 h'.

(** Running a schedule, and the same that stops at an overlapping start. *)
Fixpoint host_run (ls : list label) (h : host) : option host :=
  match ls with [] => Some h | l :: ls' => h' ← host_step l h; host_run ls' h' end.

Definition overlaps (l : label) (h : host) : bool :=
  match l with
  | LStart env => reaches_create env (h_engine h) && negb (bool_decide (size (h_adapters h) = 0%nat))
  | _ => false
  end.
Fixpoint calm_run (ls : list label) (h : host) : option host :=
  match ls with
  | [] => Some h
  | l :: ls' => if overlaps l h then None else h' ← host_step l h; calm_run ls' h'
  end.

(** ** Lemmas *)

(** What a step does to who holds an adapter. *)
Lemma start_holds env e k :
  dropped e = false →
  holds (start env e).2 k
  = match (start env e).1 with
    | Ok _ => bool_decide (k = length (sessions e)) || holds e k
    | Err _ => holds e k
    end.
Proof.
  intros _. unfold start. destruct (running_flag e); [done|]. unfold start_inner.
  destruct (interface_is_empty _); [done|].
  destruct (backend_create env) as [|]; [|done].
  destruct (se_session env), (se_device env); try done. unfold holds. simpl.
  case_bool_decide as Hk.
  - by rewrite Hk, list_lookup_middle.
  - destruct (sessions e !! k) as [s|] eqn:Es.
    + by rewrite (lookup_app_l_Some _ _ _ _ Es).
    + rewrite lookup_ge_None in Es. rewrite lookup_ge_None_2; [done|].
      rewrite length_app. simpl. lia.
Qed.

Lemma start_outcome env e :
  reaches_create env e = true →
  (start (with_create (None) env) e).1
  = match se_session env, se_device env with
    | Some er, _ | None, Some er => Err (Io er)
    | None, None => Ok tt
    end.
Proof.
  unfold reaches_create, start, start_inner, backend_create, with_create. simpl.
  intros (((_ & Hr)%andb_true_iff & Hi)%andb_true_iff & Hp)%andb_true_iff.
  apply negb_true_iff in Hr, Hi. rewrite Hr, Hi, Hp. simpl.
  by destruct (se_session env), (se_device env).
Qed.

Lemma holds_alter f k j e :
  holds (with_sessions (alter f k) e) j
  = if bool_decide (j = k)
    then match sessions e !! k with Some s => negb (taken (f s)) | None => false end
    else holds e j.
Proof.
  unfold holds, with_sessions. simpl. case_bool_decide as Hj.
  - subst. rewrite list_lookup_alter_eq. by destruct (sessions e !! k).
  - by rewrite list_lookup_alter_ne.
Qed.

Lemma holds_alter_same f k j e :
  (∀ s, taken (f s) = taken s) → holds (with_sessions (alter f k) e) j = holds e j.
Proof.
  intros Hf. rewrite holds_alter. case_bool_decide as Hj; [|done]. subst. unfold holds.
  destruct (sessions e !! k); [by rewrite Hf|done].
Qed.

Lemma taken_teardown s : taken (teardown s) = true.
Proof. unfold teardown. by destruct (taken s) eqn:E; simpl. Qed.

Lemma session_step_holds k enabled f e e' j :
  session_step k enabled f e = Some e' → (∀ s, taken (f s) = taken s) → holds e' j = holds e j.
Proof.
  unfold session_step. destruct (sessions e !! k); simpl; [|done].
  destruct (enabled _); [|done]. intros [= <-] Hf. by apply holds_alter_same.
Qed.

(** Only the session a step tears down can lose its adapter; none gains one. *)
Lemma holds_lost f k j e :
  (∀ s, taken (f s) = true) →
  holds (with_sessions (alter f k) e) j = negb (bool_decide (j = k)) && holds e j.
Proof.
  intros Hf. rewrite holds_alter. case_bool_decide; [|done]. simpl.
  destruct (sessions e !! k); [by rewrite Hf|done].
Qed.

Lemma step_holds l e e' j :
  step l e = Some e' → (∀ env, l ≠ LStart env) →
  (holds e' j = true → holds e j = true) ∧ (tears l e ≠ Some j → holds e' j = holds e j).
Proof.
  intros Hs Hl. destruct l as [env| |k|k|k|k|k|k|k|k|]; cbn [step tears] in *.
  - by destruct (Hl env).
  - destruct (dropped e); simplify_eq. unfold stop_begin. destruct (handle e) as [k|]; [|done].
    simpl. change (holds (set_stopping _ ?x) j) with (holds x j).
    split; by rewrite holds_alter_same by (intros s; by destruct s).
  - unfold stop_end in Hs. destruct (sessions e !! k); simpl in Hs; [|done].
    destruct (_ && _); [|done]. injection Hs as <-. change (holds (add_log _ ?x) j) with (holds x j).
    destruct (watchdog s); try done; rewrite holds_lost by apply taken_teardown;
      (split; [by intros [_ ?]%andb_true_iff|intros Hne; rewrite bool_decide_false by congruence; done]).
  - by destruct (bool_decide (k ∈ stopping e)); simplify_eq.
  - by rewrite (session_step_holds _ _ _ _ _ j Hs).
  - by rewrite (session_step_holds _ _ _ _ _ j Hs).
  - by rewrite (session_step_holds _ _ _ _ _ j Hs).
  - unfold session_step in Hs. destruct (sessions e !! k); simpl in Hs; [|done].
    destruct (_ && _); [|done]. injection Hs as <-. rewrite holds_lost by apply taken_teardown.
    split; [by intros [_ ?]%andb_true_iff|intros Hne; rewrite bool_decide_false by congruence; done].
  - destruct (session_step _ _ _ e) as [e1|] eqn:E1; simpl in Hs; [|done]. injection Hs as <-.
    change (holds (add_log _ ?x) j) with (holds x j).
    by rewrite (session_step_holds _ _ _ _ _ j E1).
  - by rewrite (session_step_holds _ _ _ _ _ j Hs).
  - destruct (_ || _); [done|]. injection Hs as <-. unfold drop_engine.
    destruct (handle e) as [k|]; [|done]. change (holds (set_dropped ?x) j) with (holds x j).
    rewrite holds_lost.
    + split; [by intros [_ ?]%andb_true_iff|intros Hne; rewrite bool_decide_false by congruence; done].
    + intros s. simpl. destruct (finished _); simpl; apply taken_teardown.
Qed.

Lemma start_refused env e :
  dropped e = false → reaches_create env e = false → ∃ er, (start env e).1 = Err er.
Proof.
  unfold reaches_create, start, start_inner, backend_create. intros ->. simpl.
  destruct (running_flag e); simpl; [by eexists|].
  destruct (interface_is_empty _); simpl; [by eexists|]. intros ->. simpl. by eexists.
Qed.

Lemma start_failed env er e : ∃ er', (start (with_create (Some er) env) e).1 = Err er'.
Proof.
  unfold start, start_inner, backend_create, with_create. simpl.
  destruct (running_flag e); [by eexists|]. destruct (interface_is_empty _); [by eexists|].
  destruct (negb _); by eexists.
Qed.

(** ** Invariant *)

Context {T0 : gset Route} {lasting : Route → bool} {up : list Route → TunAdapter → K → Prop}.
Context `{!BackendLaws K T0 lasting up}.

(** The adapters are those of the sessions that hold one. *)
Definition slots_match (h : host) : Prop :=
  ∀ j, is_Some (h_adapters h !! j) ↔ holds (h_engine h) j = true.

(** No adapter and the original table, up to what was reported, or the one
    adapter and its routes. *)
Definition table_accounted (h : host) : Prop :=
  (h_adapters h = ∅ ∧ accounted T0 (List.filter lasting (h_reported h)) (be_table (h_kernel h)))
  ∨ ∃ k a, h_adapters h = {[k := a]} ∧ up (h_reported h) a (h_kernel h).

Definition host_inv (h : host) : Prop := slots_match h ∧ table_accounted h.

Lemma start_slots env h e' :
  dropped (h_engine h) = false → slots_match h → (start env (h_engine h)).2 = e' →
  (∃ er, (start env (h_engine h)).1 = Err er) →
  ∀ j, is_Some (h_adapters h !! j) ↔ holds e' j = true.
Proof. intros Hd Hm <- [er Her] j. by rewrite start_holds, Her. Qed.

Lemma host_start_inv env h h' :
  host_inv h → (reaches_create env (h_engine h) = true → h_adapters h = ∅) →
  host_start env h = Some h' → host_inv h'.
Proof.
  intros [Hm Ht] Hcalm. unfold host_start. cbn [step].
  destruct (dropped (h_engine h)) eqn:Hd.
  { unfold reaches_create. by rewrite Hd. }
  destruct (reaches_create env (h_engine h)) eqn:Hr.
  - specialize (Hcalm eq_refl). destruct Ht as [[_ Hk]|(k & a & Ha & _)];
      [|rewrite Hcalm in Ha; by apply eq_sym, map_non_empty_singleton in Ha].
    pose proof (create_up ipv6 (se_discover env) _ _ Hk) as Hc.
    destruct (be_create _ _ _) as [[[a|er] new] k'].
    + rewrite (start_outcome _ _ Hr). pose proof (drop_accounted _ _ _ Hc) as Hdrop.
      destruct (be_drop a k') as [logged k''] eqn:Edrop.
      destruct (se_session env) as [er|] eqn:Es; [|destruct (se_device env) as [er|] eqn:Ev];
        intros [= <-]; (split; [|rewrite Hcalm; first [by left|by right; exists (length (sessions (h_engine h))), a]]).
      1,2: intros j; apply (start_slots (with_create None env) h _ Hd Hm eq_refl);
        eexists; rewrite (start_outcome _ _ Hr), Es, ?Ev; done.
      intros j. cbn [h_adapters h_engine]. rewrite start_holds, (start_outcome _ _ Hr), Es, Ev by done.
      rewrite orb_true_iff, bool_decide_eq_true, <-(Hm j), lookup_insert_is_Some.
      split; [naive_solver|]. destruct (decide (length (sessions (h_engine h)) = j)); naive_solver.
    + intros [= <-]. split; [|by left].
      exact (start_slots _ h _ Hd Hm eq_refl (start_failed env er _)).
  - intros [= <-]. split; [|done].
    exact (start_slots env h _ Hd Hm eq_refl (start_refused env _ Hd Hr)).
Qed.

Lemma same_slots h e' :
  slots_match h → (∀ j, holds e' j = holds (h_engine h) j) → table_accounted h →
  host_inv (MkHost e' (h_kernel h) (h_adapters h) (h_reported h)).
Proof. intros Hm He Ht. split; [|done]. intros j. simpl. by rewrite He. Qed.

Lemma host_step_inv l h h' :
  host_inv h →
  (∀ env, l = LStart env → reaches_create env (h_engine h) = true → h_adapters h = ∅) →
  host_step l h = Some h' → host_inv h'.
Proof.
  intros Hinv Hcalm Hs.
  assert ((∃ env, l = LStart env) ∨ ∀ env, l ≠ LStart env) as [[env ->]|Hl]
    by (destruct l; first [left; by eexists|right; by intros env]).
  { exact (host_start_inv env h h' Hinv (Hcalm env eq_refl) Hs). }
  destruct Hinv as [Hm Ht].
  assert (∃ e', step l (h_engine h) = Some e' ∧ h' = move l e' h) as (e' & He & ->).
  { destruct l; try (by destruct (Hl env)); cbn [host_step] in Hs;
      (destruct (step _ _) as [e'|]; [|done]); injection Hs as <-; by eexists. }
  clear Hs. pose proof (λ j, step_holds l (h_engine h) e' j He Hl) as Hh.
  unfold move. destruct (tears l (h_engine h)) as [k|] eqn:Hk;
    [|apply same_slots; [done| |done]; intros j; by apply Hh].
  destruct (h_adapters h !! k) as [a|] eqn:Ha.
  - destruct (holds e' k) eqn:Hek.
    + apply same_slots; [done| |done]. intros j. destruct (decide (j = k)) as [->|Hj].
      * rewrite Hek. symmetry. by apply (Hh k).
      * apply Hh. congruence.
    + destruct Ht as [[Hempty _]|(k' & a' & Hsing & Ho)]; [by rewrite Hempty in Ha|].
      rewrite Hsing in Ha. apply lookup_singleton_Some in Ha as [-> ->].
      pose proof (drop_accounted _ _ _ Ho) as Hdrop. destruct (be_drop a (h_kernel h)) as [logged kern].
      split; [|left; split; [by rewrite Hsing, delete_singleton_eq|done]].
      intros j. cbn [h_adapters h_engine]. destruct (decide (j = k)) as [->|Hj].
      * rewrite lookup_delete_eq, Hek. by split; [intros []|].
      * rewrite lookup_delete_ne by done. by rewrite (Hm j), (proj2 (Hh j)) by congruence.
  - apply same_slots; [done| |done]. intros j. destruct (decide (j = k)) as [->|Hj].
    + apply eq_true_iff_eq. rewrite <-(Hm k), Ha. split; [|by intros []].
      intros Hx. apply (Hh k), Hm in Hx. by rewrite Ha in Hx.
    + apply Hh. congruence.
Qed.
(** ** Theorems *)

Lemma calm_inv k0 h : be_table k0 = T0 → calm k0 h → host_inv h.
Proof.
  intros H0. induction 1 as [|l h h' _ IH Hc Hs].
  - split; [|left; split; [done|]; cbn; rewrite H0; split; [done|by left]]. intros j. unfold host_new, holds. cbn. by split; [intros []|].
  - by eapply host_step_inv.
Qed.

Lemma calm_run_calm k0 ls h h' : calm k0 h → calm_run ls h = Some h' → calm k0 h'.
Proof.
  revert h. induction ls as [|l ls IH]; intros h Hc; simpl; [by intros [= <-]|].
  destruct (overlaps l h) eqn:Ho; [done|]. destruct (host_step l h) as [h1|] eqn:Hs; [|done].
  cbn [mbind option_bind]. apply IH. eapply calm_step; [done| |done]. intros env -> Hr.
  cbn [overlaps] in Ho. rewrite Hr in Ho. simpl in Ho. apply negb_false_iff, bool_decide_eq_true in Ho.
  by apply map_size_empty_iff.
Qed.

(** The host's engine is the engine of [Engine]. *)
Lemma calm_reachable k0 h : calm k0 h → reachable (h_engine h).
Proof.
  induction 1 as [|l h h' _ IH _ Hs]; [by exists []|].
  assert (∃ l', step l' (h_engine h) = Some (h_engine h')) as [l' Hl'].
  { destruct l; cbn [host_step] in Hs;
      [unfold host_start in Hs; destruct (reaches_create _ _);
       [destruct (be_create _ _ _) as [[[a|er] new] k']|]|..];
      (destruct (step _ _) as [e'|] eqn:He in Hs; [|done]); cbn in Hs; injection Hs as <-;
      eexists; rewrite He; unfold move; by repeat case_match. }
  by eapply reachable_step.
Qed.

(** The table over a run, for any backend that obeys its laws. *)
Lemma run_accounted k0 h :
  be_table k0 = T0 → calm k0 h →
  T0 ⊆ be_table (h_kernel h)
  ∧ (Forall (λ s, taken s = true) (sessions (h_engine h)) →
       accounted T0 (List.filter lasting (h_reported h)) (be_table (h_kernel h)))
  ∧ (∀ k s, sessions (h_engine h) !! k = Some s → taken s = false →
       ∃ a, h_adapters h = {[k := a]} ∧ ∀ r, r ∈ be_table (h_kernel h) →
         r ∈ T0 ∨ r ∈ List.filter lasting (h_reported h) ∨ r ∈ a_routes a ∨ rt_ifindex r = a_ifindex a).
Proof.
  intros H0 Hc. destruct (calm_inv k0 h H0 Hc) as [Hm Ht]. split_and!.
  - destruct Ht as [[_ [Hs _]]|(k & a & _ & Hup)]; [done|]. by apply up_routes in Hup as [? _].
  - intros Hall. destruct Ht as [[_ Hk]|(k & a & Ha & _)]; [done|]. exfalso.
    assert (holds (h_engine h) k = true) as Hh by (apply Hm; rewrite Ha, lookup_singleton_eq; by eexists).
    unfold holds in Hh. destruct (sessions (h_engine h) !! k) as [s|] eqn:Es; [|done].
    rewrite Forall_forall in Hall. by rewrite (Hall s (list_elem_of_lookup_2 _ _ _ Es)) in Hh.
  - intros k s Hs Hk. assert (holds (h_engine h) k = true) as Hh by (unfold holds; by rewrite Hs, Hk).
    apply Hm in Hh as [a Ha]. destruct Ht as [[Hempty _]|(k' & a' & Hsing & Ho)];
      [by rewrite Hempty in Ha|].
    rewrite Hsing in Ha. apply lookup_singleton_Some in Ha as [-> ->]. exists a. split; [done|].
    by apply up_routes in Ho as [_ ?].
Qed.

End Host.

(** C4: the machine's forwarding table over a whole run, on Linux and macOS.  Take
    any interleaving of starts, stops, cancelled stops, netstack ends and panics,
    watchdog progress and failures, and the final drop, in which no start creates
    an adapter while an earlier one is still up, over a system whose calls may
    fail, and on which deleting the routes the engine plans would remove none of the
    original ones.  Then the original routes are in the table at every moment.  Whenever no
    session holds an adapter, the other routes in it are multicast routes that were
    reported, by the error of an addition or by the log of a failed deletion: if
    nothing was reported, the table is the original one.  Otherwise exactly one
    session holds one, and the rest are routes of its adapter. *)
Theorem host_routes_accounted `{NetKernelLaws K covers} (ipv6 : bool) (T0 : gset Route) (k0 : K) h :
  (∀ ipv6 iface i, apart (covers:=covers) (unix_plan ipv6 iface i) T0) →
  k_table k0 = T0 → calm (H:=unix_backend) ipv6 k0 h →
  let table := k_table (h_kernel h) in
  let left_over r := r ∈ h_reported h ∧ group_route r = true in
  reachable (h_engine h) ∧ T0 ⊆ table
  ∧ (Forall (λ s, taken s = true) (sessions (h_engine h)) →
       (∀ r, r ∈ table → r ∈ T0 ∨ left_over r) ∧ (h_reported h = [] → table = T0))
  ∧ (∀ k s, sessions (h_engine h) !! k = Some s → taken s = false →
       ∃ a, h_adapters h = {[k := a]} ∧ ∀ r, r ∈ table →
         r ∈ T0 ∨ left_over r ∨ r ∈ a_routes a ∨ rt_ifindex r = a_ifindex a).
Proof.
  intros Hap Hbase Hc table left_over. pose proof (unix_backend_laws (covers:=covers) T0 Hap) as HL.
  destruct (run_accounted (H:=unix_backend) ipv6 k0 h Hbase Hc) as (H1 & H2 & H3).
  split_and!; [by eapply calm_reachable|done| |].
  - intros Hall. specialize (H2 Hall). split.
    + intros r Hr. destruct (proj2 H2 r Hr) as [?|?%elem_of_lasting]; auto.
    + intros Hrep. rewrite Hrep in H2. by apply accounted_exact.
  - intros k s Hs Ht. destruct (H3 k s Hs Ht) as (a & Ha & Hr). exists a. split; [done|].
    intros r Hin. destruct (Hr r Hin) as [?|[?%elem_of_lasting|?]]; auto.
Qed.

(** On Windows the table is the original one, whatever was reported. *)
Theorem windows_host_restored `{NetKernelLaws K covers} (ipv6 : bool) (T0 : gset Route) (k0 : K) h :
  (∀ ipv6 i, apart (covers:=covers) (windows_plan ipv6 i) T0) →
  k_table k0 = T0 → calm (H:=windows_backend) ipv6 k0 h →
  Forall (λ s, taken s = true) (sessions (h_engine h)) → k_table (h_kernel h) = T0.
Proof.
  intros Hap Hbase Hc Hall. pose proof (windows_backend_laws (covers:=covers) T0 Hap) as HL.
  destruct (run_accounted (H:=windows_backend) ipv6 k0 h Hbase Hc) as (_ & H2 & _).
  specialize (H2 Hall). rewrite filter_none in H2. by apply accounted_exact.
Qed.

(** ** A Linux host *)

Definition linux_net : NetKernel (gset Route) := @rtnetlink (gset Route) Concrete.linux.
Definition linux_host : Backend (gset Route) := @unix_backend (gset Route) linux_net.

Definition a_start : start_env := MkStartEnv Adapter.nic true None None None.

(** A crash, a restart after its teardown, and a failing device. *)
Definition a_schedule : list label :=
  [LStart a_start; LNetstackPanics 0; LWatchdogTeardown 0; LStopBegin; LWatchdogJoin 0; LStopEnd 0;
   LStart (MkStartEnv Adapter.nic true None None (Some recv_timeout)); LStart a_start].

Definition ran (ls : list label) : host := default (host_new home) (@calm_run _ linux_host true ls (host_new home)).

Lemma calm_ran ls :
  bool_decide (is_Some (@calm_run _ linux_host true ls (host_new home))) = true →
  @calm _ linux_host true home (ran ls).
Proof.
  rewrite bool_decide_eq_true. intros [h Hh]. unfold ran. rewrite Hh.
  eapply (calm_run_calm (H:=linux_host)); [apply calm_new|done].
Qed.

Lemma home_apart ipv6 iface i : apart (covers:=same_route) (unix_plan ipv6 iface i) home.
Proof.
  apply apart_by_prefix; [apply same_route_prefix|]. unfold unix_plan, opt_route.
  destruct ipv6, (v4_index iface), (v6_index iface); cbn [app fmap list_fmap split_v4 split_v6];
    repeat constructor; concrete.
Qed.

Lemma host_routes_accounted_witness :
  let h := ran a_schedule in
  let left_over r := r ∈ h_reported h ∧ group_route r = true in
  sessions (h_engine h) ≠ []
  ∧ reachable (h_engine h) ∧ home ⊆ h_kernel h
  ∧ (Forall (λ s, taken s = true) (sessions (h_engine h)) →
       (∀ r, r ∈ h_kernel h → r ∈ home ∨ left_over r) ∧ (h_reported h = [] → h_kernel h = home))
  ∧ (∀ k s, sessions (h_engine h) !! k = Some s → taken s = false →
       ∃ a, h_adapters h = {[k := a]} ∧ ∀ r, r ∈ h_kernel h →
         r ∈ home ∨ left_over r ∨ r ∈ a_routes a ∨ rt_ifindex r = a_ifindex a).
Proof.
  intros h left_over. split; [by vm_compute|].
  apply (@host_routes_accounted (gset Route) linux_net same_route concrete_adapter_laws true home home h).
  - exact home_apart.
  - reflexivity.
  - apply calm_ran. vm_compute. reflexivity.
Defined.

(** A start issued while a stop still waits for its watchdog: the second adapter
    finds its routes present and counts them as its own, then the first one's
    teardown removes them.  The engine runs, and diverts nothing. *)
Example overlapping_start_diverts_nothing :
  match @host_run _ linux_host true
          [LStart a_start; LStopBegin; LStart a_start; LNetstackEnds 0; LWatchdogTeardown 0]
          (host_new home) with
  | Some h =>
    is_running (h_engine h) = true
    ∧ (a_routes <$> h_adapters h !! 1%nat) = Some (unix_plan true Adapter.nic 4)
    ∧ filter (λ r, rt_prefix r = 1) (h_kernel h) = ∅
  | None => False
  end.
Proof. vm_compute. split_and!; reflexivity. Qed.


(** A system that refuses every deletion: after the stop the multicast route on
    the physical interface is still there, and reported; the tunnel's routes went
    with its device. *)
Example refused_deletions_are_reported :
  match @host_run _ (@unix_backend (gset Route) stubborn_kernel) true
          [LStart a_start; LStopBegin; LNetstackEnds 0; LWatchdogTeardown 0; LWatchdogJoin 0; LStopEnd 0]
          (host_new home) with
  | Some h => bool_decide (h_kernel h = {[ own_multicast ]} ∪ home) && bool_decide (own_multicast ∈ h_reported h)
  | None => false
  end = true.
Proof. vm_compute. reflexivity. Qed.
