(* ===== verification/BuildScript.v ===== *)
(** * The build script ([build.rs])

    Before the crate is compiled for Windows, [main] copies the [wintun.dll] of
    the target's architecture beside the executables.  Here it is the sequence of
    lines it prints and of file-system calls it makes, over cargo's environment
    and the answers of the file system. *)

From S2P Require Export Text.
Local Open Scope Z_scope.

(** A path is its components, from the root. *)
Definition path : Type := list str.

(** [Path::ancestors]: the path, its parent, and so on to the root. *)
Definition ancestors (p : path) : list path := map (λ k, take (length p - k) p) (seq 0 (S (length p))).

(** What cargo and the file system answer.  A variable is [None] when
    [std::env::var] fails. *)
Record build_env : Type := MkBuildEnv {
  target_os : option str;
  target_arch : option str;
  manifest_dir : option path;
  out_dir : option path;
  exists_ : path → bool;
  create_answer : path → option io_error;
  copy_answer : path → path → option io_error;
  (** What a copy that fails leaves of the destination's contents. *)
  copy_partial : path → path → option Z → option Z
}.

Inductive build_effect : Type :=
  | Println (line : str)
  | CreateDirAll (dir : path)
  | CopyFile (from to : path).

Section BuildScript.
(** [Path::display] on the build machine. *)
Context (display : path → str).

Definition error_text (e : io_error) : str := u (ie_msg e).

(** [copy_into]: failures are warnings. *)
Definition copy_into (env : build_env) (source dir : path) : list build_effect :=
  CreateDirAll dir ::
  match create_answer env dir with
  | Some e => [Println (u "cargo:warning=could not create " ++ display dir ++ u ": " ++ error_text e)]
  | None =>
    let dest := dir ++ [u "wintun.dll"] in
    CopyFile source dest ::
    match copy_answer env source dest with
    | Some e =>
      [Println (u "cargo:warning=could not copy wintun.dll to " ++ display dest ++ u ": " ++ error_text e)]
    | None => []
    end
  end.

Definition arch_dir (arch : str) : option str :=
  if str_eqb arch (u "x86_64") then Some (u "amd64")
  else if str_eqb arch (u "x86") then Some (u "x86")
  else if str_eqb arch (u "aarch64") then Some (u "arm64")
  else if str_eqb arch (u "arm") then Some (u "arm")
  else None.

Definition rerun : build_effect := Println (u "cargo:rerun-if-changed=thirdparty/wintun").

Definition dll_source (manifest : path) (arch : str) : path :=
  manifest ++ [u "thirdparty"; u "wintun"; u "bin"] ++ [arch] ++ [u "wintun.dll"].

(** [main]: what it does, and whether it panics. *)
Definition main (env : build_env) : list build_effect * outcome unit :=
  if negb (bool_decide (target_os env = Some (u "windows"))) then ([rerun], Done tt)
  else match target_arch env with
  | None => ([rerun], Done tt)
  | Some a =>
    match arch_dir a with
    | None => ([rerun; Println (u "cargo:warning=no bundled wintun.dll for architecture " ++ a)], Done tt)
    | Some arch =>
      match manifest_dir env with
      | None => ([rerun], Panic)
      | Some manifest =>
        let source := dll_source manifest arch in
        if negb (exists_ env source) then
          ([rerun; Println (u "cargo:warning=wintun.dll not found at " ++ display source
              ++ u "; the crate will fall back to the system search path at runtime")], Done tt)
        else match out_dir env with
        | None => ([rerun], Panic)
        | Some out =>
          match ancestors out !! 3%nat with
          | None => ([rerun], Done tt)
          | Some profile_dir =>
            (rerun :: concat (map (copy_into env source)
               [profile_dir; profile_dir ++ [u "deps"]; profile_dir ++ [u "examples"]]), Done tt)
          end
        end
      end
    end
  end.

(** ** What the effects leave on disk *)

(** The contents of the files, by path.  [fs::copy] truncates its destination
    before it copies, so one that fails leaves there what [copy_partial] says. *)
Definition apply_effect (env : build_env) (fs : path → option Z) (ef : build_effect) : path → option Z :=
  match ef with
  | CopyFile from to =>
    match copy_answer env from to with
    | Some _ => λ p, if bool_decide (p = to) then copy_partial env from to (fs p) else fs p
    | None => λ p, if bool_decide (p = to) then fs from else fs p
    end
  | _ => fs
  end.
Definition apply_effects (env : build_env) (efs : list build_effect) (fs : path → option Z) : path → option Z :=
  foldl (apply_effect env) fs efs.

(** A line that cargo shows as a warning. *)
Definition is_warning (ef : build_effect) : bool :=
  match ef with Println l => starts_with l (u "cargo:warning=") | _ => false end.

(** ** Properties *)

Lemma ancestors_nth p k : (k ≤ length p)%nat → ancestors p !! k = Some (take (length p - k) p).
Proof.
  intros Hk. unfold ancestors. rewrite list_lookup_fmap, lookup_seq_lt by lia. done.
Qed.

(** The profile directory, from the layout cargo gives [OUT_DIR]. *)
Lemma profile_dir_of target profile build pkg out :
  ancestors (target ++ [profile; build; pkg; out]) !! 3%nat = Some (target ++ [profile]).
Proof.
  rewrite ancestors_nth by (rewrite length_app; simpl; lia). f_equal.
  rewrite length_app. cbn [length]. replace (length target + 4 - 3)%nat with (length target + 1)%nat by lia.
  by rewrite take_app_add.
Qed.

Lemma apply_effects_app env l l' fs :
  apply_effects env (l ++ l') fs = apply_effects env l' (apply_effects env l fs).
Proof. apply foldl_app. Qed.

(** A destination both of whose calls succeed. *)
Definition installs (env : build_env) (source dir : path) : bool :=
  bool_decide (create_answer env dir = None ∧ copy_answer env source (dir ++ [u "wintun.dll"]) = None).

Definition dest (dir : path) : path := dir ++ [u "wintun.dll"].

(** What one destination holds afterwards, from what it and the source held. *)
Definition copied (env : build_env) (source dir : path) (old new : option Z) : option Z :=
  match create_answer env dir, copy_answer env source (dest dir) with
  | Some _, _ => old
  | None, Some _ => copy_partial env source (dest dir) old
  | None, None => new
  end.

(** One destination: no other path is touched, and a failure is reported in one
    warning. *)
Lemma copy_into_spec env source dir fs :
  (∀ p, apply_effects env (copy_into env source dir) fs p
        = if bool_decide (p = dest dir) then copied env source dir (fs p) (fs source) else fs p)
  ∧ length (List.filter is_warning (copy_into env source dir)) = (if installs env source dir then 0 else 1)%nat.
Proof.
  unfold installs, copy_into, copied, apply_effects. fold (dest dir).
  destruct (create_answer env dir) as [e|] eqn:Ec.
  - rewrite bool_decide_false by naive_solver. split; [|done]. intros p. cbn. by case_bool_decide.
  - destruct (copy_answer env source (dest dir)) as [e|] eqn:Ep; cbn [foldl apply_effect]; rewrite ?Ep.
    + rewrite bool_decide_false by naive_solver. split; [|done]. intros p. by case_bool_decide; subst.
    + rewrite bool_decide_true by done. split; [|done]. intros p. by case_bool_decide.
Qed.

Lemma dest_inj dir dir' : dest dir = dest dir' → dir = dir'.
Proof. intros H. by apply app_inj_2 in H as [? _]. Qed.

Lemma copies_spec env source dirs fs :
  NoDup dirs → (∀ dir, dir ∈ dirs → dest dir ≠ source) →
  let efs := concat (map (copy_into env source) dirs) in
  (∀ p, (∀ dir, dir ∈ dirs → p ≠ dest dir) → apply_effects env efs fs p = fs p)
  ∧ (∀ dir, dir ∈ dirs → apply_effects env efs fs (dest dir) = copied env source dir (fs (dest dir)) (fs source))
  ∧ length (List.filter is_warning efs) = length (List.filter (λ dir, negb (installs env source dir)) dirs).
Proof.
  intros Hnd Hsrc efs. unfold efs. clear efs. revert fs Hsrc. induction Hnd as [|dir dirs Hni Hnd IH]; intros fs Hsrc.
  { split_and!; [done| |done]. by intros dir ?%not_elem_of_nil. }
  cbn [map concat List.filter]. rewrite List.filter_app, length_app.
  destruct (copy_into_spec env source dir fs) as [Hfs Hw].
  destruct (IH (apply_effects env (copy_into env source dir) fs)) as (IHo & IHd & IHw); [set_solver|].
  split_and!.
  - intros p Hp. rewrite apply_effects_app, IHo by set_solver. rewrite Hfs.
    rewrite bool_decide_false; [done|]. apply Hp. by left.
  - intros d Hd. rewrite apply_effects_app. apply elem_of_cons in Hd as [->|Hd].
    + rewrite IHo by (intros d Hd ->%dest_inj; done). by rewrite Hfs, bool_decide_true.
    + rewrite IHd by done. rewrite !Hfs.
      rewrite (bool_decide_false (dest d = _)) by (intros ->%dest_inj; done).
      rewrite bool_decide_false; [done|]. intros He. apply (Hsrc dir); [by left|done].
  - rewrite IHw, Hw. by destruct (installs env source dir).
Qed.

(** The directory of an architecture is none of those executables land in. *)
Lemma dest_not_source m a d (dir : path) name :
  arch_dir a = Some d → name ∈ [u "deps"; u "examples"] → dest (dir ++ [name]) ≠ dll_source m d.
Proof.
  intros Hd Hn He. unfold dest, dll_source in He. rewrite !app_assoc in He.
  apply app_inj_2 in He as [He _]; [|done]. apply app_inj_2 in He as [_ [= He]]; [|done]. rewrite <-He in Hd.
  unfold arch_dir in Hd. revert Hd. apply elem_of_cons in Hn as [->|Hn%list_elem_of_singleton]; [|subst name];
    repeat case_match; done.
Qed.

(** C40: the build script does its job and cannot break a build that does not
    need the driver.  For another system it does nothing; it panics only when it
    must use a variable cargo always sets and it is not set; and for a Windows
    target whose driver is bundled, in the directory layout of cargo and when the
    bundled file is not itself a destination, the three directories executables
    land in receive the driver of the target's architecture.  A destination whose
    directory cannot be made is left alone, one whose copy fails may be left in
    any state; each is reported by one warning, and neither keeps the others from
    being served; no other file is touched. *)
Theorem build_script_correct env :
  (target_os env ≠ Some (u "windows") → main env = ([rerun], Done tt))
  ∧ ((main env).2 = Panic ↔ target_os env = Some (u "windows")
       ∧ ∃ a d, target_arch env = Some a ∧ arch_dir a = Some d
           ∧ (manifest_dir env = None
              ∨ ∃ m, manifest_dir env = Some m ∧ exists_ env (dll_source m d) = true ∧ out_dir env = None))
  ∧ (∀ a d m target profile build pkg out fs,
       target_os env = Some (u "windows") → target_arch env = Some a → arch_dir a = Some d →
       manifest_dir env = Some m → exists_ env (dll_source m d) = true →
       out_dir env = Some (target ++ [profile; build; pkg; out]) → dest (target ++ [profile]) ≠ dll_source m d →
       let dirs := [target ++ [profile]; target ++ [profile; u "deps"]; target ++ [profile; u "examples"]] in
       let '(efs, r) := main env in
       r = Done tt
       ∧ (∀ p, (∀ dir, dir ∈ dirs → p ≠ dest dir) → apply_effects env efs fs p = fs p)
       ∧ (∀ dir, dir ∈ dirs →
            (installs env (dll_source m d) dir = true → apply_effects env efs fs (dest dir) = fs (dll_source m d))
            ∧ (create_answer env dir ≠ None → apply_effects env efs fs (dest dir) = fs (dest dir)))
       ∧ length (List.filter is_warning efs)
         = length (List.filter (λ dir, negb (installs env (dll_source m d) dir)) dirs)).
Proof.
  split_and!.
  - intros Hos. unfold main. by rewrite bool_decide_false.
  - unfold main. destruct (decide (target_os env = Some (u "windows"))) as [Hos|Hos].
    2: { rewrite bool_decide_false by done. split; [done|by intros []]. }
    rewrite bool_decide_true by done. cbn [negb].
    destruct (target_arch env) as [a|]; [|by split; [|intros (_ & a & d & ? & _)]].
    destruct (arch_dir a) as [d|] eqn:Ed.
    2: { split; [done|]. intros (_ & a' & d & [= <-] & Hd & _). congruence. }
    destruct (manifest_dir env) as [m|]; [|split; [eauto 8|done]].
    assert (exists_ env (dll_source m d) = true → out_dir env = None →
      target_os env = Some (u "windows") ∧ ∃ a' d', Some a = Some a' ∧ arch_dir a' = Some d'
           ∧ (Some m = None ∨ ∃ m', Some m = Some m' ∧ exists_ env (dll_source m' d') = true ∧ out_dir env = None))
      as Hyes by (intros; split; [done|]; exists a, d; eauto 8).
    assert (target_os env = Some (u "windows") ∧ (∃ a' d', Some a = Some a' ∧ arch_dir a' = Some d'
           ∧ (Some m = None ∨ ∃ m', Some m = Some m' ∧ exists_ env (dll_source m' d') = true ∧ out_dir env = None))
      → exists_ env (dll_source m d) = true ∧ out_dir env = None) as Hno.
    { intros (_ & a' & d' & [= <-] & Hd & [?|(m' & [= <-] & ? & ?)]); [done|]. by simplify_eq. }
    destruct (exists_ env (dll_source m d)); cbn [negb]; [|split; [done|intros H; by destruct (Hno H)]].
    destruct (out_dir env) as [out|]; [|split; [intros _; by apply Hyes|done]].
    destruct (ancestors out !! 3%nat); (split; [done|intros H; by destruct (Hno H)]).
  - intros a d m target profile build pkg out fs Hos Ha Hd Hm Hx Ho Hsrc dirs.
    unfold main. rewrite bool_decide_true, Ha, Hd, Hm, Hx, Ho by done. cbn [negb].
    rewrite profile_dir_of. rewrite <-!app_assoc. cbn [app]. fold dirs. split; [done|].
    assert (target ++ [profile; u "deps"] = (target ++ [profile]) ++ [u "deps"]) as E1 by by rewrite <-app_assoc.
    assert (target ++ [profile; u "examples"] = (target ++ [profile]) ++ [u "examples"]) as E2 by by rewrite <-app_assoc.
    destruct (copies_spec env (dll_source m d) dirs fs) as (Hf & Hc & Hw).
    + unfold dirs. repeat apply NoDup_cons_2; [..|apply NoDup_nil_2];
        intros Hin; repeat (apply elem_of_cons in Hin as [Hin|Hin]); try (by apply not_elem_of_nil in Hin);
        apply app_inv_head in Hin; discriminate Hin.
    + intros dir Hin. unfold dirs in Hin.
      apply elem_of_cons in Hin as [->|Hin]; [done|]. apply elem_of_cons in Hin as [->|Hin].
      * rewrite E1. by eapply dest_not_source; [|left].
      * apply list_elem_of_singleton in Hin as ->. rewrite E2. by eapply dest_not_source; [|right; left].
    + split; [by intros p Hp; apply Hf|]. split; [|exact Hw]. intros dir Hin.
      change (apply_effects env (rerun :: ?l) fs) with (apply_effects env l fs). rewrite (Hc dir Hin).
      unfold installs, copied. fold (dest dir). split.
      * intros [-> ->]%bool_decide_eq_true. done.
      * by destruct (create_answer env dir).
Qed.

End BuildScript.

(** ** A concrete build *)

Module BuildDemo.

Definition manifest : path := [u "src"; u "ace-tun"].
Definition out : path := [u "t"; u "debug"; u "build"; u "ace-tun-1f"; u "out"].
(** A build for 64-bit Windows during which [examples] cannot be created, and the
    copy to [deps] breaks off. *)
Definition env : build_env :=
  MkBuildEnv (Some (u "windows")) (Some (u "x86_64")) (Some manifest) (Some out)
    (λ p, bool_decide (p = dll_source manifest (u "amd64")))
    (λ p, if bool_decide (last p = Some (u "examples")) then Some (IoError PermissionDenied "denied") else None)
    (λ from to, if bool_decide (to = [u "t"; u "debug"; u "deps"; u "wintun.dll"])
                then Some (IoError Other "disk full") else None)
    (λ _ _ _, Some 0).
Definition show (p : path) : str := concat (map (cons 47) p).
Definition disk : path → option Z := λ p, if bool_decide (p = dll_source manifest (u "amd64")) then Some 7 else None.

End BuildDemo.

Lemma build_script_correct_witness :
  let efs := (main BuildDemo.show BuildDemo.env).1 in
  let after := apply_effects BuildDemo.env efs BuildDemo.disk in
  after [u "t"; u "debug"; u "wintun.dll"] = Some 7
  ∧ after [u "t"; u "debug"; u "examples"; u "wintun.dll"] = None ∧ length (List.filter is_warning efs) = 2%nat.
Proof.
  destruct (build_script_correct BuildDemo.show BuildDemo.env) as (_ & _ & H).
  specialize (H (u "x86_64") (u "amd64") BuildDemo.manifest [u "t"] (u "debug") (u "build") (u "ace-tun-1f")
    (u "out") BuildDemo.disk eq_refl eq_refl eq_refl eq_refl eq_refl eq_refl).
  specialize (H ltac:(vm_compute; discriminate)).
  intros efs after. unfold after, efs.
  destruct (main BuildDemo.show BuildDemo.env) as [l r]. destruct H as (_ & _ & Hd & Hw).
  cbn [fst]. split_and!.
  - refine (proj1 (Hd ([u "t"] ++ [u "debug"]) _) _); [by left|reflexivity].
  - refine (eq_trans (proj2 (Hd ([u "t"] ++ [u "debug"; u "examples"]) _) _) _);
      [right; right; by left|vm_compute; discriminate|reflexivity].
  - rewrite Hw. reflexivity.
Defined.

(** The comment in [main] calls the profile directory "four levels up" from
    [OUT_DIR]; the code takes the third ancestor, which is the right one. *)
Example profile_dir_is_third_ancestor :
  ancestors BuildDemo.out !! 3%nat = Some [u "t"; u "debug"] ∧ ancestors BuildDemo.out !! 4%nat = Some [u "t"].
Proof. split; reflexivity. Qed.
