(* ===== verification/RegexChoice.v ===== *)
(** * The engine does not depend on the regular-expression crate

    Two implementations of [RegexEngine] that satisfy [GlobLaws] compile the same
    rules to rule sets that decide every flow alike.  The relations below say what
    stays the same: matchers are compared by what they match, everything else by
    equality.  A computation over one implementation is related to the same
    computation over the other by [agree]; its lemmas are one hint database, so
    that a program that only goes through these operations is related by [auto].
    The unit tests of the crate are proved for every implementation this way. *)

From S2P Require Export Netstack Engine.
Local Open Scope Z_scope.

(** ** What is asked of the rules

    Globs of ASCII characters, of the length [GlobLaws] speaks of. *)

Definition glob_ok (t : str) : Prop := is_ascii t ∧ (length t ≤ 255)%nat.
#[export] Instance glob_ok_dec t : base.Decision (glob_ok t).
Proof. unfold glob_ok, is_ascii. apply _. Defined.

Record globs_ok (r : Rule) : Prop := {
  go_processes : Forall glob_ok (split_list (process_names r));
  go_domains : Forall glob_ok (split_list (domains r))
}.
#[export] Instance globs_ok_dec r : base.Decision (globs_ok r).
Proof.
  refine (cast_if_and (base.decide (Forall glob_ok (split_list (process_names r))))
    (base.decide (Forall glob_ok (split_list (domains r))))); [by split|by intros []..].
Defined.

(** The texts of a flow: a name without line breaks once its suffix is stripped. *)
Definition name_plain (name : str) : Prop :=
  match strip_exe_suffix name with Done n => plain n | Panic => True end.
#[export] Instance name_plain_dec n : base.Decision (name_plain n).
Proof. unfold name_plain. destruct (strip_exe_suffix n); apply _. Defined.

Definition domain_plain (d : option str) : Prop := match d with Some d => plain d | None => True end.
#[export] Instance domain_plain_dec d : base.Decision (domain_plain d).
Proof. destruct d; apply _. Defined.

(** ** Two implementations *)

Section Choice.
Context (E1 E2 : RegexEngine) `{!GlobLaws (H:=E1)} `{!GlobLaws (H:=E2)}.

Definition same_regex (r1 : @Regex E1) (r2 : @Regex E2) : Prop :=
  ∀ s, plain s → is_match r1 s = is_match r2 s.

Record same_rule (c1 : @CompiledRule E1) (c2 : @CompiledRule E2) : Prop := {
  sr_processes : Forall2 same_regex (process_matchers c1) (process_matchers c2);
  sr_wildcard : process_wildcard c1 = process_wildcard c2;
  sr_hosts : c_hosts c1 = c_hosts c2;
  sr_hosts_all : hosts_all c1 = hosts_all c2;
  sr_ports : c_ports c1 = c_ports c2;
  sr_ports_all : ports_all c1 = ports_all c2;
  sr_domains : Forall2 same_regex (domain_matchers c1) (domain_matchers c2);
  sr_domains_all : domains_all c1 = domains_all c2;
  sr_except : c_except_hosts c1 = c_except_hosts c2;
  sr_protocol : c_protocol c1 = c_protocol c2;
  sr_action : c_action c1 = c_action c2;
  sr_config : c_proxy_config_id c1 = c_proxy_config_id c2
}.

Record same_rules (s1 : @RuleSet E1) (s2 : @RuleSet E2) : Prop := {
  ss_rules : Forall2 same_rule (rules s1) (rules s2);
  ss_domains : has_domain_rules s1 = has_domain_rules s2
}.

(** ** Compilation *)

Lemma compile_glob_same t :
  glob_ok t →
  ∃ r1 r2, compile_glob (H:=E1) t = Some r1 ∧ compile_glob (H:=E2) t = Some r2 ∧ same_regex r1 r2.
Proof.
  intros [Ha Hl].
  destruct (compile_glob_spec (H:=E1) t Ha Hl) as (r1 & E & H1).
  destruct (compile_glob_spec (H:=E2) t Ha Hl) as (r2 & E' & H2).
  exists r1, r2. split_and!; [done..|]. intros s Hs. apply eq_bool_prop_intro.
  rewrite !Is_true_true. by rewrite H1, H2.
Qed.

Lemma compile_globs_same ts :
  Forall glob_ok ts → Forall2 same_regex (omap (compile_glob (H:=E1)) ts) (omap (compile_glob (H:=E2)) ts).
Proof.
  induction 1 as [|t ts Ht _ IH]; simpl; [done|].
  destruct (compile_glob_same t Ht) as (r1 & r2 & -> & -> & Hr). by constructor.
Qed.

Lemma strip_glob_ok t t' : strip_exe_suffix t = Done t' → glob_ok t → glob_ok t'.
Proof.
  intros [s ->]%strip_exe_incl [Ha Hl]. split; [by apply Forall_app in Ha as [? _]|].
  rewrite length_app in Hl. lia.
Qed.

Lemma mapM_glob_ok ts ts' :
  mapM strip_exe_suffix ts = Done ts' → Forall glob_ok ts → Forall glob_ok ts'.
Proof.
  revert ts'. induction ts as [|t ts IH]; simpl; intros ts' Hm Hok.
  { by injection Hm as <-. }
  apply Forall_cons in Hok as [Ht Hts].
  destruct (strip_exe_suffix t) as [t'|] eqn:E; [|done]. simpl in Hm.
  destruct (mapM strip_exe_suffix ts) as [ts0|]; [|done]. injection Hm as <-.
  constructor; [by eapply strip_glob_ok|by apply IH].
Qed.

Lemma compile_process_list_same lst :
  Forall glob_ok (split_list lst) →
  agree (Forall2 same_regex) (compile_process_list (H:=E1) lst) (compile_process_list (H:=E2) lst).
Proof.
  intros Hok. unfold compile_process_list. destruct (is_match_all lst); [by apply agree_ret|].
  destruct (mapM strip_exe_suffix (split_list lst)) as [ts|] eqn:E; [|done].
  apply agree_ret, compile_globs_same. by eapply mapM_glob_ok.
Qed.

Lemma compile_same r : globs_ok r → agree same_rule (compile (H:=E1) r) (compile (H:=E2) r).
Proof.
  intros [Hp Hd]. eapply agree_bind; [by apply compile_process_list_same|].
  intros m1 m2 Hm. apply agree_ret. split; try done.
  cbn [domain_matchers]. unfold compile_glob_list.
  destruct (is_match_all (domains r)); [done|by apply compile_globs_same].
Qed.

Lemma ruleset_new_same rs :
  Forall globs_ok rs → agree same_rules (ruleset_new (H:=E1) rs) (ruleset_new (H:=E2) rs).
Proof.
  intros Hok. eapply agree_bind.
  { apply agree_mapM. eapply Forall_impl; [exact Hok|]. apply compile_same. }
  intros c1 c2 Hc. apply agree_ret. split; [done|]. cbn [has_domain_rules].
  induction Hc as [|x y c1 c2 [] _ IH]; [done|]. cbn [existsb]. congruence.
Qed.

(** ** Evaluation *)

Lemma existsb_same rs1 rs2 s :
  Forall2 same_regex rs1 rs2 → plain s →
  existsb (λ m, is_match m s) rs1 = existsb (λ m, is_match m s) rs2.
Proof. intros Hr Hs. induction Hr as [|r1 r2 rs1 rs2 H _ IH]; [done|]. cbn [existsb]. by rewrite H, IH. Qed.

Lemma matches_process_same c1 c2 name :
  same_rule c1 c2 → name_plain name → matches_process c1 name = matches_process c2 name.
Proof.
  intros [] Hn. unfold matches_process, name_plain in *. rewrite sr_wildcard0.
  destruct (process_wildcard c2); [done|]. destruct (strip_exe_suffix name) as [n|]; [|done].
  simpl. f_equal. by apply existsb_same.
Qed.

Lemma matches_target_same c1 c2 dest dest_port domain :
  same_rule c1 c2 → domain_plain domain →
  matches_target c1 dest dest_port domain = matches_target c2 dest dest_port domain.
Proof.
  intros [] Hd. unfold matches_target, excepted, matches_domain.
  rewrite sr_except0, sr_hosts0, sr_hosts_all0, sr_ports0, sr_ports_all0, sr_domains_all0.
  destruct domain as [d|]; [|done]. by rewrite (existsb_same _ _ d sr_domains0).
Qed.

Definition same_fallback := option_Forall2 same_rule.

Lemma as_match_same c1 c2 : same_rule c1 c2 → as_match c1 = as_match c2.
Proof. intros []. unfold as_match. congruence. Qed.

Lemma filtered_same c1 c2 : same_rule c1 c2 → filtered c1 = filtered c2.
Proof.
  intros []. unfold filtered. by rewrite sr_hosts_all0, sr_ports_all0, sr_domains_all0, sr_except0.
Qed.

Lemma evaluate_loop_same rs1 rs2 fb1 fb2 name dest dest_port is_udp domain :
  Forall2 same_rule rs1 rs2 → same_fallback fb1 fb2 → name_plain name → domain_plain domain →
  evaluate_loop rs1 fb1 name dest dest_port is_udp domain
  = evaluate_loop rs2 fb2 name dest dest_port is_udp domain.
Proof.
  intros Hrs Hfb Hn Hd. revert fb1 fb2 Hfb.
  induction Hrs as [|c1 c2 rs1 rs2 Hc _ IH]; intros fb1 fb2 Hfb; cbn [evaluate_loop].
  { destruct Hfb as [? ? ?%as_match_same|]; [by f_equal|done]. }
  rewrite (matches_process_same c1 c2), (matches_target_same c1 c2), (as_match_same c1 c2) by done.
  rewrite (filtered_same c1 c2) by done.
  rewrite (sr_protocol c1 c2), (sr_wildcard c1 c2) by done.
  assert (same_fallback (match fb1 with None => Some c1 | Some _ => fb1 end)
    (match fb2 with None => Some c2 | Some _ => fb2 end)) as Hfb'.
  { destruct Hfb; by constructor. }
  destruct (negb _); [auto|]. destruct (process_wildcard c2).
  { destruct (filtered c2); [|auto]. destruct (matches_target _ _ _ _); auto. }
  destruct (matches_process c2 name) as [p|]; [|done]. simpl. destruct (p && _); auto.
Qed.

Lemma evaluate_same s1 s2 name dest dest_port is_udp domain :
  same_rules s1 s2 → name_plain name → domain_plain domain →
  evaluate s1 name dest dest_port is_udp domain = evaluate s2 name dest dest_port is_udp domain.
Proof. intros [] ? ?. apply evaluate_loop_same; try done. constructor. Qed.

(** ** The shared state, and the flows

    Two states that differ only in their compiled rules. *)

Record same_shared (s1 : @Shared E1) (s2 : @Shared E2) : Prop := {
  sh_rules : same_rules (rules_of s1) (rules_of s2);
  sh_configs : proxy_configs s1 = proxy_configs s2;
  sh_cache : dns_cache s1 = dns_cache s2;
  sh_localhost : localhost_via_proxy s1 = localhost_via_proxy s2;
  sh_port : quic_port s1 = quic_port s2;
  sh_policy : quic_policy s1 = quic_policy s2;
  sh_pid : current_pid s1 = current_pid s2;
  sh_iface : iface_cell s1 = iface_cell s2;
  sh_stats : stats s1 = stats s2;
  sh_log : has_log_cb s1 = has_log_cb s2;
  sh_conn : has_conn_cb s1 = has_conn_cb s2;
  sh_running : running s1 = running s2
}.

Lemma with_stats_same f s1 s2 : same_shared s1 s2 → same_shared (with_stats f s1) (with_stats f s2).
Proof. intros []. split; try done. cbn. by f_equal. Qed.

Lemma with_cache_same c s1 s2 : same_shared s1 s2 → same_shared (with_cache c s1) (with_cache c s2).
Proof. intros []. by split. Qed.

Lemma build_shared_same pid b :
  Forall globs_ok (b_rules b) →
  agree (λ r1 r2, match r1, r2 with
                  | Ok s1, Ok s2 => same_shared s1 s2
                  | Err e1, Err e2 => e1 = e2
                  | _, _ => False
                  end) (build_shared (H:=E1) pid b) (build_shared (H:=E2) pid b).
Proof.
  intros Hok. unfold build_shared. destruct (assign_ids _ _) as [cs|e]; [|by apply agree_ret].
  eapply agree_bind; [by apply ruleset_new_same|]. intros r1 r2 Hr. apply agree_ret. by split.
Qed.

Lemma decide_same s1 s2 facts :
  same_shared s1 s2 → name_plain (ff_process_name facts) → domain_plain (ff_domain facts) →
  decide s1 facts = decide s2 facts.
Proof.
  intros [] Hn Hd. unfold decide, iface.
  rewrite sh_localhost0, sh_port0, sh_policy0, sh_pid0, sh_iface0.
  by rewrite (evaluate_same (rules_of s1) (rules_of s2)).
Qed.

(** ** The handlers *)

Context `{ProcessTable} `{Base64}.

(** Two runs with the same outcome and effects, in related states. *)
Definition same_run {A} (x1 : io_out A * @Shared E1 * list event)
    (x2 : io_out A * @Shared E2 * list event) : Prop :=
  x1.1.1 = x2.1.1 ∧ same_shared x1.1.2 x2.1.2 ∧ x1.2 = x2.2.

(** The texts a flow brings to the rules: its process's name and its domain. *)
Definition flow_plain (f : FlowFacts) : Prop :=
  name_plain (ff_process_name f) ∧ domain_plain (ff_domain f).

Lemma flow_facts_same s1 s2 now src dest is_udp :
  same_shared s1 s2 → flow_facts s1 now src dest is_udp = flow_facts s2 now src dest is_udp.
Proof.
  intros [[_ Hd]]. unfold flow_facts, domain_for, needs_domain_resolution.
  by rewrite Hd, sh_cache0.
Qed.

Lemma find_proxy_config_same s1 s2 id :
  same_shared s1 s2 → find_proxy_config s1 id = find_proxy_config s2 id.
Proof. intros []. unfold find_proxy_config. by rewrite sh_configs0. Qed.

Lemma report_same s1 s2 facts d : same_shared s1 s2 → report s1 facts d = report s2 facts d.
Proof.
  intros Hs. unfold report, report_info. rewrite (sh_conn _ _ Hs).
  destruct d; [done|by rewrite (find_proxy_config_same s1 s2)|done].
Qed.

Lemma log_same s1 s2 m : same_shared s1 s2 → log s1 m = log s2 m.
Proof. intros []. unfold log. by rewrite sh_log0. Qed.

Lemma iface_same s1 s2 : same_shared s1 s2 → iface s1 = iface s2.
Proof. intros []. unfold iface. by rewrite sh_iface0. Qed.

Lemma handle_tcp_same env src dest s1 s2 :
  same_shared s1 s2 → flow_plain (flow_facts s1 (te_now env) src dest false) →
  same_run (handle_tcp env src dest s1) (handle_tcp env src dest s2).
Proof.
  intros Hs [Hn Hd]. unfold handle_tcp.
  rewrite <-(flow_facts_same s1 s2) by done. set (f := flow_facts _ _ _ _ _) in *.
  rewrite (decide_same s1 s2) by done.
  destruct (decide s2 f) as [[|id|]|]; rewrite ?(report_same s1 s2), ?(iface_same s1 s2) by done.
  - destruct (dial_tcp _ _ _) as [ops []]; by split.
  - rewrite (find_proxy_config_same s1 s2) by done. destruct (find_proxy_config s2 id) as [cfg|].
    + destruct (connect_via_proxy _ _ _); rewrite ?(log_same s1 s2) by done; split_and!; try done;
        by repeat apply with_stats_same.
    + rewrite (log_same s1 s2) by done. split_and!; try done. by repeat apply with_stats_same.
  - split_and!; try done. by apply with_stats_same.
  - by split.
Qed.

Lemma relay_step_same is_dns e s1 s2 :
  same_shared s1 s2 → same_run (relay_step is_dns e s1) (relay_step is_dns e s2).
Proof.
  intros Hs. destruct e as [w [|b bs] sent|w|w bs now written|w er]; cbn [relay_step]; try by split.
  - destruct sent; split_and!; try done. by apply with_stats_same.
  - rewrite (sh_cache _ _ Hs).
    destruct (if is_dns then snoop_response _ _ _ else _) as [c r].
    pose proof (with_cache_same c _ _ Hs). destruct r; [destruct written|]; by split.
Qed.

Lemma relay_loop_same is_dns script s1 s2 :
  same_shared s1 s2 → same_run (relay_loop is_dns script s1) (relay_loop is_dns script s2).
Proof.
  revert s1 s2. induction script as [|e script IH]; intros s1 s2 Hs; [by split|]. cbn [relay_loop].
  destruct (select (e :: script)) as [e'|]; [|by split].
  pose proof (relay_step_same is_dns e' s1 s2 Hs) as Hstep.
  destruct (relay_step is_dns e' s1) as [[go1 t1] ev1], (relay_step is_dns e' s2) as [[go2 t2] ev2].
  destruct Hstep as (Hg & Ht & He). cbn in Hg, Ht, He. subst go2 ev2.
  destruct go1 as [[]| | | |]; try by split. specialize (IH t1 t2 Ht).
  destruct (relay_loop is_dns script t1) as [[? ?] ?], (relay_loop is_dns script t2) as [[? ?] ?].
  destruct IH as (? & ? & ?). cbn in *. subst. by split.
Qed.

Lemma handle_udp_same env src dest s1 s2 :
  same_shared s1 s2 → flow_plain (flow_facts s1 (ue_now env) src dest true) →
  same_run (handle_udp env src dest s1) (handle_udp env src dest s2).
Proof.
  intros Hs [Hn Hd]. unfold handle_udp.
  rewrite <-(flow_facts_same s1 s2) by done. set (f := flow_facts _ _ _ _ _) in *.
  rewrite (decide_same s1 s2) by done.
  assert (count_udp_block s1 dest = count_udp_block s2 dest) as Hc.
  { unfold count_udp_block. by rewrite (sh_port _ _ Hs). }
  destruct (decide s2 f) as [d|]; [|by split].
  rewrite Hc, (report_same s1 s2 f d Hs), (iface_same s1 s2 Hs).
  pose proof (relay_loop_same (sa_port dest =? 53) (ue_script env) s1 s2 Hs) as Hr.
  destruct d; cycle 2.
  { split_and!; try done. by apply with_stats_same. }
  all: destruct (dial_udp _ _ _) as [ops []]; try by split.
  all: destruct (relay_loop _ _ s1) as [[? ?] ?], (relay_loop _ _ s2) as [[? ?] ?];
    destruct Hr as (? & ? & ?); cbn in *; subst; by split.
Qed.

End Choice.

(** What a flow's task does: both transports. *)
Inductive flow : Type :=
  | FlowTcp (env : tcp_env) (src dest : SocketAddr)
  | FlowUdp (env : udp_env) (src dest : SocketAddr).

Definition flow_now (f : flow) : Z := match f with FlowTcp e _ _ => te_now e | FlowUdp e _ _ => ue_now e end.

(** The flows of a session, one after the other: each one's outcome and effects. *)
Fixpoint serve `{RegexEngine} `{ProcessTable} `{Base64} (fs : list flow) (s : Shared)
    : list (io_out unit * list event) :=
  match fs with
  | [] => []
  | FlowTcp env src dest :: fs =>
    let '(r, s, evs) := task_tcp env src dest s in (r, evs) :: serve fs s
  | FlowUdp env src dest :: fs =>
    let '(r, s, evs) := task_udp env src dest s in (r, evs) :: serve fs s
  end.

(** Every flow of the session brings plain texts to the rules. *)
Fixpoint serve_plain `{RegexEngine} `{ProcessTable} `{Base64} (fs : list flow) (s : Shared) : Prop :=
  match fs with
  | [] => True
  | FlowTcp env src dest :: fs =>
    flow_plain (flow_facts s (te_now env) src dest false) ∧ serve_plain fs (task_tcp env src dest s).1.2
  | FlowUdp env src dest :: fs =>
    flow_plain (flow_facts s (ue_now env) src dest true) ∧ serve_plain fs (task_udp env src dest s).1.2
  end.

#[export] Instance flow_plain_dec f : base.Decision (flow_plain f).
Proof. unfold flow_plain. apply _. Defined.
#[export] Instance serve_plain_dec `{RegexEngine} `{ProcessTable} `{Base64} fs s :
  base.Decision (serve_plain fs s).
Proof.
  revert s. induction fs as [|[env src dest|env src dest] fs IH]; intros s; cbn [serve_plain]; apply _.
Defined.

Section Sessions.
Context (E1 E2 : RegexEngine) `{!GlobLaws (H:=E1)} `{!GlobLaws (H:=E2)} `{ProcessTable} `{Base64}.

Lemma log_end_same (f : io_error → log_msg) s1 s2 x1 x2 :
  same_shared E1 E2 s1 s2 → same_run E1 E2 x1 x2 →
  same_run E1 E2
    (let '(r, s', evs) := x1 in
     match r with Failed e => (Ready tt, s', evs ++ log s1 (f e)) | r => (r, s', evs) end)
    (let '(r, s', evs) := x2 in
     match r with Failed e => (Ready tt, s', evs ++ log s2 (f e)) | r => (r, s', evs) end).
Proof.
  intros Hs. destruct x1 as [[r1 t1] ev1], x2 as [[r2 t2] ev2]. intros (Hr & Ht & He).
  cbn in Hr, Ht, He. subst r2 ev2. destruct r1; split_and!; try done. cbn. by rewrite (log_same E1 E2 s1 s2).
Qed.

Lemma serve_same fs s1 s2 :
  same_shared E1 E2 s1 s2 → serve_plain fs s1 → serve fs s1 = serve fs s2.
Proof.
  revert s1 s2. induction fs as [|[env src dest|env src dest] fs IH]; intros s1 s2 Hs Hp; [done|..];
    destruct Hp as [Hf Hp]; cbn [serve].
  - pose proof (log_end_same LogTcpEnded _ _ _ _ Hs (handle_tcp_same E1 E2 env src dest s1 s2 Hs Hf)) as Ht.
    fold (task_tcp env src dest s1) (task_tcp env src dest s2) in Ht.
    destruct (task_tcp env src dest s1) as [[r1 t1] e1], (task_tcp env src dest s2) as [[r2 t2] e2].
    destruct Ht as (Hr & Ht & He). cbn in Hr, Ht, He, Hp. subst. f_equal. by apply IH.
  - pose proof (log_end_same LogUdpEnded _ _ _ _ Hs (handle_udp_same E1 E2 env src dest s1 s2 Hs Hf)) as Ht.
    fold (task_udp env src dest s1) (task_udp env src dest s2) in Ht.
    destruct (task_udp env src dest s1) as [[r1 t1] e1], (task_udp env src dest s2) as [[r2 t2] e2].
    destruct Ht as (Hr & Ht & He). cbn in Hr, Ht, He, Hp. subst. f_equal. by apply IH.
Qed.

Lemma iface_set_same i s1 s2 :
  same_shared E1 E2 s1 s2 → same_shared E1 E2 (iface_set i s1) (iface_set i s2).
Proof.
  intros []. unfold iface_set. rewrite <-sh_iface0. by destruct (iface_cell s1) eqn:E; split; cbn; rewrite ?E.
Qed.

(** The choice of the regular-expression crate is not observable.  For rules
    whose globs are ASCII of at most 255 characters, over any two implementations
    that satisfy the laws the crate relies on, the builder succeeds, fails or panics
    alike; and the flows of a session, TCP or UDP, whose process names and snooped
    domains are one line of ASCII ([serve_plain]) end in the same outcomes and have
    the same effects in the same order. *)
Theorem regex_choice_unobservable pid b i fs :
  Forall globs_ok (b_rules b) →
  match build_shared (H:=E1) pid b with
  | Done (Ok s1) => ∃ s2, build_shared (H:=E2) pid b = Done (Ok s2)
                      ∧ (serve_plain fs (iface_set i s1) → serve fs (iface_set i s1) = serve fs (iface_set i s2))
  | Done (Err e) => build_shared (H:=E2) pid b = Done (Err e)
  | Panic => build_shared (H:=E2) pid b = Panic
  end.
Proof.
  intros Hok. pose proof (build_shared_same E1 E2 pid b Hok) as Hb.
  destruct (build_shared (H:=E1) pid b) as [[s1|e1]|], (build_shared (H:=E2) pid b) as [[s2|e2]|]; try done.
  - exists s2. split; [done|]. apply serve_same. by apply iface_set_same.
  - by cbn in Hb; subst.
Qed.

End Sessions.

(** ** A second implementation

    [MiniRegex] backtracks.  This one follows all the ways to match at once, as
    a set of the fragments still to be matched. *)
Module NfaRegex.

(** The states reachable without reading: a [FMany] may be passed over. *)
Fixpoint close (fs : list frag) : list (list frag) :=
  fs :: match fs with FMany :: fs' => close fs' | _ => [] end.

Definition advance (d : Z) (fs : list frag) : list (list frag) :=
  match fs with
  | FLit c :: fs' => if ascii_lower c =? ascii_lower d then close fs' else []
  | FOne :: fs' => close fs'
  | FMany :: _ => close fs
  | [] => []
  end.

Fixpoint accepts (states : list (list frag)) (s : str) : bool :=
  match s with
  | [] => existsb (λ fs, match fs with [] => true | _ :: _ => false end) states
  | d :: s' => accepts (concat (map (advance d) states)) s'
  end.

#[export] Instance engine : RegexEngine := {|
  Regex := list frag;
  regex_new := MiniRegex.new;
  is_match fs s := accepts (close fs) s;
  regex_escape := MiniRegex.escape
|}.

End NfaRegex.

Lemma accepts_app a b s : NfaRegex.accepts (a ++ b) s = NfaRegex.accepts a s || NfaRegex.accepts b s.
Proof.
  revert a b. induction s as [|d s IH]; intros a b; cbn [NfaRegex.accepts]; [apply existsb_app|].
  by rewrite map_app, concat_app, IH.
Qed.

Lemma accepts_nil s : NfaRegex.accepts [] s = false.
Proof. by induction s. Qed.

Lemma accepts_spec fs s : NfaRegex.accepts (NfaRegex.close fs) s = true ↔ frag_match fs s.
Proof.
  rewrite <-mini_run_spec. apply eq_iff_eq_true. revert fs.
  induction s as [|d s IHs]; intros fs; (induction fs as [|[c| |] fs IH]; [cbn; by rewrite ?accepts_nil|..]);
    cbn [NfaRegex.close NfaRegex.accepts existsb is_empty map concat NfaRegex.advance MiniRegex.run] in *;
    try done.
  - by rewrite IH, orb_false_r.
  - rewrite app_nil_r. destruct (ascii_lower c =? ascii_lower d); [apply IHs|apply accepts_nil].
  - rewrite app_nil_r. apply IHs.
  - rewrite accepts_app, IH, orb_comm. f_equal. exact (IHs (FMany :: fs)).
Qed.

#[export] Instance nfa_laws : GlobLaws (H:=NfaRegex.engine).
Proof.
  intros fs H1 H2. destruct (regex_glob (H:=MiniRegex.engine) fs H1 H2) as (r & Hr & _).
  pose proof (mini_laws fs H1 H2) as (r' & Hr' & _).
  exists fs. split; [|intros s _; apply accepts_spec].
  cbn [regex_new NfaRegex.engine]. unfold MiniRegex.new, strip_prefix.
  change (@frag_text NfaRegex.engine) with (@frag_text MiniRegex.engine).
  rewrite starts_with_app. cbn [mbind option_bind]. rewrite drop_app_length. apply mini_read_frags.
Qed.

(** ** A concrete session *)

Module ChoiceDemo.
Definition a_builder : TunRedirectBuilder :=
  add_rule Demo.domain_rule (add_rule Demo.proxy_rule (builder_new (SockAddr (V4 (ipv4 127 0 0 1)) 8080))).
Definition nic : PhysicalInterface := MkPhysicalInterface (Some 12) None.
Definition flows : list flow :=
  [FlowTcp Demo.tcp0 Demo.browser Demo.web; FlowTcp Demo.tcp0 Demo.unknown Demo.web;
   FlowUdp (MkUdpEnv 0 Demo.os [ClientData 10 [1] AnsOk]) Demo.own Demo.resolver].
End ChoiceDemo.

#[local] Existing Instance Demo.table.

Lemma regex_choice_unobservable_witness :
  ∃ s1 s2, build_shared (H:=MiniRegex.engine) 7 ChoiceDemo.a_builder = Done (Ok s1)
    ∧ build_shared (H:=NfaRegex.engine) 7 ChoiceDemo.a_builder = Done (Ok s2)
    ∧ serve ChoiceDemo.flows (iface_set ChoiceDemo.nic s1) = serve ChoiceDemo.flows (iface_set ChoiceDemo.nic s2).
Proof.
  pose proof (regex_choice_unobservable MiniRegex.engine NfaRegex.engine 7 ChoiceDemo.a_builder ChoiceDemo.nic
    ChoiceDemo.flows ltac:(concrete)) as Hc.
  destruct (build_shared (H:=MiniRegex.engine) 7 ChoiceDemo.a_builder) as [[s1|]|] eqn:E; [|vm_compute in E; discriminate E..].
  destruct Hc as (s2 & H2 & Hc). exists s1, s2. split_and!; [exact eq_refl|exact H2|]. apply Hc.
  vm_compute in E. injection E as <-. concrete.
Defined.
