(* ===== verification/UnitTest.v ===== *)
(** * Unit tests as programs

    The crate's unit tests ([#[cfg(test)] mod tests] of each file), translated
    like the rest of its code: a test is a computation that completes, or panics
    when an assertion fails or an [unwrap] finds nothing.  This file holds the
    assertions; the tests are in [RuleTests], [NetstackTests], [DnsTests],
    [ProxyTests] and [SystemTests], each with the proof that they pass, and together
    in [Suite], stated for more than the tests run: every regular-expression
    implementation, every clock, every way the network cuts a stream, every seed of
    the random messages.  That the model passes the crate's own tests is evidence
    that it behaves as the code does (the one that fails is in [SystemTests]; [Suite] names those left out); that
    it passes them for all parameters is what the tests are samples of. *)

From S2P Require Export Net.
Local Open Scope Z_scope.

(** [assert!], [assert_eq!], [assert_ne!] *)
Definition assert (b : bool) : outcome unit := if b then mret tt else Panic.
Definition assert_eq {A} `{EqDecision A} (x y : A) : outcome unit := assert (bool_decide (x = y)).
Definition assert_ne {A} `{EqDecision A} (x y : A) : outcome unit := assert (bool_decide (x ≠ y)).

(** [Option::unwrap], [Result::unwrap], [Result::unwrap_err]; and [expect]. *)
Definition unwrap {A} (o : option A) : outcome A := match o with Some a => mret a | None => Panic end.
Definition unwrap_ok {E A} (r : result E A) : outcome A := match r with Ok a => mret a | Err _ => Panic end.
Definition unwrap_err {E A} (r : result E A) : outcome E := match r with Err e => mret e | Ok _ => Panic end.

(** ["...".parse().unwrap()] for the address types. *)
Definition ip4 (s : string) : outcome Z := unwrap (parse_ipv4 (u s)).
Definition ip6 (s : string) : outcome Z := unwrap (parse_ipv6 (u s)).
Definition sock (s : string) : outcome SocketAddr := unwrap (parse_socket_addr (u s)).

(** The test runner: a test passes when it completes. *)
Definition passes (t : outcome unit) : Prop := t = Done tt.
#[export] Instance passes_dec t : base.Decision (passes t).
Proof. unfold passes. destruct t as [[]|]; [by left|by right]. Defined.

(** ** Lemmas *)

Lemma passes_bind {A} (m : outcome A) (a : A) k : m = Done a → passes (k a) → passes (m ≫= k).
Proof. by intros ->. Qed.

Lemma assert_then b (k : outcome unit) : b = true → passes k → passes (assert b ;; k).
Proof. by intros ->. Qed.

Lemma assert_passes b : b = true → passes (assert b).
Proof. by intros ->. Qed.
