(* ===== verification/RuleTests.v ===== *)
(** * The unit tests of [rule.rs]

    The tests of the module, in the order of the source, over any implementation
    of the regular-expression crate; and that they pass over every one that
    satisfies [GlobLaws]. *)

From S2P Require Export RegexChoice UnitTest.
Local Open Scope Z_scope.

Section RuleTests.
Context `{RegexEngine}.

Definition v4 (s : string) : outcome IpAddr := a ← ip4 s; mret (V4 a).
Definition v6 (s : string) : outcome IpAddr := a ← ip6 s; mret (V6 a).

Definition glob_matches_process_names : outcome unit :=
  m ← unwrap (compile_glob (u "fire*.exe"));
  assert (is_match m (u "firefox.exe")) ;;
  assert (is_match m (u "FIREFOX.EXE")) ;;
  assert (negb (is_match m (u "chrome.exe"))) ;;
  m ← unwrap (compile_glob (u "vpn*.exe"));
  assert (is_match m (u "vpnclient.exe")) ;;
  assert (negb (is_match m (u "myvpn.exe"))) ;;
  m ← unwrap (compile_glob (u "*steam*"));
  assert (is_match m (u "steamwebhelper.exe")) ;;
  assert (is_match m (u "mysteamapp")) ;;
  q ← unwrap (compile_glob (u "a?c.exe"));
  assert (is_match q (u "abc.exe")) ;;
  assert (negb (is_match q (u "ac.exe"))).

Definition ipv4_patterns : outcome unit :=
  ip ← ip4 "192.168.1.1"; assert (match_ipv4_pattern (u "192.168.1.1") ip) ;;
  ip ← ip4 "192.168.5.9"; assert (match_ipv4_pattern (u "192.168.*.*") ip) ;;
  ip ← ip4 "10.0.0.1"; assert (negb (match_ipv4_pattern (u "192.168.*.*") ip)) ;;
  ip ← ip4 "10.0.0.5"; assert (match_ipv4_pattern (u "10.0.0.1-10.0.0.10") ip) ;;
  ip ← ip4 "10.0.0.20"; assert (negb (match_ipv4_pattern (u "10.0.0.1-10.0.0.10") ip)) ;;
  ip ← ip4 "127.0.0.1"; assert (negb (match_ipv4_pattern (u "::1") ip)).

Definition ipv6_patterns : outcome unit :=
  ip ← ip6 "::1"; assert (match_ipv6_pattern (u "::1") ip) ;;
  ip ← ip6 "2001:db8:1234::1"; assert (match_ipv6_pattern (u "2001:db8::/32") ip) ;;
  ip ← ip6 "2001:dbff::1"; assert (negb (match_ipv6_pattern (u "2001:db8::/32") ip)) ;;
  ip ← ip6 "fe80::1"; assert (match_ipv6_pattern (u "*") ip) ;;
  ip ← ip6 "::1"; assert (negb (match_ipv6_pattern (u "127.0.0.1") ip)).

Definition port_patterns : outcome unit :=
  assert (match_port_pattern (u "443") 443) ;;
  assert (negb (match_port_pattern (u "443") 80)) ;;
  assert (match_port_pattern (u "8000-9000") 8443) ;;
  assert (negb (match_port_pattern (u "8000-9000") 9001)) ;;
  assert (match_port_list (u "80;443;8000-9000") 443) ;;
  assert (match_port_list (u "*") 12345).

Definition no_rules_defaults_to_direct : outcome unit :=
  set ← ruleset_new [];
  ip ← v4 "1.2.3.4"; m ← evaluate set (u "chrome.exe") ip 443 false None;
  assert_eq (rm_action m) Direct.

Definition specific_process_beats_wildcard_fallback : outcome unit :=
  let rules :=
    [with_proxy_config (with_action (rule_new (u "chrome.exe")) Config.Proxy) 7;
     with_action (rule_new (u "*")) Direct] in
  set ← ruleset_new rules;
  ip ← v4 "1.2.3.4"; m ← evaluate set (u "chrome.exe") ip 443 false None;
  assert_eq (rm_action m) Config.Proxy ;;
  assert_eq (rm_proxy_config_id m) 7 ;;
  ip ← v4 "1.2.3.4"; m ← evaluate set (u "notepad.exe") ip 443 false None;
  assert_eq (rm_action m) Direct.

Definition filtered_wildcard_matches_before_fallback : outcome unit :=
  let rules :=
    [with_action (with_ports (rule_new (u "*")) (u "443")) Block;
     with_action (rule_new (u "*")) Direct] in
  set ← ruleset_new rules;
  ip ← v4 "1.2.3.4";
  m ← evaluate set (u "x.exe") ip 443 false None;
  assert_eq (rm_action m) Block ;;
  ip ← v4 "1.2.3.4";
  m ← evaluate set (u "x.exe") ip 80 false None;
  assert_eq (rm_action m) Direct.

Definition except_hosts_skips_rule : outcome unit :=
  let rules :=
    [with_action (with_except (rule_new (u "*")) (u "127.0.0.1;::1")) Config.Proxy;
     with_action (rule_new (u "*")) Direct] in
  set ← ruleset_new rules;
  ip ← v4 "127.0.0.1";
  m ← evaluate set (u "x.exe") ip 443 false None;
  assert_eq (rm_action m) Direct ;;
  ip ← v4 "8.8.8.8";
  m ← evaluate set (u "x.exe") ip 443 false None;
  assert_eq (rm_action m) Config.Proxy.

Definition protocol_filter : outcome unit :=
  let rules :=
    [with_action (with_protocol (with_ports (rule_new (u "*")) (u "443")) Udp) Block] in
  set ← ruleset_new rules;
  ip ← v4 "1.2.3.4";
  m ← evaluate set (u "x.exe") ip 443 true None;
  assert_eq (rm_action m) Block ;;
  ip ← v4 "1.2.3.4";
  m ← evaluate set (u "x.exe") ip 443 false None;
  assert_eq (rm_action m) Direct.

Definition domain_filter_matches_via_cache : outcome unit :=
  let rules :=
    [with_action (with_domains (rule_new (u "*")) (u "*.evil.com")) Block;
     with_action (rule_new (u "*")) Direct] in
  set ← ruleset_new rules;
  assert (needs_domain_resolution set) ;;
  ip ← v4 "1.2.3.4";
  m ← evaluate set (u "x.exe") ip 443 false (Some (u "relay.evil.com"));
  assert_eq (rm_action m) Block ;;
  ip ← v4 "1.2.3.4";
  m ← evaluate set (u "x.exe") ip 443 false None;
  assert_eq (rm_action m) Direct.

Definition ipv6_destination_matches : outcome unit :=
  let rules :=
    [with_action (with_hosts (rule_new (u "*")) (u "2001:db8::/32")) Block] in
  set ← ruleset_new rules;
  ip ← v6 "2001:db8::1";
  m ← evaluate set (u "x.exe") ip 443 false None;
  assert_eq (rm_action m) Block ;;
  ip ← v6 "2001:dbff::1";
  m ← evaluate set (u "x.exe") ip 443 false None;
  assert_eq (rm_action m) Direct.

Definition comma_and_whitespace_separators : outcome unit :=
  let rule := with_action (rule_new (u "chrome.exe , firefox.exe")) Block in
  set ← ruleset_new [rule];
  ip ← v4 "1.2.3.4";
  m ← evaluate set (u "chrome.exe") ip 443 false None;
  assert_eq (rm_action m) Block ;;
  ip ← v4 "1.2.3.4";
  m ← evaluate set (u "firefox.exe") ip 443 false None;
  assert_eq (rm_action m) Block ;;
  ip ← v4 "1.2.3.4";
  m ← evaluate set (u "notepad.exe") ip 443 false None;
  assert_eq (rm_action m) Direct.

(** Engine rule strings keep Windows names (chrome.exe); on Linux the same processes
    resolve as chrome. The .exe suffix must not break matching in either direction. *)
Definition windows_exe_rules_match_unix_process_names : outcome unit :=
  let rules :=
    [with_action (rule_new (u "chrome.exe;brave.exe")) Block] in
  set ← ruleset_new rules;
  ip ← v4 "1.2.3.4";
  m ← evaluate set (u "chrome") ip 443 false None;
  assert_eq (rm_action m) Block ;;
  ip ← v4 "1.2.3.4";
  m ← evaluate set (u "brave") ip 443 false None;
  assert_eq (rm_action m) Block ;;
  ip ← v4 "1.2.3.4";
  m ← evaluate set (u "CHROME.EXE") ip 443 false None;
  assert_eq (rm_action m) Block ;;
  ip ← v4 "1.2.3.4";
  m ← evaluate set (u "firefox") ip 443 false None;
  assert_eq (rm_action m) Direct.

(** Rules authored without a suffix (firefox) match Windows names too. *)
Definition unix_style_rules_match_windows_process_names : outcome unit :=
  let rules :=
    [with_action (rule_new (u "firefox")) Block] in
  set ← ruleset_new rules;
  ip ← v4 "1.2.3.4";
  m ← evaluate set (u "firefox.exe") ip 443 false None;
  assert_eq (rm_action m) Block.

(** Glob suffixes are preserved: chrome* must still match chrome.exe, and *.exe
    degenerates to * only because every Windows binary has the suffix anyway. *)
Definition glob_patterns_survive_exe_normalization : outcome unit :=
  let rules :=
    [with_action (rule_new (u "chrome*")) Block] in
  set ← ruleset_new rules;
  ip ← v4 "1.2.3.4";
  m ← evaluate set (u "chrome.exe") ip 443 false None;
  assert_eq (rm_action m) Block ;;
  ip ← v4 "1.2.3.4";
  m ← evaluate set (u "chrome-helper") ip 443 false None;
  assert_eq (rm_action m) Block ;;
  ip ← v4 "1.2.3.4";
  m ← evaluate set (u "chromium") ip 443 false None;
  assert_eq (rm_action m) Direct.

Definition strip_exe_suffix_is_case_insensitive_and_globsafe : outcome unit :=
  t ← strip_exe_suffix (u "chrome.exe"); assert_eq t (u "chrome") ;;
  t ← strip_exe_suffix (u "CHROME.EXE"); assert_eq t (u "CHROME") ;;
  t ← strip_exe_suffix (u "Brave.Exe"); assert_eq t (u "Brave") ;;
  t ← strip_exe_suffix (u "firefox"); assert_eq t (u "firefox") ;;
  t ← strip_exe_suffix (u "chrome*"); assert_eq t (u "chrome*") ;;
  t ← strip_exe_suffix (u "*.exe"); assert_eq t (u "*") ;;
  t ← strip_exe_suffix (u "a?.exe"); assert_eq t (u "a?") ;;
  t ← strip_exe_suffix (u ""); assert_eq t (u "").

Definition port_range_at_bounds : outcome unit :=
  assert (match_port_pattern (u "1-65535") 1) ;;
  assert (match_port_pattern (u "1-65535") 65535) ;;
  assert (negb (match_port_pattern (u "1-65535") 0)) ;;
  assert (match_port_pattern (u "0-0") 0) ;;
  assert (negb (match_port_pattern (u "0-0") 1)).

Definition ipv4_range_ordering : outcome unit :=
  ip ← ip4 "10.0.0.5";
  assert (negb (match_ipv4_pattern (u "10.0.0.10-10.0.0.1") ip)) ;;
  assert (match_ipv4_pattern (u "10.0.0.1-10.0.0.10") ip).

Definition ipv6_cidr_boundary_bits : outcome unit :=
  ip ← ip6 "2001:0db8:ffff:ffff:ffff:ffff:ffff:ffff"; assert (match_ipv6_pattern (u "2001:db8::/32") ip) ;;
  ip ← ip6 "2001:0db9::"; assert (negb (match_ipv6_pattern (u "2001:db8::/32") ip)).

Definition any_is_wildcard_synonym : outcome unit :=
  assert (is_match_all (u "ANY")) ;;
  assert (is_match_all (u "any")) ;;
  assert (is_match_all (u "Any")) ;;
  let rules :=
    [with_action (rule_new (u "ANY")) Block] in
  set ← ruleset_new rules;
  ip ← v4 "8.8.8.8";
  m ← evaluate set (u "chrome.exe") ip 443 false None;
  assert_eq (rm_action m) Block ;;
  ip ← v4 "8.8.8.8";
  m ← evaluate set (u "random.exe") ip 443 false None;
  assert_eq (rm_action m) Block.

Definition multiple_proxy_config_ids : outcome unit :=
  let rules :=
    [with_proxy_config (with_action (rule_new (u "chrome.exe")) Config.Proxy) 3;
     with_proxy_config (with_action (rule_new (u "firefox.exe")) Config.Proxy) 7;
     with_action (rule_new (u "*")) Direct] in
  set ← ruleset_new rules;
  ip ← v4 "1.2.3.4"; m ← evaluate set (u "chrome.exe") ip 443 false None;
  assert_eq (rm_action m) Config.Proxy ;;
  assert_eq (rm_proxy_config_id m) 3 ;;
  ip ← v4 "1.2.3.4"; m ← evaluate set (u "firefox.exe") ip 443 false None;
  assert_eq (rm_action m) Config.Proxy ;;
  assert_eq (rm_proxy_config_id m) 7.

Definition rule_ordering_first_specific_wins : outcome unit :=
  let rules :=
    [with_action (rule_new (u "*")) Config.Proxy;
     with_action (with_ports (rule_new (u "chrome.exe")) (u "443")) Block] in
  set ← ruleset_new rules;
  ip ← v4 "1.2.3.4";
  m ← evaluate set (u "chrome.exe") ip 443 false None;
  assert_eq (rm_action m) Block ;;
  ip ← v4 "1.2.3.4";
  m ← evaluate set (u "chrome.exe") ip 80 false None;
  assert_eq (rm_action m) Config.Proxy ;;
  ip ← v4 "1.2.3.4";
  m ← evaluate set (u "firefox.exe") ip 443 false None;
  assert_eq (rm_action m) Config.Proxy.

Definition except_with_multiple_entries : outcome unit :=
  let rules :=
    [with_action (with_except (rule_new (u "*")) (u "127.0.0.1;::1;10.*.*.*")) Config.Proxy;
     with_action (rule_new (u "*")) Direct] in
  set ← ruleset_new rules;
  ip ← v4 "10.0.0.5";
  m ← evaluate set (u "x.exe") ip 443 false None;
  assert_eq (rm_action m) Direct ;;
  ip ← v4 "8.8.8.8";
  m ← evaluate set (u "x.exe") ip 443 false None;
  assert_eq (rm_action m) Config.Proxy.

Definition complex_except_falls_through : outcome unit :=
  let rules :=
    [with_action (with_except (rule_new (u "*")) (u "127.0.0.1;::1")) Config.Proxy] in
  set ← ruleset_new rules;
  ip ← v4 "127.0.0.1";
  m ← evaluate set (u "x.exe") ip 443 false None;
  assert_eq (rm_action m) Direct ;;
  ip ← v4 "8.8.8.8";
  m ← evaluate set (u "x.exe") ip 443 false None;
  assert_eq (rm_action m) Config.Proxy.

Definition rule_with_null_domain_when_domain_required : outcome unit :=
  let rules :=
    [with_action (with_domains (rule_new (u "*")) (u "*.example.com")) Block;
     with_action (rule_new (u "*")) Direct] in
  set ← ruleset_new rules;
  assert (needs_domain_resolution set) ;;
  ip ← v4 "93.184.216.34";
  m ← evaluate set (u "x.exe") ip 443 false None;
  assert_eq (rm_action m) Direct ;;
  ip ← v4 "93.184.216.34";
  m ← evaluate set (u "x.exe") ip 443 false (Some (u "www.example.com"));
  assert_eq (rm_action m) Block.

Definition rule_tests : list (outcome unit) :=
  [glob_matches_process_names;
   ipv4_patterns;
   ipv6_patterns;
   port_patterns;
   no_rules_defaults_to_direct;
   specific_process_beats_wildcard_fallback;
   filtered_wildcard_matches_before_fallback;
   except_hosts_skips_rule;
   protocol_filter;
   domain_filter_matches_via_cache;
   ipv6_destination_matches;
   comma_and_whitespace_separators;
   windows_exe_rules_match_unix_process_names;
   unix_style_rules_match_windows_process_names;
   glob_patterns_survive_exe_normalization;
   strip_exe_suffix_is_case_insensitive_and_globsafe;
   port_range_at_bounds;
   ipv4_range_ordering;
   ipv6_cidr_boundary_bits;
   any_is_wildcard_synonym;
   multiple_proxy_config_ids;
   rule_ordering_first_specific_wins;
   except_with_multiple_entries;
   complex_except_falls_through;
   rule_with_null_domain_when_domain_required].

End RuleTests.

(** ** They pass *)

Section Transfer.
Context (E1 E2 : RegexEngine) `{!GlobLaws (H:=E1)} `{!GlobLaws (H:=E2)}.

(** The side conditions in a form that evaluates at once. *)
Lemma agree_ruleset_new rs :
  bool_decide (Forall globs_ok rs) = true →
  agree (same_rules E1 E2) (ruleset_new (H:=E1) rs) (ruleset_new (H:=E2) rs).
Proof. intros ?%bool_decide_eq_true. by apply ruleset_new_same. Qed.

Lemma agree_evaluate s1 s2 name dest dest_port is_udp domain :
  same_rules E1 E2 s1 s2 →
  bool_decide (name_plain name) = true → bool_decide (domain_plain domain) = true →
  agree eq (evaluate s1 name dest dest_port is_udp domain) (evaluate s2 name dest dest_port is_udp domain).
Proof.
  intros Hs ?%bool_decide_eq_true ?%bool_decide_eq_true.
  rewrite (evaluate_same E1 E2 s1 s2) by done. apply agree_refl.
Qed.

Lemma agree_compile_glob t :
  bool_decide (glob_ok t) = true →
  agree (same_regex E1 E2) (unwrap (compile_glob (H:=E1) t)) (unwrap (compile_glob (H:=E2) t)).
Proof.
  intros ?%bool_decide_eq_true.
  by destruct (compile_glob_same E1 E2 t) as (r1 & r2 & -> & -> & Hr).
Qed.

Lemma is_match_same r1 r2 s : same_regex E1 E2 r1 r2 → bool_decide (plain s) = true → is_match r1 s = is_match r2 s.
Proof. intros Hr ?%bool_decide_eq_true. by apply Hr. Qed.

End Transfer.

(** A test that completes over one implementation completes over the other. *)
Lemma passes_over t1 t2 : agree eq t1 t2 → passes t2 → passes t1.
Proof. by intros ->%agree_eq. Qed.

(** Relates a computation over one implementation to the same over the other. *)
Ltac agree_step E1 E2 :=
  lazymatch goal with
  | Hr : same_regex _ _ ?m1 _ |- context [@is_match _ ?m1 ?s] => rewrite (is_match_same E1 E2 m1 _ s Hr ltac:(vm_compute; exact eq_refl))
  | Hs : same_rules _ _ ?s1 ?s2 |- context [@needs_domain_resolution _ ?s1] =>
    change (@needs_domain_resolution _ s1) with (has_domain_rules s1); rewrite (ss_domains _ _ _ _ Hs)
  | |- agree _ (ruleset_new _ ≫= _) _ =>
    eapply agree_bind; [apply (agree_ruleset_new E1 E2); vm_compute; exact eq_refl|intros ? ? ?]
  | |- agree _ (evaluate _ _ _ _ _ _ ≫= _) _ =>
    eapply agree_bind; [apply (agree_evaluate E1 E2); [eassumption|vm_compute; exact eq_refl..]|intros ? ? <-]
  | |- agree _ (unwrap (compile_glob _) ≫= _) _ =>
    eapply agree_bind; [apply (agree_compile_glob E1 E2); vm_compute; exact eq_refl|intros ? ? ?]
  | |- agree _ (_ ≫= _) _ => eapply agree_bind; [apply agree_refl|intros ? ? <-]
  | |- agree _ _ _ => apply agree_refl
  end.

(** the rule engine's own tests pass, whatever regular-expression
    implementation it runs over. *)
Theorem rule_tests_pass `{GlobLaws} : Forall passes rule_tests.
Proof.
  unfold rule_tests.
  repeat (apply Forall_cons_2; [|]); [..|by apply Forall_nil_2];
    lazymatch goal with
    | |- passes (?f H) =>
      apply (passes_over (f H) (f MiniRegex.engine)); [unfold f|vm_compute; exact eq_refl];
      repeat agree_step H MiniRegex.engine
    | |- _ => vm_compute; exact eq_refl
    end.
Qed.

Lemma rule_tests_pass_witness : Forall passes (rule_tests (H:=NfaRegex.engine)).
Proof. apply (@rule_tests_pass NfaRegex.engine nfa_laws). Defined.
