(* ===== verification/NetstackTests.v ===== *)
(** * The unit tests of [netstack.rs]

    The tests of the module, in the order of the source.  They build the shared
    state with the fixtures of [state.rs]; the engine's process id is the test
    runner's, so it is a parameter here, and the tests name other processes by
    fixed ids.  They pass for every implementation of the regular-expression crate
    and every process id but those. *)

From S2P Require Export RuleTests Netstack.
Local Open Scope Z_scope.

Section NetstackTests.
Context `{RegexEngine} (pid : Z).

(** ** Fixtures *)

Definition new_for_test_without_interface (rules : list Rule) (configs : list ProxyConfig) : outcome Shared :=
  rs ← ruleset_new rules;
  mret (MkShared rs configs cache_default false 443 QuicDrop pid None stats_default false false true).

(** The cell of a fresh fixture is unset, so [set(..).expect(..)] succeeds. *)
Definition new_for_test (rules : list Rule) (configs : list ProxyConfig) : outcome Shared :=
  shared ← new_for_test_without_interface rules configs;
  match iface_cell shared with
  | Some _ => Panic
  | None => mret (iface_set (MkPhysicalInterface (Some 12) (Some 12)) shared)
  end.

(** [shared.quic_policy = policy] *)
Definition with_policy (p : QuicPolicy) (s : Shared) : Shared :=
  MkShared (rules_of s) (proxy_configs s) (dns_cache s) (localhost_via_proxy s) (quic_port s)
    p (current_pid s) (iface_cell s) (stats s) (has_log_cb s) (has_conn_cb s) (running s).

(** [format!("{ip}:{port}").parse().unwrap()] *)
Definition dest (ip : string) (port : Z) : outcome SocketAddr :=
  unwrap (parse_socket_addr (u ip ++ [58] ++ dec port)).

Definition facts (d : SocketAddr) (is_udp : bool) (pid : option Z) (name : str) : FlowFacts :=
  MkFacts d is_udp pid name None.
(** [facts.domain = Some(domain)] *)
Definition with_domain (domain : str) (f : FlowFacts) : FlowFacts :=
  MkFacts (ff_dest f) (ff_is_udp f) (ff_pid f) (ff_process_name f) (Some domain).

(** ["..".parse::<IpAddr>().unwrap()]: the IPv4 syntax, or else the IPv6 one. *)
Definition addr (s : string) : outcome IpAddr :=
  match parse_ipv4 (u s) with Some a => mret (V4 a) | None => v6 s end.

(** A [for] loop over test data. *)
Fixpoint for_each {A} (l : list A) (body : A → outcome unit) : outcome unit :=
  match l with [] => mret tt | x :: l' => body x ;; for_each l' body end.

(** ** The tests *)

(** The other end of an in-memory stream: what the handler did to its end arrives
    as data, then the end of the stream once it was shut down. *)
Definition duplex_peer (evs : list event) : list read_event :=
  flat_map (λ ev, match ev with EvShutdown => [REof] | _ => [] end) evs.

Definition unavailable_proxy_closes_intercepted_flow_instead_of_falling_back : outcome unit :=
  match (read 1 (MkConn (duplex_peer fail_closed) [] [])).1 with
  | Ready byte => assert_eq (zlen byte) 0
  | _ => Panic
  end.

(** Browser TCP 443 must reach the proxy — the core happy path. *)
Definition browser_tcp_443_goes_to_proxy : outcome unit :=
  let rules :=
    [with_action (with_protocol (with_ports (rule_new (u "chrome.exe;brave.exe")) (u "80;443")) Tcp) Config.Proxy;
     with_action (rule_new (u "*")) Direct] in
  let cfg := http (u "127.0.0.1") 8080 in
  let cfg := set_config_id cfg 1 in
  shared ← new_for_test rules [cfg];
  d ← dest "140.82.113.4" 443;
  r ← decide shared (facts d false (Some 999) (u "brave.exe"));
  assert (match r with DProxy _ => true | _ => false end).

(** A non-browser doing TCP 443 falls through to the catch-all: direct. *)
Definition non_browser_tcp_is_direct : outcome unit :=
  let rules :=
    [with_action (with_protocol (with_ports (rule_new (u "chrome.exe")) (u "443")) Tcp) Config.Proxy;
     with_action (rule_new (u "*")) Direct] in
  shared ← new_for_test rules [];
  d ← dest "140.82.113.4" 443;
  r ← decide shared (facts d false (Some 999) (u "curl.exe"));
  assert_eq r DDirect.

(** The regression that motivated this rewrite: a flow whose owning process cannot be
    identified must still reach the internet, not be dropped. *)
Definition unattributed_tcp_flow_fails_open : outcome unit :=
  let rules :=
    [with_action (with_protocol (with_ports (rule_new (u "chrome.exe")) (u "443")) Tcp) Config.Proxy;
     with_action (rule_new (u "*")) Direct] in
  shared ← new_for_test rules [];
  d ← dest "140.82.113.4" 443;
  r ← decide shared (facts d false None (u ""));
  assert_eq r DDirect.

(** With no rules at all, everything still flows. *)
Definition empty_ruleset_fails_open : outcome unit :=
  shared ← new_for_test [] [];
  d ← dest "1.1.1.1" 443;
  r ← decide shared (facts d false None (u ""));
  assert_eq r DDirect.

(** The other half of the regression: QUIC must be dropped even when the process is
    unknown, which is exactly the case that leaked before. *)
Definition unattributed_quic_is_dropped : outcome unit :=
  let rules :=
    [with_action (rule_new (u "*")) Direct] in
  shared ← new_for_test rules [];
  d ← dest "157.240.1.35" 443;
  r ← decide shared (facts d true None (u ""));
  assert_eq r DBlock.

(** QUIC over IPv6 is dropped too — IPv6 was a total bypass before. *)
Definition quic_over_ipv6_is_dropped : outcome unit :=
  let rules :=
    [with_action (rule_new (u "*")) Direct] in
  shared ← new_for_test rules [];
  let d := SockAddr (V6 (of_segments [0x2a03; 0x2880; 0xf10c; 0; 0; 0; 0; 0x35])) 443 in
  r ← decide shared (facts d true None (u ""));
  assert_eq r DBlock.

(** A wildcard Direct rule must not resurrect QUIC. *)
Definition quic_drop_overrides_a_matching_direct_rule : outcome unit :=
  let rules :=
    [with_action (rule_new (u "*")) Direct] in
  shared ← new_for_test rules [];
  d ← dest "157.240.1.35" 443;
  r ← decide shared (facts d true None (u "chrome.exe"));
  assert_eq r DBlock.

(** mDNS, SSDP and LLMNR are dropped rather than relayed. Relaying them burned a
    pinned unicast socket per packet, which is what exhausted Windows' socket buffers
    (WSAENOBUFS) on a busy LAN. *)
Definition multicast_destinations_are_dropped : outcome unit :=
  let rules :=
    [with_action (rule_new (u "*")) Direct] in
  shared ← new_for_test rules [];
  for_each [("224.0.0.251", 5353); ("239.255.255.250", 1900); ("224.0.0.252", 5355)] (λ '(ip, port),
    d ← dest ip port;
    r ← decide shared (facts d true (Some 9) (u ""));
    assert_eq r DBlock).

(** Broadcast (DHCP, NetBIOS) is dropped for the same reason. *)
Definition broadcast_destinations_are_dropped : outcome unit :=
  let rules :=
    [with_action (rule_new (u "*")) Direct] in
  shared ← new_for_test rules [];
  d ← dest "255.255.255.255" 67;
  r ← decide shared (facts d true (Some 9) (u ""));
  assert_eq r DBlock.

(** IPv6 multicast (ff00::/8) too — neighbour discovery, mDNS over v6. *)
Definition ipv6_multicast_is_dropped : outcome unit :=
  let rules :=
    [with_action (rule_new (u "*")) Direct] in
  shared ← new_for_test rules [];
  let d := SockAddr (V6 (of_segments [0xff02; 0; 0; 0; 0; 0; 0; 0xfb])) 5353 in
  r ← decide shared (facts d true (Some 9) (u ""));
  assert_eq r DBlock.

(** Ordinary unicast must not be caught by the group-address check — that would black-
    hole normal traffic. *)
Definition unicast_is_not_treated_as_a_group_address : outcome unit :=
  ip ← addr "140.82.113.4"; assert (negb (is_group_address ip)) ;;
  ip ← addr "8.8.8.8"; assert (negb (is_group_address ip)) ;;
  ip ← addr "2606:50c0:8000::153"; assert (negb (is_group_address ip)) ;;
  ip ← addr "223.255.255.255"; assert (negb (is_group_address ip)) ;;
  ip ← addr "224.0.0.0"; assert (is_group_address ip).

(** Non-QUIC UDP (e.g. DNS) is unaffected by the QUIC policy. *)
Definition dns_udp_is_not_dropped : outcome unit :=
  let rules :=
    [with_action (rule_new (u "*")) Direct] in
  shared ← new_for_test rules [];
  d ← dest "1.1.1.1" 53;
  r ← decide shared (facts d true None (u ""));
  assert_eq r DDirect.

(** Allowing QUIC must actually let it through, so the policy is real. *)
Definition quic_allow_policy_lets_it_through : outcome unit :=
  let rules :=
    [with_action (rule_new (u "*")) Direct] in
  shared ← new_for_test rules [];
  let shared := with_policy QuicAllow shared in
  d ← dest "157.240.1.35" 443;
  r ← decide shared (facts d true None (u ""));
  assert_eq r DDirect.

(** The loop guard: our own traffic is never sent back to the proxy, even when a rule
    says every process should be proxied. *)
Definition own_process_always_goes_direct : outcome unit :=
  let rules :=
    [with_action (with_protocol (rule_new (u "*")) Tcp) Config.Proxy] in
  let cfg := http (u "127.0.0.1") 8080 in
  let cfg := set_config_id cfg 1 in
  shared ← new_for_test rules [cfg];
  let me := current_pid shared in
  d ← dest "140.82.113.4" 443;
  r ← decide shared (facts d false (Some me) (u "ace-engine.exe"));
  assert_eq r DDirect.

(** Our own process is exempt from Block rules as well, or a VPN-process rule matching
    our name would sever the engine from the internet. *)
Definition own_process_bypasses_block_rules : outcome unit :=
  let rules :=
    [with_action (rule_new (u "*")) Block] in
  shared ← new_for_test rules [];
  let me := current_pid shared in
  d ← dest "140.82.113.4" 443;
  r ← decide shared (facts d false (Some me) (u ""));
  assert_eq r DDirect.

(** Even our own QUIC goes direct — the loop guard runs before the QUIC drop. *)
Definition own_process_quic_is_not_dropped : outcome unit :=
  shared ← new_for_test [] [];
  let me := current_pid shared in
  d ← dest "1.1.1.1" 443;
  r ← decide shared (facts d true (Some me) (u ""));
  assert_eq r DDirect.

(** With an interface to pin to, our own traffic is relayed directly — the normal
    case, and the counterpart to the drop test below. *)
Definition own_process_goes_direct_when_an_interface_exists : outcome unit :=
  shared ← new_for_test [] [];
  let me := current_pid shared in
  d ← dest "140.82.113.4" 443;
  r ← decide shared (facts d false (Some me) (u ""));
  assert_eq r DDirect.

(** Without one, relaying our own flow would loop forever, so it is dropped. *)
Definition own_process_is_dropped_when_there_is_nothing_to_pin_to : outcome unit :=
  shared ← new_for_test_without_interface [] [];
  let me := current_pid shared in
  d ← dest "140.82.113.4" 443;
  r ← decide shared (facts d false (Some me) (u ""));
  assert_eq r DBlock.

(** Our own loopback traffic (e.g. reaching the local proxy) is never at risk of
    looping, so it is relayed even with no interface known. *)
Definition own_process_loopback_is_direct_without_an_interface : outcome unit :=
  shared ← new_for_test_without_interface [] [];
  let me := current_pid shared in
  let d := SockAddr (V4 (ipv4 127 0 0 1)) 8080 in
  r ← decide shared (facts d false (Some me) (u ""));
  assert_eq r DDirect.

(** Loopback stays local regardless of rules. *)
Definition loopback_is_direct : outcome unit :=
  let rules :=
    [with_action (with_protocol (rule_new (u "*")) Tcp) Config.Proxy] in
  let cfg := http (u "127.0.0.1") 8080 in
  let cfg := set_config_id cfg 1 in
  shared ← new_for_test rules [cfg];
  let d := SockAddr (V4 (ipv4 127 0 0 1)) 8080 in
  r ← decide shared (facts d false (Some 1) (u "chrome.exe"));
  assert_eq r DDirect.

(** A VPN executable is blocked outright, on both transports. *)
Definition vpn_process_is_blocked : outcome unit :=
  let rules :=
    [with_action (rule_new (u "openvpn.exe;wireguard.exe")) Block;
     with_action (rule_new (u "*")) Direct] in
  shared ← new_for_test rules [];
  d ← dest "203.0.113.9" 1194;
  r ← decide shared (facts d false (Some 42) (u "openvpn.exe"));
  assert_eq r DBlock ;;
  r ← decide shared (facts d true (Some 42) (u "wireguard.exe"));
  assert_eq r DBlock.

(** Domain rules still work, now fed by the UDP-flow DNS snoop. *)
Definition domain_rule_blocks_by_snooped_hostname : outcome unit :=
  let rules :=
    [with_action (with_domains (rule_new (u "*")) (u "*.protonvpn.com")) Block;
     with_action (rule_new (u "*")) Direct] in
  shared ← new_for_test rules [];
  d ← dest "185.159.157.1" 443;
  let f := facts d false (Some 7) (u "chrome.exe") in
  let f := with_domain (u "api.protonvpn.com") f in
  r ← decide shared f;
  assert_eq r DBlock ;;
  let f2 := facts d false (Some 7) (u "chrome.exe") in
  let f2 := with_domain (u "github.com") f2 in
  r ← decide shared f2;
  assert_eq r DDirect.

(** A *.proton.me wildcard matches every Proton *service* subdomain
    (mail/calendar/drive/pass/account), not just VPN infrastructure — documented so
    nobody reintroduces the overbroad rule that broke unrelated Proton services (Issue
    7). With only *.protonvpn.com blocked, mail.proton.me must be Direct. *)
Definition proton_shared_services_are_not_blocked_by_vpn_domain_rule : outcome unit :=
  let rules :=
    [with_action (with_domains (rule_new (u "*")) (u "*.protonvpn.com")) Block;
     with_action (rule_new (u "*")) Direct] in
  shared ← new_for_test rules [];
  d ← dest "185.159.157.1" 443;
  let mail := facts d false (Some 7) (u "chrome.exe") in
  let mail := with_domain (u "mail.proton.me") mail in
  r ← decide shared mail;
  assert_eq r DDirect ;;
  let pass := facts d false (Some 7) (u "chrome.exe") in
  let pass := with_domain (u "pass.proton.me") pass in
  r ← decide shared pass;
  assert_eq r DDirect ;;
  let vpn := facts d false (Some 7) (u "chrome.exe") in
  let vpn := with_domain (u "api.protonvpn.com") vpn in
  r ← decide shared vpn;
  assert_eq r DBlock.

(** IPv6 browser traffic is proxied exactly like IPv4 — under WinDivert it bypassed
    interception entirely. *)
Definition ipv6_browser_traffic_is_proxied : outcome unit :=
  let rules :=
    [with_action (with_protocol (with_ports (rule_new (u "chrome.exe")) (u "443")) Tcp) Config.Proxy;
     with_action (rule_new (u "*")) Direct] in
  let cfg := http (u "127.0.0.1") 8080 in
  let cfg := set_config_id cfg 1 in
  shared ← new_for_test rules [cfg];
  let d := SockAddr (V6 (of_segments [0x2606; 0x50c0; 0x8000; 0; 0; 0; 0; 0x153])) 443 in
  r ← decide shared (facts d false (Some 3) (u "chrome.exe"));
  assert (match r with DProxy _ => true | _ => false end).

Definition netstack_tests : list (outcome unit) :=
  [unavailable_proxy_closes_intercepted_flow_instead_of_falling_back;
   browser_tcp_443_goes_to_proxy;
   non_browser_tcp_is_direct;
   unattributed_tcp_flow_fails_open;
   empty_ruleset_fails_open;
   unattributed_quic_is_dropped;
   quic_over_ipv6_is_dropped;
   quic_drop_overrides_a_matching_direct_rule;
   multicast_destinations_are_dropped;
   broadcast_destinations_are_dropped;
   ipv6_multicast_is_dropped;
   unicast_is_not_treated_as_a_group_address;
   dns_udp_is_not_dropped;
   quic_allow_policy_lets_it_through;
   own_process_always_goes_direct;
   own_process_bypasses_block_rules;
   own_process_quic_is_not_dropped;
   own_process_goes_direct_when_an_interface_exists;
   own_process_is_dropped_when_there_is_nothing_to_pin_to;
   own_process_loopback_is_direct_without_an_interface;
   loopback_is_direct;
   vpn_process_is_blocked;
   domain_rule_blocks_by_snooped_hostname;
   proton_shared_services_are_not_blocked_by_vpn_domain_rule;
   ipv6_browser_traffic_is_proxied].

End NetstackTests.

(** ** They pass *)

(** The ids by which the tests name processes that are not the engine. *)
Definition other_processes : list Z := [1; 3; 7; 9; 42; 999].

Section Transfer.
Context (E1 E2 : RegexEngine) `{!GlobLaws (H:=E1)} `{!GlobLaws (H:=E2)}.

(** Two states that differ in their compiled rules and in the engine's id. *)
Record same_but_pid (s1 : @Shared E1) (s2 : @Shared E2) : Prop := {
  bp_rules : same_rules E1 E2 (rules_of s1) (rules_of s2);
  bp_configs : proxy_configs s1 = proxy_configs s2;
  bp_localhost : localhost_via_proxy s1 = localhost_via_proxy s2;
  bp_port : quic_port s1 = quic_port s2;
  bp_policy : quic_policy s1 = quic_policy s2;
  bp_iface : iface_cell s1 = iface_cell s2
}.

Definition same_facts (f1 f2 : FlowFacts) : Prop :=
  ff_dest f1 = ff_dest f2 ∧ ff_is_udp f1 = ff_is_udp f2
  ∧ ff_process_name f1 = ff_process_name f2 ∧ ff_domain f1 = ff_domain f2.

(** The id only says whether the flow is the engine's own. *)
Lemma agree_decide s1 s2 f1 f2 :
  same_but_pid s1 s2 → same_facts f1 f2 →
  bool_decide (ff_pid f1 = Some (current_pid s1)) = bool_decide (ff_pid f2 = Some (current_pid s2)) →
  bool_decide (name_plain (ff_process_name f2)) = true → bool_decide (domain_plain (ff_domain f2)) = true →
  agree eq (decide s1 f1) (decide s2 f2).
Proof.
  intros [] (Ed & Eu & En & Edom) Hown Hn%bool_decide_eq_true Hd%bool_decide_eq_true. unfold decide, iface.
  rewrite Hown, Ed, Eu, En, Edom, bp_localhost0, bp_port0, bp_policy0, bp_iface0.
  rewrite (evaluate_same E1 E2 (rules_of s1) (rules_of s2)) by done. apply agree_refl.
Qed.

Lemma agree_fixture_bare p1 p2 rules configs :
  bool_decide (Forall globs_ok rules) = true →
  agree (λ s1 s2, same_but_pid s1 s2 ∧ current_pid s1 = p1 ∧ current_pid s2 = p2 ∧ iface_cell s1 = None)
    (new_for_test_without_interface (H:=E1) p1 rules configs)
    (new_for_test_without_interface (H:=E2) p2 rules configs).
Proof.
  intros Hok. eapply agree_bind; [by apply (agree_ruleset_new E1 E2)|]. intros r1 r2 Hr.
  apply agree_ret. by split_and!; [split|..].
Qed.

Lemma agree_fixture p1 p2 rules configs :
  bool_decide (Forall globs_ok rules) = true →
  agree (λ s1 s2, same_but_pid s1 s2 ∧ current_pid s1 = p1 ∧ current_pid s2 = p2)
    (new_for_test (H:=E1) p1 rules configs) (new_for_test (H:=E2) p2 rules configs).
Proof.
  intros Hok. eapply agree_bind; [by apply agree_fixture_bare|].
  intros s1 s2 (Hs & H1 & H2 & Hi). rewrite <-(bp_iface _ _ Hs), Hi. apply agree_ret.
  destruct Hs. unfold iface_set. rewrite <-bp_iface0, Hi. by split_and!; [split|..].
Qed.

Lemma with_policy_same p s1 s2 : same_but_pid s1 s2 → same_but_pid (with_policy p s1) (with_policy p s2).
Proof. intros []. by split. Qed.

End Transfer.

(** Whether a flow is the engine's own, for a process named by its id and for the
    engine itself. *)
Lemma own_other (n p1 p2 : Z) : n ≠ p1 → n ≠ p2 → bool_decide (Some n = Some p1) = bool_decide (Some n = Some p2).
Proof. intros. rewrite !bool_decide_eq_false_2; congruence. Qed.
Lemma own_self (p1 p2 : Z) : bool_decide (Some p1 = Some p1) = bool_decide (Some p2 = Some p2).
Proof. by rewrite !bool_decide_eq_true_2. Qed.

(** [agree_step] with the operations of these tests. *)
Ltac agree_own :=
  cbn [ff_pid facts with_domain];
  first
    [ reflexivity | apply own_self
    | cbn [current_pid with_policy];
      repeat match goal with Hp : current_pid _ = _ |- _ => rewrite Hp; clear Hp end;
      apply own_other; [assumption|discriminate] ].

Ltac agree_flow_step E1 E2 :=
  cbv zeta;
  lazymatch goal with
  | |- agree _ (new_for_test _ _ _ ≫= _) _ =>
    eapply agree_bind; [apply (agree_fixture E1 E2); vm_compute; exact eq_refl|intros ? ? (? & ? & ?)]
  | |- agree _ (new_for_test_without_interface _ _ _ ≫= _) _ =>
    eapply agree_bind; [apply (agree_fixture_bare E1 E2); vm_compute; exact eq_refl|intros ? ? (? & ? & ? & _)]
  | |- agree _ (decide _ _ ≫= _) _ =>
    eapply agree_bind;
      [apply (agree_decide E1 E2);
         [auto using with_policy_same|by split_and!|agree_own|vm_compute; exact eq_refl..]
      |intros ? ? <-]
  | |- agree _ (for_each _ _) _ => cbn [for_each]
  | |- agree _ ((_ ≫= _) ≫= _) _ => eapply (agree_bind eq); [|intros ? ? <-]
  | |- _ => agree_step E1 E2
  end.

(** the dispatcher's own tests pass, whatever regular-expression implementation
    the rules run over and whatever process id the engine has, unless it is one of
    those the tests give to other processes. *)
Theorem netstack_tests_pass `{GlobLaws} pid : pid ∉ other_processes → Forall passes (netstack_tests pid).
Proof.
  intros Hpid.
  assert (1 ≠ pid ∧ 3 ≠ pid ∧ 7 ≠ pid ∧ 9 ≠ pid ∧ 42 ≠ pid ∧ 999 ≠ pid) as (? & ? & ? & ? & ? & ?).
  { split_and!; intros <-; apply Hpid; vm_compute; repeat first [left | right]. }
  unfold netstack_tests.
  repeat (apply Forall_cons_2; [|]); [..|by apply Forall_nil_2];
    lazymatch goal with
    | |- passes (?f H ?p) =>
      apply (passes_over (f H p) (f MiniRegex.engine 100000)); [unfold f|vm_compute; exact eq_refl];
      repeat agree_flow_step H MiniRegex.engine
    | |- _ => vm_compute; exact eq_refl
    end.
Qed.

(** The exception is real: a runner whose own id is 7 fails the test of the domain
    rule, whose browser then counts as the engine and is exempt from the rules. *)
Example runner_id_collides :
  domain_rule_blocks_by_snooped_hostname (H:=MiniRegex.engine) 7 = Panic
  ∧ passes (domain_rule_blocks_by_snooped_hostname (H:=MiniRegex.engine) 8).
Proof. split; vm_compute; reflexivity. Qed.

Lemma netstack_tests_pass_witness : Forall passes (netstack_tests (H:=MiniRegex.engine) 4242).
Proof. apply (netstack_tests_pass (H:=MiniRegex.engine) 4242). apply (bool_decide_unpack _). vm_compute. exact I. Defined.
