(* ===== verification/DnsTests.v ===== *)
(** * The unit tests of [dns.rs]

    The tests of the module, in the order of the source, with their builders of
    response messages.  The clock of the cache tests and the seed and number of the
    random messages are parameters.  The builders are shown to write the messages
    [Dns] encodes, so what the tests check on one host and address holds for all. *)

From S2P Require Export UnitTest Dns.
Local Open Scope Z_scope.

(** ** Builders *)

(** [u16::to_be_bytes] *)
Definition be16 (v : Z) : list Z := be_bytes 2 v.

(** The loop [for label in host.split('.')] that every builder contains:
    [m.push(label.len() as u8); m.extend_from_slice(label.as_bytes())]. *)
Definition push_labels (m : list Z) (host : str) : list Z :=
  foldl (λ m label, m ++ [len label mod 256] ++ as_bytes label) m (split (Z.eqb 46) host).

Definition build_response (host : str) (ip : list Z) : list Z :=
  let m := [] ++ [0x12; 0x34] ++ [0x81; 0x80] ++ [0; 1] ++ [0; 1] ++ [0; 0] ++ [0; 0] in
  let qname_start := zlen m in
  let m := push_labels m host ++ [0] in
  let m := m ++ [0; 1] ++ [0; 1] in
  let ptr := Z.lor 0xC000 (qname_start mod 2 ^ 16) in
  m ++ be16 ptr ++ [0; 1] ++ [0; 1] ++ [0; 0; 0x01; 0x2c] ++ [0; 4] ++ ip.

Definition build_aaaa_response (host : str) (ip : list Z) : list Z :=
  let m := [] ++ [0x12; 0x34] ++ [0x81; 0x80] ++ [0; 1] ++ [0; 1] ++ [0; 0] ++ [0; 0] in
  let qname_start := zlen m in
  let m := push_labels m host ++ [0] in
  let m := m ++ [0; 0x1c] ++ [0; 1] in
  let ptr := Z.lor 0xC000 (qname_start mod 2 ^ 16) in
  m ++ be16 ptr ++ [0; 0x1c] ++ [0; 1] ++ [0; 0; 0x01; 0x2c] ++ [0; 0x10] ++ ip.

(** [answers[i]] *)
Definition nth_answer (answers : list (IpAddr * str)) (i : Z) : outcome (IpAddr * str) := index answers i.
(** [m[i] = b] *)
Definition set_byte (m : list Z) (i : nat) (b : Z) : outcome (list Z) :=
  if (i <? length m)%nat then mret (<[i := b]> m) else Panic.

(** ** The tests *)

Definition parses_a_record : outcome unit :=
  let msg := build_response (u "example.com") [93; 184; 216; 34] in
  answers ← parse_dns_answers msg;
  assert_eq (zlen answers) 1 ;;
  a ← nth_answer answers 0;
  assert_eq a.1 (V4 (ipv4 93 184 216 34)) ;;
  assert_eq a.2 (u "example.com").

(** The stores read the clock at [t 0], [t 1], ..; the lookups at [t1] and [t2]. *)
Definition snoop_populates_cache (t : nat → Z) (t1 t2 : Z) : outcome unit :=
  let cache := cache_default in
  let msg := build_response (u "cdn.example.net") [1; 2; 3; 4] in
  let '(cache, done) := snoop_response cache t msg in
  done ;;
  assert_eq (lookup cache t1 (V4 (ipv4 1 2 3 4))) (Some (u "cdn.example.net")) ;;
  assert_eq (lookup cache t2 (V4 (ipv4 9 9 9 9))) None.

Definition ignores_queries_and_garbage : outcome unit :=
  let q := build_response (u "example.com") [1; 1; 1; 1] in
  q ← set_byte q 2 0x01;
  q ← set_byte q 3 0x00;
  answers ← parse_dns_answers q;
  assert_eq answers [] ;;
  answers ← parse_dns_answers (replicate 4 0);
  assert_eq answers [].

(** The store reads the clock at [t0], the lookup at [t1], after sleeping 1 ms. *)
Definition ttl_expiry (t0 t1 : Z) : outcome unit :=
  let cache := cache_new 0 in
  cache ← store cache t0 (V4 (ipv4 5 5 5 5)) (u "gone.example");
  assert_eq (lookup cache t1 (V4 (ipv4 5 5 5 5))) None.

Definition parses_aaaa_record : outcome unit :=
  let ipv6 := [0x20; 0x01; 0x0d; 0xb8; 0; 0; 0; 0; 0; 0; 0; 0; 0; 0; 0; 0x01] in
  let msg := build_aaaa_response (u "ipv6.example.com") ipv6 in
  answers ← parse_dns_answers msg;
  assert_eq (zlen answers) 1 ;;
  a ← nth_answer answers 0;
  assert_eq a.1 (V6 (be_val ipv6)) ;;
  assert_eq a.2 (u "ipv6.example.com").

Definition multiple_answers_a_plus_cname_plus_a : outcome unit :=
  let host := u "example.com" in
  let m := [0x12; 0x34] ++ [0x81; 0x80] ++ [0; 1] ++ [0; 3] ++ [0; 0] ++ [0; 0] in
  let qname_start := zlen m in
  let m := push_labels m host ++ [0] ++ [0; 1] ++ [0; 1] in
  let ptr_qname := be16 (Z.lor 0xC000 (qname_start mod 2 ^ 16)) in
  let m := m ++ ptr_qname ++ [0; 5] ++ [0; 1] ++ [0; 0; 0x01; 0x2c] ++ [0; 2] ++ ptr_qname in
  let m := m ++ ptr_qname ++ [0; 1] ++ [0; 1] ++ [0; 0; 0x01; 0x2c] ++ [0; 4] ++ [1; 2; 3; 4] in
  let m := m ++ ptr_qname ++ [0; 1] ++ [0; 1] ++ [0; 0; 0x01; 0x2c] ++ [0; 4] ++ [5; 6; 7; 8] in
  answers ← parse_dns_answers m;
  assert_eq (zlen answers) 2 ;;
  a ← nth_answer answers 0;
  assert_eq a.1 (V4 (ipv4 1 2 3 4)) ;;
  assert_eq a.2 (u "example.com") ;;
  a ← nth_answer answers 1;
  assert_eq a.1 (V4 (ipv4 5 6 7 8)) ;;
  assert_eq a.2 (u "example.com").

Definition cname_chain_uses_qname_as_key : outcome unit :=
  let orig := u "original.example.com" in
  let alias := u "aliased.example.net" in
  let m := [0x12; 0x34] ++ [0x81; 0x80] ++ [0; 1] ++ [0; 2] ++ [0; 0] ++ [0; 0] in
  let qname_start := zlen m in
  let m := push_labels m orig ++ [0] ++ [0; 1] ++ [0; 1] in
  let alias_wire := push_labels [] alias ++ [0] in
  let alias_len := zlen alias_wire mod 2 ^ 16 in
  let ptr_qname := be16 (Z.lor 0xC000 (qname_start mod 2 ^ 16)) in
  let m := m ++ ptr_qname ++ [0; 5] ++ [0; 1] ++ [0; 0; 0x01; 0x2c] ++ be16 alias_len ++ alias_wire in
  let m := m ++ ptr_qname ++ [0; 1] ++ [0; 1] ++ [0; 0; 0x01; 0x2c] ++ [0; 4] ++ [10; 0; 0; 1] in
  answers ← parse_dns_answers m;
  assert_eq (zlen answers) 1 ;;
  a ← nth_answer answers 0;
  assert_eq a.1 (V4 (ipv4 10 0 0 1)) ;;
  assert_eq a.2 (u "original.example.com").

Definition compression_pointer_loop_does_not_hang : outcome unit :=
  let m := [0x12; 0x34] ++ [0x81; 0x80] ++ [0; 1] ++ [0; 1] ++ [0; 0] ++ [0; 0] in
  let m := m ++ [1] ++ [120] ++ [3] ++ [99] ++ [111] ++ [109] ++ [0] ++ [0; 1] ++ [0; 1] in
  assert_eq (zlen m) 23 ;;
  let m := m ++ [0xC0; 0x17] ++ [0; 1] ++ [0; 1] ++ [0; 0; 0x01; 0x2c] ++ [0; 4] ++ [1; 2; 3; 4] in
  answers ← parse_dns_answers m;
  assert_eq answers [].

Definition truncated_rdlength : outcome unit :=
  let host := u "example.com" in
  let m := [0x12; 0x34] ++ [0x81; 0x80] ++ [0; 1] ++ [0; 2] ++ [0; 0] ++ [0; 0] in
  let qname_start := zlen m in
  let m := push_labels m host ++ [0] ++ [0; 1] ++ [0; 1] in
  let ptr_qname := be16 (Z.lor 0xC000 (qname_start mod 2 ^ 16)) in
  let m := m ++ ptr_qname ++ [0; 1] ++ [0; 1] ++ [0; 0; 0x01; 0x2c] ++ [0; 4] ++ [1; 2; 3; 4] in
  let m := m ++ ptr_qname ++ [0; 1] ++ [0; 1] ++ [0; 0; 0x01; 0x2c] ++ [1; 0] in
  answers ← parse_dns_answers m;
  assert_eq (zlen answers) 1 ;;
  a ← nth_answer answers 0;
  assert_eq a.1 (V4 (ipv4 1 2 3 4)) ;;
  assert_eq a.2 (u "example.com").

Definition ancount_larger_than_buffer : outcome unit :=
  let m := build_response (u "test.example") [10; 20; 30; 40] in
  m ← set_byte m 6 0x00;
  m ← set_byte m 7 0x64;
  answers ← parse_dns_answers m;
  assert_eq (zlen answers) 1 ;;
  a ← nth_answer answers 0;
  assert_eq a.1 (V4 (ipv4 10 20 30 40)) ;;
  assert_eq a.2 (u "test.example").

Definition non_in_class_ignored : outcome unit :=
  let host := u "chaos.example.com" in
  let m := [0x12; 0x34] ++ [0x81; 0x80] ++ [0; 1] ++ [0; 1] ++ [0; 0] ++ [0; 0] in
  let qname_start := zlen m in
  let m := push_labels m host ++ [0] ++ [0; 1] ++ [0; 1] in
  let ptr := Z.lor 0xC000 (qname_start mod 2 ^ 16) in
  let m := m ++ be16 ptr ++ [0; 1] ++ [0; 3] ++ [0; 0; 0x01; 0x2c] ++ [0; 4] ++ [1; 2; 3; 4] in
  answers ← parse_dns_answers m;
  assert_eq answers [].

Definition ignores_non_noerror_rcode : outcome unit :=
  let m := build_response (u "nx.example.com") [1; 1; 1; 1] in
  m ← set_byte m 2 0x81;
  m ← set_byte m 3 0x83;
  answers ← parse_dns_answers m;
  assert_eq answers [].

Definition multiple_questions_parses_first_qname : outcome unit :=
  let first := u "first.example.com" in
  let second := u "second.example.net" in
  let m := [0x12; 0x34] ++ [0x81; 0x80] ++ [0; 2] ++ [0; 1] ++ [0; 0] ++ [0; 0] in
  let qname_start := zlen m in
  let m := push_labels m first ++ [0] ++ [0; 1] ++ [0; 1] in
  let m := push_labels m second ++ [0] ++ [0; 1] ++ [0; 1] in
  let ptr := be16 (Z.lor 0xC000 (qname_start mod 2 ^ 16)) in
  let m := m ++ ptr ++ [0; 1] ++ [0; 1] ++ [0; 0; 0x01; 0x2c] ++ [0; 4] ++ [7; 7; 7; 7] in
  answers ← parse_dns_answers m;
  assert_eq (zlen answers) 1 ;;
  a ← nth_answer answers 0;
  assert_eq a.1 (V4 (ipv4 7 7 7 7)) ;;
  assert_eq a.2 (u "first.example.com").

(** The closure [next]: xorshift32. *)
Definition xorshift32 (state : Z) : Z :=
  let state := Z.lxor state (Z.shiftl state 13 mod 2 ^ 32) in
  let state := Z.lxor state (Z.shiftr state 17) in
  Z.lxor state (Z.shiftl state 5 mod 2 ^ 32).

(** [for _ in 0..len { data.push(next() as u8) }] *)
Fixpoint random_bytes (n : nat) (state : Z) : list Z * Z :=
  match n with
  | O => ([], state)
  | S n' =>
    let state := xorshift32 state in
    let '(data, state') := random_bytes n' state in (state mod 256 :: data, state')
  end.

Fixpoint fuzz_loop (n : nat) (state : Z) : outcome unit :=
  match n with
  | O => mret tt
  | S n' =>
    let state := xorshift32 state in
    let '(data, state) := random_bytes (Z.to_nat (state mod 201)) state in
    assert (match parse_dns_answers data with Done _ => true | Panic => false end) ;;
    fuzz_loop n' state
  end.

Definition fuzz_random_bytes_no_panic : outcome unit := fuzz_loop 1000 0xDEADBEEF.

(** The tests without parameters. *)
Definition dns_tests : list (outcome unit) :=
  [parses_a_record;
   ignores_queries_and_garbage;
   parses_aaaa_record;
   multiple_answers_a_plus_cname_plus_a;
   cname_chain_uses_qname_as_key;
   compression_pointer_loop_does_not_hang;
   truncated_rdlength;
   ancount_larger_than_buffer;
   non_in_class_ignored;
   ignores_non_noerror_rcode;
   multiple_questions_parses_first_qname;
   fuzz_random_bytes_no_panic].

(** ** The builders write messages of the reference encoder *)

(** A host name of labels that a DNS message can carry. *)
Definition host_labels (ls : list str) : Prop := ls ≠ [] ∧ name_ok ls ∧ Forall (λ l, 46 ∉ l) ls.

Lemma split_dotted ls : ls ≠ [] → Forall (λ l, 46 ∉ l) ls → split (Z.eqb 46) (dotted ls) = ls.
Proof.
  intros Hne Hls. induction Hls as [|l ls Hl Hls IH]; [done|].
  assert (Forall (λ c, (46 =? c) = false) l) as Hl'.
  { apply Forall_forall. intros c Hc. apply Z.eqb_neq. by intros <-. }
  destruct ls as [|l' ls]; [by apply split_none|].
  change (dotted (l :: l' :: ls)) with (l ++ 46 :: dotted (l' :: ls)).
  rewrite split_app by done. by rewrite IH.
Qed.

Lemma push_labels_encode m ls :
  name_ok ls → foldl (λ m label, m ++ [len label mod 256] ++ as_bytes label) m ls ++ [0] = m ++ encode_name ls.
Proof.
  intros Hls. revert m. induction Hls as [|l ls [_ Hl] _ IH]; intros m; [done|]. cbn [foldl].
  rewrite IH. unfold encode_name, encode_label at 2. cbn [map concat]. rewrite Z.mod_small by lia.
  by rewrite <-!app_assoc.
Qed.

Lemma push_host m ls : host_labels ls → push_labels m (dotted ls) ++ [0] = m ++ encode_name ls.
Proof.
  intros (Hne & Hok & Hd). unfold push_labels. rewrite split_dotted by done. by apply push_labels_encode.
Qed.

(** The record both builders write, and the message around it. *)
Definition built (ls : list str) (ty an : Z) (ip : list Z) : list Z :=
  encode_message 0x1234 0x8180 an (MkQuestion ls ty 1) [] [MkAnswer None ty 1 300 ip] [].

Lemma build_response_encodes ls ip :
  host_labels ls → length ip = 4%nat → build_response (dotted ls) ip = built ls 1 1 ip.
Proof.
  intros Hls Hip. unfold build_response, built, encode_message. cbv zeta. rewrite push_host by done.
  cbn [map concat encode_question q_name q_type q_class]. unfold encode_question, encode_answer.
  cbn [q_name q_type q_class a_owner a_type a_class a_ttl a_data].
  assert (be_bytes 2 (zlen ip) = [0; 4]) as -> by (unfold zlen; by rewrite Hip).
  rewrite !app_nil_r, <-!app_assoc. reflexivity.
Qed.

Lemma build_aaaa_response_encodes ls ip :
  host_labels ls → length ip = 16%nat → build_aaaa_response (dotted ls) ip = built ls 28 1 ip.
Proof.
  intros Hls Hip. unfold build_aaaa_response, built, encode_message. cbv zeta. rewrite push_host by done.
  unfold encode_question, encode_answer. cbn [map concat q_name q_type q_class a_owner a_type a_class a_ttl a_data].
  assert (be_bytes 2 (zlen ip) = [0; 16]) as -> by (unfold zlen; by rewrite Hip).
  unfold encode_question. cbn [q_name q_type q_class]. rewrite !app_nil_r, <-!app_assoc. reflexivity.
Qed.

Lemma parse_built ls ty an ip :
  host_labels ls → 1 ≤ an < 65536 → (ty = 1 ∧ length ip = 4%nat ∨ ty = 28 ∧ length ip = 16%nat) →
  Forall is_byte ip →
  parse_dns_answers (built ls ty an ip)
  = Done [(if ty =? 1 then V4 (be_val ip) else V6 (be_val ip), dotted ls)].
Proof.
  intros (_ & Hok & _) Han Hty Hb. unfold built.
  rewrite parse_encoded_message; [..|constructor]; try done.
  - f_equal. cbn [map concat q_name]. unfold answer_of. cbn [a_class a_type a_data]. unfold zlen.
    by destruct Hty as [[-> ->]|[-> ->]].
  - by apply Forall_singleton.
  - apply Forall_singleton. unfold answer_ok, is_u16, zlen. cbn [a_owner a_type a_class a_data].
    destruct Hty as [[-> ->]|[-> ->]]; split_and!; done || lia.
  - right. split; [|done]. change (zlen [_]) with 1. lia.
  - lia.
Qed.

(** Overwriting the count of answers, as [ancount_larger_than_buffer] does. *)
Lemma announce_answers ls ip hi lo :
  is_byte hi → is_byte lo →
  (m ← set_byte (built ls 1 1 ip) 6 hi; set_byte m 7 lo) = Done (built ls 1 (be_val [hi; lo]) ip).
Proof.
  intros Hh Hl. pose proof (be_bytes_be_val [hi; lo] ltac:(auto)) as E.
  unfold built, encode_message, encode_header. cbn [length] in E. rewrite E. reflexivity.
Qed.

(** the DNS tests sample this.  For every host name of labels a message can
    carry and every address, the messages their builders write — an A or an AAAA
    record behind a compression pointer — are read back as that address under that
    name; and overwriting the count of answers by any larger one changes nothing. *)
Theorem any_host_is_snooped ls ip ip6 hi lo :
  host_labels ls → Forall is_byte ip → Forall is_byte ip6 → length ip = 4%nat → length ip6 = 16%nat →
  is_byte hi → is_byte lo → 1 ≤ be_val [hi; lo] →
  parse_dns_answers (build_response (dotted ls) ip) = Done [(V4 (be_val ip), dotted ls)]
  ∧ parse_dns_answers (build_aaaa_response (dotted ls) ip6) = Done [(V6 (be_val ip6), dotted ls)]
  ∧ (m ← set_byte (build_response (dotted ls) ip) 6 hi; m ← set_byte m 7 lo; parse_dns_answers m)
    = Done [(V4 (be_val ip), dotted ls)].
Proof.
  intros Hls Hb Hb6 H4 H16 Hhi Hlo Hc.
  pose proof (be_val_bound [hi; lo] ltac:(auto)) as Hbound. change (256 ^ zlen [hi; lo]) with 65536 in Hbound.
  rewrite build_response_encodes, build_aaaa_response_encodes by done. split_and!.
  - apply (parse_built ls 1 1 ip); auto with lia.
  - apply (parse_built ls 28 1 ip6); auto with lia.
  - pose proof (announce_answers ls ip hi lo Hhi Hlo) as E.
    destruct (set_byte (built ls 1 1 ip) 6 hi) as [m|]; [|done]. cbn [mbind outcome_bind] in *. rewrite E.
    cbn [mbind outcome_bind]. apply (parse_built ls 1 (be_val [hi; lo]) ip); auto with lia.
Qed.

(** ** The tests pass *)

Lemma xorshift32_nonneg s : 0 ≤ s → 0 ≤ xorshift32 s.
Proof.
  intros Hs. unfold xorshift32.
  assert (∀ k, 0 ≤ k mod 2 ^ 32) by (intros; apply Z.mod_pos_bound; lia).
  repeat (apply Z.lxor_nonneg; split; intros _); try done; apply Z.shiftr_nonneg;
    apply Z.lxor_nonneg; by split.
Qed.

Lemma random_bytes_bytes n s : Forall is_byte (random_bytes n s).1.
Proof.
  revert s. induction n as [|n IH]; intros s; cbn [random_bytes]; [constructor|].
  specialize (IH (xorshift32 s)). destruct (random_bytes n (xorshift32 s)) as [data s'].
  constructor; [unfold is_byte; apply Z.mod_pos_bound; lia|exact IH].
Qed.

(** No seed and no number of rounds makes the parser panic. *)
Lemma fuzz_loop_passes n s : passes (fuzz_loop n s).
Proof.
  revert s. induction n as [|n IH]; intros s; [done|]. cbn [fuzz_loop].
  pose proof (random_bytes_bytes (Z.to_nat (xorshift32 s mod 201)) (xorshift32 s)) as Hb.
  destruct (random_bytes _ _) as [data s']. apply assert_then; [|apply IH].
  by destruct (parse_dns_answers_total data Hb) as [l ->].
Qed.

(** the DNS tests pass: those of the cache for every clock that runs forward and does
    not reach its end, the
    lookup of [snoop_populates_cache] coming less than the five minutes after the
    store; the random messages for every seed and number of rounds. *)
Theorem dns_tests_pass :
  Forall passes dns_tests
  ∧ (∀ t t1 t2, t1 < t 0%nat + DNS_CACHE_TTL < INSTANT_END → passes (snoop_populates_cache t t1 t2))
  ∧ (∀ t0 t1, t0 ≤ t1 < INSTANT_END → passes (ttl_expiry t0 t1))
  ∧ (∀ n seed, passes (fuzz_loop n seed)).
Proof.
  split_and!; [|intros t t1 t2 Ht|intros t0 t1 Ht|exact fuzz_loop_passes].
  - unfold dns_tests. repeat (apply Forall_cons_2; [|]); [..|by apply Forall_nil_2];
      lazymatch goal with
      | |- passes fuzz_random_bytes_no_panic => exact (fuzz_loop_passes 1000 0xDEADBEEF)
      | |- _ => vm_compute; exact eq_refl
      end.
  - unfold snoop_populates_cache, snoop_response.
    set (answers := parse_dns_answers _).
    assert (answers = Done [(V4 (ipv4 1 2 3 4), u "cdn.example.net")]) as -> by (vm_compute; exact eq_refl).
    cbn [store_all]. pose proof (store_lookup cache_default (t 0%nat) (V4 (ipv4 1 2 3 4)) (u "cdn.example.net") eq_refl) as Hs.
    change (is_empty (u "cdn.example.net")) with false in Hs. cbv iota in Hs.
    change (ttl cache_default) with DNS_CACHE_TTL in Hs. rewrite (proj2 (Z.ltb_lt _ _)) in Hs by lia.
    destruct Hs as (c & -> & Hc). cbn [mbind outcome_bind]. unfold assert_eq. rewrite !Hc.
    rewrite (proj2 (Z.ltb_lt t1 (t 0%nat + DNS_CACHE_TTL))) by lia. reflexivity.
  - pose proof (store_lookup (cache_new 0) t0 (V4 (ipv4 5 5 5 5)) (u "gone.example") eq_refl) as Hs.
    change (is_empty (u "gone.example")) with false in Hs. cbv iota in Hs.
    change (ttl (cache_new 0)) with 0 in Hs. rewrite (proj2 (Z.ltb_lt _ _)) in Hs by lia.
    unfold ttl_expiry. destruct Hs as (c & -> & Hc). cbn [mbind outcome_bind]. unfold assert_eq. rewrite Hc.
    rewrite (proj2 (Z.ltb_ge t1 (t0 + 0))) by lia. reflexivity.
Qed.

Lemma any_host_is_snooped_witness :
  parse_dns_answers (build_response (dotted [u "www"; u "example"; u "com"]) [93; 184; 216; 34])
    = Done [(V4 (ipv4 93 184 216 34), u "www.example.com")].
Proof.
  apply (any_host_is_snooped [u "www"; u "example"; u "com"] [93; 184; 216; 34] (be_bytes 16 1) 1 0);
    [split_and!; [done|concrete..]|concrete..].
Defined.
