(* ===== verification/Talk.v ===== *)
(** * Two programs at the ends of a connection

    The handshakes and the servers they meet are computations of the monad [io]
    over one end of a connection.  Here both ends run together: what one writes
    arrives at the other, the server's bytes cut into pieces by a network, the
    client's bytes as they were written.  Both ends are deterministic in what they
    have received, so a conversation is the least pair of scripts in which each end
    has received what the other, run on its own script, has sent; [settle] reaches
    it by letting the two ends run in turn until neither has anything new to say.
    Whether the cuts matter is a theorem, not an assumption. *)

From S2P Require Export Conn.
Local Open Scope Z_scope.

(** What an end has received: the pieces, and whether the other end closed. *)
Record received : Type := MkReceived { pieces : list (list Z); closed : bool }.

Definition script (r : received) : list read_event :=
  map RData (pieces r) ++ (if closed r then [REof] else []).

Definition end_on (r : received) : conn := MkConn (script r) [] [].

(** A network cuts the bytes of a write into pieces that are not empty. *)
Record network : Type := MkNetwork {
  cut : list Z → list (list Z);
  cut_concat bs : concat (cut bs) = bs;
  cut_nonempty bs : Forall (λ p, p ≠ []) (cut bs)
}.

(** A piece of its own for what is new, if anything is. *)
Definition piece (bs : list Z) : list (list Z) := match bs with [] => [] | _ => [bs] end.

Definition unsent {A} (m : io A) (r : received) (already : list Z) : list Z :=
  drop (length already) (outbox (m (end_on r)).2).

(** Whether a program has ended, so that its end of the connection is dropped. *)
Definition ended {A} (r : io_out A) : bool := match r with Hang => false | _ => true end.

(** [up] and [down] are what the server and the client have received.  A server
    that has ended says no more; a client keeps its end while it waits and, once
    the handshake succeeded, for the tunnel. *)
Fixpoint settle {A B} (fuel : nat) (net : network) (client : io A) (server : io B)
    (up down : list (list Z)) : option (list (list Z) * received) :=
  match fuel with
  | O => None
  | S fuel' =>
    let up := up ++ piece (unsent client (MkReceived down false) (concat up)) in
    let reply := unsent server (MkReceived up false) (concat down) in
    let down' := down ++ cut net reply in
    if ended (server (end_on (MkReceived up false))).1 then Some (up, MkReceived down' true)
    else match reply with
         | [] => Some (up, MkReceived down' false)
         | _ => settle fuel' net client server up down'
         end
  end.

(** The conversation from the start: what the client has received at its end. *)
Definition hears {A B} (rounds : nat) (net : network) (client : io A) (server : io B) : option received :=
  snd <$> settle rounds net client server [] [].

(** ** The network that does not cut *)

Program Definition whole : network := {| cut := piece |}.
Next Obligation. intros [|b bs]; [done|]. apply app_nil_r. Qed.
Next Obligation. intros [|b bs]; by repeat constructor. Qed.

(** ** How the server's bytes are cut does not matter

    A client whose bytes depend only on the bytes it has received holds the same
    conversation over every network, up to the cuts. *)

Definition cut_blind {A} (m : io A) : Prop :=
  ∀ c c', same_view c c' → outbox (m c).2 = outbox (m c').2.

Lemma chunking_free_cut_blind {A} (m : io A) : chunking_free m → cut_blind m.
Proof. intros Hm c c' Hs. by destruct (Hm c c' Hs) as (_ & H & _). Qed.

Definition same_bytes (r r' : received) : Prop :=
  concat (pieces r) = concat (pieces r') ∧ closed r = closed r'.

Lemma view_script r : view (script r) = (concat (pieces r), if closed r then EndEof else EndHang).
Proof.
  destruct r as [ps cl]. unfold script. cbn [pieces closed].
  induction ps as [|p ps IH]; cbn [map app view]; [by destruct cl|]. by rewrite IH.
Qed.

Lemma same_bytes_view r r' : same_bytes r r' → same_view (end_on r) (end_on r').
Proof. intros [H1 H2]. split; [|done..]. cbn [inbox end_on]. by rewrite !view_script, H1, H2. Qed.

Lemma settle_cuts {A B} fuel n1 n2 (client : io A) (server : io B) up d1 d2 :
  cut_blind client → concat d1 = concat d2 →
  match settle fuel n1 client server up d1, settle fuel n2 client server up d2 with
  | Some (u1, r1), Some (u2, r2) => u1 = u2 ∧ same_bytes r1 r2
  | None, None => True
  | _, _ => False
  end.
Proof.
  intros Hc. revert up d1 d2. induction fuel as [|fuel IH]; intros up d1 d2 Hd; [done|]. cbn [settle].
  assert (unsent client (MkReceived d1 false) (concat up) = unsent client (MkReceived d2 false) (concat up)) as ->.
  { unfold unsent. f_equal. apply Hc, same_bytes_view. by split. }
  set (up' := up ++ _). rewrite Hd. set (reply := unsent server _ _).
  assert (concat (d1 ++ cut n1 reply) = concat (d2 ++ cut n2 reply)) as Hd'.
  { by rewrite !concat_app, !cut_concat, Hd. }
  destruct (ended _); [by split_and!|]. destruct reply; [by split_and!|]. by apply IH.
Qed.

(** What was heard over any network, compared with what is heard uncut. *)
Lemma hears_cuts {A B} rounds net (client : io A) (server : io B) r :
  cut_blind client → hears rounds whole client server = Some r →
  ∃ r', hears rounds net client server = Some r' ∧ same_bytes r' r
    ∧ Forall (λ p, p ≠ []) (pieces r').
Proof.
  intros Hc Hr. unfold hears in *.
  pose proof (settle_cuts rounds net whole client server [] [] [] Hc eq_refl) as Hs.
  destruct (settle rounds whole client server [] []) as [[u2 r2]|] eqn:E2; [|done]. injection Hr as <-.
  destruct (settle rounds net client server [] []) as [[u1 r1]|] eqn:E1; [|done].
  exists r1. destruct Hs as [_ Hs]. split_and!; [done|done|].
  clear E2 Hs Hc u2 r2. revert E1. generalize (Forall_nil_2 (λ p : list Z, p ≠ [])).
  generalize (@nil (list Z)) at 1 3 as down. generalize (@nil (list Z)) as up.
  induction rounds as [|n IH]; intros up down Hd; [done|]. cbn [settle].
  set (up' := up ++ _). set (reply := unsent server _ _).
  assert (Forall (λ p, p ≠ []) (down ++ cut net reply)) as Hd'.
  { apply Forall_app. split; [done|apply cut_nonempty]. }
  destruct (ended _); [by intros [= _ <-]|]. destruct reply; [by intros [= _ <-]|]. by apply IH.
Qed.

(** ** Running one end on what it has received

    [yields m s e r sent]: over a connection whose peer has sent [s] and then ends
    as [e], [m] has outcome [r], having sent [sent].  Unlike [meets] it also says
    what was sent before a failure, and before waiting for more. *)

Definition yields {A} (m : io A) (s : list Z) (e : ending) (r : io_out A) (sent : list Z) : Prop :=
  ∀ c, opened c s e → ∃ c', m c = (r, c') ∧ outbox c' = outbox c ++ sent.

Lemma yields_ret {A} (a : A) s e : yields (mret a) s e (Ready a) [].
Proof. intros c Hc. exists c. by rewrite app_nil_r. Qed.

Lemma yields_fail {A} er s e : yields (io_fail (A:=A) er) s e (Failed er) [].
Proof. intros c Hc. exists c. by rewrite app_nil_r. Qed.

Lemma yields_write {A} bs (k : io A) s e r sent :
  yields k s e r sent → yields (write_all bs ;; k) s e r (bs ++ sent).
Proof.
  intros Hk c Hc. destruct (meets_write bs s e c Hc) as (c1 & E & Ho & Hc1).
  destruct (Hk c1 Hc1) as (c2 & E2 & Ho2). exists c2. unfold mbind, io_bind. rewrite E, E2.
  split; [done|]. by rewrite Ho2, Ho, <-app_assoc.
Qed.

Lemma yields_write_last {A} bs (k : io A) s e r :
  yields k s e r [] → yields (write_all bs ;; k) s e r bs.
Proof. intros Hk%(yields_write bs). by rewrite app_nil_r in Hk. Qed.

(** A read when enough has arrived, and when not. *)
Lemma yields_read {A} n (k : list Z → io A) s e r sent :
  n ≤ zlen s → yields (k (take (Z.to_nat n) s)) (drop (Z.to_nat n) s) e r sent →
  yields (read_exact n ≫= k) s e r sent.
Proof.
  intros Hn Hk c Hc. pose proof (meets_read n s e c Hc) as Hr.
  rewrite (proj2 (Z.leb_le _ _) Hn) in Hr.
  destruct Hr as (c1 & E & Ho & Hc1). destruct (Hk c1 Hc1) as (c2 & E2 & Ho2).
  exists c2. unfold mbind, io_bind. rewrite E, E2. split; [done|]. by rewrite Ho2, Ho, app_nil_r.
Qed.

Lemma yields_short {A} n (k : list Z → io A) s e :
  zlen s < n → yields (read_exact n ≫= k) s e (ending_result e) [].
Proof.
  intros Hn c [Hv Hw]. pose proof (read_exact_from_spec n _ _ _ Hv) as Hr.
  rewrite (proj2 (Z.leb_gt _ _) Hn) in Hr.
  destruct Hr as (i & E). exists (with_inbox c i). unfold mbind, io_bind, read_exact. rewrite E.
  rewrite app_nil_r. by destruct e.
Qed.

(** A read of a part of what has arrived, whose length the server does not fix. *)
Lemma yields_read_app {A} (k : list Z → io A) n a b e r sent :
  n = zlen a → yields (k a) b e r sent → yields (read_exact n ≫= k) (a ++ b) e r sent.
Proof.
  intros -> Hk. apply yields_read; [rewrite zlen_app; pose proof (zlen_nonneg b); lia|].
  unfold zlen. by rewrite Nat2Z.id, take_app_length, drop_app_length.
Qed.

Lemma meets_read_app n a b e : n = zlen a → meets (read_exact n) (a ++ b) e (Some (a, [], b)).
Proof.
  intros ->. pose proof (meets_read (zlen a) (a ++ b) e) as Hr. rewrite zlen_app in Hr.
  pose proof (zlen_nonneg b). rewrite (proj2 (Z.leb_le _ _)) in Hr by lia.
  unfold zlen in Hr. by rewrite Nat2Z.id, take_app_length, drop_app_length in Hr.
Qed.

(** A first part that completes, and one that does not. *)
Lemma yields_bind {A B} (m : io A) (k : A → io B) s e a sent rest r sent' :
  meets m s e (Some (a, sent, rest)) → yields (k a) rest e r sent' →
  yields (m ≫= k) s e r (sent ++ sent').
Proof.
  intros Hm Hk c Hc. destruct (Hm c Hc) as (c1 & E & Ho & Hc1). destruct (Hk c1 Hc1) as (c2 & E2 & Ho2).
  exists c2. unfold mbind, io_bind. rewrite E, E2. split; [done|]. by rewrite Ho2, Ho, <-app_assoc.
Qed.

Lemma meets_then {A B} (m : io A) (k : A → io B) s e a rest y :
  meets m s e (Some (a, [], rest)) → meets (k a) rest e y → meets (m ≫= k) s e y.
Proof. intros. rewrite <-(after_nil y). by eapply meets_bind. Qed.

Definition unfinished {A B} (r : io_out A) (r' : io_out B) : Prop :=
  match r, r' with Failed e, Failed e' => e = e' | Hang, Hang => True | _, _ => False end.

Lemma yields_stop {A B} (m : io A) (k : A → io B) s e r r' sent :
  yields m s e r sent → unfinished r r' → yields (m ≫= k) s e r' sent.
Proof.
  intros Hm Hr c Hc. destruct (Hm c Hc) as (c1 & E & Ho). exists c1. unfold mbind, io_bind. rewrite E.
  by destruct r, r'; simpl in Hr; subst.
Qed.

Lemma yields_meets {A} (m : io A) s e a sent rest :
  meets m s e (Some (a, sent, rest)) → yields m s e (Ready a) sent.
Proof. intros Hm c Hc. destruct (Hm c Hc) as (c1 & E & Ho & _). by exists c1. Qed.

(** The two readings of an end in [settle]. *)
Lemma yields_unsent {A} (m : io A) ps already r sent :
  yields m (concat ps) EndHang r sent → unsent m (MkReceived ps false) already = drop (length already) sent.
Proof.
  intros Hm. destruct (Hm (end_on (MkReceived ps false))) as (c' & E & Ho).
  { split; [apply view_script|done]. }
  unfold unsent. rewrite E. cbn [snd]. by rewrite Ho.
Qed.

Lemma yields_outcome {A} (m : io A) w s e r sent :
  yields m s e r sent → concat (pieces w) = s → e = (if closed w then EndEof else EndHang) →
  (m (end_on w)).1 = r.
Proof.
  intros Hm Hs ->. destruct (Hm (end_on w)) as (c' & E & _); [|by rewrite E].
  split; [|done]. cbn [inbox end_on]. by rewrite view_script, Hs.
Qed.

Lemma concat_piece bs : concat (piece bs) = bs.
Proof. destruct bs; [done|]. apply app_nil_r. Qed.

(** One turn of the conversation: the client has sent [cs] by now and the server,
    on that, [ss]; the new part of each is what follows what it had sent before. *)
Lemma settle_turn {A B} fuel net (client : io A) (server : io B) up down rc cs rs ss new reply :
  yields client (concat down) EndHang rc cs → cs = concat up ++ new →
  yields server cs EndHang rs ss → ss = concat down ++ reply →
  settle (S fuel) net client server up down =
    let down' := down ++ cut net reply in
    if ended rs then Some (up ++ piece new, MkReceived down' true)
    else match reply with
         | [] => Some (up ++ piece new, MkReceived down' false)
         | _ => settle fuel net client server (up ++ piece new) down'
         end.
Proof.
  intros Hc Hcs Hs Hss. cbn [settle].
  rewrite (yields_unsent client down (concat up) rc cs Hc), Hcs, drop_app_length.
  assert (concat (up ++ piece new) = cs) as Hup by (by rewrite concat_app, concat_piece, Hcs).
  rewrite (yields_unsent server _ (concat down) rs ss) by (by rewrite Hup).
  rewrite (yields_outcome server (MkReceived (up ++ piece new) false) cs EndHang rs ss Hs Hup eq_refl).
  by rewrite Hss, drop_app_length.
Qed.
