(* ===== verification/ProxyTests.v ===== *)
(** * The unit tests of [proxy.rs]

    The tests of the message builders, and the integration tests, in which the
    handshakes meet mock servers.  A mock is a program over its end of the
    connection; [Talk] runs it against the crate's client, over a network that is a
    parameter: what the mocks write may arrive in any pieces. *)

From S2P Require Export UnitTest Proxy Talk.
Local Open Scope Z_scope.

#[local] Existing Instance std_base64.

(** [text.contains(pat)], [text.ends_with(pat)] *)
Definition ends_with (s pat : str) : bool := match strip_suffix s pat with Some _ => true | None => false end.

(** [b"..."] literals. *)
Definition bytes (s : string) : list Z := as_bytes (u s).
Definition head (status_line : string) : list Z := bytes status_line ++ CRLF ++ CRLF.

(** ** The message builders *)

Definition http_connect_request_no_auth : outcome unit :=
  let req := build_http_connect_request (u "example.com") 443 None in
  text ← unwrap (from_utf8 req);
  assert (starts_with text (u "CONNECT example.com:443 HTTP/1.1" ++ CRLF)) ;;
  assert (contains_str text (u "Host: example.com:443" ++ CRLF)) ;;
  assert (negb (contains_str text (u "Proxy-Authorization"))) ;;
  assert (ends_with text (CRLF ++ CRLF)).

Definition http_connect_request_with_auth : outcome unit :=
  let req := build_http_connect_request (u "1.2.3.4") 80 (Some (u "user", u "pass")) in
  text ← unwrap (from_utf8 req);
  assert (contains_str text (u "Proxy-Authorization: Basic dXNlcjpwYXNz" ++ CRLF)).

Definition http_status_parsing : outcome unit :=
  assert_eq (parse_http_status (bytes "HTTP/1.1 200 Connection established" ++ CRLF)) (Some 200) ;;
  assert_eq (parse_http_status (bytes "HTTP/1.0 407 Proxy Auth Required" ++ CRLF)) (Some 407) ;;
  assert_eq (parse_http_status (bytes "garbage")) None.

Definition socks5_greeting_bytes : outcome unit :=
  assert_eq (build_socks5_greeting false) [0x05; 0x01; 0x00] ;;
  assert_eq (build_socks5_greeting true) [0x05; 0x02; 0x00; 0x02].

Definition socks5_connect_request_ipv4 : outcome unit :=
  let dest := Ip (V4 (ipv4 93 184 216 34)) 443 in
  req ← unwrap_ok (build_socks5_connect_request dest);
  assert_eq req [0x05; 0x01; 0x00; 0x01; 93; 184; 216; 34; 0x01; 0xBB].

Definition socks5_connect_request_domain : outcome unit :=
  let dest := Domain (u "example.com") 80 in
  req ← unwrap_ok (build_socks5_connect_request dest);
  b ← slice req 0 4; assert_eq b [0x05; 0x01; 0x00; 0x03] ;;
  b ← index req 4; assert_eq b 11 ;;
  b ← slice req 5 16; assert_eq b (bytes "example.com") ;;
  b ← slice req 16 18; assert_eq b [0x00; 0x50].

Definition socks5_userpass_bytes : outcome unit :=
  buf ← unwrap_ok (build_socks5_userpass (u "ab") (u "cde"));
  assert_eq buf [0x01; 0x02; 97; 98; 0x03; 99; 100; 101].

Definition socks5_connect_request_ipv6 : outcome unit :=
  a ← ip6 "2001:db8::1";
  let dest := Ip (V6 a) 443 in
  req ← unwrap_ok (build_socks5_connect_request dest);
  b ← slice req 0 4; assert_eq b [0x05; 0x01; 0x00; 0x04] ;;
  b ← slice req 4 20; assert_eq b [0x20; 0x01; 0x0d; 0xb8; 0; 0; 0; 0; 0; 0; 0; 0; 0; 0; 0; 1] ;;
  b ← slice req 20 22; assert_eq b [0x01; 0xBB].

Definition builder_tests : list (outcome unit) :=
  [http_connect_request_no_auth;
   http_connect_request_with_auth;
   http_status_parsing;
   socks5_greeting_bytes;
   socks5_connect_request_ipv4;
   socks5_connect_request_domain;
   socks5_userpass_bytes;
   socks5_connect_request_ipv6].

(** ** The mocks *)

(** An assertion or an [unwrap] of a mock's task. *)
Definition lift {A} (t : outcome A) : io A := match t with Done a => mret a | Panic => io_crash end.

Definition buf0 : list Z := replicate 512 0.
(** [s.read(&mut buf).await.unwrap()]: the count, and the buffer with what arrived
    written over its beginning. *)
Definition read_buf (buf : list Z) : io (Z * list Z) :=
  bs ← read 512; mret (zlen bs, bs ++ drop (length bs) buf).

(** [SOCKS5 replies of the mocks] *)
Definition success_reply : list Z := [0x05; 0x00; 0x00; 0x01] ++ [127; 0; 0; 1] ++ [0; 0].

Section Integration.
Context (net : network).

(** [mock_proxy(handler)] and [connect_via_proxy(&cfg, &dest)]: the conversation
    with the mock, then the connector's result over what it heard. *)
Definition connect_to (handler : io unit) (cfg : ProxyConfig) (dest : Target) : outcome (io_out conn) :=
  match hears 8 net (handshake cfg dest) handler with
  | Some r => mret (connect_via_proxy (Connected (end_on r)) cfg dest)
  | None => Panic
  end.

(** [.await.unwrap()] and [.await.unwrap_err()]. *)
Definition connected (r : io_out conn) : outcome conn := match r with Ready c => mret c | _ => Panic end.
Definition connect_error (r : io_out conn) : outcome io_error := match r with Failed e => mret e | _ => Panic end.
(** [err.to_string().contains(pat)] *)
Definition mentions (e : io_error) (pat : string) : bool := contains_str (u (ie_msg e)) (u pat).

Definition any_dest : Target := Ip (V4 (ipv4 1 2 3 4)) 443.

(** *** HTTP CONNECT *)

(** [stream.peer_addr()] of a connected stream succeeds. *)
Definition http_connect_success : outcome unit :=
  let handler :=
    '(n, buf) ← read_buf buf0;
    req ← lift (b ← slice buf 0 n; unwrap (from_utf8 b));
    lift (assert (starts_with req (u "CONNECT "))) ;;
    write_all (head "HTTP/1.1 200 Connection established") in
  r ← connect_to handler (http (u "127.0.0.1") 8080) any_dest;
  connected r ;; mret tt.

Definition http_connect_407_rejected : outcome unit :=
  let handler :=
    read_buf buf0 ;;
    write_all (head "HTTP/1.1 407 Proxy Authentication Required") in
  r ← connect_to handler (http (u "127.0.0.1") 8080) any_dest;
  err ← connect_error r;
  assert (mentions err "407").

Definition http_connect_malformed_status : outcome unit :=
  let handler :=
    read_buf buf0 ;;
    write_all (head "garbage response") in
  r ← connect_to handler (http (u "127.0.0.1") 8080) any_dest;
  err ← connect_error r;
  assert (mentions err "invalid").

Definition http_connect_sends_basic_auth_header : outcome unit :=
  let handler :=
    '(n, buf) ← read_buf buf0;
    req ← lift (b ← slice buf 0 n; unwrap (from_utf8 b));
    lift (assert (contains_str req (u "Proxy-Authorization: Basic dXNlcjpwYXNz"))) ;;
    write_all (head "HTTP/1.1 200 Connection established") in
  let cfg := with_auth (http (u "127.0.0.1") 8080) (u "user") (u "pass") in
  r ← connect_to handler cfg any_dest;
  connected r ;; mret tt.

Definition http_connect_no_auth_when_creds_unset : outcome unit :=
  let handler :=
    '(n, buf) ← read_buf buf0;
    req ← lift (b ← slice buf 0 n; unwrap (from_utf8 b));
    lift (assert (negb (contains_str req (u "Proxy-Authorization")))) ;;
    write_all (head "HTTP/1.1 200 Connection established") in
  r ← connect_to handler (http (u "127.0.0.1") 8080) any_dest;
  connected r ;; mret tt.

(** [for &byte in response { s.write_all(&[byte]) }] *)
Fixpoint dribble (bs : list Z) : io unit :=
  match bs with [] => mret tt | b :: bs' => write_all [b] ;; dribble bs' end.

(** The response one byte at a time; the network may cut it anyway. *)
Definition http_connect_partial_read : outcome unit :=
  let handler :=
    read_buf buf0 ;;
    dribble (head "HTTP/1.1 200 Connection established") in
  r ← connect_to handler (http (u "127.0.0.1") 8080) any_dest;
  connected r ;; mret tt.

(** *** SOCKS5 *)

Definition socks5_no_auth_ipv4 : outcome unit :=
  let handler :=
    '(n, buf) ← read_buf buf0;
    lift (b ← slice buf 0 n; assert_eq b [0x05; 0x01; 0x00]) ;;
    write_all [0x05; 0x00] ;;
    '(_, buf) ← read_buf buf;
    lift (b ← index buf 0; assert_eq b 0x05) ;;
    lift (b ← index buf 1; assert_eq b 0x01) ;;
    lift (b ← index buf 3; assert_eq b 0x01) ;;
    write_all success_reply in
  r ← connect_to handler (socks5 (u "127.0.0.1") 1080) any_dest;
  connected r ;; mret tt.

Definition socks5_no_auth_ipv6_reply : outcome unit :=
  let handler :=
    '(_, buf) ← read_buf buf0;
    write_all [0x05; 0x00] ;;
    read_buf buf ;;
    write_all ([0x05; 0x00; 0x00; 0x04] ++ replicate 16 0 ++ [0; 0]) in
  a ← ip6 "2001:db8::1";
  r ← connect_to handler (socks5 (u "127.0.0.1") 1080) (Ip (V6 a) 80);
  connected r ;; mret tt.

Definition socks5_no_auth_domain_reply : outcome unit :=
  let handler :=
    '(_, buf) ← read_buf buf0;
    write_all [0x05; 0x00] ;;
    read_buf buf ;;
    let domain := bytes "proxy.local" in
    write_all ([0x05; 0x00; 0x00; 0x03] ++ [zlen domain mod 256] ++ domain ++ [0; 0]) in
  r ← connect_to handler (socks5 (u "127.0.0.1") 1080) any_dest;
  connected r ;; mret tt.

Definition socks5_userpass_auth_success : outcome unit :=
  let handler :=
    '(_, buf) ← read_buf buf0;
    lift (b ← index buf 0; assert_eq b 0x05) ;;
    lift (b ← index buf 1; assert_eq b 0x02) ;;
    write_all [0x05; 0x02] ;;
    '(_, buf) ← read_buf buf;
    lift (b ← index buf 0; assert_eq b 0x01) ;;
    ulen ← lift (index buf 1);
    user ← lift (b ← slice buf 2 (2 + ulen); unwrap (from_utf8 b));
    plen ← lift (index buf (2 + ulen));
    pass ← lift (b ← slice buf (3 + ulen) (3 + ulen + plen); unwrap (from_utf8 b));
    lift (assert_eq user (u "alice")) ;;
    lift (assert_eq pass (u "s3cret")) ;;
    write_all [0x01; 0x00] ;;
    read_buf buf ;;
    write_all success_reply in
  let cfg := with_auth (socks5 (u "127.0.0.1") 1080) (u "alice") (u "s3cret") in
  r ← connect_to handler cfg any_dest;
  connected r ;; mret tt.

Definition socks5_auth_rejected : outcome unit :=
  let handler :=
    '(_, buf) ← read_buf buf0;
    write_all [0x05; 0x02] ;;
    read_buf buf ;;
    write_all [0x01; 0x01] in
  let cfg := with_auth (socks5 (u "127.0.0.1") 1080) (u "bad") (u "wrong") in
  r ← connect_to handler cfg any_dest;
  err ← connect_error r;
  assert (mentions err "authentication failed").

Definition socks5_connect_rejected : outcome unit :=
  let handler :=
    '(_, buf) ← read_buf buf0;
    write_all [0x05; 0x00] ;;
    read_buf buf ;;
    write_all ([0x05; 0x01; 0x00; 0x01] ++ [0; 0; 0; 0] ++ [0; 0]) in
  r ← connect_to handler (socks5 (u "127.0.0.1") 1080) any_dest;
  err ← connect_error r;
  assert (mentions err "rejected").

Definition socks5_bad_version_in_greeting : outcome unit :=
  let handler :=
    read_buf buf0 ;;
    write_all [0x04; 0x00] in
  r ← connect_to handler (socks5 (u "127.0.0.1") 1080) any_dest;
  err ← connect_error r;
  assert (mentions err "bad SOCKS5 version").

Definition socks5_no_acceptable_auth_method : outcome unit :=
  let handler :=
    read_buf buf0 ;;
    write_all [0x05; 0xFF] in
  r ← connect_to handler (socks5 (u "127.0.0.1") 1080) any_dest;
  err ← connect_error r;
  assert (mentions err "no acceptable").

Definition socks5_domain_connect_sends_hostname : outcome unit :=
  let handler :=
    '(_, buf) ← read_buf buf0;
    write_all [0x05; 0x00] ;;
    '(_, buf) ← read_buf buf;
    lift (b ← index buf 3; assert_eq b 0x03) ;;
    dlen ← lift (index buf 4);
    domain ← lift (b ← slice buf 5 (5 + dlen); unwrap (from_utf8 b));
    lift (assert_eq domain (u "example.com")) ;;
    port_be ← lift (a ← index buf (5 + dlen); b ← index buf (5 + dlen + 1); mret (be_val [a; b]));
    lift (assert_eq port_be 80) ;;
    write_all success_reply in
  r ← connect_to handler (socks5 (u "127.0.0.1") 1080) (Domain (u "example.com") 80);
  connected r ;; mret tt.

Definition integration_tests : list (outcome unit) :=
  [http_connect_success;
   http_connect_407_rejected;
   http_connect_malformed_status;
   http_connect_sends_basic_auth_header;
   http_connect_no_auth_when_creds_unset;
   http_connect_partial_read;
   socks5_no_auth_ipv4;
   socks5_no_auth_ipv6_reply;
   socks5_no_auth_domain_reply;
   socks5_userpass_auth_success;
   socks5_auth_rejected;
   socks5_connect_rejected;
   socks5_bad_version_in_greeting;
   socks5_no_acceptable_auth_method;
   socks5_domain_connect_sends_hostname].

End Integration.

(** ** The client hears the same, however the mock's bytes are cut *)

Lemma cut_blind_write_then {A} bs (k : io A) : quiet k → cut_blind (write_all bs ;; k).
Proof.
  intros Hk c c' Hs. destruct (chunking_free_write bs c c' Hs) as (Hr & Ho & _).
  unfold mbind, io_bind. destruct (write_all bs c) as [[[]|e| | |] c1], (write_all bs c') as [[[]|e'| | |] c1'];
    cbn [fst snd] in *; try done. by rewrite !Hk.
Qed.

Lemma http_cut_blind cfg dest : cut_blind (http_connect cfg dest).
Proof.
  apply cut_blind_write_then, quiet_bind; [apply read_head_quiet|]. intros buf.
  destruct (parse_http_status buf) as [st|]; [|auto with ace]. destruct (negb _); auto with ace.
Qed.

(** The reply of a mock that speaks HTTP: one head and nothing else. *)
Definition ends_blank (bs : list Z) : bool := match head_complete bs with Done true => true | _ => false end.
Definition one_head (bs : list Z) : bool :=
  ends_blank bs && (zlen bs <=? 512)
  && forallb (λ k, negb (ends_blank (take k bs))) (seq 0 (length bs)).

Lemma ends_blank_spec bs : ends_blank bs = true ↔ ∃ p, bs = p ++ blank_line.
Proof.
  unfold ends_blank. destruct (head_complete_spec bs) as (b & -> & Hb). rewrite <-Hb. by destruct b.
Qed.

Lemma http_any_cut cfg dest r :
  Forall (λ p, p ≠ []) (pieces r) → one_head (concat (pieces r)) = true →
  (http_connect cfg dest (end_on r)).1
  = match parse_http_status (concat (pieces r)) with
    | None => Failed (IoError InvalidData "invalid HTTP CONNECT response")
    | Some st => if negb (st =? 200)
                 then Failed (other_fmt (u "HTTP CONNECT failed with status " ++ dec st)) else Ready tt
    end.
Proof.
  intros Hne [[Hb Hl%Z.leb_le]%andb_true_iff Hno]%andb_true_iff. rewrite ends_blank_spec in Hb.
  unfold http_connect. set (req := build_http_connect_request _ _ _).
  unfold mbind, io_bind, write_all. cbn [write_results end_on List.tl].
  assert (∀ p, p ∈ pieces r → zlen p ≤ zlen (concat (pieces r))) as Hpiece.
  { intros p Hp. apply list_elem_of_split in Hp as (a & b & ->). rewrite concat_app. cbn [concat].
    rewrite !zlen_app. pose proof (zlen_nonneg (concat a)). pose proof (zlen_nonneg (concat b)). lia. }
  rewrite (read_head_chunks head_fuel [] (pieces r) (if closed r then [REof] else [])).
  - cbn [app]. destruct (parse_http_status _) as [st|]; [|done]. by destruct (negb _).
  - done.
  - destruct Hb as [p Hb]. intros E. rewrite E in Hb. by destruct p.
  - rewrite Forall_forall in Hne |- *. intros p Hp. specialize (Hpiece p Hp). split; [by apply Hne|lia].
  - cbn [app]. lia.
  - assert (zlen (pieces r) ≤ zlen (concat (pieces r))) as Hn.
    { clear -Hne. induction Hne as [|p ps Hp _ IH]; [done|]. cbn [concat]. autorewrite with zlen.
      assert (1 ≤ zlen p); [|lia]. destruct p; [done|]. autorewrite with zlen. pose proof (zlen_nonneg p). lia. }
    pose proof head_fuel_enough. unfold zlen in *. lia.
  - exact Hb.
  - intros pre post E _ Hpost Hex. cbn [app] in Hex. rewrite <-ends_blank_spec in Hex.
    assert (concat pre = take (length (concat pre)) (concat (pieces r))) as Etake.
    { by rewrite E, concat_app, take_app_length. }
    rewrite forallb_forall in Hno. specialize (Hno (length (concat pre))). rewrite <-Etake, Hex in Hno.
    discriminate Hno. apply in_seq. rewrite E, concat_app, length_app.
    destruct post as [|q post]; [done|]. cbn [concat]. rewrite length_app.
    rewrite E in Hne. apply Forall_app in Hne as [_ Hne]. apply Forall_cons in Hne as [Hq _].
    destruct q; [done|]. simpl. lia.
Qed.

(** What the tests look at: success, or the error. *)
Definition same_verdict (r r' : io_out conn) : Prop :=
  match r, r' with
  | Ready _, Ready _ => True
  | Failed e, Failed e' => e = e'
  | Ready _, _ | Failed _, _ | _, Ready _ | _, Failed _ => False
  | _, _ => True
  end.

Lemma verdict_of cfg dest c c' :
  (handshake cfg dest c).1 = (handshake cfg dest c').1 →
  same_verdict (connect_via_proxy (Connected c) cfg dest) (connect_via_proxy (Connected c') cfg dest).
Proof.
  unfold connect_via_proxy, connect_via_proxy_inner. intros E.
  destruct (handshake cfg dest c) as [[] ?], (handshake cfg dest c') as [[] ?]; cbn in E |- *; first [done | congruence].
Qed.

(** A conversation that, uncut, ends with the client having heard [r]. *)
Lemma connect_socks5 net handler cfg dest r :
  proxy_type cfg = Socks5 → hears 8 whole (handshake cfg dest) handler = Some r →
  agree same_verdict (connect_to net handler cfg dest) (connect_to whole handler cfg dest).
Proof.
  intros Hp Hr. unfold connect_to. rewrite Hr. unfold handshake in Hr. rewrite Hp in Hr.
  pose proof (socks5_chunking_irrelevant cfg dest) as Hfree.
  destruct (hears_cuts 8 net _ handler r (chunking_free_cut_blind _ Hfree) Hr) as (r' & Hr' & Hsame & _).
  unfold handshake at 1. rewrite Hp, Hr'. apply agree_ret, verdict_of. unfold handshake. rewrite Hp.
  by destruct (Hfree _ _ (same_bytes_view _ _ Hsame)) as (? & _).
Qed.

Lemma connect_http net handler cfg dest r :
  proxy_type cfg = Http → hears 8 whole (handshake cfg dest) handler = Some r →
  one_head (concat (pieces r)) = true →
  agree same_verdict (connect_to net handler cfg dest) (connect_to whole handler cfg dest).
Proof.
  intros Hp Hr Hone. unfold connect_to. rewrite Hr. unfold handshake in Hr. rewrite Hp in Hr.
  destruct (hears_cuts 8 net _ handler r (http_cut_blind cfg dest) Hr) as (r' & Hr' & [Hsame _] & Hne').
  destruct (hears_cuts 8 whole _ handler r (http_cut_blind cfg dest) Hr) as (r0 & Hr0 & _ & Hne).
  rewrite Hr in Hr0. injection Hr0 as <-.
  unfold handshake at 1. rewrite Hp, Hr'. apply agree_ret, verdict_of. unfold handshake. rewrite Hp.
  rewrite !http_any_cut by (try rewrite Hsame; done). by rewrite Hsame.
Qed.

(** What a test makes of the verdict does not depend on the rest. *)
Lemma agree_connected r r' : same_verdict r r' → agree eq (connected r ;; mret tt) (connected r' ;; mret tt).
Proof. by destruct r, r'. Qed.

Lemma agree_connect_error r r' : same_verdict r r' → agree eq (connect_error r) (connect_error r').
Proof. by destruct r, r'. Qed.

(** The address of the documentation prefix that the tests use. *)
Lemma ip6_doc :
  let a := 0x20010db8000000000000000000000001 in
  agree (λ x y, x = a ∧ y = a) (ip6 "2001:db8::1") (ip6 "2001:db8::1").
Proof. intros a. assert (ip6 "2001:db8::1" = Done a) as -> by (vm_compute; exact eq_refl). done. Qed.

Ltac mock_test :=
  cbv zeta;
  lazymatch goal with
  | |- agree _ (ip6 _ ≫= _) _ => eapply agree_bind; [apply ip6_doc|intros ? ? [-> ->]]
  | |- _ => idtac
  end;
  eapply agree_bind;
    [ lazymatch goal with
      | |- agree _ (connect_to _ _ ?cfg _) _ =>
        lazymatch eval vm_compute in (proxy_type cfg) with
        | Socks5 => eapply connect_socks5; [reflexivity|vm_compute; exact eq_refl]
        | Http => eapply connect_http; [reflexivity|vm_compute; exact eq_refl..]
        end
      end
    | intros ? ? ?;
      first [ by apply agree_connected
            | eapply agree_bind; [by apply agree_connect_error|intros ? ? <-; apply agree_refl] ] ].

(** the proxy's tests pass: the builders write the expected bytes, and the
    handshakes end as the tests expect against every mock, over every network,
    whatever the pieces the mock's bytes arrive in. *)
Theorem proxy_tests_pass net : Forall passes builder_tests ∧ Forall passes (integration_tests net).
Proof.
  split; [unfold builder_tests|unfold integration_tests];
    (repeat (apply Forall_cons_2; [|]); [..|by apply Forall_nil_2]).
  all: lazymatch goal with
  | |- passes (?f ?n) =>
    assert (f whole = Done tt) as Hw by (vm_compute; exact eq_refl);
    unfold passes; rewrite <-Hw; apply agree_eq; clear Hw; unfold f
  | |- _ => vm_compute; exact eq_refl
  end.
  all: mock_test.
Qed.
