(* ===== verification/Socks5Server.v ===== *)
(** * The SOCKS5 client and a server that follows the RFCs

    A reference server, written from RFC 1928 and RFC 1929: it selects a method,
    checks the credentials when it has any, reads one CONNECT request, asks [dial]
    for the reply code and answers with a bound address.  [Talk] runs it against
    the client of [proxy.rs]; the theorem says that the two always finish, over any
    network, and agree on the result. *)

From S2P Require Export Proxy Talk.
Local Open Scope Z_scope.

Section Server.
(** The account the server demands, the reply code for a destination, and the bytes
    of the bound address its replies carry. *)
Context (account : option (str * str)) (dial : Target → Z) (bnd : list Z).

Definition refuse {A} : io A := io_fail (IoError Other "refused").

(** RFC 1929. *)
Definition check_account (user pass : str) : io unit :=
  hdr ← read_exact 2;
  user' ← read_exact (byte_of hdr 1);
  plen ← read_exact 1;
  pass' ← read_exact (byte_of plen 0);
  if bool_decide (user' = as_bytes user) && bool_decide (pass' = as_bytes pass)
  then write_all [1; 0]
  else write_all [1; 1] ;; refuse.

(** RFC 1928, section 3. *)
Definition serve_auth (methods : list Z) : io unit :=
  match account with
  | None =>
    if bool_decide (0 ∈ methods) then write_all [5; 0]
    else write_all [5; 255] ;; refuse
  | Some (user, pass) =>
    if bool_decide (2 ∈ methods) then
      write_all [5; 2] ;;
      check_account user pass
    else write_all [5; 255] ;; refuse
  end.

(** RFC 1928, sections 4 to 6. *)
Definition read_request : io (list Z) :=
  hdr ← read_exact 4;
  rest ← (if byte_of hdr 3 =? 1 then read_exact (4 + 2)
          else if byte_of hdr 3 =? 4 then read_exact (16 + 2)
          else if byte_of hdr 3 =? 3 then
            n ← read_exact 1; name ← read_exact (byte_of n 0 + 2); mret (n ++ name)
          else refuse);
  mret (hdr ++ rest).

Definition serve_request : io Target :=
  req ← read_request;
  match decode_socks5_request req with
  | None => refuse
  | Some t =>
    write_all ([5; dial t; 0] ++ bnd) ;;
    if dial t =? 0 then mret t else refuse
  end.

Definition socks5_server : io Target :=
  hdr ← read_exact 2;
  methods ← read_exact (byte_of hdr 1);
  serve_auth methods ;;
  serve_request.

(** ** What the two ends agree on *)

(** The client's configuration satisfies the server's account. *)
Definition admits (cfg : ProxyConfig) : bool :=
  match account with
  | None => true
  | Some (user, pass) =>
    bool_decide (username cfg = Some user) && bool_decide (password cfg = Some pass)
    && (len user <=? 255) && (len pass <=? 255)
  end.

Definition encodable (dest : Target) : bool :=
  match build_socks5_connect_request dest with Ok _ => true | Err _ => false end.

Definition text_ok (o : option str) : Prop := match o with Some s => is_str s | None => True end.

Hypothesis account_text : text_ok (fst <$> account) ∧ text_ok (snd <$> account).
Hypothesis bound_ok : Forall is_byte bnd ∧ reply_rest ([5; 0; 0] ++ bnd) = Some [].
Hypothesis dial_byte : ∀ t, is_byte (dial t).

(** ** The server's side *)

Definition methods_of (use_auth : bool) : list Z := if use_auth then [0; 2] else [0].

Lemma server_after_greeting b s e r sent :
  yields (serve_auth (methods_of b) ;; serve_request) s e r sent →
  yields socks5_server (build_socks5_greeting b ++ s) e r sent.
Proof.
  intros Hk. unfold socks5_server.
  assert (build_socks5_greeting b = [5; zlen (methods_of b)] ++ methods_of b) as -> by (by destruct b).
  rewrite <-app_assoc. apply yields_read_app; [done|]. by apply yields_read_app.
Qed.

(** The part of a request after its first four bytes. *)
Definition request_tail (atyp : Z) : io (list Z) :=
  if atyp =? 1 then read_exact (4 + 2)
  else if atyp =? 4 then read_exact (16 + 2)
  else if atyp =? 3 then n ← read_exact 1; name ← read_exact (byte_of n 0 + 2); mret (n ++ name)
  else refuse.

Lemma request_tail_meets dest req s e :
  build_socks5_connect_request dest = Ok req →
  ∃ atyp rest, req = [5; 1; 0; atyp] ++ rest ∧ meets (request_tail atyp) (rest ++ s) e (Some (rest, [], s)).
Proof.
  intros Hreq. unfold build_socks5_connect_request in Hreq.
  destruct dest as [[a|a] p|h p]; cbn [mbind result_bind] in Hreq.
  - injection Hreq as <-. exists 1, (octets (V4 a) ++ be_bytes 2 p). split; [done|]. apply meets_read_app.
    autorewrite with zlen. cbn [octets]. by rewrite zlen_be_bytes.
  - injection Hreq as <-. exists 4, (octets (V6 a) ++ be_bytes 2 p). split; [done|]. apply meets_read_app.
    autorewrite with zlen. cbn [octets]. by rewrite zlen_be_bytes.
  - destruct (is_empty h || (255 <? len h)) eqn:El; [done|]. injection Hreq as <-.
    apply orb_false_iff in El as [_ El%Z.ltb_ge]. pose proof (len_nonneg h).
    exists 3, ([len h] ++ as_bytes h ++ be_bytes 2 p). rewrite as_u8_small by lia.
    split; [cbn [app]; by rewrite <-?app_assoc|].
    eapply meets_then; [rewrite <-app_assoc; by apply meets_read_app|].
    eapply meets_then; [apply meets_read_app; autorewrite with zlen; by rewrite zlen_as_bytes|apply meets_ret].
Qed.

Lemma read_request_meets dest req s e :
  build_socks5_connect_request dest = Ok req → meets read_request (req ++ s) e (Some (req, [], s)).
Proof.
  intros Hreq. destruct (request_tail_meets dest req s e Hreq) as (atyp & rest & -> & Hrest).
  rewrite <-app_assoc. eapply meets_then; [by apply meets_read_app|].
  eapply meets_then; [exact Hrest|apply meets_ret].
Qed.

Lemma serve_request_yields dest req :
  wf_target dest → build_socks5_connect_request dest = Ok req →
  ∃ r, yields serve_request req EndHang r ([5; dial dest; 0] ++ bnd)
    ∧ r = (if dial dest =? 0 then Ready dest else Failed (IoError Other "refused")).
Proof.
  intros Hwf Hreq. eexists. split; [|reflexivity].
  pose proof (socks5_request_roundtrip dest Hwf) as Hd. rewrite Hreq in Hd. destruct Hd as (Hd & _ & _).
  pose proof (read_request_meets dest req [] EndHang Hreq) as Hr. rewrite app_nil_r in Hr.
  rewrite <-(app_nil_l (_ ++ bnd)). eapply yields_bind; [exact Hr|].
  rewrite Hd. apply yields_write_last.
  destruct (dial dest =? 0); [apply yields_ret|apply yields_fail].
Qed.

(** Nothing of a request has arrived. *)
Lemma serve_request_waits : yields serve_request [] EndHang Hang [].
Proof.
  apply (yields_stop read_request _ _ _ Hang Hang); [|done].
  by apply (yields_short 4 _ [] EndHang).
Qed.

(** The authentication, for a server without an account and with one. *)
Lemma serve_open b s e r sent :
  account = None → yields serve_request s e r sent →
  yields (serve_auth (methods_of b) ;; serve_request) s e r ([5; 0] ++ sent).
Proof.
  intros Ha Hk. eapply yields_bind; [|exact Hk]. unfold serve_auth. rewrite Ha.
  rewrite bool_decide_true by (destruct b; left). apply meets_write.
Qed.

(** The bytes of the client's credentials. *)
Definition credentials (user pass : str) : list Z :=
  [1; len user] ++ as_bytes user ++ [len pass] ++ as_bytes pass.

Lemma check_waits user pass : yields (check_account user pass) [] EndHang Hang [].
Proof. by apply (yields_short 2 _ [] EndHang). Qed.

(** The credentials as read: the comparison of bytes is one of texts. *)
Lemma as_bytes_inj s t : is_str s → is_str t → as_bytes s = as_bytes t → s = t.
Proof. intros Hs Ht E%(f_equal from_utf8). rewrite !from_utf8_as_bytes in E by done. by injection E. Qed.

Lemma check_reads user pass user' pass' s e r sent :
  yields (if bool_decide (as_bytes user' = as_bytes user) && bool_decide (as_bytes pass' = as_bytes pass)
          then write_all [1; 0] else write_all [1; 1] ;; refuse) s e r sent →
  yields (check_account user pass) (credentials user' pass' ++ s) e r sent.
Proof.
  intros Hk. unfold credentials. rewrite <-!app_assoc. cbn [app].
  change (1 :: len user' :: ?x) with ([1; len user'] ++ x).
  apply yields_read_app; [done|]. apply yields_read_app; [by rewrite zlen_as_bytes|].
  change (len pass' :: ?x) with ([len pass'] ++ x).
  apply yields_read_app; [done|]. apply yields_read_app; [by rewrite zlen_as_bytes|exact Hk].
Qed.

Lemma check_meets user pass s e :
  meets (check_account user pass) (credentials user pass ++ s) e (Some (tt, [1; 0], s)).
Proof.
  unfold check_account, credentials. rewrite <-!app_assoc. cbn [app].
  change (1 :: len user :: ?x) with ([1; len user] ++ x).
  eapply meets_then; [by apply meets_read_app|].
  eapply meets_then; [apply meets_read_app; by rewrite zlen_as_bytes|].
  change (len pass :: ?x) with ([len pass] ++ x).
  eapply meets_then; [by apply meets_read_app|].
  eapply meets_then; [apply meets_read_app; by rewrite zlen_as_bytes|].
  rewrite !bool_decide_true by done. apply meets_write.
Qed.

(** The method selection of a server with an account. *)
Lemma serve_account user pass b s e r sent :
  account = Some (user, pass) → b = true → yields (check_account user pass ;; serve_request) s e r sent →
  yields (serve_auth (methods_of b) ;; serve_request) s e r ([5; 2] ++ sent).
Proof.
  intros Ha -> Hk c Hc. destruct (meets_write [5; 2] s e c Hc) as (c1 & E & Ho & Hc1).
  destruct (Hk c1 Hc1) as (c2 & E2 & Ho2). exists c2.
  split; [|by rewrite Ho2, Ho, <-app_assoc]. rewrite <-E2.
  unfold serve_auth. rewrite Ha. change (bool_decide (2 ∈ methods_of true)) with true. cbv iota.
  unfold mbind, io_bind. by rewrite E.
Qed.

Lemma serve_no_method user pass s e :
  account = Some (user, pass) →
  yields (serve_auth (methods_of false) ;; serve_request) s e (Failed (IoError Other "refused")) [5; 255].
Proof.
  intros Ha. eapply (yields_stop _ _ _ _ (Failed _)); [|done]. unfold serve_auth. rewrite Ha.
  change (bool_decide (2 ∈ methods_of false)) with false. apply yields_write_last, yields_fail.
Qed.

(** ** The client's side *)

Context (cfg : ProxyConfig) (dest : Target).
Hypothesis cfg_text : text_ok (username cfg) ∧ text_ok (password cfg).
Hypothesis dest_wf : wf_target dest.

Abbreviation greeting := (build_socks5_greeting (bool_decide (is_Some (username cfg)))).

Lemma client_waits : yields (socks5_connect cfg dest) [] EndHang Hang greeting.
Proof.
  rewrite socks5_connect_unfold. apply yields_write_last. by apply (yields_short 2 _ [] EndHang).
Qed.

Lemma client_method m s e r sent :
  yields (negotiate cfg dest m) s e r sent → yields (socks5_connect cfg dest) ([5; m] ++ s) e r (greeting ++ sent).
Proof. intros Hk. rewrite socks5_connect_unfold. apply yields_write, yields_read_app; done. Qed.

(** The request and its reply, once authenticated. *)
Definition request_and_reply : io unit :=
  req ← io_try (build_socks5_connect_request dest); write_all req ;; read_socks5_reply.

Lemma client_request req s e r :
  build_socks5_connect_request dest = Ok req → yields read_socks5_reply s e r [] →
  yields request_and_reply s e r req.
Proof.
  intros Hreq Hk. unfold request_and_reply. rewrite Hreq. by apply (yields_write_last req) in Hk.
Qed.

Lemma client_request_fails er s e :
  build_socks5_connect_request dest = Err er → yields request_and_reply s e (Failed er) [].
Proof. intros Hreq. unfold request_and_reply. rewrite Hreq. eapply yields_stop; [apply yields_fail|done]. Qed.

Lemma reply_waits : yields read_socks5_reply [] EndHang Hang [].
Proof. by apply (yields_short 4 _ [] EndHang). Qed.

Lemma bound_length : 1 ≤ zlen bnd.
Proof. destruct bound_ok as [_ Hb]. destruct bnd; [done|]. rewrite zlen_cons. pose proof (zlen_nonneg l). lia. Qed.

Lemma reply_read rep e :
  is_byte rep →
  ∃ r, yields read_socks5_reply ([5; rep; 0] ++ bnd) e r []
    ∧ if rep =? 0 then r = Ready tt else ∃ er, r = Failed er.
Proof.
  intros Hrep. destruct (Z.eqb_spec rep 0) as [->|Hne].
  - exists (Ready tt). split; [|done]. destruct bound_ok as [Hb Hr].
    pose proof (reply_meets ([5; 0; 0] ++ bnd) e) as Hm. rewrite Hr in Hm. eapply yields_meets, Hm.
    apply Forall_app. split; [concrete|done].
  - pose proof bound_length as Hl. destruct bnd as [|atyp rest]; [done|]. eexists. split; [|by eexists].
    change ([5; rep; 0] ++ atyp :: rest) with ([5; rep; 0; atyp] ++ rest).
    apply yields_read_app; [done|]. cbn [byte_of nth]. change (5 =? SOCKS5_VERSION) with true.
    rewrite (proj2 (Z.eqb_neq _ _) Hne). apply yields_fail.
Qed.

(** The authentication: none asked for, not possible, refused, passed. *)
Lemma client_open s e r sent : yields request_and_reply s e r sent → yields (negotiate cfg dest 0) s e r sent.
Proof. done. Qed.

Lemma client_stuck m :
  m ≠ 0 → (m = 2 → ∀ user pass msg, username cfg = Some user → password cfg = Some pass →
                   build_socks5_userpass user pass ≠ Ok msg) →
  ∃ er, ∀ s e, yields (negotiate cfg dest m) s e (Failed er) [].
Proof.
  intros Hm Hcred.
  assert (∃ er, ∀ s e, yields (authenticate cfg m) s e (Failed er) []) as [er Ha].
  { unfold authenticate. rewrite (proj2 (Z.eqb_neq m SOCKS5_AUTH_NONE)) by done.
    destruct (Z.eqb_spec m SOCKS5_AUTH_USERPASS) as [->|]; [|eexists; intros; apply yields_fail].
    destruct (username cfg) as [user|]; [|eexists; intros; apply yields_fail].
    destruct (password cfg) as [pass|]; [|eexists; intros; apply yields_fail].
    destruct (build_socks5_userpass user pass) as [msg|er] eqn:E; [by destruct (Hcred eq_refl user pass msg)|].
    exists er. intros s e. apply (yields_stop _ _ _ _ (Failed er)); [apply yields_fail|done]. }
  exists er. intros s e. by apply (yields_stop _ _ _ _ (Failed er)).
Qed.

Section Credentials.
Context (user pass : str).
Hypothesis cfg_user : username cfg = Some user.
Hypothesis cfg_pass : password cfg = Some pass.
Hypothesis fits : len user ≤ 255 ∧ len pass ≤ 255.

Lemma userpass_built : build_socks5_userpass user pass = Ok (credentials user pass).
Proof.
  unfold build_socks5_userpass, credentials. destruct fits. pose proof (len_nonneg user). pose proof (len_nonneg pass).
  bool_lit. cbn [orb]. by rewrite !as_u8_small by lia.
Qed.

Lemma authenticate_yields s e r :
  yields (ok ← read_exact 2;
    if negb (byte_of ok 1 =? 0x00) then io_fail (other "SOCKS5 authentication failed") else mret tt) s e r [] →
  yields (authenticate cfg 2) s e r (credentials user pass).
Proof.
  intros Hk. unfold authenticate. change (2 =? SOCKS5_AUTH_NONE) with false.
  change (2 =? SOCKS5_AUTH_USERPASS) with true. cbv iota. rewrite cfg_user, cfg_pass, userpass_built.
  by apply (yields_write_last (credentials user pass)) in Hk.
Qed.

Lemma client_auth_waits : yields (negotiate cfg dest 2) [] EndHang Hang (credentials user pass).
Proof.
  apply (yields_stop _ _ _ _ Hang); [|done]. by apply authenticate_yields, (yields_short 2 _ [] EndHang).
Qed.

Lemma client_auth_refused e : ∃ er, yields (negotiate cfg dest 2) [1; 1] e (Failed er) (credentials user pass).
Proof.
  eexists. apply (yields_stop _ _ _ _ (Failed (other "SOCKS5 authentication failed"))); [|done].
  apply authenticate_yields. apply (yields_read_app _ 2 [1; 1] []); [done|apply yields_fail].
Qed.

Lemma client_auth_passed s e r sent :
  yields request_and_reply s e r sent →
  yields (negotiate cfg dest 2) ([1; 0] ++ s) e r (credentials user pass ++ sent).
Proof.
  intros Hk. eapply yields_bind; [|exact Hk]. pose proof (auth_meets cfg 2 ([1; 0] ++ s) e) as Hm.
  unfold auth_rest in Hm. rewrite cfg_user, cfg_pass in Hm. cbn [mbind option_bind] in Hm.
  rewrite userpass_built in Hm. exact Hm.
Qed.

End Credentials.

(** ** The conversation *)

Context (net : network).
Let client := socks5_connect cfg dest.

(** What the ends make of the conversation: both have the destination, or the client
    fails and the server has served nothing. *)
Definition concluded (granted : bool) (up : list (list Z)) (heard : received) : Prop :=
  if granted
  then (client (end_on heard)).1 = Ready tt ∧ (socks5_server (end_on (MkReceived up false))).1 = Ready dest
  else (∃ e, (client (end_on heard)).1 = Failed e)
       ∧ ∀ t, (socks5_server (end_on (MkReceived up false))).1 ≠ Ready t.

(** A turn at which the client gives up. *)
Lemma client_gives_up n up down er cs ss :
  (∀ e, yields client (concat down) e (Failed er) cs) → cs = concat up →
  yields socks5_server cs EndHang Hang ss → ss = concat down →
  ∃ up' heard, settle (S n) net client socks5_server up down = Some (up', heard) ∧ concluded false up' heard.
Proof.
  intros Hclient -> Hserver ->.
  erewrite (settle_turn n net client socks5_server up down (Failed er) (concat up) Hang (concat down) [] []);
    [|by rewrite ?app_nil_r; auto..].
  eexists _, _. split; [reflexivity|]. split.
  - exists er. eapply yields_outcome; [apply Hclient| |done].
    cbn [pieces]. by rewrite concat_app, cut_concat, app_nil_r.
  - intros t. erewrite yields_outcome; [|exact Hserver| |done]; [done|].
    cbn [pieces]. by rewrite concat_app, concat_piece, app_nil_r.
Qed.

(** The last turn, whatever preceded it: [pre_c] and [pre_s] are what the client and
    the server have sent so far. *)
Section Last.
Context (pre_c pre_s : list Z) (up down : list (list Z)) (n : nat).
Hypothesis client_goes_on : ∀ s e r sent,
  yields request_and_reply s e r sent → yields client (pre_s ++ s) e r (pre_c ++ sent).
Hypothesis server_goes_on : ∀ s r sent,
  yields serve_request s EndHang r sent → yields socks5_server (pre_c ++ s) EndHang r (pre_s ++ sent).
Hypothesis sent_up : concat up = pre_c.
Hypothesis sent_down : concat down = pre_s.

Lemma request_sent req :
  build_socks5_connect_request dest = Ok req →
  ∃ up' heard, settle (S n) net client socks5_server up down = Some (up', heard)
    ∧ concluded (dial dest =? 0) up' heard.
Proof.
  intros Hreq. destruct (serve_request_yields dest req dest_wf Hreq) as (rs & Hrs & Ers).
  destruct (reply_read (dial dest) EndEof (dial_byte dest)) as (rc & Hrc & Erc).
  pose proof (server_goes_on _ _ _ Hrs) as Hserver.
  erewrite (settle_turn n net client socks5_server up down Hang (pre_c ++ req) rs); cycle 1.
  { rewrite sent_down, <-(app_nil_r pre_s). apply client_goes_on, client_request; [done|apply reply_waits]. }
  { by rewrite sent_up. }
  { exact Hserver. }
  { by rewrite sent_down. }
  assert (ended rs = true) as -> by (rewrite Ers; by destruct (dial dest =? 0)).
  eexists _, _. split; [reflexivity|]. unfold concluded.
  erewrite (yields_outcome client); [|apply client_goes_on, client_request; [done|exact Hrc]| |done].
  2: { cbn [pieces]. by rewrite concat_app, cut_concat, sent_down. }
  erewrite (yields_outcome socks5_server); [|exact Hserver| |done].
  2: { cbn [pieces]. by rewrite concat_app, concat_piece, sent_up. }
  rewrite Ers. destruct (dial dest =? 0); [by rewrite Erc|].
  destruct Erc as [er ->]. split; [by eexists|done].
Qed.

Lemma request_not_sent er :
  build_socks5_connect_request dest = Err er →
  ∃ up' heard, settle (S n) net client socks5_server up down = Some (up', heard)
    ∧ concluded false up' heard.
Proof.
  intros Hreq.
  assert (∀ e, yields client pre_s e (Failed er) pre_c) as Hclient.
  { intros e. rewrite <-(app_nil_r pre_s), <-(app_nil_r pre_c). by apply client_goes_on, client_request_fails. }
  assert (yields socks5_server pre_c EndHang Hang pre_s) as Hserver.
  { rewrite <-(app_nil_r pre_s), <-(app_nil_r pre_c). apply server_goes_on, serve_request_waits. }
  eapply client_gives_up; [by rewrite sent_down|done|exact Hserver|done].
Qed.

Lemma request_turn :
  ∃ up' heard, settle (S n) net client socks5_server up down = Some (up', heard)
    ∧ concluded (encodable dest && (dial dest =? 0)) up' heard.
Proof.
  unfold encodable. destruct (build_socks5_connect_request dest) as [req|er] eqn:Hreq;
    [by apply (request_sent req)|by apply (request_not_sent er)].
Qed.

End Last.

(** A turn after which the server has given up. *)
Lemma server_gives_up n up down cs new er es reply ec :
  yields client (concat down) EndHang Hang cs → cs = concat up ++ new →
  yields socks5_server cs EndHang (Failed er) es → es = concat down ++ reply →
  (∃ sent, yields client es EndEof (Failed ec) sent) →
  ∃ up' heard, settle (S n) net client socks5_server up down = Some (up', heard) ∧ concluded false up' heard.
Proof.
  intros Hclient Hcs Hserver Hes [sent Hfinal].
  erewrite (settle_turn n net client socks5_server up down Hang cs (Failed er) es new reply) by done.
  eexists _, _. split; [reflexivity|]. split.
  - exists ec. eapply yields_outcome; [apply Hfinal| |done]. cbn [pieces]. by rewrite concat_app, cut_concat.
  - intros t. erewrite yields_outcome; [|exact Hserver| |done]; [done|].
    cbn [pieces]. by rewrite concat_app, concat_piece.
Qed.

(** The first turn: the greeting, and the method the server selects. *)
Lemma first_turn n b m :
  b = bool_decide (is_Some (username cfg)) →
  yields socks5_server (build_socks5_greeting b) EndHang Hang [5; m] →
  settle (S n) net client socks5_server [] [] =
    settle n net client socks5_server (piece (build_socks5_greeting b)) (cut net [5; m]).
Proof.
  intros -> Hs. by rewrite (settle_turn n net client socks5_server [] [] Hang greeting Hang [5; m] greeting [5; m])
    by (done || apply client_waits).
Qed.

(** A server without an account. *)
Lemma agreement_open :
  account = None →
  ∃ up heard, settle 4 net client socks5_server [] [] = Some (up, heard)
    ∧ concluded (encodable dest && (dial dest =? 0)) up heard.
Proof.
  intros Ha.
  assert (∀ s r sent, yields serve_request s EndHang r sent →
    yields socks5_server (greeting ++ s) EndHang r ([5; 0] ++ sent)) as Hgo.
  { intros s r sent Hr. by apply server_after_greeting, serve_open. }
  rewrite (first_turn 3 _ 0 eq_refl).
  - apply (request_turn greeting [5; 0]); [|exact Hgo|apply concat_piece|apply cut_concat].
    intros s e r sent Hr. by apply client_method, client_open.
  - rewrite <-(app_nil_r greeting), <-(app_nil_r [5; 0]). apply Hgo, serve_request_waits.
Qed.

(** A server with one: a client that offers no method for it, one that cannot send
    what it has, one whose credentials are others, and the right one. *)
Section Account.
Context (user pass : str).
Hypothesis has_account : account = Some (user, pass).

Lemma agreement_no_method :
  username cfg = None →
  ∃ up heard, settle 4 net client socks5_server [] [] = Some (up, heard) ∧ concluded false up heard.
Proof.
  intros Hu. destruct (client_stuck 255) as [ec Hec]; [done|done|].
  eapply (server_gives_up 3 [] [] greeting greeting); [apply client_waits|done| |done|].
  - rewrite Hu. rewrite <-(app_nil_r (build_socks5_greeting _)). apply server_after_greeting.
    by apply (serve_no_method user pass).
  - eexists. apply (client_method 255 []), Hec.
Qed.

Hypothesis has_username : is_Some (username cfg).

Lemma server_asks s r sent :
  yields (check_account user pass ;; serve_request) s EndHang r sent →
  yields socks5_server (greeting ++ s) EndHang r ([5; 2] ++ sent).
Proof.
  intros Hr. apply server_after_greeting, (serve_account user pass); [done| |done].
  by apply bool_decide_eq_true.
Qed.

Lemma asks_and_waits : yields socks5_server greeting EndHang Hang [5; 2].
Proof.
  rewrite <-(app_nil_r greeting), <-(app_nil_r [5; 2]). apply server_asks.
  apply (yields_stop _ _ _ _ Hang); [apply check_waits|done].
Qed.

Lemma agreement_unable :
  (∀ user pass msg, username cfg = Some user → password cfg = Some pass →
     build_socks5_userpass user pass ≠ Ok msg) →
  ∃ up heard, settle 4 net client socks5_server [] [] = Some (up, heard) ∧ concluded false up heard.
Proof.
  intros Hno. rewrite (first_turn 3 _ 2 eq_refl asks_and_waits).
  destruct (client_stuck 2) as [er Her]; [done|by intros _|].
  eapply (client_gives_up 2 _ _ er greeting [5; 2]).
  - intros e. rewrite cut_concat. rewrite <-(app_nil_r greeting). apply (client_method 2 []), Her.
  - by rewrite concat_piece.
  - apply asks_and_waits.
  - by rewrite cut_concat.
Qed.

Lemma agreement_checked user' pass' :
  username cfg = Some user' → password cfg = Some pass' → len user' ≤ 255 → len pass' ≤ 255 →
  ∃ up heard, settle 4 net client socks5_server [] [] = Some (up, heard)
    ∧ concluded (bool_decide (user' = user) && bool_decide (pass' = pass) && encodable dest && (dial dest =? 0))
        up heard.
Proof.
  intros Hu Hp Hlu Hlp. rewrite (first_turn 3 _ 2 eq_refl asks_and_waits).
  assert (len user' ≤ 255 ∧ len pass' ≤ 255) as Hfits by done.
  pose proof (client_auth_waits user' pass' Hu Hp Hfits) as Hwait.
  apply (client_method 2 []) in Hwait.
  destruct (decide (user' = user ∧ pass' = pass)) as [[-> ->]|Hne].
  - rewrite (bool_decide_true (user = user)), (bool_decide_true (pass = pass)) by done. cbn [andb].
    assert (∀ s r sent, yields serve_request s EndHang r sent →
      yields socks5_server ((greeting ++ credentials user pass) ++ s) EndHang r (([5; 2] ++ [1; 0]) ++ sent)) as Hgo.
    { intros s r sent Hr. rewrite <-!app_assoc. apply server_asks.
      eapply yields_bind; [apply check_meets|exact Hr]. }
    erewrite (settle_turn 2 net client socks5_server _ _ Hang (greeting ++ credentials user pass) Hang
      ([5; 2] ++ [1; 0]) (credentials user pass) [1; 0]); cycle 1.
    { rewrite cut_concat. exact Hwait. }
    { by rewrite concat_piece. }
    { rewrite <-(app_nil_r (greeting ++ _)), <-(app_nil_r ([5; 2] ++ _)). apply Hgo, serve_request_waits. }
    { by rewrite cut_concat. }
    apply (request_turn (greeting ++ credentials user pass) ([5; 2] ++ [1; 0])); [|exact Hgo|..].
    + intros s e r sent Hr. rewrite <-!app_assoc. by apply client_method, client_auth_passed.
    + by rewrite concat_app, !concat_piece.
    + by rewrite concat_app, !cut_concat.
  - assert (bool_decide (user' = user) && bool_decide (pass' = pass) = false) as ->.
    { apply not_true_is_false. rewrite andb_true_iff, !bool_decide_eq_true. done. }
    destruct (client_auth_refused user' pass' Hu Hp Hfits EndEof) as [ec Hec].
    eapply (server_gives_up 2 _ _ (greeting ++ credentials user' pass') (credentials user' pass')
      _ _ [1; 1] ec); [by rewrite cut_concat|by rewrite concat_piece| |by rewrite cut_concat|].
    + apply server_asks. apply (yields_stop _ _ _ _ (Failed (IoError Other "refused"))); [|done].
      rewrite <-(app_nil_r (credentials _ _)). apply check_reads.
      assert (bool_decide (as_bytes user' = as_bytes user) && bool_decide (as_bytes pass' = as_bytes pass) = false) as ->.
      { apply not_true_is_false. rewrite andb_true_iff, !bool_decide_eq_true. intros [E1 E2]. apply Hne.
        destruct account_text as [T1 T2], cfg_text as [T3 T4]. rewrite has_account in T1, T2. rewrite Hu in T3. rewrite Hp in T4.
        split; by apply as_bytes_inj. }
      apply yields_write_last, yields_fail.
    + eexists. apply (client_method 2 [1; 1]), Hec.
Qed.

End Account.

(** C9: the SOCKS5 client agrees with a server that follows RFC 1928 and RFC 1929.
    Whatever the account the server demands, the reply it gives to a destination and
    the bound address in it, and over every network: the conversation ends within
    four turns, neither side left waiting for the other with the client undecided.
    The tunnel opens exactly when the client's credentials are the account's and can
    be sent, the destination can be encoded and the server's reply grants it, and
    the server has then read the very destination the client asked for.  Otherwise
    the client fails, and the server has granted nothing. *)
Theorem socks5_agreement :
  ∃ up heard, settle 4 net client socks5_server [] [] = Some (up, heard)
    ∧ concluded (admits cfg && encodable dest && (dial dest =? 0)) up heard.
Proof.
  assert (account = None ∨ ∃ user pass, account = Some (user, pass)) as [Ha|(user & pass & Ha)]
    by (destruct account as [[]|]; eauto); unfold admits; rewrite Ha; [by apply agreement_open|].
  assert (username cfg = None ∨ ∃ user', username cfg = Some user') as [Hu|[user' Hu]]
    by (destruct (username cfg); eauto); rewrite Hu.
  { rewrite bool_decide_false by done. by apply (agreement_no_method user pass). }
  assert (is_Some (username cfg)) as His by (rewrite Hu; by eexists).
  assert (password cfg = None ∨ ∃ pass', password cfg = Some pass') as [Hp|[pass' Hp]]
    by (destruct (password cfg); eauto); rewrite Hp.
  { rewrite (bool_decide_false (None = Some pass)) by done. rewrite andb_false_r.
    apply (agreement_unable user pass); [done..|]. intros ? ? ? _ Hp'. by rewrite Hp in Hp'. }
  destruct (decide (len user' ≤ 255 ∧ len pass' ≤ 255)) as [[Hlu Hlp]|Hlong].
  - pose proof (agreement_checked user pass Ha His user' pass' Hu Hp Hlu Hlp) as (up & heard & Hs & Hc).
    exists up, heard. split; [done|].
    replace (bool_decide (Some user' = Some user) && _ && _ && _) with
      (bool_decide (user' = user) && bool_decide (pass' = pass)); [done|].
    assert (∀ a b : str, bool_decide (Some a = Some b) = bool_decide (a = b)) as Hsome.
    { intros a b. apply bool_decide_ext. split; [by intros [= ->]|by intros ->]. }
    rewrite !Hsome. destruct (decide (user' = user)) as [->|]; [|by rewrite !(bool_decide_false (user' = user))].
    destruct (decide (pass' = pass)) as [->|]; [|by rewrite !(bool_decide_false (pass' = pass)), ?andb_false_r].
    rewrite (proj2 (Z.leb_le _ _) Hlu), (proj2 (Z.leb_le _ _) Hlp). by rewrite !andb_true_r.
  - assert (bool_decide (Some user' = Some user) && bool_decide (Some pass' = Some pass)
      && (len user <=? 255) && (len pass <=? 255) = false) as ->.
    { apply not_true_is_false. rewrite !andb_true_iff, !bool_decide_eq_true, !Z.leb_le.
      intros [[[[= ->] [= ->]] ?] ?]. by apply Hlong. }
    apply (agreement_unable user pass); [done..|]. intros u0 p0 msg. rewrite Hu, Hp. intros [= <-] [= <-].
    unfold build_socks5_userpass. destruct (Z.ltb_spec 255 (len user')); [done|].
    destruct (Z.ltb_spec 255 (len pass')); [done|]. intros _. by apply Hlong.
Qed.

End Server.

(** ** A concrete conversation *)

Module ServerDemo.
Definition account : option (str * str) := Some (u "alice", u "s3cret").
(** Port 25 is refused with "connection not allowed". *)
Definition dial (t : Target) : Z := if target_port t =? 25 then 2 else 0.
Definition bnd : list Z := [3; 2; 104; 105; 0; 80].
Definition cfg : ProxyConfig := with_auth (socks5 (u "127.0.0.1") 1080) (u "alice") (u "s3cret").
Definition site (port : Z) : Target := Domain (u "example.com") port.
End ServerDemo.

Lemma dial_is_byte t : is_byte (ServerDemo.dial t).
Proof. unfold ServerDemo.dial, is_byte. destruct (_ =? _); lia. Qed.

Lemma socks5_agreement_witness :
  (∃ up heard,
     settle 4 whole (socks5_connect ServerDemo.cfg (ServerDemo.site 443))
       (socks5_server ServerDemo.account ServerDemo.dial ServerDemo.bnd) [] [] = Some (up, heard)
     ∧ (socks5_connect ServerDemo.cfg (ServerDemo.site 443) (end_on heard)).1 = Ready tt)
  ∧ (∃ up heard,
     settle 4 whole (socks5_connect ServerDemo.cfg (ServerDemo.site 25))
       (socks5_server ServerDemo.account ServerDemo.dial ServerDemo.bnd) [] [] = Some (up, heard)
     ∧ ∃ e, (socks5_connect ServerDemo.cfg (ServerDemo.site 25) (end_on heard)).1 = Failed e).
Proof.
  split.
  - destruct (socks5_agreement ServerDemo.account ServerDemo.dial ServerDemo.bnd ltac:(split; concrete)
      ltac:(split; concrete) dial_is_byte ServerDemo.cfg (ServerDemo.site 443) ltac:(split; concrete)
      ltac:(split; concrete) whole) as (up & heard & Hs & Hc & _). exact (ex_intro _ up (ex_intro _ heard (conj Hs Hc))).
  - destruct (socks5_agreement ServerDemo.account ServerDemo.dial ServerDemo.bnd ltac:(split; concrete)
      ltac:(split; concrete) dial_is_byte ServerDemo.cfg (ServerDemo.site 25) ltac:(split; concrete)
      ltac:(split; concrete) whole) as (up & heard & Hs & Hc & _). exact (ex_intro _ up (ex_intro _ heard (conj Hs Hc))).
Defined.
