(* ===== verification/SystemTests.v ===== *)
(** * The unit tests of [lib.rs] and of the platform modules

    The tests of [lib.rs], [dial.rs], [platform/mod.rs] and of the modules of the
    three systems, as [UnitTest] says, one Module per source file, with the
    fixtures they share.  What a test takes from the machine it runs on is a
    parameter: the runner's process id, the regular-expression implementation,
    the answers of the socket calls, the interface names, the macOS kernel.  The
    tests that probe the live machine (its own sockets and process name, the
    elevation of the runner, the loading of the driver) are left out. *)

From S2P Require Export UnitTest Engine.
From S2P Require Pin MacosNetcfg MacosProcess MacosRoute WindowsNetcfg WindowsProcess LinuxProcess Adapter.
Local Open Scope Z_scope.

(** ** [lib.rs] *)

Module EngineTests.
Section Tests.
Context `{RegexEngine} (pid : Z).

(** [TunRedirect::builder(addr).unwrap()], and [.build().unwrap()]. *)
Definition new_builder (addr : string) : outcome TunRedirectBuilder := unwrap_ok (builder (u addr)).
Definition build (b : TunRedirectBuilder) : outcome Shared := r ← build_shared pid b; unwrap_ok r.

Definition builder_rejects_a_malformed_address : outcome unit :=
  match builder (u "not-an-address") with
  | Err (InvalidAddress _ _) => mret tt
  | _ => Panic
  end.

Definition builder_synthesizes_a_proxy_config_from_the_listen_address : outcome unit :=
  b ← new_builder "127.0.0.1:8080"; redirect ← build b;
  cfg ← unwrap (find_proxy_config redirect 1);
  assert_eq (host cfg) (u "127.0.0.1") ;;
  assert_eq (port cfg) 8080 ;;
  assert_eq (config_id cfg) 1.

Definition registered_proxy_configs_get_stable_ids : outcome unit :=
  b ← new_builder "127.0.0.1:1";
  redirect ← build (add_proxy_config (socks5 (u "127.0.0.1") 1080)
                      (add_proxy_config (http (u "127.0.0.1") 8080) b));
  c ← unwrap (find_proxy_config redirect 1); assert_eq (port c) 8080 ;;
  c ← unwrap (find_proxy_config redirect 2); assert_eq (port c) 1080.

Definition a_zero_port_proxy_config_is_rejected : outcome unit :=
  b ← new_builder "127.0.0.1:1";
  built ← build_shared pid (add_proxy_config (http (u "127.0.0.1") 0) b);
  match built with Err (Config.Config _) => mret tt | _ => Panic end.

Definition quic_is_dropped_by_default : outcome unit :=
  b ← new_builder "127.0.0.1:1"; redirect ← build b;
  assert_eq (quic_policy redirect) QuicDrop ;;
  assert_eq (quic_port redirect) 443.

(** The engine's [ipv6] is the builder's. *)
Definition ipv6_is_enabled_by_default : outcome unit :=
  b ← new_builder "127.0.0.1:1"; build b ;;
  assert (b_ipv6 b).

Definition tcp_timeout_policy_does_not_fall_back_to_ipstack_default : outcome unit :=
  assert_eq (tcp_timeout_secs ipstack_config) TCP_SESSION_TIMEOUT_SECS ;;
  assert (60 <? tcp_timeout_secs ipstack_config).

Definition a_fresh_engine_is_not_running : outcome unit :=
  b ← new_builder "127.0.0.1:1"; redirect ← build b;
  assert (negb (is_running engine_new)) ;;
  assert_eq (snapshot redirect) stats_default.

Definition stopping_an_idle_engine_reports_not_running : outcome unit :=
  b ← new_builder "127.0.0.1:1"; build b ;;
  match (stop_begin engine_new).1 with Err NotRunning => mret tt | _ => Panic end.

(** Dropping leaves the engine as it was, but for being gone. *)
Definition dropping_an_unstarted_engine_is_a_no_op : outcome unit :=
  b ← new_builder "127.0.0.1:1"; build b ;;
  match step LDrop engine_new with
  | Some e => assert_eq (length (sessions e)) 0%nat ;; assert_eq (length (logs e)) 0%nat
  | None => Panic
  end.

Definition engine_tests : list (outcome unit) :=
  [builder_rejects_a_malformed_address;
   builder_synthesizes_a_proxy_config_from_the_listen_address;
   registered_proxy_configs_get_stable_ids;
   a_zero_port_proxy_config_is_rejected;
   quic_is_dropped_by_default;
   ipv6_is_enabled_by_default;
   tcp_timeout_policy_does_not_fall_back_to_ipstack_default;
   a_fresh_engine_is_not_running;
   stopping_an_idle_engine_reports_not_running;
   dropping_an_unstarted_engine_is_a_no_op].
End Tests.
End EngineTests.

(** ** [dial.rs]

    Over the answers the system gives the calls: [listening] accepts the
    connection. *)

Module DialTests.
Definition unpinned_dial_still_connects (listening : dial_os) (listener_port : Z) : outcome unit :=
  let addr := SockAddr (V4 (ipv4 127 0 0 1)) listener_port in
  let iface := default_interface in
  assert (interface_is_empty iface) ;;
  match dial_tcp listening addr iface with
  | (ops, Ready _) => assert_eq (last ops) (Some (OpConnect addr))
  | _ => Panic
  end.

Definition bogus_interface_index_does_not_panic (os : dial_os) : outcome unit :=
  let iface := MkPhysicalInterface (Some 0xDEAD) None in
  dest ← sock "127.0.0.1:9";
  let '(_, _) := dial_tcp os dest iface in mret tt.
End DialTests.

(** ** [platform/mod.rs] *)

Module PlatformTests.
(** [Ipv4Addr::is_private], [is_link_local] *)
Definition is_private (a : Z) : bool :=
  in_prefix (ipv4 10 0 0 0) 8 (V4 a) || in_prefix (ipv4 172 16 0 0) 12 (V4 a)
  || in_prefix (ipv4 192 168 0 0) 16 (V4 a).
Definition is_link_local (a : Z) : bool := in_prefix (ipv4 169 254 0 0) 16 (V4 a).

(** [ip.octets()[0]] *)
Definition first_octet (ip : IpAddr) : outcome Z := unwrap (head (octets ip)).

Definition tunnel_addresses_are_routable_private_space : outcome unit :=
  assert (is_private TUN_IPV4) ;;
  assert (negb (is_loopback (V4 TUN_IPV4))) ;;
  assert (negb (is_link_local TUN_IPV4)) ;;
  b ← first_octet (V6 TUN_IPV6); assert_eq b 0xfd.

Definition mtu_is_within_ipstack_limits : outcome unit := assert (1280 <=? TUN_MTU).

(** [let [(a, alen), (b, blen)] = ...] *)
Definition covers_whole_space (family : Z → IpAddr) (split : list (Z * Z)) : outcome unit :=
  match split with
  | [(a, alen); (b, blen)] =>
    assert_eq (alen, blen) (1, 1) ;;
    x ← first_octet (family a); assert_eq (Z.shiftr x 7) 0 ;;
    y ← first_octet (family b); assert_eq (Z.shiftr y 7) 1
  | _ => Panic
  end.
Definition split_default_covers_whole_v4_space : outcome unit := covers_whole_space V4 V4_SPLIT_DEFAULT.
Definition split_default_covers_whole_v6_space : outcome unit := covers_whole_space V6 V6_SPLIT_DEFAULT.

(** On a macOS host, in any state. *)
Definition discover_physical_interface_is_infallible {K} `{MacosRoute.BsdKernel K} (k : K) : outcome unit :=
  let iface := (MacosRoute.discover_physical_interface k).1 in
  match v4_index iface with Some idx => assert_ne idx 0 | None => mret tt end.

Definition platform_tests : list (outcome unit) :=
  [tunnel_addresses_are_routable_private_space;
   mtu_is_within_ipstack_limits;
   split_default_covers_whole_v4_space;
   split_default_covers_whole_v6_space].
End PlatformTests.

(** ** [platform/*/dial.rs] *)

Module PinTests.
(** What [if_indextoname] says of an index nothing has. *)
Definition ENXIO : io_error := IoError Other "No such device or address (os error 6)".

(** The pin is asked of a file descriptor that is not open, [bad_fd] being what
    [setsockopt] answers then. *)
Section Unix.
Context (if_indextoname : Z → result io_error (list Z)) (bad_fd : option io_error).

Definition linux_loopback_destinations_are_not_pinned : outcome unit :=
  unwrap_ok (Pin.LinuxPin.pin_socket if_indextoname bad_fd 0xDEAD (V4 (ipv4 127 0 0 1))).2 ;;
  unwrap_ok (Pin.LinuxPin.pin_socket if_indextoname bad_fd 0xDEAD (V6 1)).2.

Definition bogus_interface_index_is_an_error : outcome unit :=
  err ← unwrap_err (Pin.LinuxPin.pin_socket if_indextoname bad_fd 0xDEAD (V4 (ipv4 8 8 8 8))).2;
  assert_eq err ENXIO.

Definition macos_loopback_destinations_are_not_pinned : outcome unit :=
  unwrap_ok (Pin.MacosPin.pin_socket bad_fd 0xDEAD (V4 (ipv4 127 0 0 1))).2 ;;
  unwrap_ok (Pin.MacosPin.pin_socket bad_fd 0xDEAD (V6 1)).2.
End Unix.

Definition v4_unicast_if_is_network_order : outcome unit :=
  assert_eq (Pin.WindowsPin.unicast_if_value 7 false) (Pin.WindowsPin.to_be 7) ;;
  assert_eq (Pin.WindowsPin.unicast_if_value 7 false) 0x07000000.
Definition v6_unicast_if_is_host_order : outcome unit :=
  assert_eq (Pin.WindowsPin.unicast_if_value 7 true) 7.
Definition v4_and_v6_encodings_differ : outcome unit :=
  assert_ne (Pin.WindowsPin.unicast_if_value 12 false) (Pin.WindowsPin.unicast_if_value 12 true).

Definition windows_pin_tests : list (outcome unit) :=
  [v4_unicast_if_is_network_order; v6_unicast_if_is_host_order; v4_and_v6_encodings_differ].
End PinTests.

(** ** [platform/macos/netcfg.rs] *)

Module MacosNetcfgTests.
Import MacosNetcfg.
Local Open Scope Z_scope.

Definition ioctl_numbers_match_header_encodings : outcome unit :=
  assert_eq SIOCAIFADDR 0x4040691a ;;
  assert_eq SIOCAIFADDR_IN6 0x4080691a ;;
  assert_eq SIOCSIFMTU 0x40206934 ;;
  assert_eq SIOCGIFFLAGS 0xc0206911 ;;
  assert_eq SIOCSIFFLAGS 0x40206910.

Definition v4_netmasks : outcome unit :=
  m ← netmask_v4 0; assert_eq m 0 ;;
  m ← netmask_v4 1; assert_eq m (ipv4 128 0 0 0) ;;
  m ← netmask_v4 24; assert_eq m (ipv4 255 255 255 0) ;;
  m ← netmask_v4 32; assert_eq m (ipv4 255 255 255 255).

Definition v6_netmasks : outcome unit :=
  m ← netmask_v6 0; assert_eq m 0 ;;
  m ← netmask_v6 1; assert_eq m (of_segments [0x8000; 0; 0; 0; 0; 0; 0; 0]) ;;
  m ← netmask_v6 64;
  assert_eq m (of_segments [0xffff; 0xffff; 0xffff; 0xffff; 0; 0; 0; 0]) ;;
  m ← netmask_v6 128;
  assert_eq m (of_segments [0xffff; 0xffff; 0xffff; 0xffff; 0xffff; 0xffff; 0xffff; 0xffff]).

(** [size_of::<libc::sockaddr_in>()] is 16, [size_of::<libc::sockaddr_in6>()] 28. *)
Definition v4_sockaddr_embeds_address_at_sin_addr_offset : outcome unit :=
  let sockaddr := v4_sockaddr (ipv4 10 63 7 1) in
  assert_eq (sa_len sockaddr) 16 ;;
  assert_eq (sa_family sockaddr) AF_INET ;;
  first ← slice (sa_data sockaddr) 0 4;
  assert_eq first [10; 63; 7; 1].

Definition v6_sockaddr_embeds_address : outcome unit :=
  let addr := of_segments [0xfd00; 0x0ace; 7; 0; 0; 0; 0; 1] in
  let sockaddr := v6_sockaddr addr in
  assert_eq (sin6_len sockaddr) 28 ;;
  assert_eq (sin6_family sockaddr) AF_INET6 ;;
  assert_eq (s6_addr sockaddr) (octets (V6 addr)).

Definition macos_netcfg_tests : list (outcome unit) :=
  [ioctl_numbers_match_header_encodings; v4_netmasks; v6_netmasks;
   v4_sockaddr_embeds_address_at_sin_addr_offset; v6_sockaddr_embeds_address].
End MacosNetcfgTests.

(** ** [platform/windows] *)

Module WindowsTests.

Definition sockaddr_v4_roundtrips_family_and_address : outcome unit :=
  match WindowsNetcfg.sockaddr_inet_of (V4 (ipv4 10 6 7 1)) with
  | WindowsNetcfg.SockIpv4 family _ s_addr =>
    assert_eq family WindowsNetcfg.AF_INET ;;
    assert_eq s_addr (le_val [10; 6; 7; 1])
  | _ => Panic
  end.
Definition sockaddr_v6_roundtrips_family_and_address : outcome unit :=
  let addr := of_segments [0xfd00; 0xace; 7; 0; 0; 0; 0; 1] in
  match WindowsNetcfg.sockaddr_inet_of (V6 addr) with
  | WindowsNetcfg.SockIpv6 family _ _ bytes =>
    assert_eq family WindowsNetcfg.AF_INET6 ;;
    assert_eq bytes (octets (V6 addr))
  | _ => Panic
  end.

(** The backslash is written by its code. *)
Definition backslash : str := [92].
Definition extracts_file_name : outcome unit :=
  assert_eq (WindowsProcess.file_name
    (u "C:" ++ backslash ++ u "Program Files" ++ backslash ++ u "Google" ++ backslash ++ u "Chrome"
     ++ backslash ++ u "Application" ++ backslash ++ u "chrome.exe")) (u "chrome.exe") ;;
  assert_eq (WindowsProcess.file_name (u "/usr/bin/firefox")) (u "firefox") ;;
  assert_eq (WindowsProcess.file_name (u "notepad.exe")) (u "notepad.exe") ;;
  assert_eq (WindowsProcess.file_name (u "")) (u "").

Definition port_conversion_is_ntohs : outcome unit :=
  let net_le := le_val [0x01; 0xBB] in
  assert_eq (WindowsProcess.table_port_to_host net_le) 443 ;;
  let net_le := le_val [0x00; 0x50] in
  assert_eq (WindowsProcess.table_port_to_host net_le) 80.

Definition ipv4_key_matches_memory_order : outcome unit :=
  assert_eq (WindowsProcess.ipv4_table_key (ipv4 192 168 1 10)) (le_val [192; 168; 1; 10]).

(** [u32::is_power_of_two] *)
Definition is_power_of_two (n : Z) : bool := (0 <? n) && (n =? 2 ^ Z.log2 n).
(** The bounds are the ones [wintun.h] documents. *)
Definition WINTUN_MIN_RING_CAPACITY : Z := 0x20000.
Definition WINTUN_MAX_RING_CAPACITY : Z := 0x4000000.
Definition ring_capacity_is_a_valid_power_of_two : outcome unit :=
  assert (is_power_of_two Adapter.RING_CAPACITY) ;;
  assert (WINTUN_MIN_RING_CAPACITY <=? Adapter.RING_CAPACITY) ;;
  assert (Adapter.RING_CAPACITY <=? WINTUN_MAX_RING_CAPACITY).

Definition windows_tests : list (outcome unit) :=
  [sockaddr_v4_roundtrips_family_and_address; sockaddr_v6_roundtrips_family_and_address;
   extracts_file_name; port_conversion_is_ntohs; ipv4_key_matches_memory_order;
   ring_capacity_is_a_valid_power_of_two].
End WindowsTests.

(** ** [platform/linux/process.rs] *)

Module LinuxTests.

Definition parses_socket_symlink_targets : outcome unit :=
  assert_eq (LinuxProcess.socket_inode_of (u "socket:[123456]")) (Some 123456) ;;
  assert_eq (LinuxProcess.socket_inode_of (u "socket:[0]")) (Some 0) ;;
  assert_eq (LinuxProcess.socket_inode_of (u "/usr/bin/foo")) None ;;
  assert_eq (LinuxProcess.socket_inode_of (u "socket:[abc]")) None ;;
  assert_eq (LinuxProcess.socket_inode_of (u "")) None.

Definition wildcard_address_matches_family : outcome unit :=
  assert_eq (LinuxProcess.wildcard (V4 (ipv4 10 63 7 1))) (V4 0) ;;
  assert_eq (LinuxProcess.wildcard (V6 1)) (V6 0).

Definition linux_tests : list (outcome unit) :=
  [parses_socket_symlink_targets; wildcard_address_matches_family].
End LinuxTests.

(** ** [platform/macos/process.rs] *)

Module MacosProcessTests.
Import MacosProcess.
Local Open Scope Z_scope.

Definition XINPCB_RECORD_LEN : Z := 100.
Definition XSOCKET_RECORD_LEN : Z := 104.

(** [dst[from..from + src.len()].copy_from_slice(&src)] *)
Definition copy_from_slice (dst : list Z) (from : Z) (src : list Z) : outcome (list Z) :=
  slice dst from (from + zlen src) ;;
  mret (take (Z.to_nat from) dst ++ src ++ drop (Z.to_nat (from + zlen src)) dst).

(** [vec![0u8; n]] *)
Definition zeros (n : Z) : list Z := replicate (Z.to_nat n) 0.

(** An IPv4 address goes to the last four bytes of its slot. *)
Definition write_address (record : list Z) (offset : Z) (addr : list Z) (is_v6 : bool) : outcome (list Z) :=
  if is_v6 then copy_from_slice record offset addr
  else a ← slice addr 12 16; copy_from_slice record (offset + 12) a.

Definition record_pair (pid : Z) (local_addr : list Z) (local_port : Z) (foreign_addr : list Z)
    (foreign_port : Z) (is_v6 : bool) : outcome (list Z) :=
  inpcb ← copy_from_slice (zeros XINPCB_RECORD_LEN) 0 (le_bytes 4 XINPCB_RECORD_LEN);
  inpcb ← copy_from_slice inpcb 16 (be_bytes 2 foreign_port);
  inpcb ← copy_from_slice inpcb 18 (be_bytes 2 local_port);
  inpcb ← copy_from_slice inpcb 44 [if is_v6 then 0x2 else 0x1];
  inpcb ← write_address inpcb 48 foreign_addr is_v6;
  inpcb ← write_address inpcb 64 local_addr is_v6;
  socket ← copy_from_slice (zeros XSOCKET_RECORD_LEN) 0 (le_bytes 4 XSOCKET_RECORD_LEN);
  socket ← copy_from_slice socket 68 (le_bytes 4 pid);
  mret (inpcb ++ socket).

(** The header every test's table starts with. *)
Definition table_header : outcome (list Z) :=
  copy_from_slice (zeros XINGPEN_LEN) 0 (le_bytes 4 XINGPEN_LEN).

(** The addresses of the fixtures: an IPv4 one at the end of a 4-in-6 slot. *)
Definition v4_slot (a b c d : Z) : list Z := zeros 12 ++ [a; b; c; d].

Definition connected_v4_table : outcome (list Z) :=
  table ← table_header;
  records ← record_pair 4242 (v4_slot 10 63 7 1) 12345 (v4_slot 8 8 8 8) 443 false;
  mret (table ++ records).

(** The parser's answer; running out of fuel would be a failure. *)
Definition scanned (table : list Z) (local remote : SocketAddr) : outcome (option Z) :=
  match scan_pcblist table local remote with Some r => r | None => Panic end.

Definition connected_v4_socket_is_attributed : outcome unit :=
  table ← connected_v4_table;
  local ← sock "10.63.7.1:12345"; remote ← sock "8.8.8.8:443";
  pid ← scanned table local remote; assert_eq pid (Some 4242).

Definition connected_v6_socket_is_attributed : outcome unit :=
  let local_addr := [0xfd; 0; 0x0a; 0xce; 0; 7; 0; 0; 0; 0; 0; 0; 0; 0; 0; 1] in
  let foreign_addr := [0x20; 0x01; 0x48; 0x60; 0x48; 0x60; 0; 0; 0; 0; 0; 0; 0; 0; 0x88; 0x88] in
  table ← table_header;
  records ← record_pair 777 local_addr 443 foreign_addr 53 true;
  local ← sock "[fd00:ace:7::1]:443"; remote ← sock "[2001:4860:4860::8888]:53";
  pid ← scanned (table ++ records) local remote; assert_eq pid (Some 777).

Definition wrong_remote_does_not_match : outcome unit :=
  table ← connected_v4_table;
  local ← sock "10.63.7.1:12345"; remote ← sock "1.1.1.1:443";
  pid ← scanned table local remote; assert_eq pid None.

Definition accepted_child_beats_listener : outcome unit :=
  table ← table_header;
  listener ← record_pair 9001 (v4_slot 10 63 7 1) 8080 (zeros 16) 0 false;
  child ← record_pair 9002 (v4_slot 10 63 7 1) 8080 (v4_slot 9 9 9 9) 80 false;
  local ← sock "10.63.7.1:8080"; remote ← sock "9.9.9.9:80";
  pid ← scanned (table ++ listener ++ child) local remote; assert_eq pid (Some 9002).

Definition wildcard_bind_matches_by_port : outcome unit :=
  table ← table_header;
  records ← record_pair 31337 (zeros 16) 5353 (zeros 16) 0 false;
  local ← sock "10.1.2.3:5353"; remote ← sock "224.0.0.251:5353";
  pid ← scanned (table ++ records) local remote; assert_eq pid (Some 31337).

Definition family_mismatch_does_not_match : outcome unit :=
  table ← table_header;
  records ← record_pair 4242 (v4_slot 10 63 7 1) 12345 (v4_slot 8 8 8 8) 443 false;
  local ← sock "[fd00:ace:7::1]:12345"; remote ← sock "[2001:4860:4860::8888]:443";
  pid ← scanned (table ++ records) local remote; assert_eq pid None.

Definition ownerless_socket_is_not_attributed : outcome unit :=
  table ← table_header;
  records ← record_pair 0 (zeros 16) 9999 (zeros 16) 0 false;
  local ← sock "10.0.0.1:9999"; remote ← sock "10.0.0.2:9999";
  pid ← scanned (table ++ records) local remote; assert_eq pid None.

Definition malformed_tables_do_not_panic : outcome unit :=
  local ← sock "10.0.0.1:9999"; remote ← sock "10.0.0.2:9999";
  pid ← scanned [] local remote; assert_eq pid None ;;
  pid ← scanned (zeros XINGPEN_LEN) local remote; assert_eq pid None ;;
  header ← copy_from_slice (zeros XINGPEN_LEN) 0 (le_bytes 4 (2 ^ 32 - 1));
  pid ← scanned header local remote; assert_eq pid None ;;
  table ← connected_v4_table;
  pid ← scanned (take (length table - 20) table) local remote; assert_eq pid None.

Definition byte_order_helpers : outcome unit :=
  assert_eq (read_u32_le (le_bytes 4 42) 0) (Some 42) ;;
  assert_eq (read_u16_be (be_bytes 2 443) 0) (Some 443) ;;
  assert_eq (read_i32_le (le_bytes 4 ((-5) mod 2 ^ 32)) 0) (Some (-5)) ;;
  assert_eq (read_u32_le [1; 2] 0) None.

(** All but [wrong_remote_does_not_match]: [wrong_remote_is_attributed] below. *)
Definition macos_process_tests : list (outcome unit) :=
  [connected_v4_socket_is_attributed;
   connected_v6_socket_is_attributed;
   accepted_child_beats_listener;
   wildcard_bind_matches_by_port;
   family_mismatch_does_not_match;
   ownerless_socket_is_not_attributed;
   malformed_tables_do_not_panic;
   byte_order_helpers].
End MacosProcessTests.

(** ** They pass *)

(** The tests whose parameters are answers of the system. *)
Definition answered_tests (listening any_os : dial_os) (listener_port : Z)
    (if_indextoname : Z → result io_error (list Z)) (bad_fd : option io_error) : list (outcome unit) :=
  [DialTests.unpinned_dial_still_connects listening listener_port;
   DialTests.bogus_interface_index_does_not_panic any_os;
   PinTests.linux_loopback_destinations_are_not_pinned if_indextoname bad_fd;
   PinTests.bogus_interface_index_is_an_error if_indextoname bad_fd;
   PinTests.macos_loopback_destinations_are_not_pinned bad_fd].

Definition constant_tests : list (outcome unit) :=
  PlatformTests.platform_tests ++ PinTests.windows_pin_tests ++ MacosNetcfgTests.macos_netcfg_tests
  ++ WindowsTests.windows_tests ++ LinuxTests.linux_tests ++ MacosProcessTests.macos_process_tests.

Lemma answered_tests_pass listening any_os listener_port if_indextoname bad_fd :
  os_new listening = None → os_connect listening = Ready tt →
  if_indextoname 0xDEAD = Err PinTests.ENXIO →
  Forall passes (answered_tests listening any_os listener_port if_indextoname bad_fd).
Proof.
  intros Hnew Hconn Hname. repeat (apply Forall_cons_2; [|]); [..|by apply Forall_nil_2].
  - unfold passes, DialTests.unpinned_dial_still_connects, dial_tcp. rewrite Hnew, Hconn.
    cbn. unfold assert_eq. by rewrite bool_decide_eq_true_2.
  - unfold passes, DialTests.bogus_interface_index_does_not_panic.
    assert (sock "127.0.0.1:9" = Done (SockAddr (V4 (ipv4 127 0 0 1)) 9)) as -> by (vm_compute; exact eq_refl).
    cbn [mbind outcome_bind]. by destruct (dial_tcp any_os _ _).
  - vm_compute. exact eq_refl.
  - unfold passes, PinTests.bogus_interface_index_is_an_error, Pin.LinuxPin.pin_socket.
    assert (is_loopback (V4 (ipv4 8 8 8 8)) = false) as -> by (vm_compute; exact eq_refl).
    rewrite Hname. vm_compute. exact eq_refl.
  - vm_compute. exact eq_refl.
Qed.

Lemma constant_tests_pass : Forall passes constant_tests.
Proof.
  apply Forall_forall. intros t Ht.
  assert (bool_decide (Forall passes constant_tests) = true) as H%bool_decide_eq_true
    by (vm_compute; exact eq_refl).
  rewrite Forall_forall in H. by apply H.
Qed.

Lemma engine_tests_pass `{RegexEngine} pid : Forall passes (EngineTests.engine_tests pid).
Proof.
  unfold EngineTests.engine_tests.
  repeat (apply Forall_cons_2; [vm_compute; exact eq_refl|]). by apply Forall_nil_2.
Qed.

Lemma discovery_passes {K} `{MacosRoute.BsdKernel K} (k : K) :
  passes (PlatformTests.discover_physical_interface_is_infallible k).
Proof.
  unfold PlatformTests.discover_physical_interface_is_infallible, MacosRoute.discover_physical_interface.
  destruct (MacosRoute.best_route_index (V4 MacosRoute.V4_PROBE) k) as [v4 k1] eqn:E.
  destruct (MacosRoute.best_route_index (V6 MacosRoute.V6_PROBE) k1) as [v6 k2].
  cbn [fst v4_index]. destruct v4 as [i|]; [|done].
  unfold MacosRoute.best_route_index in E. destruct (MacosRoute.bk_route _ k) as [ran k']. simplify_eq.
  apply assert_passes, bool_decide_eq_true_2. intros ->.
  unfold MacosNetcfg.best_route_index in *. repeat (case_match || simplify_option_eq); lia.
Qed.

(** The test that fails: the socket of the table is connected to 8.8.8.8:443, and
    the flow to 1.1.1.1:443 is attributed to it all the same
    ([MacosProcess.remote_never_excludes]). *)
Example wrong_remote_is_attributed : MacosProcessTests.wrong_remote_does_not_match = Panic.
Proof. vm_compute. exact eq_refl. Qed.
