(* ===== verification/Suite.v ===== *)
(** * The crate's unit tests, together

    The tests of [src/] over one machine that runs them: the parameters of the
    tests of each file, and what the tests rely on of them.  Nine are not among them.
    [wrong_remote_does_not_match] (macOS) fails on the model
    ([SystemTests.wrong_remote_is_attributed]).  [bound_if_option_numbers] and
    [ioctl_struct_sizes] (macOS) and [luid_conversion_preserves_value] (Windows)
    compare constants and layouts of C libraries.
    [resolves_own_process_for_live_sockets] (Linux), [resolve_pid_for_live_sockets],
    [resolve_own_process_smoke], [elevation_check_does_not_panic] and
    [vendored_wintun_dll_loads] (Windows) probe the machine they run on. *)

From S2P Require Export RuleTests NetstackTests DnsTests ProxyTests SystemTests.
Local Open Scope Z_scope.

(** What the runner's machine supplies: the process id; the times of the two
    tests with a clock; the seed of the random messages; the pieces its loopback network cuts streams into; the
    answers to the two dials; the interface names, what a bad descriptor gives,
    and the macOS kernel. *)
Record runner (K : Type) : Type := MkRunner {
  ru_pid : Z;
  ru_snooped : nat → Z; ru_hit : Z; ru_miss : Z;
  ru_stored : Z; ru_looked_up : Z;
  ru_seed : Z;
  ru_net : network;
  ru_listening : dial_os; ru_listener_port : Z; ru_unbound : dial_os;
  ru_if_indextoname : Z → result io_error (list Z); ru_bad_fd : option io_error;
  ru_kernel : K
}.
Arguments MkRunner {K}. Arguments ru_pid {K}. Arguments ru_snooped {K}. Arguments ru_hit {K}.
Arguments ru_miss {K}. Arguments ru_stored {K}. Arguments ru_looked_up {K}. Arguments ru_seed {K}. Arguments ru_net {K}.
Arguments ru_listening {K}. Arguments ru_listener_port {K}. Arguments ru_unbound {K}.
Arguments ru_if_indextoname {K}. Arguments ru_bad_fd {K}. Arguments ru_kernel {K}.

(** The runner's id is none of those the tests give to other processes; its clock
    runs forward, by less than five minutes within a test, and is not at its end;
    the listener accepts; no interface has the index 0xDEAD. *)
Record runner_ok {K} (r : runner K) : Prop := {
  ro_pid : ru_pid r ∉ other_processes;
  ro_hit : ru_hit r < ru_snooped r 0 + DNS_CACHE_TTL < INSTANT_END;
  ro_clock : ru_stored r ≤ ru_looked_up r < INSTANT_END;
  ro_socket : os_new (ru_listening r) = None;
  ro_accepts : os_connect (ru_listening r) = Ready tt;
  ro_index : ru_if_indextoname r 0xDEAD = Err PinTests.ENXIO
}.

Section Suite.
Context `{RegexEngine} {K : Type} `{MacosRoute.BsdKernel K} (r : runner K).

Definition unit_tests : list (outcome unit) :=
  rule_tests
  ++ netstack_tests (ru_pid r)
  ++ dns_tests
  ++ [snoop_populates_cache (ru_snooped r) (ru_hit r) (ru_miss r); ttl_expiry (ru_stored r) (ru_looked_up r);
      fuzz_loop 1000 (ru_seed r)]
  ++ builder_tests ++ integration_tests (ru_net r)
  ++ EngineTests.engine_tests (ru_pid r)
  ++ constant_tests
  ++ answered_tests (ru_listening r) (ru_unbound r) (ru_listener_port r) (ru_if_indextoname r) (ru_bad_fd r)
  ++ [PlatformTests.discover_physical_interface_is_infallible (ru_kernel r)].
End Suite.

(** The model passes the crate's own tests, on every machine that could run
    them: whatever regular-expression implementation satisfies the laws, whatever
    the runner's process id (if it is none of those the tests give to others), its
    clock, the seed of the random messages, the pieces its network cuts the proxies' bytes into, the answers of its
    sockets, and the state of its kernel.  The tests are the rule engine's, the
    dispatcher's, the DNS parser's and cache's, the proxy clients' against their
    mock servers, the builder's and the engine's, and those of the platform
    modules, but for the nine named at the top of this file. *)
Theorem unit_tests_pass `{GlobLaws} {K} `{MacosRoute.BsdKernel K} (r : runner K) :
  runner_ok r → Forall passes (unit_tests r).
Proof.
  intros []. destruct dns_tests_pass as (? & ? & ? & ?). destruct (proxy_tests_pass (ru_net r)).
  unfold unit_tests. rewrite !Forall_app. split_and!; try done.
  - apply rule_tests_pass.
  - by apply netstack_tests_pass.
  - repeat constructor; auto.
  - apply engine_tests_pass.
  - apply constant_tests_pass.
  - by apply answered_tests_pass.
  - constructor; [apply discovery_passes|constructor].
Qed.

Definition laptop : runner (gset Routing.Route) :=
  MkRunner 4242 (λ _, 0) 5 6 0 1 0xDEADBEEF whole (MkDialOs None None None (Ready tt)) 50000
    (MkDialOs None (Some PinTests.ENXIO) None (Failed (IoError Other "connection refused")))
    (λ _, Err PinTests.ENXIO) (Some (IoError Other "bad file descriptor")) Adapter.home.

Lemma unit_tests_pass_witness :
  Forall passes (unit_tests (H:=NfaRegex.engine) (H0:=MacosRoute.ConcreteBsd.macos) laptop).
Proof.
  apply (@unit_tests_pass NfaRegex.engine nfa_laws _ MacosRoute.ConcreteBsd.macos laptop).
  split; try reflexivity; apply (bool_decide_unpack _); vm_compute; exact I.
Defined.
